(* ===== verification/_CoqProject ===== *)
-Q . S2P
Prelude.v
CList.v
ListTheorems.v
RbTree.v
RbSpec.v
RbRefine.v
RbDelete.v
RbIter.v
RbTheorems.v
Cpu.v
Atomic.v
Cp0.v
Mips.v
MipsTheorems.v
MipsExc.v
MipsSample.v
Entry.v
Bytes.v
Bitmap.v
Print.v
PrintTheorems.v
Printk.v
ExampleProgram.v
Malloc.v
MallocRep.v
MallocScan.v
MallocInv.v
MallocAlloc.v
MallocTop.v
MallocFree.v
MallocSafe.v
MallocTheorems.v
KHeap.v
KTime.v
Tlb.v
TlbTheorems.v
Kernel.v
Sched.v
Vmm.v
PageTable.v
Threads.v
Timers.v
Exc.v
SchedExec.v
VmmTheorems.v
VmmMap.v
ExcTheorems.v
Paging.v
SchedSpec.v
SchedRefine.v
SchedOps.v
KernelSample.v
ThreadCreate.v
TimerSpec.v
TimerTheorems.v
Syscall.v
VmSample.v
Dorder.v
Kbd.v
Process.v
Typing.v
Main.v
Boot.v
MainTheorems.v
Handshake.v
Join.v
System.v
SystemTheorems.v
SysSample.v
Synch.v
SynchTheorems.v
Safety.v
Layout.v
ProcessTheorems.v
ProcStubTheorems.v
ProcessRun.v
SysThread.v
SchedTheorems.v
LibRt.v
LibRtTheorems.v
