(* ===== verification/Prelude.v ===== *)
(** * Kalisto: a verification library

    Kalisto is a small educational operating system for the MIPS R4000 (as simulated by
    MSIM).  This library models its kernel function by function, from the C and assembler
    sources under [src/kernel/], with the run-time library of [src/user/librt/], and proves
    that the functions do what they are for.

    ** The kernel and the files of the library

    - _Data structures._  [adt/list.h]: circular lists with embedded links, in [CList]
      (code and lemmas) and [ListTheorems].  [adt/rbtree.h], [adt/rbtree.c]: red-black trees;
      [RbTree] is the code, [RbSpec] the algorithm on pure trees and zippers, [RbRefine],
      [RbDelete], [RbIter] the simulation, [RbTheorems] the properties.  [adt/atomic.h]:
      [Atomic], LL/SC loops on a machine that interleaves processors.  [adt/bitmap.h]:
      [Bitmap].
    - _Machine._  [include/c.h] and [include/shared.h]: [Cpu] (alignment, address segments,
      the interrupt enable bit) and [Cp0] (the fields of the coprocessor registers).
      [include/asm.h] and [head.S]: [Mips] (instructions, macros, handlers), [MipsTheorems],
      [MipsExc] and, for the witnesses, [MipsSample]; [Entry] is the start-up, the code at the
      hardwired addresses and [boot/loader.S], with the access of C code to the registers of
      the coprocessor and to the simulator.  [Layout]: the layout of the C structures and
      [include/gen_offset.c], which hands the offsets to the assembler code.
    - _Output._  [lib/string.c]: [Bytes].  [lib/print.c], [drivers/printer.h]: [Print],
      [PrintTheorems] (numbers) and [Printk] (formats); [ExampleProgram] is what the threads
      of [example.c] print.
    - _Memory._  [mm/malloc.c]: [Malloc] is the code over a memory of cells; [MallocRep],
      [MallocScan], [MallocInv], [MallocAlloc], [MallocTop], [MallocFree] and
      [MallocSafe] the invariant and the simulation, [MallocTheorems] the properties.
      [KHeap] is the interface behind which the rest of the kernel uses it.  [mm/tlb.c]:
      [Tlb], [TlbTheorems].  [mm/vmm.c]: [Vmm] (code), [PageTable] (its meaning),
      [VmmTheorems], [VmmMap].
    - _Threads and time._  [Kernel] is the state of the kernel, the record of all control
      structures.  [sched/sched.c], [drivers/timer.h]: [Sched].  [proc/thread.c]: [Threads].
      [time/time.h]: [KTime].  [time/timer.c], [thread_sleep] and the resumption of suspended
      functions: [Timers].  [SchedExec], [SchedSpec] (the abstract scheduler), [SchedRefine],
      [SchedOps] and [SchedTheorems] are about scheduling, [ThreadCreate] about the creation
      of threads, [Process] and [ProcessTheorems] ([proc/process.c]) about that of processes,
      [TimerSpec] and [TimerTheorems] about timers, [Join] about [thread_join];
      [KernelSample] is the concrete kernel of the witnesses.
    - _The whole kernel._  [Typing] gives every block of the heap a type.  [main.c]: [Main] is
      the code, [Boot] and [MainTheorems] are about [bsp_start], [Handshake] about the order in
      which the processors start.  [System] and [SystemTheorems] state the invariant of the
      running kernel, all components together, and prove it for any sequence of calls;
      [Safety] joins this to the start-up.  [SysSample] is a kernel in allocated memory.
    - _Exceptions._  The handlers of [tlb.c] and [exc/exc.c], [exc/int.c], [exc/syscall.c]:
      [Exc], [ExcTheorems]; [Syscall] puts them together with the assembler code of [Mips].
      [VmSample] holds witnesses.
    - _User space._  [Paging]: memory accesses through the TLB, with the exceptions they raise.
      [process_stub] of [proc/process.c], which loads a process and leaves the kernel, is in
      [Process], and [ProcStubTheorems] is about it; [ProcessRun] follows a process from its
      creation through the run queue to user mode.  [proc/sys_thread.c] and the table of system
      calls: [SysThread].  [user/librt/]: [LibRt] and [LibRtTheorems].
    - _Devices._  [drivers/dorder.c]: [Dorder].  [drivers/kbd.c]: [Kbd].
    - _Synchronisation._  [synch/]: [Synch] and [SynchTheorems].

    ** How the code is modelled

    A C function is a definition of the same name in the state and failure monad [KM] below.
    An [assert] or [panic] is the outcome [Panic]; an access through an address that holds
    no object is [Fault].  Integers are [Z], in the range of their C type, and every
    operation that can leave it is wrapped ([wrap] for 32 bits) as the compiled code does.
    Loops that are not structural recursions have a fuel parameter, and [NoFuel] is the
    outcome when it is used up; the theorems give a sufficient bound and with it
    termination: logarithmic in the size for the trees ([rb_depth]), the number of blocks
    and heaps for [malloc] ([mm_fuel]), the number of links for loops over lists, the length of
    the string for output, the number of messages for [dorder_handle], that of bytes for
    [memcpy].

    Memory is typed: the heap structures are cells in the memory of [malloc.c], and the control
    structures of the kernel are records in stores indexed by address, which exist from
    [malloc] to [free].  Links are typed words at a fixed offset of the structure they are in,
    so that lists run through the structures of other components; the list operations are
    written over any such memory ([LinkMem]).

    Functions that give up the processor in the middle ([schedule], [thread_suspend],
    [thread_join], ...) are cut there: they push a frame that says what is left to do, and the
    context switch exchanges the stacks of frames ([k_stack]) of the two threads.  [resume]
    runs the innermost frame.  That the assembler code of the switch does this with registers
    and stacks is [context_switch_transparent].

    ** Interfaces

    [LinkMem] (memory with links), [ByteMemory] (memory with bytes), [CpuState] (state with a Status register), [TlbState] (state
    with a TLB), [FrameAllocator] (what [falloc.h] documents; the allocator itself is an
    object file) and [KernelHeap] (what [malloc.h] and [falloc.h] promise), each with its laws as
    a second class.  The allocator is proved to implement [KernelHeap] for every frame
    allocator; scheduling, threads, timers and memory maps are proved for every [KernelHeap].

    What may fail for lack of memory says so exactly.  The [request]s of a function
    ([thread_requests], [boot_requests], [process_requests], [stub_requests], [run_requests])
    are what it asks of the heap and of the frame allocator, in order; its theorem says that it
    fails when they are [refused] and has its effect when they are [granted], and admits no
    other failure.  For the allocator of [malloc.c], [serve_all] computes from the heaps and
    the free frames whether they are: the start-up theorems are stated with it, and the
    witnesses use it to show the case without failure.

    ** What is proved

    - Lists, trees, heap: every operation refines the operation on the abstract value (a
      sequence, a sorted sequence with the red-black invariant, a list of heaps tiled by
      blocks with first fit and coalescing), is memory safe and terminates; the asserts of
      the heap never fail on a well-formed heap and catch double frees and bad addresses.
    - Atomic operations are linearizable, also when processors repeat them, and lock-free: the
      processors together make progress.  A single processor may starve ([atomic_may_starve]).
    - The context switch, the exception handlers and the system call return to the code they
      interrupted with its registers.
    - [number] is correct against a specification of digits, and [printk] prints the expansion
      of its format.
    - The scheduler is round robin; blocking, waking, finishing, creating and sleeping are the
      operations of an abstract scheduler, and the processor is handed over as told by
      [handed_over].  [thread_create] and [process_create] fail only when a request for memory
      is refused, and then give everything back.  The timer thread wakes every thread whose
      time has passed.
    - The TLB holds nothing but translations of the page tables: mapping, unmapping and the
      exception handlers keep that, and the handlers load the page that is missing.
      [vma_map] reports each kind of error with its code, and changes nothing then.
    - A process that has been created gets the processor in its turn, whatever the threads
      before it do, and then, unless the frames of its image and stack are refused, runs in user
      mode, with exactly its own pages mapped, and reads the bytes of its image there, however its accesses hit or miss the TLB; when its
      [main] returns, the value is that of the process, and the thread that joins it goes on.
      A user thread of it starts on a page of its own.
    - The ring of messages is first in, first out up to 128 messages, and what happens beyond;
      the ring of the keyboard is a bounded queue, whose handler wakes up no one and whose [getc]
      does not wait, unlike the comments say.  A bit map is a set of numbers below its size.
    - Each processor enters the kernel with the stack of its own, the first one in [bsp_start],
      the others in [ap_start]; the offsets that the assembler code uses are those of the C
      structures, and the members of a structure do not overlap.
    - [bsp_start] establishes the invariants of all components if first fit can serve the nine
      blocks of the first three threads from the frames that are free, and panics if not
      ([boot_served]).  From there on no
      allowed call ([allowed]: what the callers have to observe) panics, faults or runs
      for ever, whatever came before it.  Application processors start one after the other.
    - Recursive mutexes and the writers' side of read/write locks, as far as they are written.

    Every property with hypotheses has a witness, a lemma that applies it to concrete values.

    ** Not modelled

    - Exercise skeletons ([synch/], [proc/sys_thread.c], [drivers/kbd.c], [drivers/disk.c],
      [user/librt/]) are modelled as they are, without the code that their TODO comments ask
      for.  [proc/sys_thread.c] does not compile against the headers: [adt/plist.h] and two
      members of [struct process] are missing, and are parameters of [SysThread].
    - [mm/falloc], the functions of [adt/bitmap.h] that are not inline, the semaphores and the
      mutexes that are linked into the kernel are object files.
    - The tests; the main function of [example.c], calls of modelled functions; the messages of
      [main.c]; the entry code of user programs in assembler; what the application processors
      do after [ap_start] has released the next one, because the scheduler is modelled for one
      processor at a time.  The D bit of the TLB, which the kernel always sets.
    - The C compiler: the compiled form of the C handlers is a parameter of [Syscall] and
      [MipsExc].  Interrupts are not interleaved with other code: the handlers are
      functions of their own, and the theorems on a function are about a run of it that is
      not interrupted. *)

From stdpp Require Export prelude list numbers gmap.
From Stdlib Require Export ZArith Lia.

#[global] Open Scope Z_scope.

(** ** Outcomes of kernel code

    A kernel routine either returns, or trips an [assert]/[panic] (which halts
    the machine), or dereferences an address that holds no object.  [NoFuel]
    is the outcome of a bounded loop that was cut short; every loop of the
    development has a theorem that excludes it for enough fuel. *)
Inductive outcome (A : Type) : Type :=
  | Ok (a : A)
  | Panic
  | Fault
  | NoFuel.
Arguments Ok {A} _.
Arguments Panic {A}.
Arguments Fault {A}.
Arguments NoFuel {A}.

(** The state-and-failure monad of kernel code over a state [S]. *)
Definition KM (S A : Type) : Type := S → outcome (A * S).

#[global] Instance KM_ret (S : Type) : MRet (KM S) := λ A a s, Ok (a, s).
#[global] Instance KM_bind (S : Type) : MBind (KM S) := λ A B f m s,
  match m s with
  | Ok (a, s') => f a s'
  | Panic => Panic
  | Fault => Fault
  | NoFuel => NoFuel
  end.

(** [assert (c)] and [panic (...)]: the debug build halts the machine. *)
Definition kpanic {S A : Type} : KM S A := λ _, Panic.
Definition kassert {S : Type} (c : bool) : KM S unit :=
  λ s, if c then Ok (tt, s) else Panic.
Definition kget {S : Type} : KM S S := λ s, Ok (s, s).
Definition kput {S : Type} (s' : S) : KM S unit := λ _, Ok (tt, s').
Definition kmodify {S : Type} (f : S → S) : KM S unit := λ s, Ok (tt, f s).
(** Running out of loop fuel. *)
Definition knofuel {S A : Type} : KM S A := λ _, NoFuel.
(** A load that may hit an address without an object. *)
Definition kload {S A : Type} (f : S → option A) : KM S A :=
  λ s, match f s with Some a => Ok (a, s) | None => Fault end.

(** ** Symbolic execution

    The monad laws as rewriting lemmas on applied programs. *)
Section monad_laws.
Context {S : Type}.

Lemma bind_ok {A B} (m : KM S A) (f : A → KM S B) s a s' :
    m s = Ok (a, s') → (m ≫= f) s = f a s'.
Proof. intros H. unfold mbind, KM_bind. by rewrite H. Qed.

Lemma bind_panic {A B} (m : KM S A) (f : A → KM S B) s :
    m s = Panic → (m ≫= f) s = Panic.
Proof. intros H. unfold mbind, KM_bind. by rewrite H. Qed.

Lemma bind_ret {A B} (a : A) (f : A → KM S B) s : (mret a ≫= f) s = f a s.
Proof. done. Qed.

Lemma bind_assoc {A B C} (m : KM S A) (f : A → KM S B) (g : B → KM S C) s :
    ((m ≫= f) ≫= g) s = (m ≫= (λ a, f a ≫= g)) s.
Proof. unfold mbind, KM_bind. by destruct (m s) as [[]| | |]. Qed.

Lemma bind_inv {A B} (m : KM S A) (f : A → KM S B) s r :
    (m ≫= f) s = Ok r → ∃ a s', m s = Ok (a, s') ∧ f a s' = Ok r.
Proof.
    unfold mbind, KM_bind. destruct (m s) as [[a s']| | |]; try done. eauto.
Qed.

Lemma assert_true (c : bool) (s : S) : c = true → kassert c s = Ok (tt, s).
Proof. by intros ->. Qed.

Lemma load_some {A} (f : S → option A) s a : f s = Some a → kload f s = Ok (a, s).
Proof. intros H. unfold kload. by rewrite H. Qed.
End monad_laws.

(** ** Fuel monotonicity

    [ok_le m m']: whatever [m] returns, [m'] returns too. *)
Definition ok_le {S A : Type} (m m' : KM S A) : Prop := ∀ s r, m s = Ok r → m' s = Ok r.

Lemma ok_le_refl {S A} (m : KM S A) : ok_le m m.
Proof. by intros s r. Qed.

Lemma ok_le_bind {S A B} (m m' : KM S A) (f f' : A → KM S B) :
  ok_le m m' → (∀ a, ok_le (f a) (f' a)) → ok_le (m ≫= f) (m' ≫= f').
Proof.
  intros Hm Hf s r (a & s' & Ha & Hb)%bind_inv. erewrite bind_ok by (by apply Hm).
  by apply Hf.
Qed.

Lemma ok_le_nofuel {S A} (m : KM S A) : ok_le knofuel m.
Proof. by intros s r. Qed.

Create HintDb fuel.
#[export] Hint Resolve ok_le_refl ok_le_bind ok_le_nofuel : fuel.

(** ** 32-bit words

    [unsigned int], [size_t], [uintptr_t] and [unative_t] are all 32 bits wide
    on this target; a value of such a type is an integer in [0, 2^32). *)
Definition word_max : Z := 2 ^ 32.
Definition wrap (x : Z) : Z := x mod word_max.
Definition u32 (x : Z) : Prop := 0 ≤ x < word_max.

Lemma word_max_eq : word_max = 4294967296.
Proof. reflexivity. Qed.

Lemma wrap_range x : u32 (wrap x).
Proof. apply Z.mod_pos_bound. reflexivity. Qed.

Lemma wrap_small x : u32 x → wrap x = x.
Proof. apply Z.mod_small. Qed.

Lemma wrap_wrap x : wrap (wrap x) = wrap x.
Proof. apply wrap_small, wrap_range. Qed.

Lemma wrap_add_l x y : wrap (wrap x + y) = wrap (x + y).
Proof. unfold wrap. by rewrite Zplus_mod_idemp_l. Qed.

Lemma wrap_add_r x y : wrap (x + wrap y) = wrap (x + y).
Proof. unfold wrap. by rewrite Zplus_mod_idemp_r. Qed.

Lemma wrap_add_overflow x : word_max ≤ x < 2 * word_max → wrap x = x - word_max.
Proof.
  intros H. unfold wrap. rewrite <- (Z.mod_small (x - word_max) word_max) by lia.
  replace x with ((x - word_max) + 1 * word_max) at 1 by lia.
  apply Z_mod_plus_full.
Qed.

Lemma wrap_sub_underflow x : - word_max ≤ x < 0 → wrap x = x + word_max.
Proof.
  intros H. unfold wrap. rewrite <- (Z.mod_small (x + word_max) word_max) by lia.
  replace (x + word_max) with (x + 1 * word_max) by lia.
  by rewrite Z_mod_plus_full.
Qed.

(** Arithmetic side conditions mention [word_max] and the address constants:
    [word_lia] exposes the number before calling [lia]. *)
Ltac word_lia := unfold u32 in *; rewrite ?word_max_eq in *; lia.

Create Rewrite HintDb word.
#[global] Hint Rewrite wrap_wrap wrap_add_l wrap_add_r : word.

(** ** Lists without repetition, by counting

    [occ x l] counts the occurrences of [x]; disjointness facts about
    concatenations become linear arithmetic ([uniq_tac]). *)
Fixpoint occ (x : Z) (l : list Z) : nat :=
  match l with
  | [] => 0
  | y :: l => (if decide (x = y) then 1 else 0) + occ x l
  end.

Definition uniq (l : list Z) : Prop := ∀ x, (occ x l ≤ 1)%nat.

Lemma occ_app x l1 l2 : occ x (l1 ++ l2) = (occ x l1 + occ x l2)%nat.
Proof. induction l1 as [|y l1 IH]; cbn; [done|]. rewrite IH. lia. Qed.

Lemma occ_cons x y l : occ x (y :: l) = ((if decide (x = y) then 1 else 0) + occ x l)%nat.
Proof. done. Qed.

Lemma elem_of_occ x l : x ∈ l ↔ (1 ≤ occ x l)%nat.
Proof.
  induction l as [|y l IH]; cbn.
  - split; [by intros ?%elem_of_nil|lia].
  - rewrite elem_of_cons, IH. case_decide; intuition lia.
Qed.

Lemma not_elem_of_occ x l : x ∉ l ↔ occ x l = 0%nat.
Proof. rewrite elem_of_occ. lia. Qed.

Lemma uniq_NoDup l : uniq l ↔ NoDup l.
Proof.
  split.
  - induction l as [|y l IH]; intros Hu; constructor.
    + specialize (Hu y). cbn in Hu. rewrite decide_True in Hu by done.
      apply not_elem_of_occ. lia.
    + apply IH. intros x. specialize (Hu x). cbn in Hu. lia.
  - induction 1 as [|y l Hy Hnd IH]; intros x; cbn; [lia|].
    apply not_elem_of_occ in Hy. specialize (IH x). case_decide; subst; lia.
Qed.

(** Refutes a membership or an equality of addresses from one [uniq] fact. *)
Ltac uniq_occ z H :=
  let H' := fresh in
  pose proof (H z) as H'; cbn [app] in H';
  repeat rewrite ?occ_app, ?occ_cons in H';
  repeat rewrite (decide_True (P := z = z)) in H' by reflexivity.

Ltac uniq_tac :=
  intros;
  try match goal with
      | |- ?x ≠ ?y => intros ->
      | |- ?x ∉ ?l => intros ?
      end;
  repeat match goal with
         | H : _ ∈ _ ++ _ |- _ => apply elem_of_app in H as [H|H]
         | H : _ ∈ _ :: _ |- _ => apply elem_of_cons in H as [H|H]; [subst|]
         | H : _ ∈ [] |- _ => by apply elem_of_nil in H
         end;
  exfalso;
  match goal with
  | Hu : uniq _ |- False =>
    match goal with
    | H : ?z ∈ _ |- False =>
        uniq_occ z Hu; repeat match goal with G : z ∈ _ |- _ => apply elem_of_occ in G end;
        repeat case_decide; lia
    | _ => match type of Hu with context [?z :: _] =>
             uniq_occ z Hu; repeat case_decide; lia end
    end
  end.
