(* ===== verification/CList.v ===== *)
(** * Circular doubly linked lists ([kernel/adt/list.h])

    The list operations of the kernel, over any memory that holds links
    (typeclass [LinkMem]).  [is_list m h xs] says that the list head at address
    [h] links exactly the nodes [xs], in this order.  Each operation is proved
    to never fault on a well-formed list, to implement the corresponding
    operation on the abstract list, and to write only to the links of the list
    and of its argument ([writes]). *)
From S2P Require Import Prelude.

Definition NULL : Z := 0.

(** ** The memory that holds the links

    [ld_prev m p] is the field [prev] of the [link_t] at [p] ([None] when there
    is no link at [p]).  Two links at [p] and [q] occupy different storage when
    [lsep p q]. *)
Class LinkMem (M : Type) := {
  ld_prev : M → Z → option Z;
  ld_next : M → Z → option Z;
  st_prev : Z → Z → M → M;
  st_next : Z → Z → M → M;
  lsep : Z → Z → Prop;
}.

Definition mapped {M} `{LinkMem M} (m : M) (p : Z) : Prop :=
  is_Some (ld_prev m p) ∧ is_Some (ld_next m p).

Class LinkMemLaws (M : Type) `{LinkMem M} := {
  lsep_sym p q : lsep p q → lsep q p;
  lsep_ne p q : lsep p q → p ≠ q;
  ld_prev_st_prev m p v : is_Some (ld_prev m p) → ld_prev (st_prev p v m) p = Some v;
  ld_next_st_next m p v : is_Some (ld_next m p) → ld_next (st_next p v m) p = Some v;
  ld_next_st_prev m p v : ld_next (st_prev p v m) p = ld_next m p;
  ld_prev_st_next m p v : ld_prev (st_next p v m) p = ld_prev m p;
  ld_prev_st_prev_sep m p q v : lsep p q → ld_prev (st_prev p v m) q = ld_prev m q;
  ld_next_st_prev_sep m p q v : lsep p q → ld_next (st_prev p v m) q = ld_next m q;
  ld_prev_st_next_sep m p q v : lsep p q → ld_prev (st_next p v m) q = ld_prev m q;
  ld_next_st_next_sep m p q v : lsep p q → ld_next (st_next p v m) q = ld_next m q;
}.

(** ** The operations, as in [list.h] *)
Section operations.
  Context {M : Type} `{LinkMem M}.

Definition rd_prev (p : Z) : KM M Z := kload (λ m, ld_prev m p).
Definition rd_next (p : Z) : KM M Z := kload (λ m, ld_next m p).
Definition wr_prev (p v : Z) : KM M unit :=
  rd_prev p ≫= λ _, kmodify (st_prev p v).
Definition wr_next (p v : Z) : KM M unit :=
  rd_next p ≫= λ _, kmodify (st_next p v).

Definition link_init (link : Z) : KM M unit :=
  kassert (bool_decide (link ≠ NULL)) ;;
  wr_prev link NULL ;;
  wr_next link NULL.

Definition list_init (list : Z) : KM M unit :=
  kassert (bool_decide (list ≠ NULL)) ;;
  wr_prev list list ;;
  wr_next list list.

(** [&&] reads [next] only when [prev] is not [NULL]. *)
Definition link_connected (link : Z) : KM M bool :=
  kassert (bool_decide (link ≠ NULL)) ;;
  prev ← rd_prev link;
  if bool_decide (prev ≠ NULL)
  then next ← rd_next link; mret (bool_decide (next ≠ NULL))
  else mret false.

Definition list_empty (list : Z) : KM M bool :=
  kassert (bool_decide (list ≠ NULL)) ;;
  next ← rd_next list;
  mret (bool_decide (next = list)).

Definition list_prepend (list link : Z) : KM M unit :=
  kassert (bool_decide (list ≠ NULL)) ;;
  kassert (bool_decide (link ≠ NULL)) ;;
  head_next ← rd_next list;
  wr_next link head_next ;;
  wr_prev link list ;;
  head_next' ← rd_next list;
  wr_prev head_next' link ;;
  wr_next list link.

Definition list_append (list link : Z) : KM M unit :=
  kassert (bool_decide (list ≠ NULL)) ;;
  kassert (bool_decide (link ≠ NULL)) ;;
  wr_next link list ;;
  head_prev ← rd_prev list;
  wr_prev link head_prev ;;
  head_prev' ← rd_prev list;
  wr_next head_prev' link ;;
  wr_prev list link.

Definition list_remove (link : Z) : KM M unit :=
  kassert (bool_decide (link ≠ NULL)) ;;
  connected ← link_connected link;
  (if (connected : bool) then
     next ← rd_next link;
     prev ← rd_prev link;
     wr_prev next prev ;;
     prev' ← rd_prev link;
     next' ← rd_next link;
     wr_next prev' next'
   else mret ()) ;;
  link_init link.

Definition list_pop (list : Z) : KM M Z :=
  kassert (bool_decide (list ≠ NULL)) ;;
  empty ← list_empty list;
  if (empty : bool) then mret NULL
  else
    item ← rd_next list;
    list_remove item ;;
    mret item.

Definition list_rotate (list : Z) : KM M Z :=
  kassert (bool_decide (list ≠ NULL)) ;;
  empty ← list_empty list;
  if (empty : bool) then mret NULL
  else
    item ← list_pop list;
    list_append list item ;;
    mret item.

(** The loop of [list_foreach]: [body] runs on each link from [cur] to the
    head; a body that answers [Some r] leaves the loop with [r] ([break]), and
    [_link = _link->next] reads the field after the body has run. *)
Fixpoint list_foreach_from {R : Type} (fuel : nat) (head cur : Z)
    (body : Z → KM M (option R)) : KM M (option R) :=
  match fuel with
  | O => knofuel
  | S fuel' =>
    if bool_decide (cur ≠ head) then
      r ← body cur;
      match r with
      | Some _ => mret r
      | None =>
        next ← rd_next cur;
        list_foreach_from fuel' head next body
      end
    else mret None
  end.

Definition list_foreach {R : Type} (fuel : nat) (list : Z)
    (body : Z → KM M (option R)) : KM M (option R) :=
  first ← rd_next list;
  list_foreach_from fuel list first body.

End operations.

(** More fuel does not change what an iteration returns. *)
Lemma list_foreach_from_mono {M R : Type} `{LinkMem M} (n n' : nat) (head cur : Z)
    (body body' : Z → KM M (option R)) :
  (n ≤ n')%nat → (∀ x, ok_le (body x) (body' x)) →
  ok_le (list_foreach_from n head cur body) (list_foreach_from n' head cur body').
Proof.
  intros Hn Hb. revert n' cur Hn. induction n as [|n IH]; intros n' cur Hn; [auto with fuel|].
  destruct n' as [|n']; [lia|]. cbn [list_foreach_from]. case_bool_decide; [|auto with fuel].
  apply ok_le_bind; [done|]. intros [r|]; [auto with fuel|].
  apply ok_le_bind; [auto with fuel|]. intros next. apply IH. lia.
Qed.

(** ** Well-formed lists *)
Section wellformed.
  Context {M : Type} `{LinkMem M}.

(** [a] and [b] are neighbours. *)
Definition edge (m : M) (a b : Z) : Prop :=
  ld_next m a = Some b ∧ ld_prev m b = Some a.

Fixpoint path (m : M) (ns : list Z) : Prop :=
  match ns with
  | a :: (b :: _) as rest => edge m a b ∧ path m rest
  | _ => True
  end.

(** Distinct nodes, none of them [NULL], in pairwise separate storage. *)
Definition separated (ns : list Z) : Prop :=
  NoDup ns ∧ Forall (.≠ NULL) ns ∧
  ∀ x y, x ∈ ns → y ∈ ns → x ≠ y → lsep x y.

Definition is_list (m : M) (h : Z) (xs : list Z) : Prop :=
  path m (h :: xs ++ [h]) ∧ separated (h :: xs).

(** A link that is not on any list. *)
Definition unlinked (m : M) (l : Z) : Prop :=
  ld_prev m l = Some NULL ∧ ld_next m l = Some NULL.

(** [writes P m m'] : [m'] is [m] after stores to links satisfying [P]. *)
Inductive writes (P : Z → Prop) : M → M → Prop :=
  | writes_refl m : writes P m m
  | writes_prev m m' p v : writes P m m' → P p → writes P m (st_prev p v m')
  | writes_next m m' p v : writes P m m' → P p → writes P m (st_next p v m').

End wellformed.

Create HintDb klist.
#[export] Hint Constructors writes : klist.

(** ** Symbolic execution of loads and stores *)
Section exec.
  Context {M : Type} `{LinkMem M}.

Lemma rd_prev_ok m p v : ld_prev m p = Some v → rd_prev p m = Ok (v, m).
Proof. intros Hv. unfold rd_prev. by apply load_some. Qed.
Lemma rd_next_ok m p v : ld_next m p = Some v → rd_next p m = Ok (v, m).
Proof. intros Hv. unfold rd_next. by apply load_some. Qed.
Lemma wr_prev_ok m p v : is_Some (ld_prev m p) → wr_prev p v m = Ok (tt, st_prev p v m).
Proof. intros [w Hw]. unfold wr_prev. by erewrite bind_ok by (by apply rd_prev_ok). Qed.
Lemma wr_next_ok m p v : is_Some (ld_next m p) → wr_next p v m = Ok (tt, st_next p v m).
Proof. intros [w Hw]. unfold wr_next. by erewrite bind_ok by (by apply rd_next_ok). Qed.

End exec.

(** Loads after stores, with the separation facts in the context. *)
Section lookup.
  Context {M : Type} `{LinkMemLaws M}.

Lemma ld_prev_st_prev_dec m p q v :
  is_Some (ld_prev m p) → p = q ∨ lsep p q →
  ld_prev (st_prev p v m) q = if decide (p = q) then Some v else ld_prev m q.
Proof.
  intros Hp Hpq. case_decide; subst.
  - by apply ld_prev_st_prev.
  - destruct Hpq; [done|]. by apply ld_prev_st_prev_sep.
Qed.

Lemma ld_next_st_next_dec m p q v :
  is_Some (ld_next m p) → p = q ∨ lsep p q →
  ld_next (st_next p v m) q = if decide (p = q) then Some v else ld_next m q.
Proof.
  intros Hp Hpq. case_decide; subst.
  - by apply ld_next_st_next.
  - destruct Hpq; [done|]. by apply ld_next_st_next_sep.
Qed.

Lemma ld_prev_st_next_any m p q v :
  p = q ∨ lsep p q → ld_prev (st_next p v m) q = ld_prev m q.
Proof. intros [->|?]; [apply ld_prev_st_next | by apply ld_prev_st_next_sep]. Qed.

Lemma ld_next_st_prev_any m p q v :
  p = q ∨ lsep p q → ld_next (st_prev p v m) q = ld_next m q.
Proof. intros [->|?]; [apply ld_next_st_prev | by apply ld_next_st_prev_sep]. Qed.

(** Links separate from everything that is written keep their fields. *)
Lemma writes_frame (P : Z → Prop) m m' q :
  writes P m m' → (∀ p, P p → lsep p q) →
  ld_prev m' q = ld_prev m q ∧ ld_next m' q = ld_next m q.
Proof.
  intros Hw Hsep. induction Hw as [m|m m' p v Hw [IHp IHn] Hp|m m' p v Hw [IHp IHn] Hp];
    [done|..]; specialize (Hsep p Hp).
  - by rewrite ld_prev_st_prev_sep, ld_next_st_prev_sep.
  - by rewrite ld_prev_st_next_sep, ld_next_st_next_sep.
Qed.

Lemma writes_mono (P Q : Z → Prop) (m m' : M) :
  writes P m m' → (∀ p, P p → Q p) → writes Q m m'.
Proof. induction 1; eauto with klist. Qed.

Lemma writes_trans (P : Z → Prop) (m1 m2 m3 : M) :
  writes P m1 m2 → writes P m2 m3 → writes P m1 m3.
Proof. intros H12 H23. induction H23; eauto with klist. Qed.

(** *** Paths *)
Lemma elem_of_removelast (x : Z) (ns : list Z) : x ∈ removelast ns → x ∈ ns.
Proof.
  destruct ns as [|n ns _] using rev_ind; [done|]. rewrite removelast_last. set_solver.
Qed.

Lemma elem_of_tail (x : Z) (ns : list Z) : x ∈ tail ns → x ∈ ns.
Proof. destruct ns; [done|]. by right. Qed.

Lemma path_cons m a b ns : path m (a :: b :: ns) ↔ edge m a b ∧ path m (b :: ns).
Proof. done. Qed.

Lemma path_app m ns x ms :
  path m (ns ++ x :: ms) ↔ path m (ns ++ [x]) ∧ path m (x :: ms).
Proof.
  induction ns as [|a ns IH]; [simpl; tauto|].
  destruct ns as [|b ns]; simpl in *; tauto.
Qed.

Lemma path_frame m m' ns :
  (∀ p, p ∈ removelast ns → ld_next m' p = ld_next m p) →
  (∀ p, p ∈ tail ns → ld_prev m' p = ld_prev m p) →
  path m ns → path m' ns.
Proof.
  induction ns as [|a [|b ns] IH]; [done..|]. intros Hn Hp.
  rewrite !path_cons. intros [[? ?] ?]. split.
  - split; [rewrite Hn | rewrite Hp]; set_solver.
  - apply IH; [| |done]; intros p Hin; [apply Hn | apply Hp]; set_solver.
Qed.

(** A list survives any stores to links separate from its nodes. *)
Lemma is_list_frame (P : Z → Prop) m m' h xs :
  writes P m m' → (∀ p q, P p → q ∈ h :: xs → lsep p q) →
  is_list m h xs → is_list m' h xs.
Proof.
  intros Hw Hsep [Hpath Hs]. split; [|done].
  assert (Hfr : ∀ q, q ∈ h :: xs → ld_prev m' q = ld_prev m q ∧ ld_next m' q = ld_next m q).
  { intros q Hq. apply (writes_frame P); eauto. }
  eapply path_frame; [..|done]; intros p Hp; apply Hfr.
  - rewrite app_comm_cons, removelast_last in Hp. done.
  - apply elem_of_app in Hp as [Hp| ->%list_elem_of_singleton]; [by right|by left].
Qed.

Lemma separated_sub (ns ms : list Z) :
  separated ns → NoDup ms → ms ⊆ ns → separated ms.
Proof.
  intros (_ & Hnull & Hsep) Hnd Hsub. split; [done|]. split.
  - rewrite Forall_forall in *. auto.
  - auto.
Qed.

Lemma separated_perm (ns ms : list Z) : separated ns → ns ≡ₚ ms → separated ms.
Proof.
  intros Hs Hperm. apply (separated_sub ns); [done|..].
  - destruct Hs. by rewrite <- Hperm.
  - intros x. by rewrite Hperm.
Qed.

(** Adding a node. *)
Lemma separated_cons l ns :
  l ≠ NULL → Forall (lsep l) ns → separated ns → separated (l :: ns).
Proof.
  intros Hl Hsep (Hnd & Hnull & Hall). rewrite Forall_forall in Hsep.
  split; [constructor; [|done]; by intros Hin%Hsep%lsep_ne|]. split; [by constructor|].
  intros x y Hx Hy Hxy.
  apply elem_of_cons in Hx as [->|Hx]; apply elem_of_cons in Hy as [->|Hy]; try done.
  - by apply Hsep.
  - apply lsep_sym. by apply Hsep.
  - by apply Hall.
Qed.

Lemma separated_sep x y ns :
  separated ns → x ∈ ns → y ∈ ns → x = y ∨ lsep x y.
Proof.
  intros (_ & _ & Hall) Hx Hy. destruct (decide (x = y)); [by left|right; by apply Hall].
Qed.

Lemma separated_head x y ns : separated (x :: ns) → y ∈ ns → lsep x y.
Proof.
  intros (Hnd & _ & Hall) Hy. apply Hall; [set_solver..|].
  intros ->. apply NoDup_cons in Hnd. tauto.
Qed.

Lemma separated_last x y ns : separated (ns ++ [x]) → y ∈ ns → lsep x y.
Proof.
  intros Hs Hy. apply (separated_head x y ns); [|done].
  eapply separated_perm; [done|]. symmetry. apply Permutation_cons_append.
Qed.

End lookup.

(** [lsep_tac] finds a separation fact in the context; [ksimp] evaluates loads
    after stores with it; [kstep] executes one step of a list routine. *)
Ltac lsep_tac :=
  solve [ assumption
        | apply lsep_sym; assumption
        | by left
        | right; assumption
        | right; apply lsep_sym; assumption
        | match goal with
          | H : ?x = ?y ∨ lsep ?x ?y |- ?y = ?x ∨ lsep ?y ?x =>
              destruct H; [left; done | right; by apply lsep_sym]
          end ].

Ltac ksimp :=
  repeat first
    [ rewrite ld_prev_st_next_any by lsep_tac
    | rewrite ld_next_st_prev_any by lsep_tac
    | rewrite ld_prev_st_prev_sep by lsep_tac
    | rewrite ld_next_st_next_sep by lsep_tac
    | rewrite ld_prev_st_prev by (ksimp; eauto; fail)
    | rewrite ld_next_st_next by (ksimp; eauto; fail) ].

Ltac kload_tac := ksimp; first [eassumption | reflexivity].
Ltac kmapped_tac := ksimp; solve [eauto].

Ltac kstep :=
  first
    [ rewrite bind_assoc
    | rewrite bind_ret
    | erewrite bind_ok by (apply assert_true, bool_decide_eq_true_2; done)
    | erewrite bind_ok by (apply rd_prev_ok; kload_tac)
    | erewrite bind_ok by (apply rd_next_ok; kload_tac)
    | erewrite bind_ok by (apply wr_prev_ok; kmapped_tac)
    | erewrite bind_ok by (apply wr_next_ok; kmapped_tac)
    | rewrite wr_prev_ok by kmapped_tac
    | rewrite wr_next_ok by kmapped_tac ].

Section specs.
  Context {M : Type} `{LinkMemLaws M}.

Lemma list_append_exec m h l t :
  h ≠ NULL → l ≠ NULL → mapped m l →
  ld_prev m h = Some t → is_Some (ld_next m t) →
  lsep l h → lsep l t → h = t ∨ lsep h t →
  list_append h l m = Ok (tt, st_prev h l (st_next t l (st_prev l t (st_next l h m)))).
Proof.
  intros ?? [[] []] ?[]???. unfold list_append. by repeat kstep.
Qed.

Lemma list_prepend_exec m h l n :
  h ≠ NULL → l ≠ NULL → mapped m l →
  ld_next m h = Some n → is_Some (ld_prev m n) →
  lsep l h → lsep l n → h = n ∨ lsep h n →
  list_prepend h l m = Ok (tt, st_next h l (st_prev n l (st_prev l h (st_next l n m)))).
Proof.
  intros ?? [[] []] ?[]???. unfold list_prepend. by repeat kstep.
Qed.

Lemma link_init_exec m l :
  l ≠ NULL → mapped m l → link_init l m = Ok (tt, st_next l NULL (st_prev l NULL m)).
Proof.
  intros ? [[] []]. unfold link_init. by repeat kstep.
Qed.

Lemma list_init_exec m l :
  l ≠ NULL → mapped m l → list_init l m = Ok (tt, st_next l l (st_prev l l m)).
Proof.
  intros ? [[] []]. unfold list_init. by repeat kstep.
Qed.

Lemma link_connected_exec m l p n :
  l ≠ NULL → ld_prev m l = Some p → ld_next m l = Some n →
  link_connected l m = Ok (bool_decide (p ≠ NULL ∧ n ≠ NULL), m).
Proof.
  intros. unfold link_connected. repeat kstep. rewrite bool_decide_and.
  destruct (bool_decide (p ≠ NULL)); [|done]. by repeat kstep.
Qed.

Lemma list_remove_exec m l p n :
  l ≠ NULL → ld_prev m l = Some p → ld_next m l = Some n → p ≠ NULL → n ≠ NULL →
  is_Some (ld_next m p) → is_Some (ld_prev m n) →
  lsep l p → lsep l n → p = n ∨ lsep p n →
  list_remove l m =
    Ok (tt, st_next l NULL (st_prev l NULL (st_next p n (st_prev n p m)))).
Proof.
  intros ????? [] []. intros. unfold list_remove. kstep.
  erewrite bind_ok by (apply link_connected_exec; eassumption).
  rewrite bool_decide_eq_true_2 by done. repeat kstep.
  apply link_init_exec; [done|]. split; kmapped_tac.
Qed.

Lemma list_remove_unlinked_exec m l p n :
  l ≠ NULL → ld_prev m l = Some p → ld_next m l = Some n → p = NULL ∨ n = NULL →
  list_remove l m = Ok (tt, st_next l NULL (st_prev l NULL m)).
Proof.
  intros. unfold list_remove. kstep.
  erewrite bind_ok by (apply link_connected_exec; eassumption).
  rewrite bool_decide_eq_false_2 by tauto. kstep.
  apply link_init_exec; [done|]. split; eauto.
Qed.

End specs.

(** ** The operations refine the operations on lists of nodes *)
Section refinement.
  Context {M : Type} `{LinkMemLaws M}.
  Implicit Types (m : M) (xs ys : list Z).

Lemma path_edge m ns a b ms : path m (ns ++ a :: b :: ms) → edge m a b.
Proof. rewrite path_app. by intros [_ [? _]]. Qed.

(** A memory holds at most one list at a head. *)
Lemma path_unique m h a xs ys :
  h ∉ xs → h ∉ ys → path m (a :: xs ++ [h]) → path m (a :: ys ++ [h]) → xs = ys.
Proof.
  revert a ys. induction xs as [|x xs IH]; intros a [|y ys] Hx Hy; cbn [app path].
  - done.
  - intros [[E1 _] _] [[E2 _] _]. rewrite E1 in E2. injection E2 as ->. set_solver.
  - intros [[E1 _] _] [[E2 _] _]. rewrite E1 in E2. injection E2 as ->. set_solver.
  - intros [[E1 _] P1] [[E2 _] P2]. rewrite E1 in E2. injection E2 as ->.
    f_equal. eapply (IH y); [set_solver|set_solver|exact P1|exact P2].
Qed.

Lemma is_list_unique m h xs ys : is_list m h xs → is_list m h ys → xs = ys.
Proof.
  intros [P1 [N1 _]] [P2 [N2 _]]. apply NoDup_cons in N1 as [N1 _], N2 as [N2 _].
  by eapply path_unique.
Qed.

(** Every node of a list has both fields. *)
Lemma is_list_mapped m h xs x : is_list m h xs → x ∈ h :: xs → mapped m x.
Proof.
  intros [Hpath _] Hx. split.
  - assert (Hin : x ∈ xs ++ [h]) by set_solver.
    apply list_elem_of_split in Hin as (ns & ms & Heq). rewrite Heq in Hpath.
    destruct ns as [|n ns] using rev_ind.
    + destruct Hpath as [[_ ->] _]. eauto.
    + rewrite <- app_assoc, app_comm_cons in Hpath. simpl in Hpath.
      apply (path_edge m (h :: ns) n x ms) in Hpath as [_ ->]. eauto.
  - apply list_elem_of_split in Hx as (ns & ms & Heq).
    rewrite app_comm_cons, Heq, <- app_assoc in Hpath. simpl in Hpath.
    destruct ms as [|b ms]; apply path_edge in Hpath as [-> _]; eauto.
Qed.

Lemma is_list_nonnull m h xs x : is_list m h xs → x ∈ h :: xs → x ≠ NULL.
Proof. intros (_ & _ & Hnull & _). by rewrite Forall_forall in Hnull; apply Hnull. Qed.

Lemma list_init_spec m h :
  h ≠ NULL → mapped m h →
  ∃ m', list_init h m = Ok (tt, m') ∧ is_list m' h [] ∧ writes (.= h) m m'.
Proof.
  intros Hh Hm. eexists. split; [by apply list_init_exec|]. split; [|eauto with klist].
  destruct Hm. split.
  - split; [|done]. split; ksimp; done.
  - split; [apply NoDup_singleton|]. split; [by repeat constructor|]. set_solver.
Qed.

Lemma list_empty_spec m h xs :
  is_list m h xs → list_empty h m = Ok (bool_decide (xs = []), m).
Proof.
  intros Hl. pose proof (is_list_nonnull m h xs h Hl ltac:(by left)) as Hh.
  destruct Hl as [Hpath (Hnd & _)]. unfold list_empty. kstep.
  destruct xs as [|x xs].
  - destruct Hpath as [[Hn _] _]. kstep. by rewrite bool_decide_eq_true_2.
  - destruct Hpath as [[Hn _] _]. kstep. rewrite bool_decide_eq_false_2; [done|].
    intros ->. apply NoDup_cons in Hnd. set_solver.
Qed.

(** Stores that keep a path: a [prev] field that is not read by the path (the
    node is not in its tail), a [next] field that is not read by it. *)
Lemma path_st_prev m (S ns : list Z) n v :
  separated S → n ∈ S → ns ⊆ S → n ∉ tail ns → path m ns → path (st_prev n v m) ns.
Proof.
  intros Hs Hn Hsub Hnin. apply path_frame; intros q Hq.
  - assert (q ∈ ns) by (by apply elem_of_removelast).
    pose proof (separated_sep n q S Hs Hn ltac:(auto)). by ksimp.
  - assert (q ∈ ns) by (by apply elem_of_tail).
    destruct (separated_sep n q S Hs Hn ltac:(auto)); [by subst|by ksimp].
Qed.

Lemma path_st_next m (S ns : list Z) p v :
  separated S → p ∈ S → ns ⊆ S → p ∉ removelast ns → path m ns → path (st_next p v m) ns.
Proof.
  intros Hs Hp Hsub Hnin. apply path_frame; intros q Hq.
  - assert (q ∈ ns) by (by apply elem_of_removelast).
    destruct (separated_sep p q S Hs Hp ltac:(auto)); [by subst|by ksimp].
  - assert (q ∈ ns) by (by apply elem_of_tail).
    pose proof (separated_sep p q S Hs Hp ltac:(auto)). by ksimp.
Qed.

Lemma list_append_spec m h xs l :
  is_list m h xs → l ≠ NULL → mapped m l → Forall (lsep l) (h :: xs) →
  ∃ m', list_append h l m = Ok (tt, m') ∧ is_list m' h (xs ++ [l]) ∧
        writes (.∈ l :: h :: xs) m m'.
Proof.
  intros Hl Hnull Hml Hsep.
  pose proof (is_list_nonnull m h xs h Hl ltac:(by left)) as Hh.
  destruct (exists_last (l := h :: xs)) as (ns & t & Hns); [done|].
  assert (Ht : t ∈ h :: xs) by (rewrite Hns; set_solver).
  pose proof (is_list_mapped m h xs t Hl Ht) as [Htp Htn].
  destruct Hl as [Hpath Hs].
  pose proof (separated_cons l _ Hnull Hsep Hs) as Hs'.
  pose proof (separated_sep h t _ Hs ltac:(left) Ht) as Hht.
  pose proof (separated_head l h _ Hs' ltac:(left)) as Hlh.
  pose proof (separated_head l t _ Hs' Ht) as Hlt.
  rewrite app_comm_cons, Hns, <- app_assoc in Hpath. cbn [app] in Hpath.
  pose proof Hpath as [Hpre [[Hth Hhp] _]]%path_app.
  eexists. split; [by apply list_append_exec with (t := t)|]. split; [split|].
  - rewrite !app_comm_cons, Hns, <- !app_assoc. cbn [app].
    rewrite path_app. split.
    + rewrite <- Hns in *. pose proof Hs' as [[? [? ?]%NoDup_cons]%NoDup_cons _].
      apply (path_st_prev _ (l :: h :: xs)); [done|set_solver..|].
      apply (path_st_next _ (l :: h :: xs)); [done|set_solver..| |].
      { rewrite Hns, removelast_last. destruct Hs as [Hnd _]. rewrite Hns in Hnd.
        apply NoDup_app in Hnd. set_solver. }
      apply (path_st_prev _ (l :: h :: xs)); [done|set_solver..|].
      apply (path_st_next _ (l :: h :: xs)); [done|set_solver..| |done].
      intros ?%elem_of_removelast. done.
    + destruct Hml. split; [split|split; [split|done]]; by ksimp.
  - apply (separated_perm (l :: h :: xs)); [done|].
    rewrite app_comm_cons. apply Permutation_cons_append.
  - repeat (apply writes_prev || apply writes_next); [constructor|set_solver..].
Qed.

Lemma list_prepend_spec m h xs l :
  is_list m h xs → l ≠ NULL → mapped m l → Forall (lsep l) (h :: xs) →
  ∃ m', list_prepend h l m = Ok (tt, m') ∧ is_list m' h (l :: xs) ∧
        writes (.∈ l :: h :: xs) m m'.
Proof.
  intros Hl Hnull Hml Hsep.
  pose proof (is_list_nonnull m h xs h Hl ltac:(by left)) as Hh.
  destruct (xs ++ [h]) as [|n ms] eqn:Hms; [by destruct xs|].
  assert (Hn : n ∈ h :: xs) by (assert (n ∈ xs ++ [h]) by (rewrite Hms; left); set_solver).
  pose proof (is_list_mapped m h xs n Hl Hn) as [Hnp Hnn].
  destruct Hl as [Hpath Hs]. rewrite Hms in Hpath.
  pose proof (separated_cons l _ Hnull Hsep Hs) as Hs'.
  pose proof (separated_sep h n _ Hs ltac:(left) Hn) as Hhn.
  pose proof (separated_head l h _ Hs' ltac:(left)) as Hlh.
  pose proof (separated_head l n _ Hs' Hn) as Hln.
  pose proof Hpath as [[Hhn' Hnh] Hrest].
  eexists. split; [by apply list_prepend_exec with (n := n)|]. split; [split|].
  - cbn [app]. rewrite Hms. destruct Hml.
    split; [by split; ksimp|]. split; [by split; ksimp|].
    pose proof Hs' as [[? [? Hnd]%NoDup_cons]%NoDup_cons _].
    assert (Hnd' : NoDup (n :: ms)).
    { rewrite <- Hms, <- Permutation_cons_append. by constructor. }
    assert (Hsub : n :: ms ⊆ l :: h :: xs) by (rewrite <- Hms; set_solver).
    apply (path_st_next _ (l :: h :: xs)); [done|set_solver..| |].
    { rewrite <- Hms, removelast_last. done. }
    apply (path_st_prev _ (l :: h :: xs)); [done|set_solver..| |].
    { by apply NoDup_cons in Hnd' as [? _]. }
    apply (path_st_prev _ (l :: h :: xs)); [done|set_solver..| |].
    { intros Hin%elem_of_tail. rewrite <- Hms in Hin. set_solver. }
    apply (path_st_next _ (l :: h :: xs)); [done|set_solver..| |done].
    intros Hin%elem_of_removelast. rewrite <- Hms in Hin. set_solver.
  - by apply (separated_perm (l :: h :: xs)); [|constructor].
  - repeat (apply writes_prev || apply writes_next); [constructor|set_solver..].
Qed.

(** The two neighbours of a list node, and what surrounds them. *)
Lemma is_list_middle m h xs l ys :
  is_list m h (xs ++ l :: ys) →
  ∃ ns p n ms, h :: xs = ns ++ [p] ∧ ys ++ [h] = n :: ms ∧
    path m (ns ++ [p]) ∧ path m (n :: ms) ∧ edge m p l ∧ edge m l n ∧
    p ∉ ns ∧ n ∉ ms ∧ n ∉ xs ∧ p ∉ ys ∧ l ∉ h :: xs ++ ys.
Proof.
  intros [Hpath (Hnd & _)].
  destruct (exists_last (l := h :: xs)) as (ns & p & Hns); [done|].
  destruct (ys ++ [h]) as [|n ms] eqn:Hms; [by destruct ys|].
  rewrite <- app_assoc, app_comm_cons, Hns, <- app_assoc in Hpath. cbn [app] in Hpath.
  rewrite Hms in Hpath. pose proof Hpath as [? [? [? ?]]]%path_app.
  exists ns, p, n, ms. split_and!; try done.
  all: rewrite app_comm_cons in Hnd; pose proof Hnd as (Hx & Hdis & Hy)%NoDup_app.
  all: apply NoDup_cons in Hx as [Hhx Hx]; apply NoDup_cons in Hy as [Hly Hy].
  - assert (Hnd' : NoDup (ns ++ [p])) by (rewrite <- Hns; by constructor).
    apply NoDup_app in Hnd'. set_solver.
  - assert (Hnd' : NoDup (n :: ms)).
    { rewrite <- Hms, <- Permutation_cons_append. constructor; [set_solver|done]. }
    by apply NoDup_cons in Hnd' as [? _].
  - assert (n ∈ ys ++ [h]) by (rewrite Hms; left). set_solver.
  - assert (p ∈ h :: xs) by (rewrite Hns; set_solver). set_solver.
  - set_solver.
Qed.

(** What [list_remove] stores keeps every path that avoids [l] and reads neither
    [p->next] nor [n->prev]. *)
Lemma path_unlink m (S ns : list Z) l p n :
  separated S → l ∈ S → p ∈ S → n ∈ S → ns ⊆ S →
  l ∉ ns → p ∉ removelast ns → n ∉ tail ns → path m ns →
  path (st_next l NULL (st_prev l NULL (st_next p n (st_prev n p m)))) ns.
Proof.
  intros Hs Hl Hp Hn Hsub Hlns Hpns Hnns Hpath.
  apply (path_st_next _ S); [done..|by intros ?%elem_of_removelast|].
  apply (path_st_prev _ S); [done..|by intros ?%elem_of_tail|].
  apply (path_st_next _ S); [done..|].
  by apply (path_st_prev _ S).
Qed.

Lemma list_remove_spec m h xs l ys :
  is_list m h (xs ++ l :: ys) →
  ∃ m', list_remove l m = Ok (tt, m') ∧ is_list m' h (xs ++ ys) ∧ unlinked m' l ∧
        writes (.∈ h :: xs ++ l :: ys) m m'.
Proof.
  intros Hl. set (S := h :: xs ++ l :: ys).
  destruct (is_list_middle _ _ _ _ _ Hl)
    as (ns & p & n & ms & Hns & Hms & Hpre & Hpost & [Hpl Hlp] & [Hln Hnl] & Hnd).
  destruct Hnd as (Hpns & Hnms & Hnxs & Hpys & Hlin).
  assert (Hp : p ∈ S) by (assert (p ∈ h :: xs) by (rewrite Hns; set_solver); set_solver).
  assert (Hn : n ∈ S) by (assert (n ∈ ys ++ [h]) by (rewrite Hms; left); set_solver).
  assert (Hl' : l ∈ S) by set_solver.
  pose proof (is_list_mapped _ _ _ _ Hl Hp) as [Hpp Hpn].
  pose proof (is_list_mapped _ _ _ _ Hl Hn) as [Hnp Hnn].
  pose proof (is_list_nonnull _ _ _ _ Hl Hp) as Hp0.
  pose proof (is_list_nonnull _ _ _ _ Hl Hn) as Hn0.
  pose proof (is_list_nonnull _ _ _ _ Hl Hl') as Hl0.
  destruct Hl as [_ Hs]. fold S in Hs.
  assert (Hs' : separated (l :: h :: xs ++ ys)).
  { eapply separated_perm; [done|]. symmetry.
    exact (Permutation_middle (h :: xs) ys l). }
  assert (Hlp' : lsep l p).
  { apply (separated_head l p _ Hs').
    assert (p ∈ h :: xs) by (rewrite Hns; set_solver). set_solver. }
  assert (Hln' : lsep l n).
  { apply (separated_head l n _ Hs').
    assert (n ∈ ys ++ [h]) by (rewrite Hms; left). set_solver. }
  pose proof (separated_sep p n _ Hs Hp Hn) as Hpn'.
  eexists. split; [by apply list_remove_exec with (p := p) (n := n)|].
  split; [split|split].
  - rewrite <- app_assoc, app_comm_cons, Hns, Hms, <- app_assoc. cbn [app].
    apply path_app. split; [|split; [by split; ksimp|]].
    + apply (path_unlink _ S); rewrite ?removelast_last; try done; rewrite <- Hns.
      * clear. set_solver.
      * clear -Hlin. set_solver.
      * done.
    + apply (path_unlink _ S); try done; rewrite <- Hms, ?removelast_last; [..|done].
      * clear. set_solver.
      * clear -Hlin. set_solver.
  - apply (separated_sub _ _ Hs'); [|by right]. by destruct Hs' as [[_ ?]%NoDup_cons _].
  - split; ksimp; done.
  - repeat (apply writes_prev || apply writes_next); [constructor|done..].
Qed.

(** Removing a link that is on no list only initialises it. *)
Lemma list_remove_unlinked_spec m l :
  l ≠ NULL → unlinked m l →
  ∃ m', list_remove l m = Ok (tt, m') ∧ unlinked m' l ∧ writes (.= l) m m'.
Proof.
  intros Hl0 [Hp Hn].
  eexists. split; [by eapply list_remove_unlinked_exec; eauto|].
  split; [|eauto with klist]. split; ksimp; done.
Qed.

Lemma link_connected_spec m h xs x :
  is_list m h xs → x ∈ h :: xs → link_connected x m = Ok (true, m).
Proof.
  intros Hl Hx. pose proof (is_list_nonnull _ _ _ _ Hl Hx) as Hx0.
  destruct (is_list_mapped _ _ _ _ Hl Hx) as [[p Hp] [n Hn]].
  erewrite link_connected_exec by done. rewrite bool_decide_eq_true_2; [done|].
  destruct Hl as [Hpath (_ & Hnull & _)]. rewrite Forall_forall in Hnull.
  apply list_elem_of_split in Hx as (ns & ms & Heq).
  split.
  - destruct ns as [|q ns _] using rev_ind.
    + injection Heq as <- <-. destruct (exists_last (l := h :: xs)) as (ns & t & Hns); [done|].
      rewrite app_comm_cons, Hns, <- app_assoc in Hpath.
      apply path_edge in Hpath as [_ Hp']. simplify_eq.
      apply Hnull. rewrite Hns. set_solver.
    + rewrite app_comm_cons, Heq, <- !app_assoc in Hpath.
      apply path_edge in Hpath as [_ Hp']. simplify_eq.
      apply Hnull. rewrite Heq. set_solver.
  - rewrite app_comm_cons, Heq, <- app_assoc in Hpath. cbn [app] in Hpath.
    destruct ms as [|b ms]; apply path_edge in Hpath as [Hn' _]; simplify_eq; apply Hnull.
    + left.
    + rewrite Heq. set_solver.
Qed.

Lemma list_pop_empty m h : is_list m h [] → list_pop h m = Ok (NULL, m).
Proof.
  intros Hl. pose proof (is_list_nonnull m h [] h Hl ltac:(by left)) as Hh.
  unfold list_pop. kstep. by erewrite bind_ok by (by eapply list_empty_spec).
Qed.

Lemma list_pop_spec m h x xs :
  is_list m h (x :: xs) →
  ∃ m', list_pop h m = Ok (x, m') ∧ is_list m' h xs ∧ unlinked m' x ∧
        writes (.∈ h :: x :: xs) m m'.
Proof.
  intros Hl. pose proof (is_list_nonnull _ _ _ h Hl ltac:(by left)) as Hh.
  destruct (list_remove_spec m h [] x xs Hl) as (m' & Hrm & Hl' & Hun & Hw).
  exists m'. split; [|done]. unfold list_pop. kstep.
  erewrite bind_ok by (by eapply list_empty_spec).
  rewrite bool_decide_eq_false_2 by done.
  pose proof Hl as [[[Hn _] _] _]. kstep. by erewrite bind_ok by done.
Qed.

(** The head of the list becomes its tail. *)
Lemma list_rotate_empty m h : is_list m h [] → list_rotate h m = Ok (NULL, m).
Proof.
  intros Hl. pose proof (is_list_nonnull m h [] h Hl ltac:(by left)) as Hh.
  unfold list_rotate. kstep. by erewrite bind_ok by (by eapply list_empty_spec).
Qed.

Lemma list_rotate_spec m h x xs :
  is_list m h (x :: xs) →
  ∃ m', list_rotate h m = Ok (x, m') ∧ is_list m' h (xs ++ [x]) ∧
        writes (.∈ h :: x :: xs) m m'.
Proof.
  intros Hl. pose proof (is_list_nonnull _ _ _ h Hl ltac:(by left)) as Hh.
  pose proof (is_list_nonnull _ _ _ x Hl ltac:(by right; left)) as Hx.
  destruct (list_pop_spec m h x xs Hl) as (m1 & Hpop & Hl1 & [Hup Hun] & Hw1).
  assert (Hs : separated (x :: h :: xs)).
  { destruct Hl as [_ Hs]. eapply separated_perm; [done|constructor]. }
  destruct (list_append_spec m1 h xs x) as (m2 & Happ & Hl2 & Hw2); [done..|split; eauto| |].
  { apply Forall_forall. intros q Hq. by apply (separated_head x q (h :: xs)). }
  exists m2. split; [|split; [done|]].
  - unfold list_rotate. kstep. erewrite bind_ok by (by eapply list_empty_spec).
    rewrite bool_decide_eq_false_2 by done.
    erewrite bind_ok by done. by erewrite bind_ok by done.
  - eapply writes_trans; [done|]. eapply writes_mono; [done|].
    intros q Hq. clear -Hq. cbn in *. set_solver.
Qed.

(** *** Iteration *)
Lemma list_foreach_from_spec {R} m h a ns (ms : list Z) (fuel : nat)
    (body : Z → KM M (option R)) :
  path m (a :: ns ++ ms ++ [h]) → h ∉ ns →
  (∀ x, x ∈ ns → body x m = Ok (None, m)) →
  (length ns < fuel)%nat →
  ∀ first, ld_next m a = Some first →
  list_foreach_from fuel h first body m =
    list_foreach_from (fuel - length ns) h (default h (head (ms ++ [h]))) body m.
Proof.
  revert a fuel. induction ns as [|x ns IH]; intros a fuel Hpath Hh Hb Hf first Hfirst.
  - cbn. rewrite Nat.sub_0_r. f_equal. cbn in Hpath.
    destruct ms; destruct Hpath as [[Hn _] _]; cbn; congruence.
  - destruct fuel as [|fuel]; [cbn in Hf; lia|].
    destruct Hpath as [[Hax _] Hpath]. assert (first = x) as -> by congruence.
    cbn [list_foreach_from]. rewrite bool_decide_eq_true_2 by set_solver.
    erewrite bind_ok by (apply Hb; left).
    assert (∃ n, ld_next m x = Some n) as [n Hn].
    { destruct ns as [|y ns]; [destruct ms|]; destruct Hpath as [[-> _] _]; eauto. }
    kstep. apply (IH x); [done|set_solver|set_solver|cbn in *; lia|done].
Qed.

Lemma list_foreach_none {R} m h xs (fuel : nat) (body : Z → KM M (option R)) :
  is_list m h xs → (length xs < fuel)%nat →
  (∀ x, x ∈ xs → body x m = Ok (None, m)) →
  list_foreach fuel h body m = Ok (None, m).
Proof.
  intros [Hpath (Hnd & _)] Hf Hb. apply NoDup_cons in Hnd as [Hh _].
  assert (∃ n, ld_next m h = Some n) as [n Hn].
  { destruct xs; destruct Hpath as [[-> _] _]; eauto. }
  unfold list_foreach. kstep.
  erewrite (list_foreach_from_spec m h h xs []) by done. cbn.
  destruct (fuel - length xs)%nat eqn:E; [lia|]. cbn.
  by rewrite bool_decide_eq_false_2 by (by intros []).
Qed.

Lemma list_foreach_some {R} m m' h xs y ys (r : R) (fuel : nat) (body : Z → KM M (option R)) :
  is_list m h (xs ++ y :: ys) → (length xs < fuel)%nat →
  (∀ x, x ∈ xs → body x m = Ok (None, m)) → body y m = Ok (Some r, m') →
  list_foreach fuel h body m = Ok (Some r, m').
Proof.
  intros [Hpath (Hnd & _)] Hf Hb Hy. apply NoDup_cons in Hnd as [Hh _].
  assert (∃ n, ld_next m h = Some n) as [n Hn].
  { destruct xs; destruct Hpath as [[-> _] _]; eauto. }
  unfold list_foreach. kstep. rewrite <- app_assoc in Hpath.
  erewrite (list_foreach_from_spec m h h xs (y :: ys)) by (done || set_solver). cbn.
  destruct (fuel - length xs)%nat eqn:E; [lia|]. cbn.
  rewrite bool_decide_eq_true_2 by set_solver. by erewrite bind_ok by done.
Qed.

End refinement.

(** ** Two memories that hold links *)

(** *** A store of [link_t] structures *)
Record link_t := Link { link_prev : Z; link_next : Z }.

#[export] Instance link_t_eq_dec : EqDecision link_t.
Proof. solve_decision. Defined.

Abbreviation links := (gmap Z link_t).

Definition set_link_prev (v : Z) (l : link_t) : link_t := Link v (link_next l).
Definition set_link_next (v : Z) (l : link_t) : link_t := Link (link_prev l) v.

#[export] Instance links_mem : LinkMem links := {
  ld_prev m p := link_prev <$> (m !! p : option link_t);
  ld_next m p := link_next <$> (m !! p : option link_t);
  st_prev p v m := (alter (set_link_prev v) p m : gmap Z link_t);
  st_next p v m := (alter (set_link_next v) p m : gmap Z link_t);
  lsep p q := p ≠ q
}.

#[export] Instance links_mem_laws : LinkMemLaws links.
Proof.
  split; cbn.
  - by intros.
  - by intros.
  - intros m p v Hp. rewrite lookup_alter_eq. by destruct (m !! p); destruct Hp.
  - intros m p v Hp. rewrite lookup_alter_eq. by destruct (m !! p); destruct Hp.
  - intros m p v. rewrite lookup_alter_eq. by destruct (m !! p).
  - intros m p v. rewrite lookup_alter_eq. by destruct (m !! p).
  - intros m p q v Hpq. by rewrite lookup_alter_ne.
  - intros m p q v Hpq. by rewrite lookup_alter_ne.
  - intros m p q v Hpq. by rewrite lookup_alter_ne.
  - intros m p q v Hpq. by rewrite lookup_alter_ne.
Qed.

(** *** A memory of 32-bit words: [prev] at offset 0, [next] at offset 4 *)
Abbreviation words := (gmap Z Z).

#[export] Instance words_mem : LinkMem words := {
  ld_prev m p := (m : gmap Z Z) !! p;
  ld_next m p := (m : gmap Z Z) !! (p + 4);
  st_prev p v m := <[p := v]> (m : gmap Z Z);
  st_next p v m := <[p + 4 := v]> (m : gmap Z Z);
  lsep p q := p + 8 ≤ q ∨ q + 8 ≤ p
}.

#[export] Instance words_mem_laws : LinkMemLaws words.
Proof.
  split; cbn.
  - intros. lia.
  - intros. lia.
  - intros. by rewrite lookup_insert_eq.
  - intros. by rewrite lookup_insert_eq.
  - intros. by rewrite lookup_insert_ne by lia.
  - intros. by rewrite lookup_insert_ne by lia.
  - intros. by rewrite lookup_insert_ne by lia.
  - intros. by rewrite lookup_insert_ne by lia.
  - intros. by rewrite lookup_insert_ne by lia.
  - intros. by rewrite lookup_insert_ne by lia.
Qed.

(** Stores to links change only the words of these links. *)
Lemma writes_words (P : Z → Prop) (m m' : words) (a : Z) :
  writes P m m' → (∀ p, P p → a ≠ p ∧ a ≠ p + 4) → (m' : gmap Z Z) !! a = (m : gmap Z Z) !! a.
Proof.
  intros Hw Ha. induction Hw as [m|m m' p v Hw IH Hp|m m' p v Hw IH Hp]; [done|..];
    specialize (Ha p Hp); cbn; rewrite lookup_insert_ne by lia; by apply IH.
Qed.

Lemma writes_links (P : Z → Prop) (m m' : links) (a : Z) :
  writes P m m' → ¬ P a → (m' : gmap Z link_t) !! a = (m : gmap Z link_t) !! a.
Proof.
  intros Hw Ha. induction Hw as [m|m m' p v Hw IH Hp|m m' p v Hw IH Hp]; [done|..];
    cbn; rewrite lookup_alter_ne by congruence; by apply IH.
Qed.

(** Stores never create or destroy links. *)
Lemma writes_links_dom (P : Z → Prop) (m m' : links) (a : Z) :
  writes P m m' →
  is_Some ((m' : gmap Z link_t) !! a) ↔ is_Some ((m : gmap Z link_t) !! a).
Proof.
  intros Hw. induction Hw as [m|m m' p v Hw IH Hp|m m' p v Hw IH Hp]; [done|..];
    rewrite <- IH; cbn; apply lookup_alter_is_Some.
Qed.
