(* ===== verification/ListTheorems.v ===== *)
(** * Lists: the theorems of the component

    Stated over any link memory ([LinkMem] with its laws), so that the same
    theorems serve the words of the kernel heap and the typed links of the
    scheduler and the timers. *)
From S2P Require Import Prelude CList.

Section theorems.
  Context {M : Type} `{LinkMemLaws M}.

(** [list_rotate] called [k] times on the list at [h]; the links it returns. *)
Fixpoint rotations (k : nat) (h : Z) : KM M (list Z) :=
  match k with
  | O => mret []
  | S k => x ← list_rotate h; xs ← rotations k h; mret (x :: xs)
  end.

Lemma rotations_spec m h xs ys :
  is_list m h (xs ++ ys) →
  ∃ m', rotations (length xs) h m = Ok (xs, m') ∧ is_list m' h (ys ++ xs) ∧
    writes (.∈ h :: xs ++ ys) m m'.
Proof.
  revert m ys. induction xs as [|x xs IH]; intros m ys Hl.
  { exists m. split; [done|]. rewrite app_nil_r. eauto with klist. }
  destruct (list_rotate_spec _ _ _ _ Hl) as (m1 & He1 & Hl1 & Hw1).
  rewrite <- app_assoc in Hl1. destruct (IH m1 (ys ++ [x]) Hl1) as (m2 & He2 & Hl2 & Hw2).
  exists m2. cbn [rotations length]. erewrite bind_ok by exact He1.
  erewrite bind_ok by exact He2. split; [done|]. split.
  - by rewrite <- app_assoc in Hl2.
  - eapply writes_trans; [done|]. eapply writes_mono; [done|].
    intros q Hq. clear -Hq. set_solver.
Qed.

(** [list_append] and [list_prepend] of a link that is on no list add it at
    the tail and at the head: no fault, the ring structure is kept, and only the
    links of the list and the new link are written. *)
Theorem list_insert_refines m h xs l :
  is_list m h xs → l ≠ NULL → mapped m l → Forall (lsep l) (h :: xs) →
  (∃ m', list_append h l m = Ok (tt, m') ∧ is_list m' h (xs ++ [l]) ∧
     writes (.∈ l :: h :: xs) m m') ∧
  (∃ m', list_prepend h l m = Ok (tt, m') ∧ is_list m' h (l :: xs) ∧
     writes (.∈ l :: h :: xs) m m').
Proof. intros. split; [by apply list_append_spec|by apply list_prepend_spec]. Qed.

(** C29. [list_remove] takes the link out of whatever list it is on, at any position,
    leaves it in the initialised state and keeps the others in order; only links of the
    list are written.  A link that is in the initialised state, hence on no list, is only
    re-initialised: no other link is written, and every list stays as it is.  So removing
    twice is harmless. *)
Theorem list_remove_refines m h xs l ys :
  is_list m h (xs ++ l :: ys) →
  (∃ m1 m2, list_remove l m = Ok (tt, m1) ∧ is_list m1 h (xs ++ ys) ∧ unlinked m1 l ∧
    writes (.∈ h :: xs ++ l :: ys) m m1 ∧
    list_remove l m1 = Ok (tt, m2) ∧ is_list m2 h (xs ++ ys) ∧ unlinked m2 l ∧ writes (.= l) m1 m2) ∧
  ∀ u, u ≠ NULL → unlinked m u → Forall (lsep u) (h :: xs ++ l :: ys) →
    ∃ m', list_remove u m = Ok (tt, m') ∧ unlinked m' u ∧ writes (.= u) m m' ∧ is_list m' h (xs ++ l :: ys).
Proof.
  intros Hl. pose proof (is_list_nonnull _ _ _ l Hl ltac:(set_solver)) as Hl0. split.
  - destruct (list_remove_spec _ _ _ _ _ Hl) as (m1 & He1 & Hl1 & Hun1 & Hw1).
    destruct (list_remove_unlinked_spec m1 l Hl0 Hun1) as (m2 & He2 & Hun2 & Hw2).
    exists m1, m2. split_and!; try done. eapply is_list_frame; [done| |done].
    intros p q -> Hq. destruct Hl as [_ Hs]. apply (separated_head l q (h :: xs ++ ys)); [|done].
    eapply separated_perm; [done|]. symmetry. exact (Permutation_middle (h :: xs) ys l).
  - intros u Hu Hun Hsep. destruct (list_remove_unlinked_spec m u Hu Hun) as (m' & He & Hun' & Hw).
    exists m'. split_and!; try done. eapply is_list_frame; [done| |done].
    intros p q -> Hq. rewrite Forall_forall in Hsep. by apply Hsep.
Qed.

(** [list_rotate] is a round robin: called as often as the list is long it
    returns every link exactly once, in list order, and restores the list; on an
    empty list it returns [NULL]. *)
Theorem list_rotate_round_robin m h xs :
  is_list m h xs →
  (∃ m', rotations (length xs) h m = Ok (xs, m') ∧ is_list m' h xs) ∧
  (xs = [] → list_rotate h m = Ok (NULL, m)).
Proof.
  intros Hl. split.
  - rewrite <- (app_nil_r xs) in Hl.
    destruct (rotations_spec m h xs [] Hl) as (m' & He & Hl' & _). eauto.
  - intros ->. by apply list_rotate_empty.
Qed.

End theorems.

(** ** Witnesses on a store of two links *)
Definition sample_links : links :=
  list_to_map [(8, Link 24 16); (16, Link 8 24); (24, Link 16 8); (32, Link 0 0)].

Lemma sample_is_list : is_list sample_links 8 [16; 24].
Proof.
  split; [by vm_compute|]. split; [by apply (bool_decide_unpack _)|].
  split; [by apply (bool_decide_unpack _)|]. intros x y _ _ ?. done.
Qed.

(** The value of [LIST_DECLARE (name)]: an empty list. *)
Definition LIST_DECLARE (name : Z) : link_t := Link name name.

Lemma list_declare_empty name : name ≠ NULL → is_list (M := links) {[name := LIST_DECLARE name]} name [].
Proof.
  intros Hn. split.
  - pose proof (lookup_singleton_eq (M := gmap Z) name (LIST_DECLARE name)) as E.
    split; [|done]. split; [exact (f_equal (fmap link_next) E)|exact (f_equal (fmap link_prev) E)].
  - split; [apply NoDup_singleton|split; [by repeat constructor|]].
    intros x y Hx%list_elem_of_singleton Hy%list_elem_of_singleton. congruence.
Qed.

(** A link that is appended a second time becomes its own successor. *)
Lemma list_append_twice :
  ∃ m1 m2, list_append 8 32 sample_links = Ok (tt, m1) ∧ list_append 8 32 m1 = Ok (tt, m2) ∧
    link_next <$> m2 !! 32 = Some 32.
Proof. eexists _, _. split; [reflexivity|]. split; reflexivity. Qed.

Lemma list_insert_refines_witness :
  (∃ m', list_append 8 32 sample_links = Ok (tt, m') ∧ is_list m' 8 [16; 24; 32] ∧
     writes (.∈ [32; 8; 16; 24]) sample_links m') ∧
  (∃ m', list_prepend 8 32 sample_links = Ok (tt, m') ∧ is_list m' 8 [32; 16; 24] ∧
     writes (.∈ [32; 8; 16; 24]) sample_links m').
Proof.
  apply (list_insert_refines sample_links 8 [16; 24] 32).
  - exact sample_is_list.
  - done.
  - split; eexists; reflexivity.
  - by repeat constructor.
Defined.

Lemma list_remove_refines_witness :
  (∃ m1 m2, list_remove 16 sample_links = Ok (tt, m1) ∧ is_list m1 8 [24] ∧ unlinked m1 16 ∧
    writes (.∈ [8; 16; 24]) sample_links m1 ∧
    list_remove 16 m1 = Ok (tt, m2) ∧ is_list m2 8 [24] ∧ unlinked m2 16 ∧ writes (.= 16) m1 m2) ∧
  ∃ m', list_remove 32 sample_links = Ok (tt, m') ∧ unlinked m' 32 ∧ writes (.= 32) sample_links m' ∧
    is_list m' 8 [16; 24].
Proof.
  destruct (list_remove_refines sample_links 8 [] 16 [24] sample_is_list) as [Hon Hoff].
  split; [exact Hon|]. apply (Hoff 32); [done|done|]. by repeat constructor.
Defined.

Lemma list_rotate_round_robin_witness :
  (∃ m', rotations 2 8 sample_links = Ok ([16; 24], m') ∧ is_list m' 8 [16; 24]) ∧
  ([16; 24] = [] → list_rotate 8 sample_links = Ok (NULL, sample_links)).
Proof. apply (list_rotate_round_robin sample_links 8 [16; 24]). exact sample_is_list. Defined.
