(* ===== verification/RbTree.v ===== *)
(** * Red-black trees: the code ([kernel/adt/rbtree.h], [kernel/adt/rbtree.c])

    The nodes of a tree are [struct rbnode] records in a store indexed by their
    address; the state of an operation is the root pointer of [struct rbtree]
    together with that store.  Every definition follows the C function of the
    same name, statement by statement; a dereference of an address that holds
    no node is a [Fault]. *)
From S2P Require Import Prelude CList.

(** ** Data *)
Inductive rbcolor := RB_BLACK | RB_RED.

#[export] Instance rbcolor_eq_dec : EqDecision rbcolor.
Proof. solve_decision. Defined.

Record rbnode := RbNode {
  rb_color : rbcolor;
  rb_left : Z;
  rb_right : Z;
  rb_parent : Z;
}.

Record rbtree := RbTree {
  rb_root : Z;
  rb_heap : gmap Z rbnode;
}.

Definition RBTREE_NULL : Z := NULL.

(** Where a new node is linked: the root pointer of the tree, or a child link of
    a node (the [clinkp] argument of [rbtree_insert]). *)
Inductive clink :=
  | RootLink
  | LeftLink (p : Z)
  | RightLink (p : Z).

(** ** Field access *)
Definition rb_load {A : Type} (f : rbnode → A) (p : Z) : KM rbtree A :=
  kload (λ t, f <$> rb_heap t !! p).

Definition rb_store (f : rbnode → rbnode) (p : Z) : KM rbtree unit := λ t,
  match rb_heap t !! p with
  | Some n => Ok (tt, RbTree (rb_root t) (<[p := f n]> (rb_heap t)))
  | None => Fault
  end.

Definition set_color (c : rbcolor) (n : rbnode) : rbnode :=
  RbNode c (rb_left n) (rb_right n) (rb_parent n).
Definition set_left (v : Z) (n : rbnode) : rbnode :=
  RbNode (rb_color n) v (rb_right n) (rb_parent n).
Definition set_right (v : Z) (n : rbnode) : rbnode :=
  RbNode (rb_color n) (rb_left n) v (rb_parent n).
Definition set_parent (v : Z) (n : rbnode) : rbnode :=
  RbNode (rb_color n) (rb_left n) (rb_right n) v.

Definition get_root : KM rbtree Z := λ t, Ok (rb_root t, t).
Definition set_root (v : Z) : KM rbtree unit := λ t, Ok (tt, RbTree v (rb_heap t)).

(** ** The macros of [rbtree.h] *)
Definition rbtree_is_node (n : Z) : bool := bool_decide (n ≠ RBTREE_NULL).

Definition rbtree_is_root (n : Z) : KM rbtree bool :=
  parent ← rb_load rb_parent n; mret (negb (rbtree_is_node parent)).

Definition rbtree_is_red (n : Z) : KM rbtree bool :=
  if rbtree_is_node n
  then c ← rb_load rb_color n; mret (bool_decide (c = RB_RED))
  else mret false.

Definition rbtree_is_black (n : Z) : KM rbtree bool :=
  if negb (rbtree_is_node n) then mret true
  else c ← rb_load rb_color n; mret (bool_decide (c = RB_BLACK)).

Definition rbtree_has_left (n : Z) : KM rbtree bool :=
  left ← rb_load rb_left n; mret (rbtree_is_node left).

Definition rbtree_has_right (n : Z) : KM rbtree bool :=
  right ← rb_load rb_right n; mret (rbtree_is_node right).

Definition rbtree_has_both (n : Z) : KM rbtree bool :=
  left ← rb_load rb_left n;
  if rbtree_is_node left
  then right ← rb_load rb_right n; mret (rbtree_is_node right)
  else mret false.

(** ** Initialisation and traversal *)
Definition rbtree_is_leaf (n : Z) : KM rbtree bool :=
  left ← rb_load rb_left n; right ← rb_load rb_right n; mret (bool_decide (left = right)).

(** The value of [RBTREE_INIT]. *)
Definition RBTREE_INIT : rbnode := RbNode RB_RED RBTREE_NULL RBTREE_NULL RBTREE_NULL.

Definition __rbtree_init (node : Z) : KM rbtree unit :=
  rb_store (set_color RB_RED) node ;;
  rb_store (set_left RBTREE_NULL) node ;;
  rb_store (set_right RBTREE_NULL) node ;;
  rb_store (set_parent RBTREE_NULL) node.

Definition rbtree_init (node : Z) : KM rbtree unit :=
  kassert (rbtree_is_node node) ;; __rbtree_init node.

Fixpoint __rbtree_first (fuel : nat) (root : Z) : KM rbtree Z :=
  match fuel with
  | O => knofuel
  | S fuel =>
    has_left ← rbtree_has_left root;
    if (has_left : bool)
    then left ← rb_load rb_left root; __rbtree_first fuel left
    else mret root
  end.

Fixpoint __rbtree_last (fuel : nat) (root : Z) : KM rbtree Z :=
  match fuel with
  | O => knofuel
  | S fuel =>
    has_right ← rbtree_has_right root;
    if (has_right : bool)
    then right ← rb_load rb_right root; __rbtree_last fuel right
    else mret root
  end.

Definition rbtree_first (fuel : nat) (root : Z) : KM rbtree Z :=
  kassert (bool_decide (root ≠ NULL)) ;; __rbtree_first fuel root.

Definition rbtree_last (fuel : nat) (root : Z) : KM rbtree Z :=
  kassert (bool_decide (root ≠ NULL)) ;; __rbtree_last fuel root.

(** [while (!rbtree_is_root (node) && node == node->parent->right)
       node = node->parent;  return node->parent;] *)
Fixpoint __rbtree_next_up (fuel : nat) (node : Z) : KM rbtree Z :=
  match fuel with
  | O => knofuel
  | S fuel =>
    parent ← rb_load rb_parent node;
    if rbtree_is_node parent then
      right ← rb_load rb_right parent;
      if bool_decide (node = right) then __rbtree_next_up fuel parent
      else mret parent
    else mret parent
  end.

Fixpoint __rbtree_prev_up (fuel : nat) (node : Z) : KM rbtree Z :=
  match fuel with
  | O => knofuel
  | S fuel =>
    parent ← rb_load rb_parent node;
    if rbtree_is_node parent then
      left ← rb_load rb_left parent;
      if bool_decide (node = left) then __rbtree_prev_up fuel parent
      else mret parent
    else mret parent
  end.

Definition __rbtree_next (fuel : nat) (node : Z) : KM rbtree Z :=
  has_right ← rbtree_has_right node;
  if (has_right : bool)
  then right ← rb_load rb_right node; __rbtree_first fuel right
  else __rbtree_next_up fuel node.

Definition __rbtree_prev (fuel : nat) (node : Z) : KM rbtree Z :=
  has_left ← rbtree_has_left node;
  if (has_left : bool)
  then left ← rb_load rb_left node; __rbtree_last fuel left
  else __rbtree_prev_up fuel node.

Definition rbtree_next (fuel : nat) (node : Z) : KM rbtree Z :=
  kassert (rbtree_is_node node) ;; __rbtree_next fuel node.

Definition rbtree_prev (fuel : nat) (node : Z) : KM rbtree Z :=
  kassert (rbtree_is_node node) ;; __rbtree_prev fuel node.

(** [compare] is the client's callback; it reads the structure the node is
    embedded in, not the links. *)
Fixpoint rbtree_find (fuel : nat) (compare : Z → Z) (root : Z) : KM rbtree Z :=
  match fuel with
  | O => knofuel
  | S fuel =>
    if rbtree_is_node root then
      let cmp := compare root in
      if cmp <? 0 then left ← rb_load rb_left root; rbtree_find fuel compare left
      else if 0 <? cmp then right ← rb_load rb_right root; rbtree_find fuel compare right
      else mret root
    else mret NULL
  end.

(** ** Moving links *)
Definition __rbtree_move_parent (old new : Z) : KM rbtree Z :=
  parent ← rb_load rb_parent old;
  (if rbtree_is_node new then rb_store (set_parent parent) new else mret ()) ;;
  (if rbtree_is_node parent then
     left ← rb_load rb_left parent;
     if bool_decide (old = left)
     then rb_store (set_left new) parent
     else rb_store (set_right new) parent
   else set_root new) ;;
  mret parent.

Definition __rbtree_move_children (old new : Z) : KM rbtree unit :=
  (if rbtree_is_node new then
     left ← rb_load rb_left old;
     rb_store (set_left left) new ;;
     right ← rb_load rb_right old;
     rb_store (set_right right) new
   else mret ()) ;;
  has_left ← rbtree_has_left old;
  (if (has_left : bool)
   then left ← rb_load rb_left old; rb_store (set_parent new) left
   else mret ()) ;;
  has_right ← rbtree_has_right old;
  if (has_right : bool)
  then right ← rb_load rb_right old; rb_store (set_parent new) right
  else mret ().

Definition __rbtree_rotate_left (pivot : Z) : KM rbtree unit :=
  child ← rb_load rb_right pivot;
  child_left ← rb_load rb_left child;
  rb_store (set_right child_left) pivot ;;
  rb_store (set_left pivot) child ;;
  has_right ← rbtree_has_right pivot;
  (if (has_right : bool)
   then right ← rb_load rb_right pivot; rb_store (set_parent pivot) right
   else mret ()) ;;
  __rbtree_move_parent pivot child ;;
  rb_store (set_parent child) pivot.

Definition __rbtree_rotate_right (pivot : Z) : KM rbtree unit :=
  child ← rb_load rb_left pivot;
  child_right ← rb_load rb_right child;
  rb_store (set_left child_right) pivot ;;
  rb_store (set_right pivot) child ;;
  has_left ← rbtree_has_left pivot;
  (if (has_left : bool)
   then left ← rb_load rb_left pivot; rb_store (set_parent pivot) left
   else mret ()) ;;
  __rbtree_move_parent pivot child ;;
  rb_store (set_parent child) pivot.

Definition __rbtree_rotate (pivot : Z) (left : bool) : KM rbtree unit :=
  if left then __rbtree_rotate_left pivot else __rbtree_rotate_right pivot.

(** ** Insertion *)

(** The loop of [__rbtree_rebalance_insert]. *)
Fixpoint __rbtree_rebalance_insert_loop (fuel : nat) (node : Z) : KM rbtree unit :=
  match fuel with
  | O => knofuel
  | S fuel =>
    parent ← rb_load rb_parent node;
    red ← rbtree_is_red parent;
    if (red : bool) then
      gparent ← rb_load rb_parent parent;
      gleft ← rb_load rb_left gparent;
      uncle ← (if bool_decide (gleft = parent)
               then rb_load rb_right gparent else rb_load rb_left gparent);
      uncle_red ← rbtree_is_red uncle;
      if (uncle_red : bool) then
        rb_store (set_color RB_BLACK) uncle ;;
        rb_store (set_color RB_BLACK) parent ;;
        rb_store (set_color RB_RED) gparent ;;
        __rbtree_rebalance_insert_loop fuel gparent
      else
        pl ← rb_load rb_left parent;
        gl ← rb_load rb_left gparent;
        let nleft := bool_decide (pl = node) in
        let pleft := bool_decide (gl = parent) in
        '(node, parent) ←
          (if negb (eqb nleft pleft) then
             __rbtree_rotate parent pleft ;;
             parent' ← rb_load rb_parent parent;
             mret (parent, parent')
           else mret (node, parent));
        __rbtree_rotate gparent (negb pleft) ;;
        rb_store (set_color RB_RED) gparent ;;
        rb_store (set_color RB_BLACK) parent ;;
        __rbtree_rebalance_insert_loop fuel node
    else mret ()
  end.

Definition __rbtree_rebalance_insert (fuel : nat) (node : Z) : KM rbtree unit :=
  __rbtree_rebalance_insert_loop fuel node ;;
  root ← get_root;
  rb_store (set_color RB_BLACK) root.

(** [( *clinkp) = node] *)
Definition set_clink (clinkp : clink) (node : Z) : KM rbtree unit :=
  match clinkp with
  | RootLink => set_root node
  | LeftLink p => rb_store (set_left node) p
  | RightLink p => rb_store (set_right node) p
  end.

Definition __rbtree_insert (fuel : nat) (node parent : Z) (clinkp : clink) : KM rbtree unit :=
  rb_store (set_color RB_RED) node ;;
  rb_store (set_left NULL) node ;;
  rb_store (set_right NULL) node ;;
  rb_store (set_parent parent) node ;;
  set_clink clinkp node ;;
  __rbtree_rebalance_insert fuel node.

Definition rbtree_insert (fuel : nat) (node parent : Z) (clinkp : clink) : KM rbtree unit :=
  kassert (rbtree_is_node node) ;;
  __rbtree_insert fuel node parent clinkp.

(** ** Deletion *)

(** The end of the loop body of [__rbtree_rebalance_delete]: the sibling has a
    red child. *)
Definition __rbtree_rebalance_delete_rotate (nleft : bool) (parent sibling : Z)
    : KM rbtree unit :=
  inner ← (if nleft then rb_load rb_right sibling else rb_load rb_left sibling);
  inner_black ← rbtree_is_black inner;
  '(inner, sibling) ←
    (if (inner_black : bool) then
       outer ← (if nleft then rb_load rb_left sibling else rb_load rb_right sibling);
       outer_red ← rbtree_is_red outer;
       kassert outer_red ;;
       __rbtree_rotate sibling (negb nleft) ;;
       rb_store (set_color RB_BLACK) outer ;;
       rb_store (set_color RB_RED) sibling ;;
       mret (sibling, outer)
     else mret (inner, sibling));
  inner_red ← rbtree_is_red inner;
  kassert inner_red ;;
  __rbtree_rotate parent nleft ;;
  pcolor ← rb_load rb_color parent;
  rb_store (set_color pcolor) sibling ;;
  rb_store (set_color RB_BLACK) parent ;;
  rb_store (set_color RB_BLACK) inner.

(** The loop of [__rbtree_rebalance_delete]; its result is the node that is
    painted black afterwards. *)
Fixpoint __rbtree_rebalance_delete_loop (fuel : nat) (parent node : Z) : KM rbtree Z :=
  match fuel with
  | O => knofuel
  | S fuel =>
    black ← rbtree_is_black node;
    root ← get_root;
    if (black : bool) && bool_decide (node ≠ root) then
      pleft ← rb_load rb_left parent;
      let nleft := bool_decide (node = pleft) in
      sibling ← (if nleft then rb_load rb_right parent else rb_load rb_left parent);
      sibling_red ← rbtree_is_red sibling;
      sibling ←
        (if (sibling_red : bool) then
           __rbtree_rotate parent nleft ;;
           rb_store (set_color RB_RED) parent ;;
           rb_store (set_color RB_BLACK) sibling ;;
           (if nleft then rb_load rb_right parent else rb_load rb_left parent)
         else mret sibling);
      sl ← rb_load rb_left sibling;
      sl_black ← rbtree_is_black sl;
      both_black ← (if (sl_black : bool)
                    then sr ← rb_load rb_right sibling; rbtree_is_black sr
                    else mret false);
      if (both_black : bool) then
        rb_store (set_color RB_RED) sibling ;;
        parent' ← rb_load rb_parent parent;
        __rbtree_rebalance_delete_loop fuel parent' parent
      else
        __rbtree_rebalance_delete_rotate nleft parent sibling ;;
        get_root
    else mret node
  end.

Definition __rbtree_rebalance_delete (fuel : nat) (parent node : Z) : KM rbtree unit :=
  node ← __rbtree_rebalance_delete_loop fuel parent node;
  if rbtree_is_node node then rb_store (set_color RB_BLACK) node else mret ().

Definition __rbtree_replace (old new : Z) : KM rbtree unit :=
  (if rbtree_is_node new then
     c ← rb_load rb_color old; rb_store (set_color c) new
   else mret ()) ;;
  __rbtree_move_children old new ;;
  __rbtree_move_parent old new ;;
  mret ().

Definition __rbtree_delete (fuel : nat) (node : Z) : KM rbtree unit :=
  both ← rbtree_has_both node;
  '(color, child, parent) ←
    (if negb both then
       has_left ← rbtree_has_left node;
       child ← (if (has_left : bool) then rb_load rb_left node else rb_load rb_right node);
       parent ← __rbtree_move_parent node child;
       color ← rb_load rb_color node;
       mret (color, child, parent)
     else
       right ← rb_load rb_right node;
       subst ← rbtree_first fuel right;
       child ← rb_load rb_right subst;
       parent ← __rbtree_move_parent subst child;
       color ← rb_load rb_color subst;
       __rbtree_replace node subst ;;
       mret (color, child, if bool_decide (parent = node) then subst else parent));
  if bool_decide (color = RB_BLACK)
  then __rbtree_rebalance_delete fuel parent child
  else mret ().

Definition rbtree_delete (fuel : nat) (node : Z) : KM rbtree unit :=
  kassert (rbtree_is_node node) ;;
  __rbtree_delete fuel node.
