(* ===== verification/RbSpec.v ===== *)
(** * Red-black trees: the abstract algorithm

    Trees whose nodes carry their address, one-hole contexts (zippers), the
    red-black invariant [rbt] (the properties blackroot, reddblack and
    blackcount of the comment in [rbtree.c]) with the matching invariant [rbk]
    of contexts, and the two rebalancing algorithms as functions on zippers.
    They are proved to restore the invariant, to keep the in-order sequence of
    nodes, and to touch a path of logarithmic length. *)
From S2P Require Import Prelude CList RbTree.

Inductive tree :=
  | E
  | T (c : rbcolor) (l : tree) (a : Z) (r : tree).

(** A context frame: the hole is the left or the right subtree. *)
Inductive frame :=
  | FL (c : rbcolor) (a : Z) (r : tree)
  | FR (c : rbcolor) (l : tree) (a : Z).

Definition ctx : Type := list frame.

Definition plug1 (f : frame) (t : tree) : tree :=
  match f with
  | FL c a r => T c t a r
  | FR c l a => T c l a t
  end.

Fixpoint plug (k : ctx) (t : tree) : tree :=
  match k with
  | [] => t
  | f :: k => plug k (plug1 f t)
  end.

Fixpoint inorder (t : tree) : list Z :=
  match t with
  | E => []
  | T _ l a r => inorder l ++ a :: inorder r
  end.

(** The nodes of a context before and after the hole. *)
Fixpoint before (k : ctx) : list Z :=
  match k with
  | [] => []
  | FL _ _ _ :: k => before k
  | FR _ l a :: k => before k ++ inorder l ++ [a]
  end.

Fixpoint after (k : ctx) : list Z :=
  match k with
  | [] => []
  | FL _ a r :: k => a :: inorder r ++ after k
  | FR _ _ _ :: k => after k
  end.

(** Normalises concatenations of in-order sequences. *)
Ltac app_norm := cbn; repeat (rewrite <- app_assoc; cbn).

Lemma inorder_plug k t : inorder (plug k t) = before k ++ inorder t ++ after k.
Proof.
  revert t. induction k as [|[c a r|c l a] k IH]; intros t; cbn.
  - by rewrite app_nil_r.
  - rewrite IH. cbn. by rewrite <- !app_assoc.
  - rewrite IH. cbn. by rewrite <- !app_assoc.
Qed.

Lemma plug_app k1 k2 t : plug (k1 ++ k2) t = plug k2 (plug k1 t).
Proof. revert t. induction k1; intros; cbn; auto. Qed.

Definition red (t : tree) : bool :=
  match t with T RB_RED _ _ _ => true | _ => false end.

Definition paint (c : rbcolor) (t : tree) : tree :=
  match t with E => E | T _ l a r => T c l a r end.

Lemma inorder_paint c t : inorder (paint c t) = inorder t.
Proof. by destruct t. Qed.

(** ** The red-black invariant

    [rbt t c n]: [t] satisfies reddblack and blackcount, its root has color
    [c] ([RB_BLACK] for a leaf) and every path to a leaf meets [n] black
    nodes. *)
Inductive rbt : tree → rbcolor → nat → Prop :=
  | rbt_E : rbt E RB_BLACK 0
  | rbt_R l a r n : rbt l RB_BLACK n → rbt r RB_BLACK n → rbt (T RB_RED l a r) RB_RED n
  | rbt_B l a r cl cr n : rbt l cl n → rbt r cr n → rbt (T RB_BLACK l a r) RB_BLACK (S n).

(** A red-black tree has a black root. *)
Definition rb_valid (t : tree) : Prop := ∃ n, rbt t RB_BLACK n.

(** [rbk k c n]: filling the hole of [k] with a tree of black height [n] yields
    a red-black tree, provided the tree is black-rooted when [c] is
    [RB_BLACK]. *)
Inductive rbk : ctx → rbcolor → nat → Prop :=
  | rbk_nil n : rbk [] RB_BLACK n
  | rbk_FLR a r k n : rbt r RB_BLACK n → rbk k RB_RED n → rbk (FL RB_RED a r :: k) RB_BLACK n
  | rbk_FRR l a k n : rbt l RB_BLACK n → rbk k RB_RED n → rbk (FR RB_RED l a :: k) RB_BLACK n
  | rbk_FLB a r k c cr n : rbt r cr n → rbk k c (S n) → rbk (FL RB_BLACK a r :: k) RB_RED n
  | rbk_FRB l a k c cl n : rbt l cl n → rbk k c (S n) → rbk (FR RB_BLACK l a :: k) RB_RED n.

Create HintDb rb.
#[export] Hint Constructors rbt rbk : rb.

Lemma rbk_plug k c n t ct :
  rbk k c n → rbt t ct n → (ct = RB_BLACK ∨ c = RB_RED) → rb_valid (plug k t).
Proof.
  intros Hk. revert t ct. induction Hk; intros t ct Ht Hc; cbn.
  - exists n. destruct Hc as [->|?]; [done|congruence].
  - destruct Hc as [->|?]; [|congruence]. eapply IHHk; eauto with rb.
  - destruct Hc as [->|?]; [|congruence]. eapply IHHk; eauto with rb.
  - eapply IHHk; eauto with rb.
  - eapply IHHk; eauto with rb.
Qed.

(** Taking a red-black tree apart at a node. *)
Lemma plug_rbk k t : rb_valid (plug k t) →
  ∃ c ct n, rbk k c n ∧ rbt t ct n ∧ (ct = RB_BLACK ∨ c = RB_RED).
Proof.
  revert t. induction k as [|f k IH]; intros t Hv.
  - destruct Hv as [n Hn]. exists RB_BLACK, RB_BLACK, n. eauto with rb.
  - apply IH in Hv as (c & ct & n & Hk & Ht & Hc).
    destruct f as [fc a r|fc l a]; inversion Ht; subst.
    + destruct Hc as [?| ->]; [congruence|]. do 3 eexists. split_and!; eauto with rb.
    + do 3 eexists. split_and!; eauto with rb.
    + destruct Hc as [?| ->]; [congruence|]. do 3 eexists. split_and!; eauto with rb.
    + do 3 eexists. split_and!; eauto with rb.
Qed.

Lemma paint_black_rbt t c n : rbt t c n → ∃ n', rbt (paint RB_BLACK t) RB_BLACK n'.
Proof. destruct 1; cbn; eexists; eauto with rb. Qed.

(** ** Logarithmic height *)
Fixpoint height (t : tree) : nat :=
  match t with E => 0 | T _ l _ r => S (height l `max` height r) end.

Lemma rbt_height t c n :
  rbt t c n → (height t ≤ 2 * n + (if decide (c = RB_RED) then 1 else 0))%nat.
Proof.
  induction 1; cbn; repeat case_decide; simplify_eq; lia.
Qed.

Lemma rbt_size t c n : rbt t c n → (2 ^ n ≤ S (length (inorder t)))%nat.
Proof.
  induction 1; cbn; rewrite ?length_app; cbn; rewrite ?Nat.add_0_r; lia.
Qed.

(** The bound on the number of nodes on any path, and the loop fuel used below. *)
Definition rb_depth (t : tree) : nat := (2 * Nat.log2 (S (length (inorder t))))%nat.

Lemma rb_valid_height t : rb_valid t → (height t ≤ rb_depth t)%nat.
Proof.
  intros [n Hn]. pose proof (rbt_height _ _ _ Hn) as Hh.
  pose proof (rbt_size _ _ _ Hn) as Hs. unfold rb_depth.
  rewrite decide_False in Hh by done.
  apply Nat.log2_le_mono in Hs. rewrite Nat.log2_pow2 in Hs by lia. lia.
Qed.

Lemma height_plug k t : (length k + height t ≤ height (plug k t))%nat.
Proof.
  revert t. induction k as [|f k IH]; intros t; cbn; [lia|].
  specialize (IH (plug1 f t)). destruct f; cbn in *; lia.
Qed.

(** ** Rebalancing after an insertion

    [ins_fix k t] rebalances [plug k t], whose only defect may be that the root
    of [t] and its parent are both red. *)
Fixpoint ins_fix (k : ctx) (t : tree) : tree :=
  match k with
  | FL RB_RED p r :: FL gc g u :: k' =>
    if red u then ins_fix k' (T RB_RED (T RB_BLACK t p r) g (paint RB_BLACK u))
    else plug k' (T RB_BLACK t p (T RB_RED r g u))
  | FR RB_RED l p :: FR gc u g :: k' =>
    if red u then ins_fix k' (T RB_RED (paint RB_BLACK u) g (T RB_BLACK l p t))
    else plug k' (T RB_BLACK (T RB_RED u g l) p t)
  | FR RB_RED l p :: FL gc g u :: k' =>
    if red u then ins_fix k' (T RB_RED (T RB_BLACK l p t) g (paint RB_BLACK u))
    else match t with
         | T _ b z c => plug k' (T RB_BLACK (T RB_RED l p b) z (T RB_RED c g u))
         | E => plug k t
         end
  | FL RB_RED p r :: FR gc u g :: k' =>
    if red u then ins_fix k' (T RB_RED (paint RB_BLACK u) g (T RB_BLACK t p r))
    else match t with
         | T _ b z c => plug k' (T RB_BLACK (T RB_RED u g b) z (T RB_RED c p r))
         | E => plug k t
         end
  | _ => plug k t
  end.

(** Induction two frames at a time. *)
Lemma ctx_ind2 (P : ctx → Prop) :
  P [] → (∀ f, P [f]) → (∀ f g k, P k → P (f :: g :: k)) → ∀ k, P k.
Proof.
  intros H0 H1 H2 k. enough (P k ∧ ∀ f, P (f :: k)) by tauto.
  induction k as [|g k [IH1 IH2]]; split; auto.
Qed.

Lemma inorder_ins_fix k t : inorder (ins_fix k t) = inorder (plug k t).
Proof.
  revert t. induction k as [|f|f g k IH] using ctx_ind2; intros t; [done|..].
  - by destruct f as [[] ? ?|[] ? ?].
  - destruct f as [[] p r|[] l p], g as [gc g u|gc u g]; try done; cbn [ins_fix];
      destruct (red u); try (rewrite IH); try (destruct t; [done|]);
      rewrite !inorder_plug; cbn; rewrite ?inorder_paint; by app_norm.
Qed.

Lemma red_rbt u c n : rbt u c n → red u = bool_decide (c = RB_RED).
Proof. by destruct 1. Qed.

Lemma rbt_paint_red u n : rbt u RB_RED n → rbt (paint RB_BLACK u) RB_BLACK (S n).
Proof. inversion 1; subst; cbn; eauto with rb. Qed.

Lemma ins_fix_valid k c n l a r :
  rbk k c n → rbt l RB_BLACK n → rbt r RB_BLACK n →
  rb_valid (paint RB_BLACK (ins_fix k (T RB_RED l a r))).
Proof.
  assert (Hdone : ∀ k n l a r, rbk k RB_RED n → rbt l RB_BLACK n → rbt r RB_BLACK n →
    rb_valid (paint RB_BLACK (plug k (T RB_RED l a r)))).
  { intros k' n' l' a' r' Hk Hl Hr.
    destruct (rbk_plug k' RB_RED n' (T RB_RED l' a' r') RB_RED) as [m Hm]; eauto with rb.
    eapply paint_black_rbt; eauto. }
  assert (Hplug : ∀ k c n t, rbk k c n → rbt t RB_BLACK n → rb_valid (paint RB_BLACK (plug k t))).
  { intros k' c' n' t' Hk Ht. destruct (rbk_plug k' c' n' t' RB_BLACK) as [m Hm]; eauto.
    eapply paint_black_rbt; eauto. }
  revert c n l a r. induction k as [|f|f g k IH] using ctx_ind2; intros c n l a r Hk Hl Hr.
  - cbn. eexists; eauto with rb.
  - inversion Hk; subst; try (by eapply Hdone; eauto with rb);
      match goal with H : rbk [] RB_RED _ |- _ => inversion H end.
  - inversion Hk as [|? ? ? ? Hsib Hk' |? ? ? ? Hsib Hk'| |]; subst;
      try (by eapply Hdone; eauto with rb); inversion Hk' as [| | |? ? ? ? ? ? Hu Hk''|
                                                             ? ? ? ? ? ? Hu Hk'']; subst;
      cbn [ins_fix]; rewrite (red_rbt _ _ _ Hu); case_bool_decide as Hc; subst.
    all: try (eapply IH; eauto using rbt_paint_red with rb; fail).
    all: match type of Hu with rbt _ ?c _ => destruct c; [|done] end.
    all: eapply Hplug; [done|]; eauto with rb.
Qed.

(** ** Rebalancing after a deletion

    In [del_fix k t] the subtree [t] is one black node short. *)
Definition del_rot_left (cp : rbcolor) (t : tree) (p : Z) (sl : tree) (s : Z) (sr : tree) : tree :=
  if red sr then T cp (T RB_BLACK t p sl) s (paint RB_BLACK sr)
  else match sl with
       | T _ b o c => T cp (T RB_BLACK t p b) o (T RB_BLACK c s sr)
       | E => E
       end.

Definition del_rot_right (cp : rbcolor) (sl : tree) (s : Z) (sr : tree) (p : Z) (t : tree) : tree :=
  if red sl then T cp (paint RB_BLACK sl) s (T RB_BLACK sr p t)
  else match sr with
       | T _ b o c => T cp (T RB_BLACK sl s b) o (T RB_BLACK c p t)
       | E => E
       end.

Fixpoint del_fix (k : ctx) (t : tree) : tree :=
  if red t then plug k (paint RB_BLACK t)
  else match k with
  | [] => t
  | FL cp p (T RB_RED (T _ a m b) s sr) :: k' =>
    if red a || red b
    then plug (FL RB_BLACK s sr :: k') (del_rot_left RB_RED t p a m b)
    else plug (FL RB_BLACK s sr :: k') (T RB_BLACK t p (T RB_RED a m b))
  | FL cp p (T RB_BLACK sl s sr) :: k' =>
    if red sl || red sr then plug k' (del_rot_left cp t p sl s sr)
    else del_fix k' (T cp t p (T RB_RED sl s sr))
  | FR cp (T RB_RED sl s (T _ a m b)) p :: k' =>
    if red a || red b
    then plug (FR RB_BLACK sl s :: k') (del_rot_right RB_RED a m b p t)
    else plug (FR RB_BLACK sl s :: k') (T RB_BLACK (T RB_RED a m b) p t)
  | FR cp (T RB_BLACK sl s sr) p :: k' =>
    if red sl || red sr then plug k' (del_rot_right cp sl s sr p t)
    else del_fix k' (T cp (T RB_RED sl s sr) p t)
  | _ => plug k t
  end.

Lemma inorder_del_rot_left cp t p sl s sr :
  red sl || red sr →
  inorder (del_rot_left cp t p sl s sr) = inorder t ++ p :: inorder sl ++ s :: inorder sr.
Proof.
  unfold del_rot_left. destruct (red sr) eqn:Er; cbn.
  - rewrite inorder_paint. by app_norm.
  - destruct sl as [|c b o d]; [by rewrite orb_false_r|]. by app_norm.
Qed.

Lemma inorder_del_rot_right cp t p sl s sr :
  red sl || red sr →
  inorder (del_rot_right cp sl s sr p t) = inorder sl ++ s :: inorder sr ++ p :: inorder t.
Proof.
  unfold del_rot_right. destruct (red sl) eqn:El; cbn.
  - rewrite inorder_paint. by app_norm.
  - destruct sr as [|c b o d]; [done|]. by app_norm.
Qed.

Lemma inorder_del_fix k t : inorder (del_fix k t) = inorder (plug k t).
Proof.
  revert t. induction k as [|f k IH]; intros t; cbn [del_fix];
    (destruct (red t) eqn:Ht; [by rewrite !inorder_plug, inorder_paint|]); [done|].
  destruct f as [cp p [|[] sl s sr]|cp [|[] sl s sr] p]; try done.
  - destruct (red sl || red sr) eqn:Eb.
    + rewrite !inorder_plug, inorder_del_rot_left by (by rewrite Eb). by app_norm.
    + rewrite IH, !inorder_plug. by app_norm.
  - destruct sl as [|? a m b]; [done|]. destruct (red a || red b) eqn:Eb;
      rewrite !inorder_plug, ?inorder_del_rot_left by (by rewrite Eb); by app_norm.
  - destruct (red sl || red sr) eqn:Eb.
    + rewrite !inorder_plug, inorder_del_rot_right by (by rewrite Eb). by app_norm.
    + rewrite IH, !inorder_plug. by app_norm.
  - destruct sr as [|? a m b]; [done|]. destruct (red a || red b) eqn:Eb;
      rewrite !inorder_plug, ?inorder_del_rot_right by (by rewrite Eb); by app_norm.
Qed.

(** A black sibling of black height [S n] is a node. *)
Lemma rbt_black_S t n : rbt t RB_BLACK (S n) →
  ∃ l a r cl cr, t = T RB_BLACK l a r ∧ rbt l cl n ∧ rbt r cr n.
Proof. inversion 1; subst. eauto 10. Qed.

Lemma rbt_not_red t c n : rbt t c n → red t = false → c = RB_BLACK.
Proof. by destruct 1. Qed.

Lemma rbt_is_red t c n : rbt t c n → red t = true → c = RB_RED.
Proof. by destruct 1. Qed.

(** The black height of a node whose children have black height [n]. *)
Definition bump (c : rbcolor) (n : nat) : nat :=
  match c with RB_BLACK => S n | RB_RED => n end.

Lemma rbt_node c l a r n :
  rbt l RB_BLACK n → rbt r RB_BLACK n → rbt (T c l a r) c (bump c n).
Proof. destruct c; eauto with rb. Qed.

Lemma del_rot_left_rbt cp t p sl s sr cl cr n :
  rbt t RB_BLACK n → rbt sl cl n → rbt sr cr n → red sl || red sr →
  rbt (del_rot_left cp t p sl s sr) cp (bump cp (S n)).
Proof.
  intros Ht Hl Hr Hred. unfold del_rot_left. destruct (red sr) eqn:Er.
  - pose proof (rbt_is_red _ _ _ Hr Er); subst.
    apply rbt_node; eauto using rbt_paint_red with rb.
  - rewrite orb_false_r in Hred. apply Is_true_eq_true in Hred.
    pose proof (rbt_is_red _ _ _ Hl Hred); subst. inversion Hl; subst.
    apply rbt_node; eauto with rb.
Qed.

Lemma del_rot_right_rbt cp t p sl s sr cl cr n :
  rbt t RB_BLACK n → rbt sl cl n → rbt sr cr n → red sl || red sr →
  rbt (del_rot_right cp sl s sr p t) cp (bump cp (S n)).
Proof.
  intros Ht Hl Hr Hred. unfold del_rot_right. destruct (red sl) eqn:El.
  - pose proof (rbt_is_red _ _ _ Hl El); subst.
    apply rbt_node; eauto using rbt_paint_red with rb.
  - cbn in Hred. apply Is_true_eq_true in Hred.
    pose proof (rbt_is_red _ _ _ Hr Hred); subst. inversion Hr; subst.
    apply rbt_node; eauto with rb.
Qed.

Lemma del_fix_red k t : red t → del_fix k t = plug k (paint RB_BLACK t).
Proof. intros Ht%Is_true_eq_true. destruct k; cbn [del_fix]; by rewrite Ht. Qed.

Lemma orb_not_red a b ca cb n :
  rbt a ca n → rbt b cb n → red a || red b = false → rbt a RB_BLACK n ∧ rbt b RB_BLACK n.
Proof.
  intros Ha Hb [Hra Hrb]%orb_false_iff.
  pose proof (rbt_not_red _ _ _ Ha Hra). pose proof (rbt_not_red _ _ _ Hb Hrb).
  by subst.
Qed.

Lemma del_fix_valid k c n t ct :
  rbk k c (S n) → rbt t ct n → rb_valid (del_fix k t).
Proof.
  revert c n t ct. induction k as [|f k IH]; intros c n t ct Hk Ht;
    (destruct (red t) eqn:Hr;
      [rewrite del_fix_red by (by rewrite Hr);
       pose proof (rbt_is_red _ _ _ Ht Hr); subst;
       eapply rbk_plug; eauto using rbt_paint_red|]);
    pose proof (rbt_not_red _ _ _ Ht Hr); subst.
  { cbn. rewrite Hr. by exists n. }
  inversion Hk as [|? ? ? ? Hs Hk'|? ? ? ? Hs Hk'|? ? ? c' ? ? Hs Hk'|? ? ? c' ? ? Hs Hk']; subst.
  - apply rbt_black_S in Hs as (sl & s & sr & cl & cr & -> & Hl & Hsr). cbn. rewrite Hr.
    destruct (red sl || red sr) eqn:Eb.
    + eapply rbk_plug; [done| |by right].
      eapply (del_rot_left_rbt RB_RED); eauto.
    + destruct (orb_not_red _ _ _ _ _ Hl Hsr Eb). rewrite del_fix_red by done.
      eapply rbk_plug; cbn; eauto with rb.
  - apply rbt_black_S in Hs as (sl & s & sr & cl & cr & -> & Hl & Hsr). cbn. rewrite Hr.
    destruct (red sl || red sr) eqn:Eb.
    + eapply rbk_plug; [done| |by right].
      eapply (del_rot_right_rbt RB_RED); eauto.
    + destruct (orb_not_red _ _ _ _ _ Hl Hsr Eb). rewrite del_fix_red by done.
      eapply rbk_plug; cbn; eauto with rb.
  - inversion Hs as [|sl s sr ? Hl Hsr|sl s sr ? ? ? Hl Hsr]; subst; cbn [del_fix]; rewrite Hr.
    + apply rbt_black_S in Hl as (x & m & y & cx & cy & -> & Hx & Hy).
      destruct (red x || red y) eqn:Eb.
      * eapply (rbk_plug _ RB_RED (S n)); [eauto with rb| |by right].
        eapply (del_rot_left_rbt RB_RED); eauto.
      * destruct (orb_not_red _ _ _ _ _ Hx Hy Eb).
        eapply (rbk_plug _ RB_RED (S n)); eauto with rb.
    + destruct (red sl || red sr) eqn:Eb.
      * eapply rbk_plug; [done| |by left].
        eapply (del_rot_left_rbt RB_BLACK); eauto.
      * destruct (orb_not_red _ _ _ _ _ Hl Hsr Eb). eapply IH; eauto with rb.
  - inversion Hs as [|sl s sr ? Hl Hsr|sl s sr ? ? ? Hl Hsr]; subst; cbn [del_fix]; rewrite Hr.
    + apply rbt_black_S in Hsr as (x & m & y & cx & cy & -> & Hx & Hy).
      destruct (red x || red y) eqn:Eb.
      * eapply (rbk_plug _ RB_RED (S n)); [eauto with rb| |by right].
        eapply (del_rot_right_rbt RB_RED); eauto.
      * destruct (orb_not_red _ _ _ _ _ Hx Hy Eb).
        eapply (rbk_plug _ RB_RED (S n)); eauto with rb.
    + destruct (red sl || red sr) eqn:Eb.
      * eapply rbk_plug; [done| |by left].
        eapply (del_rot_right_rbt RB_BLACK); eauto.
      * destruct (orb_not_red _ _ _ _ _ Hl Hsr Eb). eapply IH; eauto with rb.
Qed.

(** ** Deleting a node

    [descend k t] walks to the leftmost node of [t]: its context, color, address
    and right subtree. *)
Fixpoint descend (k : ctx) (t : tree) : option (ctx * rbcolor * Z * tree) :=
  match t with
  | E => None
  | T c E a r => Some (k, c, a, r)
  | T c l a r => descend (FL c a r :: k) l
  end.

Definition del_at (k : ctx) (c : rbcolor) (t : tree) : tree :=
  if bool_decide (c = RB_BLACK) then del_fix k t else plug k t.

(** Deleting the node [a] of [plug k (T c l a r)]. *)
Definition rb_remove (k : ctx) (c : rbcolor) (l : tree) (r : tree) : tree :=
  match l, r with
  | E, _ => del_at k c r
  | _, E => del_at k c l
  | _, _ =>
    match descend [] r with
    | Some (ks, cs, s, rs) => del_at (ks ++ FR c l s :: k) cs rs
    | None => E
    end
  end.

Lemma descend_plug k t ks cs s rs :
  descend k t = Some (ks, cs, s, rs) → plug k t = plug ks (T cs E s rs).
Proof.
  revert k. induction t as [|c l IHl a r _]; intros k; [done|].
  cbn. destruct l; [by intros [= <- <- <- <-]|]. intros H. apply IHl in H. done.
Qed.

Lemma descend_app k t k' ks cs s rs :
  descend k t = Some (ks, cs, s, rs) → descend (k ++ k') t = Some (ks ++ k', cs, s, rs).
Proof.
  revert k. induction t as [|c l IHl a r _]; intros k; [done|].
  cbn [descend]. destruct l; [by intros [= <- <- <- <-]|]. intros H.
  rewrite app_comm_cons. by apply IHl.
Qed.

Lemma descend_some c l a r k : is_Some (descend k (T c l a r)).
Proof.
  revert c a r k. induction l as [|c' l IHl a' r' _]; intros c a r k; [eauto|].
  cbn [descend]. apply IHl.
Qed.

(** The leftmost node precedes everything else in the subtree. *)
Lemma descend_before k t ks cs s rs :
  descend k t = Some (ks, cs, s, rs) → before ks = before k.
Proof.
  revert k. induction t as [|c l IHl a r _]; intros k; [done|].
  cbn [descend]. destruct l; [by intros [= <- <- <- <-]|]. intros H. by apply IHl in H.
Qed.

Lemma inorder_del_at k c t : inorder (del_at k c t) = inorder (plug k t).
Proof. unfold del_at. case_bool_decide; [apply inorder_del_fix|done]. Qed.

Lemma before_app k1 k2 : before (k1 ++ k2) = before k2 ++ before k1.
Proof.
  induction k1 as [|[? ? ?|? ? ?] k1 IH]; cbn; [by rewrite app_nil_r|done|].
  by rewrite IH, <- app_assoc.
Qed.

Lemma after_app k1 k2 : after (k1 ++ k2) = after k1 ++ after k2.
Proof.
  induction k1 as [|[? ? ?|? ? ?] k1 IH]; cbn; [done| |done]. by rewrite IH, app_assoc.
Qed.

(** Only the deleted node leaves the sequence. *)
Lemma inorder_rb_remove k c l r :
  inorder (rb_remove k c l r) = before k ++ inorder l ++ inorder r ++ after k.
Proof.
  unfold rb_remove. destruct l as [|cl ll al rl].
  { by rewrite inorder_del_at, inorder_plug. }
  destruct r as [|cr lr ar rr].
  { by rewrite inorder_del_at, inorder_plug. }
  destruct (descend_some cr lr ar rr []) as [[[[ks cs] s] rs] Hd]. rewrite Hd.
  pose proof (descend_plug _ _ _ _ _ _ Hd) as Hp. cbn [plug] in Hp.
  pose proof (descend_before _ _ _ _ _ _ Hd) as Hb.
  rewrite inorder_del_at, inorder_plug, before_app, after_app, Hb.
  rewrite Hp, inorder_plug, Hb. by app_norm.
Qed.

(** Splicing out a node in favour of one of its children keeps the tree valid
    (the node has at most one child when the code does this). *)
Lemma del_at_valid k c l a r t :
  rb_valid (plug k (T c l a r)) → t = l ∨ t = r → rb_valid (del_at k c t).
Proof.
  intros (ck & ct & n & Hk & Ht & Hc)%plug_rbk Hlr. unfold del_at.
  inversion Ht; subst; destruct Hlr; subst.
  1,2: rewrite bool_decide_eq_false_2 by done; destruct Hc as [?| ->]; [done|];
    eapply rbk_plug; eauto.
  all: rewrite bool_decide_eq_true_2 by done; by eapply del_fix_valid.
Qed.

(** Addresses play no role in the invariant. *)
Lemma rb_valid_replace k c l a b r :
  rb_valid (plug k (T c l a r)) → rb_valid (plug k (T c l b r)).
Proof.
  intros (ck & ct & n & Hk & Ht & Hc)%plug_rbk. eapply rbk_plug; [done| |done].
  inversion Ht; subst; eauto with rb.
Qed.

Lemma rb_remove_valid k c l a r :
  rb_valid (plug k (T c l a r)) → rb_valid (rb_remove k c l r).
Proof.
  intros Hv. unfold rb_remove.
  destruct l as [|cl ll al rl]; [by eapply del_at_valid; eauto|].
  destruct r as [|cr lr ar rr]; [by eapply del_at_valid; eauto|].
  destruct (descend_some cr lr ar rr []) as [[[[ks cs] s] rs] Hd]. rewrite Hd.
  pose proof (descend_plug _ _ _ _ _ _ Hd) as Hp. cbn [plug] in Hp.
  apply (del_at_valid _ _ E s rs); [|by right].
  rewrite plug_app. cbn [plug plug1]. rewrite <- Hp. by eapply rb_valid_replace.
Qed.
