(* ===== verification/RbRefine.v ===== *)
(** * Red-black trees: the code refines the abstract algorithm

    [reps st t]: the node store and root pointer [st] represent the tree [t].
    Each operation of [rbtree.c] is simulated by the function of [RbSpec] of
    the same purpose. *)
From S2P Require Import Prelude CList RbTree RbSpec.

Definition addr (t : tree) : Z := match t with E => NULL | T _ _ a _ => a end.

(** The parent of the hole. *)
Definition kaddr (k : ctx) : Z :=
  match k with [] => NULL | FL _ a _ :: _ => a | FR _ _ a :: _ => a end.

Fixpoint rep (hp : gmap Z rbnode) (par : Z) (t : tree) : Prop :=
  match t with
  | E => True
  | T c l a r => hp !! a = Some (RbNode c (addr l) (addr r) par) ∧ rep hp a l ∧ rep hp a r
  end.

Fixpoint repk (hp : gmap Z rbnode) (root : Z) (k : ctx) (hole : Z) : Prop :=
  match k with
  | [] => root = hole
  | FL c a r :: k =>
    hp !! a = Some (RbNode c hole (addr r) (kaddr k)) ∧ rep hp a r ∧ repk hp root k a
  | FR c l a :: k =>
    hp !! a = Some (RbNode c (addr l) hole (kaddr k)) ∧ rep hp a l ∧ repk hp root k a
  end.

(** Addresses are distinct and none is [NULL]. *)
Definition addrs_ok (l : list Z) : Prop := uniq l ∧ NULL ∉ l.

Definition reps (st : rbtree) (t : tree) : Prop :=
  rb_root st = addr t ∧ rep (rb_heap st) NULL t ∧ addrs_ok (inorder t).

(** Nodes that are not in the tree are not touched. *)
Definition outside (t : tree) (st st' : rbtree) : Prop :=
  ∀ x, x ∉ inorder t → rb_heap st' !! x = rb_heap st !! x.

Lemma outside_refl t st : outside t st st.
Proof. done. Qed.

Lemma outside_trans t t' st1 st2 st3 :
  inorder t' = inorder t → outside t st1 st2 → outside t' st2 st3 → outside t st1 st3.
Proof. intros He H1 H2 x Hx. rewrite H2, H1; [done..|]. by rewrite He. Qed.

Lemma rep_plug hp root k t :
  (root = addr (plug k t) ∧ rep hp NULL (plug k t)) ↔
  (repk hp root k (addr t) ∧ rep hp (kaddr k) t).
Proof.
  revert t. induction k as [|[c a r|c l a] k IH]; intros t; cbn [plug repk kaddr].
  - done.
  - rewrite IH. cbn. tauto.
  - rewrite IH. cbn. tauto.
Qed.

Lemma reps_plug st k t :
  reps st (plug k t) ↔
  repk (rb_heap st) (rb_root st) k (addr t) ∧ rep (rb_heap st) (kaddr k) t ∧
  addrs_ok (before k ++ inorder t ++ after k).
Proof.
  unfold reps. rewrite <- inorder_plug.
  pose proof (rep_plug (rb_heap st) (rb_root st) k t). tauto.
Qed.

Lemma rep_frame hp hp' par t :
  (∀ x, x ∈ inorder t → hp' !! x = hp !! x) → rep hp par t → rep hp' par t.
Proof.
  revert par. induction t as [|c l IHl a r IHr]; intros par Hfr; [done|].
  cbn in *. intros (Ha & Hl & Hr). split_and!.
  - rewrite Hfr; [done|]. set_solver.
  - apply IHl; [|done]. set_solver.
  - apply IHr; [|done]. set_solver.
Qed.

Lemma repk_frame hp hp' root k hole :
  (∀ x, x ∈ before k ++ after k → hp' !! x = hp !! x) →
  repk hp root k hole → repk hp' root k hole.
Proof.
  revert hole. induction k as [|[c a r|c l a] k IH]; intros hole Hfr; [done|..].
  - cbn in *. intros (Ha & Hr & Hk). split_and!.
    + rewrite Hfr; [done|]. set_solver.
    + eapply rep_frame; [|done]. set_solver.
    + apply IH; [|done]. set_solver.
  - cbn in *. intros (Ha & Hr & Hk). split_and!.
    + rewrite Hfr; [done|]. set_solver.
    + eapply rep_frame; [|done]. set_solver.
    + apply IH; [|done]. set_solver.
Qed.

(** ** Symbolic execution *)
Lemma rb_load_ok {A} (f : rbnode → A) st p n :
  rb_heap st !! p = Some n → rb_load f p st = Ok (f n, st).
Proof. intros H. unfold rb_load. apply load_some. by rewrite H. Qed.

Lemma rb_store_ok f st p n :
  rb_heap st !! p = Some n →
  rb_store f p st = Ok (tt, RbTree (rb_root st) (<[p := f n]> (rb_heap st))).
Proof. intros H. unfold rb_store. by rewrite H. Qed.

Lemma addr_elem t : addr t ≠ NULL → addr t ∈ inorder t.
Proof. destruct t; cbn; [done|]. set_solver. Qed.

Lemma addr_node t : NULL ∉ inorder t → rbtree_is_node (addr t) = match t with E => false | _ => true end.
Proof.
  destruct t; cbn; intros Hn; [done|]. apply bool_decide_eq_true_2.
  intros ->. set_solver.
Qed.

(** [if (rbtree_is_node (x)) x->parent = p] on the root [x] of a subtree. *)
Lemma reparent_exec root hp par p t :
  rep hp par t → addrs_ok (inorder t) →
  ∃ hp', (if rbtree_is_node (addr t) then rb_store (set_parent p) (addr t) else mret ())
           (RbTree root hp) = Ok (tt, RbTree root hp') ∧
    rep hp' p t ∧ (∀ x, x ∉ inorder t → hp' !! x = hp !! x).
Proof.
  intros Ht [Hu Hnull]. rewrite addr_node by done. destruct t as [|c l a r]; [by exists hp|].
  destruct Ht as (Ha & Hl & Hr). cbn in *.
  erewrite rb_store_ok by done. eexists. split; [done|]. cbn. split_and!.
  - by rewrite lookup_insert_eq.
  - eapply rep_frame; [|done]. intros x Hx. rewrite lookup_insert_ne; [done|]. uniq_tac.
  - eapply rep_frame; [|done]. intros x Hx. rewrite lookup_insert_ne; [done|]. uniq_tac.
  - intros x Hx. rewrite lookup_insert_ne; [done|]. set_solver.
Qed.

(** One step of a tree routine on a known store. *)
Ltac rblookup :=
  cbn [rb_heap rb_root rb_color rb_left rb_right rb_parent
       set_color set_left set_right set_parent];
  repeat first [ rewrite lookup_insert_eq
               | rewrite lookup_insert_ne by (assumption || congruence || uniq_tac) ];
  first [eassumption | reflexivity].

Ltac rbstep :=
  first
    [ rewrite bind_assoc
    | rewrite bind_ret
    | erewrite bind_ok by (apply rb_load_ok; rblookup)
    | erewrite bind_ok by (apply rb_store_ok; rblookup)
    | erewrite rb_store_ok by rblookup ];
  cbn [rb_heap rb_root rb_color rb_left rb_right rb_parent
       set_color set_left set_right set_parent].

Lemma has_right_exec st p n :
  rb_heap st !! p = Some n →
  rbtree_has_right p st = Ok (rbtree_is_node (rb_right n), st).
Proof. intros Hp. unfold rbtree_has_right. by erewrite bind_ok by (by apply rb_load_ok). Qed.

Lemma has_left_exec st p n :
  rb_heap st !! p = Some n →
  rbtree_has_left p st = Ok (rbtree_is_node (rb_left n), st).
Proof. intros Hp. unfold rbtree_has_left. by erewrite bind_ok by (by apply rb_load_ok). Qed.

(** The link that holds the hole of a context. *)
Definition klink (k : ctx) : clink :=
  match k with [] => RootLink | FL _ a _ :: _ => LeftLink a | FR _ _ a :: _ => RightLink a end.

Lemma set_clink_exec root hp k hole new :
  repk hp root k hole → addrs_ok (before k ++ after k) →
  ∃ root' hp', set_clink (klink k) new (RbTree root hp) = Ok (tt, RbTree root' hp') ∧
    repk hp' root' k new ∧ (∀ x, x ∉ before k ++ after k → hp' !! x = hp !! x).
Proof.
  intros Hk [Hu _]. destruct k as [|[c a r|c l a] k]; cbn [klink set_clink].
  - by exists new, hp.
  - destruct Hk as (Ha & Hr & Hk). rbstep. do 2 eexists. split; [done|]. cbn [before after] in *.
    cbn [repk]. split_and!.
    + by rewrite lookup_insert_eq.
    + eapply rep_frame; [|done]. intros x Hx. rewrite lookup_insert_ne; [done|uniq_tac].
    + eapply repk_frame; [|done]. intros x Hx. rewrite lookup_insert_ne; [done|uniq_tac].
    + intros x Hx. rewrite lookup_insert_ne; [done|]. set_solver.
  - destruct Hk as (Ha & Hr & Hk). rbstep. do 2 eexists. split; [done|]. cbn [before after] in *.
    cbn [repk]. split_and!.
    + by rewrite lookup_insert_eq.
    + eapply rep_frame; [|done]. intros x Hx. rewrite lookup_insert_ne; [done|uniq_tac].
    + eapply repk_frame; [|done]. intros x Hx. rewrite lookup_insert_ne; [done|uniq_tac].
    + intros x Hx. rewrite lookup_insert_ne; [done|]. set_solver.
Qed.

(** Stores through the parent pointer reach the same link. *)
Lemma relink_exec root hp k old new :
  repk hp root k old → addrs_ok (before k ++ after k) → old ∉ before k ++ after k → old ≠ NULL →
  (if rbtree_is_node (kaddr k) then
     left ← rb_load rb_left (kaddr k);
     if bool_decide (old = left)
     then rb_store (set_left new) (kaddr k)
     else rb_store (set_right new) (kaddr k)
   else set_root new) (RbTree root hp) = set_clink (klink k) new (RbTree root hp).
Proof.
  intros Hk [_ Hnull] Hold Hold0. unfold rbtree_is_node, RBTREE_NULL.
  destruct k as [|[c a r|c l a] k]; cbn [kaddr klink set_clink]; [done|..];
    destruct Hk as (Ha & Hr & Hk); cbn [before after] in *;
    rewrite bool_decide_eq_true_2 by set_solver; rbstep.
  - by rewrite bool_decide_eq_true_2.
  - rewrite bool_decide_eq_false_2; [done|]. intros ->.
    apply Hold, elem_of_app. left. apply elem_of_app. right.
    apply elem_of_app. left. by apply addr_elem.
Qed.

(** [__rbtree_move_parent] replaces the content of the hole. *)
Lemma move_parent_exec root hp k old new no :
  repk hp root k old → hp !! old = Some no → rb_parent no = kaddr k →
  addrs_ok (before k ++ after k) → old ∉ before k ++ after k → old ≠ NULL →
  new ∉ before k ++ after k → (new = NULL ∨ is_Some (hp !! new)) →
  ∃ root' hp', __rbtree_move_parent old new (RbTree root hp) = Ok (kaddr k, RbTree root' hp') ∧
    repk hp' root' k new ∧
    (∀ x, x ∉ before k ++ after k → x ≠ new → hp' !! x = hp !! x) ∧
    (∀ n, new ≠ NULL → hp !! new = Some n → hp' !! new = Some (set_parent (kaddr k) n)) ∧
    (new = NULL → hp' !! NULL = hp !! NULL).
Proof.
  intros Hk Hold Hpar Hok Hnin Hold0 Hnk Hnew.
  unfold __rbtree_move_parent. erewrite bind_ok by (by apply rb_load_ok). rewrite Hpar.
  assert (∃ hp1,
    (if rbtree_is_node new then rb_store (set_parent (kaddr k)) new else mret ())
      (RbTree root hp) = Ok ((), RbTree root hp1) ∧
    (∀ x, x ≠ new → hp1 !! x = hp !! x) ∧
    (∀ n, new ≠ NULL → hp !! new = Some n → hp1 !! new = Some (set_parent (kaddr k) n)) ∧
    (new = NULL → hp1 = hp)) as (hp1 & Hexec & Hfr & Hn1 & Hn2).
  { unfold rbtree_is_node, RBTREE_NULL. case_bool_decide as Hn0.
    - destruct Hnew as [?|[n Hn]]; [done|]. rbstep. eexists. split; [done|]. split_and!.
      + intros x Hx. by rewrite lookup_insert_ne.
      + intros n' _ Hn'. rewrite lookup_insert_eq. congruence.
      + done.
    - exists hp. split_and!; [done..| |done]. by intros. }
  erewrite bind_ok by exact Hexec.
  assert (Hk1 : repk hp1 root k old).
  { eapply repk_frame; [|done]. intros x Hx. apply Hfr. by intros ->. }
  destruct (set_clink_exec root hp1 k old new Hk1 Hok) as (root' & hp' & Hset & Hk' & Hfr').
  erewrite bind_ok by (rewrite relink_exec by done; exact Hset).
  exists root', hp'. split; [done|]. split; [done|]. split_and!.
  - intros x Hx Hxn. by rewrite Hfr', Hfr.
  - intros n Hn0 Hn. by rewrite Hfr', (Hn1 n).
  - intros ->. by rewrite Hfr', Hn2.
Qed.

(** ** Rotations *)
Ltac sub_uniq Hu :=
  let z := fresh "z" in
  intros z; specialize (Hu z); repeat rewrite ?occ_app, ?occ_cons in Hu;
  repeat rewrite ?occ_app, ?occ_cons; cbn [occ] in *; lia.

Lemma child_reparent_exec (f : rbnode → Z) root hp node n par b p :
  hp !! node = Some n → f n = addr b → rep hp par b → addrs_ok (inorder b) →
  ∃ hp', (if rbtree_is_node (addr b)
          then v ← rb_load f node; rb_store (set_parent p) v else mret ()) (RbTree root hp)
           = Ok (tt, RbTree root hp') ∧
    rep hp' p b ∧ (∀ x, x ∉ inorder b → hp' !! x = hp !! x).
Proof.
  intros Hn Hf Hb Hok. destruct (reparent_exec root hp par p b Hb Hok) as (hp' & He & ?).
  exists hp'. split; [|done]. rewrite <- He. destruct (rbtree_is_node _); [|done].
  erewrite bind_ok by (by apply rb_load_ok). by rewrite Hf.
Qed.

(** The tail of both rotations: the child takes the place of the pivot. *)
Lemma rotate_finish root hp k p x np nx :
  repk hp root k p → hp !! p = Some np → rb_parent np = kaddr k → hp !! x = Some nx →
  addrs_ok (before k ++ p :: x :: after k) →
  ∃ root' hp', (__rbtree_move_parent p x ;; rb_store (set_parent x) p) (RbTree root hp)
      = Ok (tt, RbTree root' hp') ∧
    repk hp' root' k x ∧ hp' !! p = Some (set_parent x np) ∧
    hp' !! x = Some (set_parent (kaddr k) nx) ∧
    (∀ y, y ∉ before k ++ p :: x :: after k → hp' !! y = hp !! y).
Proof.
  intros Hk Hp Hpar Hx [Hu Hn].
  destruct (move_parent_exec root hp k p x np Hk Hp Hpar) as (root' & hp' & He & Hk' & Hfr & Hnx & _).
  { split; [|set_solver]. intros z. specialize (Hu z). rewrite occ_app, !occ_cons in Hu.
    rewrite occ_app. lia. }
  { uniq_tac. }
  { intros ->. set_solver. }
  { uniq_tac. }
  { eauto. }
  erewrite bind_ok by exact He. assert (Hp' : hp' !! p = Some np) by (rewrite Hfr; [done|uniq_tac..]).
  rbstep. do 2 eexists. split; [done|]. cbn [rb_heap]. split_and!.
  - eapply repk_frame; [|done]. intros y Hy. rewrite lookup_insert_ne; [done|uniq_tac].
  - by rewrite lookup_insert_eq.
  - rewrite lookup_insert_ne by uniq_tac. apply Hnx; [|done]. intros ->. set_solver.
  - intros y Hy. rewrite lookup_insert_ne by set_solver. apply Hfr; set_solver.
Qed.

(** Both rotations after the first two stores: the inner subtree [b] moves to
    the pivot [p], and [x] takes the place of [p]. *)
Lemma rotate_tail (f : rbnode → Z) root hp k p x np nx b :
  repk hp root k p → hp !! p = Some np → rb_parent np = kaddr k → hp !! x = Some nx →
  f np = addr b → rep hp x b → addrs_ok (before k ++ p :: x :: inorder b ++ after k) →
  ∃ root' hp',
    ((if rbtree_is_node (addr b)
      then v ← rb_load f p; rb_store (set_parent p) v else mret ()) ;;
     __rbtree_move_parent p x ;; rb_store (set_parent x) p) (RbTree root hp)
      = Ok (tt, RbTree root' hp') ∧
    repk hp' root' k x ∧ hp' !! p = Some (set_parent x np) ∧
    hp' !! x = Some (set_parent (kaddr k) nx) ∧ rep hp' p b ∧
    (∀ y, y ∉ before k ++ p :: x :: inorder b ++ after k → hp' !! y = hp !! y).
Proof.
  intros Hk Hp Hpar Hx Hf Hb [Hu Hn].
  destruct (child_reparent_exec f root hp p np x b p Hp Hf Hb) as (hp1 & He1 & Hb1 & Hfr1).
  { split; [sub_uniq Hu|set_solver]. }
  erewrite bind_ok by exact He1.
  destruct (rotate_finish root hp1 k p x np nx) as (root' & hp' & He & Hk' & Hp' & Hx' & Hfr').
  - eapply repk_frame; [|done]. intros y Hy. apply Hfr1. uniq_tac.
  - rewrite Hfr1; [done|uniq_tac].
  - done.
  - rewrite Hfr1; [done|uniq_tac].
  - split; [sub_uniq Hu|set_solver].
  - do 2 eexists. split; [exact He|]. split_and!; [done..| |].
    + eapply rep_frame; [|done]. intros y Hy. apply Hfr'. uniq_tac.
    + intros y Hy. rewrite Hfr', Hfr1; [done|set_solver..].
Qed.

Lemma rotate_left_spec st k cp a p b cc x d :
  reps st (plug k (T cp a p (T cc b x d))) →
  ∃ st', __rbtree_rotate_left p st = Ok (tt, st') ∧
    reps st' (plug k (T cc (T cp a p b) x d)) ∧
    outside (plug k (T cp a p (T cc b x d))) st st'.
Proof.
  destruct st as [root hp]. rewrite reps_plug. cbn [rb_heap rb_root addr rep inorder].
  intros (Hk & (Hp & Ha & Hx & Hb & Hd) & Hu & Hnull).
  unfold __rbtree_rotate_left. do 4 rbstep.
  set (hp1 := <[x:=_]> (<[p:=_]> hp)).
  assert (Hp1 : hp1 !! p = Some (RbNode cp (addr a) (addr b) (kaddr k))).
  { unfold hp1. by rewrite lookup_insert_ne, lookup_insert_eq by uniq_tac. }
  assert (Hx1 : hp1 !! x = Some (RbNode cc p (addr d) p)) by apply lookup_insert_eq.
  assert (Hfr1 : ∀ y, y ≠ p → y ≠ x → hp1 !! y = hp !! y).
  { intros y ??. unfold hp1. by rewrite !lookup_insert_ne. }
  clearbody hp1. erewrite bind_ok by (apply has_right_exec; exact Hp1). cbn [rb_right].
  assert (Hk1 : repk hp1 root k p).
  { eapply repk_frame; [|done]. intros y Hy. apply Hfr1; uniq_tac. }
  assert (Hb1 : rep hp1 x b).
  { eapply rep_frame; [|done]. intros y Hy. apply Hfr1; uniq_tac. }
  destruct (rotate_tail rb_right _ _ _ _ _ _ _ _ Hk1 Hp1 eq_refl Hx1 eq_refl Hb1) as
    (root' & hp' & He & Hk' & Hp' & Hx' & Hb' & Hfr').
  { split; [sub_uniq Hu|set_solver]. }
  eexists. split; [exact He|]. rewrite reps_plug. cbn [rb_heap rb_root addr rep inorder].
  split_and!; try done.
  - eapply rep_frame; [|done]. intros y Hy. rewrite Hfr', Hfr1; [done|uniq_tac..].
  - eapply rep_frame; [|done]. intros y Hy. rewrite Hfr', Hfr1; [done|uniq_tac..].
  - split; [sub_uniq Hu|set_solver].
  - intros y. rewrite inorder_plug. cbn [inorder rb_heap]. intros Hy.
    rewrite Hfr', Hfr1; [done|set_solver..].
Qed.

Lemma rotate_right_spec st k cp a p b cc x d :
  reps st (plug k (T cp (T cc d x b) p a)) →
  ∃ st', __rbtree_rotate_right p st = Ok (tt, st') ∧
    reps st' (plug k (T cc d x (T cp b p a))) ∧
    outside (plug k (T cp (T cc d x b) p a)) st st'.
Proof.
  destruct st as [root hp]. rewrite reps_plug. cbn [rb_heap rb_root addr rep inorder].
  intros (Hk & (Hp & (Hx & Hd & Hb) & Ha) & Hu & Hnull).
  unfold __rbtree_rotate_right. do 4 rbstep.
  set (hp1 := <[x:=_]> (<[p:=_]> hp)).
  assert (Hp1 : hp1 !! p = Some (RbNode cp (addr b) (addr a) (kaddr k))).
  { unfold hp1. by rewrite lookup_insert_ne, lookup_insert_eq by uniq_tac. }
  assert (Hx1 : hp1 !! x = Some (RbNode cc (addr d) p p)) by apply lookup_insert_eq.
  assert (Hfr1 : ∀ y, y ≠ p → y ≠ x → hp1 !! y = hp !! y).
  { intros y ??. unfold hp1. by rewrite !lookup_insert_ne. }
  clearbody hp1. erewrite bind_ok by (apply has_left_exec; exact Hp1). cbn [rb_left].
  assert (Hk1 : repk hp1 root k p).
  { eapply repk_frame; [|done]. intros y Hy. apply Hfr1; uniq_tac. }
  assert (Hb1 : rep hp1 x b).
  { eapply rep_frame; [|done]. intros y Hy. apply Hfr1; uniq_tac. }
  destruct (rotate_tail rb_left _ _ _ _ _ _ _ _ Hk1 Hp1 eq_refl Hx1 eq_refl Hb1) as
    (root' & hp' & He & Hk' & Hp' & Hx' & Hb' & Hfr').
  { split; [sub_uniq Hu|set_solver]. }
  eexists. split; [exact He|]. rewrite reps_plug. cbn [rb_heap rb_root addr rep inorder].
  split_and!; try done.
  - eapply rep_frame; [|done]. intros y Hy. rewrite Hfr', Hfr1; [done|uniq_tac..].
  - eapply rep_frame; [|done]. intros y Hy. rewrite Hfr', Hfr1; [done|uniq_tac..].
  - split; [sub_uniq Hu|set_solver].
  - intros y. rewrite inorder_plug. cbn [inorder rb_heap]. intros Hy.
    rewrite Hfr', Hfr1; [done|set_solver..].
Qed.

(** ** Reading and painting a node of the tree *)
Lemma reps_rep st k t : reps st (plug k t) → rep (rb_heap st) (kaddr k) t.
Proof. rewrite reps_plug. tauto. Qed.

Lemma reps_null st k t : reps st (plug k t) → NULL ∉ before k ++ inorder t ++ after k.
Proof. rewrite reps_plug. unfold addrs_ok. tauto. Qed.

Lemma reps_uniq st k t : reps st (plug k t) → uniq (before k ++ inorder t ++ after k).
Proof. rewrite reps_plug. unfold addrs_ok. tauto. Qed.

Lemma reps_repk st k t : reps st (plug k t) → repk (rb_heap st) (rb_root st) k (addr t).
Proof. rewrite reps_plug. tauto. Qed.

Lemma reps_lookup st k c l a r :
  reps st (plug k (T c l a r)) →
  rb_heap st !! a = Some (RbNode c (addr l) (addr r) (kaddr k)).
Proof. intros (Ha & _)%reps_rep. done. Qed.

Lemma is_red_exec st k t :
  reps st (plug k t) → rbtree_is_red (addr t) st = Ok (red t, st).
Proof.
  intros H. pose proof (reps_null _ _ _ H) as Hn. unfold rbtree_is_red.
  rewrite addr_node by set_solver. destruct t as [|c l a r]; [done|]. cbn [addr negb].
  erewrite bind_ok by (by eapply rb_load_ok, reps_lookup). by destruct c.
Qed.

Lemma is_black_exec st k t :
  reps st (plug k t) → rbtree_is_black (addr t) st = Ok (negb (red t), st).
Proof.
  intros H. pose proof (reps_null _ _ _ H) as Hn. unfold rbtree_is_black.
  rewrite addr_node by set_solver. destruct t as [|c l a r]; [done|]. cbn [addr negb].
  erewrite bind_ok by (by eapply rb_load_ok, reps_lookup). by destruct c.
Qed.

Lemma paint_exec c' st k c l a r :
  reps st (plug k (T c l a r)) →
  ∃ st', rb_store (set_color c') a st = Ok (tt, st') ∧
    reps st' (plug k (T c' l a r)) ∧ outside (plug k (T c l a r)) st st'.
Proof.
  intros H. erewrite rb_store_ok by (by eapply reps_lookup). eexists. split; [done|].
  pose proof (reps_lookup _ _ _ _ _ _ H) as Hl.
  apply reps_plug in H as (Hk & (_ & Hrl & Hrr) & Hu & Hn). rewrite reps_plug.
  cbn [rb_heap rb_root addr rep inorder] in *. split; [split_and!; try done|].
  - eapply repk_frame; [|done]. intros y Hy. rewrite lookup_insert_ne; [done|uniq_tac].
  - by rewrite lookup_insert_eq.
  - eapply rep_frame; [|done]. intros y Hy. rewrite lookup_insert_ne; [done|uniq_tac].
  - eapply rep_frame; [|done]. intros y Hy. rewrite lookup_insert_ne; [done|uniq_tac].
  - intros y. rewrite inorder_plug. cbn [inorder rb_heap]. intros Hy.
    rewrite lookup_insert_ne; [done|set_solver].
Qed.

(** The root address of a subtree is not the one of a disjoint subtree. *)
Lemma addr_ne t1 t2 : addr t1 ≠ NULL → NULL ∉ inorder t1 →
  uniq (inorder t1 ++ inorder t2) → addr t1 ≠ addr t2.
Proof.
  intros Hn _ Hu Heq. pose proof (addr_elem t1 Hn) as H1.
  rewrite Heq in Hn. pose proof (addr_elem t2 Hn) as H2. rewrite <- Heq in H2.
  specialize (Hu (addr t1)). rewrite occ_app in Hu. apply elem_of_occ in H1, H2. lia.
Qed.

(** [rbcall H He] runs a call whose specification is [H]. *)
Ltac rbcall H st' Hr Ho :=
  let He := fresh "He" in
  destruct H as (st' & He & Hr & Ho);
  first [erewrite bind_ok by exact He | rewrite He]; clear He.
(** Loads of fields of the nodes that the shape of the tree shows. *)
Ltac rbsee H :=
  let H' := fresh "Hsee" in
  pose proof (reps_rep _ _ _ H) as H'; cbn [rep addr kaddr plug1] in H'; destruct_and? H'.

(** ** Insertion *)
Definition kred (k : ctx) : bool :=
  match k with FL RB_RED _ _ :: _ | FR RB_RED _ _ :: _ => true | _ => false end.

Lemma kred_exec st k t : reps st (plug k t) → rbtree_is_red (kaddr k) st = Ok (kred k, st).
Proof.
  intros H. destruct k as [|f k]; [done|].
  pose proof (is_red_exec st k (plug1 f t) H) as He. by destruct f as [[] ??|[] ??].
Qed.

Lemma insert_loop_stop fuel st k c l a r :
  reps st (plug k (T c l a r)) → kred k = false →
  __rbtree_rebalance_insert_loop (S fuel) a st = Ok (tt, st).
Proof.
  intros Hr Hk. cbn [__rbtree_rebalance_insert_loop].
  rbsee Hr. rbstep. erewrite bind_ok by (by eapply kred_exec). by rewrite Hk.
Qed.

(** The red uncle: parent, uncle and grandparent change color. *)
Lemma recolor_left {A} (rest : KM rbtree A) st k gc x p s g u :
  reps st (plug k (T gc (T RB_RED x p s) g u)) → red u = true →
  ∃ st', (rb_store (set_color RB_BLACK) (addr u) ;; rb_store (set_color RB_BLACK) p ;;
          rb_store (set_color RB_RED) g ;; rest) st = rest st' ∧
    reps st' (plug k (T RB_RED (T RB_BLACK x p s) g (paint RB_BLACK u))) ∧
    outside (plug k (T gc (T RB_RED x p s) g u)) st st'.
Proof.
  intros Hr Hu. destruct u as [|[] ul ua ur]; try done. cbn [addr paint].
  rbcall (paint_exec RB_BLACK st (FR gc (T RB_RED x p s) g :: k) RB_RED ul ua ur Hr) st1 Hr1 Ho1.
  rbcall (paint_exec RB_BLACK st1 (FL gc g (T RB_BLACK ul ua ur) :: k) RB_RED x p s Hr1) st2 Hr2 Ho2.
  rbcall (paint_exec RB_RED st2 k gc (T RB_BLACK x p s) g (T RB_BLACK ul ua ur) Hr2) st3 Hr3 Ho3.
  exists st3. split_and!; [done..|].
  eapply outside_trans; [|exact Ho1|eapply outside_trans; [|exact Ho2|exact Ho3]];
    rewrite !inorder_plug; by app_norm.
Qed.

Lemma recolor_right {A} (rest : KM rbtree A) st k gc x p s g u :
  reps st (plug k (T gc u g (T RB_RED s p x))) → red u = true →
  ∃ st', (rb_store (set_color RB_BLACK) (addr u) ;; rb_store (set_color RB_BLACK) p ;;
          rb_store (set_color RB_RED) g ;; rest) st = rest st' ∧
    reps st' (plug k (T RB_RED (paint RB_BLACK u) g (T RB_BLACK s p x))) ∧
    outside (plug k (T gc u g (T RB_RED s p x))) st st'.
Proof.
  intros Hr Hu. destruct u as [|[] ul ua ur]; try done. cbn [addr paint].
  rbcall (paint_exec RB_BLACK st (FL gc g (T RB_RED s p x) :: k) RB_RED ul ua ur Hr) st1 Hr1 Ho1.
  rbcall (paint_exec RB_BLACK st1 (FR gc (T RB_BLACK ul ua ur) g :: k) RB_RED s p x Hr1) st2 Hr2 Ho2.
  rbcall (paint_exec RB_RED st2 k gc (T RB_BLACK ul ua ur) g (T RB_BLACK s p x) Hr2) st3 Hr3 Ho3.
  exists st3. split_and!; [done..|].
  eapply outside_trans; [|exact Ho1|eapply outside_trans; [|exact Ho2|exact Ho3]];
    rewrite !inorder_plug; by app_norm.
Qed.

(** The black uncle: the grandparent rotates below its child [p]. *)
Lemma rotate_paint_right {A} (rest : KM rbtree A) st k gc pc x p s g u :
  reps st (plug k (T gc (T pc x p s) g u)) →
  ∃ st', (__rbtree_rotate g false ;; rb_store (set_color RB_RED) g ;;
          rb_store (set_color RB_BLACK) p ;; rest) st = rest st' ∧
    reps st' (plug k (T RB_BLACK x p (T RB_RED s g u))) ∧
    outside (plug k (T gc (T pc x p s) g u)) st st'.
Proof.
  intros Hr. cbn [__rbtree_rotate].
  rbcall (rotate_right_spec st k gc u g s pc p x Hr) st1 Hr1 Ho1.
  rbcall (paint_exec RB_RED st1 (FR pc x p :: k) gc s g u Hr1) st2 Hr2 Ho2.
  rbcall (paint_exec RB_BLACK st2 k pc x p (T RB_RED s g u) Hr2) st3 Hr3 Ho3.
  exists st3. split_and!; [done..|].
  eapply outside_trans; [|exact Ho1|eapply outside_trans; [|exact Ho2|exact Ho3]];
    rewrite !inorder_plug; by app_norm.
Qed.

Lemma rotate_paint_left {A} (rest : KM rbtree A) st k gc pc x p s g u :
  reps st (plug k (T gc u g (T pc s p x))) →
  ∃ st', (__rbtree_rotate g true ;; rb_store (set_color RB_RED) g ;;
          rb_store (set_color RB_BLACK) p ;; rest) st = rest st' ∧
    reps st' (plug k (T RB_BLACK (T RB_RED u g s) p x)) ∧
    outside (plug k (T gc u g (T pc s p x))) st st'.
Proof.
  intros Hr. cbn [__rbtree_rotate].
  rbcall (rotate_left_spec st k gc u g s pc p x Hr) st1 Hr1 Ho1.
  rbcall (paint_exec RB_RED st1 (FL pc p x :: k) gc u g s Hr1) st2 Hr2 Ho2.
  rbcall (paint_exec RB_BLACK st2 k pc (T RB_RED u g s) p x Hr2) st3 Hr3 Ho3.
  exists st3. split_and!; [done..|].
  eapply outside_trans; [|exact Ho1|eapply outside_trans; [|exact Ho2|exact Ho3]];
    rewrite !inorder_plug; by app_norm.
Qed.

(** Side conditions on the nodes read: [outside] for trees with the same nodes. *)
Ltac same_nodes := rewrite ?inorder_plug; cbn [inorder]; rewrite ?inorder_paint; by app_norm.

(** The root addresses of two sibling subtrees differ. *)
Lemma reps_lt_sides st k c l a r :
  reps st (plug k (T c l a r)) → r ≠ E → addr l ≠ addr r.
Proof.
  intros H Hr. pose proof (reps_uniq _ _ _ H) as Hu. pose proof (reps_null _ _ _ H) as Hn.
  destruct r as [|cr rl b rr]; [done|]. cbn [inorder addr] in *. intros <-.
  assert (Ha : addr l ∈ inorder l) by (apply addr_elem; intros E; rewrite E in Hn; set_solver).
  uniq_tac.
Qed.

(** One round of the loop, when the parent [p] is red: it either moves two levels
    up or ends the loop.  The four lemmas are the four shapes of the path. *)
Ltac ins_head Hr fp :=
  cbn [__rbtree_rebalance_insert_loop]; rbsee Hr; rbstep;
  match type of Hr with reps ?st _ =>
    rewrite (bind_ok _ _ st true st) by exact (kred_exec st fp (T RB_RED _ _ _) Hr) end;
  repeat rbstep.

Lemma insert_round_LL fuel st k gc l a r p s g u :
  reps st (plug k (T gc (T RB_RED (T RB_RED l a r) p s) g u)) → (1 ≤ fuel)%nat →
  ∃ st1, outside (plug k (T gc (T RB_RED (T RB_RED l a r) p s) g u)) st st1 ∧
    if red u
    then __rbtree_rebalance_insert_loop (S fuel) a st = __rbtree_rebalance_insert_loop fuel g st1 ∧
         reps st1 (plug k (T RB_RED (T RB_BLACK (T RB_RED l a r) p s) g (paint RB_BLACK u)))
    else __rbtree_rebalance_insert_loop (S fuel) a st = Ok (tt, st1) ∧
         reps st1 (plug k (T RB_BLACK (T RB_RED l a r) p (T RB_RED s g u))).
Proof.
  intros Hr Hf. ins_head Hr (FL RB_RED p s :: FL gc g u :: k).
  rewrite bool_decide_eq_true_2 by done. repeat rbstep.
  rewrite (bind_ok _ _ _ (red u) st)
    by exact (is_red_exec st (FR gc (T RB_RED (T RB_RED l a r) p s) g :: k) u Hr).
  destruct (red u) eqn:Hu.
  - destruct (recolor_left (__rbtree_rebalance_insert_loop fuel g) _ _ _ _ _ _ _ _ Hr Hu)
      as (st1 & He & Hr1 & Ho1). exists st1. split; [done|].
    split; [|done]. exact He.
  - repeat rbstep. rewrite !bool_decide_eq_true_2 by done. cbn [eqb negb]. repeat rbstep.
    destruct (rotate_paint_right (__rbtree_rebalance_insert_loop fuel a) _ _ _ _ _ _ _ _ _ Hr)
      as (st1 & He & Hr1 & Ho1).
    exists st1. split_and!; [done| |done]. rewrite He. destruct fuel; [lia|].
    by apply (insert_loop_stop fuel st1 (FL RB_BLACK p (T RB_RED s g u) :: k) RB_RED l a r Hr1).
Qed.

Lemma insert_round_RR fuel st k gc l a r p s g u :
  reps st (plug k (T gc u g (T RB_RED s p (T RB_RED l a r)))) → (1 ≤ fuel)%nat →
  ∃ st1, outside (plug k (T gc u g (T RB_RED s p (T RB_RED l a r)))) st st1 ∧
    if red u
    then __rbtree_rebalance_insert_loop (S fuel) a st = __rbtree_rebalance_insert_loop fuel g st1 ∧
         reps st1 (plug k (T RB_RED (paint RB_BLACK u) g (T RB_BLACK s p (T RB_RED l a r))))
    else __rbtree_rebalance_insert_loop (S fuel) a st = Ok (tt, st1) ∧
         reps st1 (plug k (T RB_BLACK (T RB_RED u g s) p (T RB_RED l a r))).
Proof.
  intros Hr Hf. ins_head Hr (FR RB_RED s p :: FR gc u g :: k).
  pose proof (reps_lt_sides st k gc u g (T RB_RED s p (T RB_RED l a r)) Hr ltac:(done)) as Hne.
  rewrite bool_decide_eq_false_2 by done. repeat rbstep.
  rewrite (bind_ok _ _ _ (red u) st)
    by exact (is_red_exec st (FL gc g (T RB_RED s p (T RB_RED l a r)) :: k) u Hr).
  destruct (red u) eqn:Hu.
  - destruct (recolor_right (__rbtree_rebalance_insert_loop fuel g) _ _ _ _ _ _ _ _ Hr Hu)
      as (st1 & He & Hr1 & Ho1). exists st1. split; [done|].
    split; [|done]. exact He.
  - pose proof (reps_lt_sides st (FR gc u g :: k) RB_RED s p (T RB_RED l a r) Hr ltac:(done)) as Hne2.
    repeat rbstep. rewrite !bool_decide_eq_false_2 by done. cbn [eqb negb]. repeat rbstep.
    destruct (rotate_paint_left (__rbtree_rebalance_insert_loop fuel a) _ _ _ _ _ _ _ _ _ Hr)
      as (st1 & He & Hr1 & Ho1).
    exists st1. split_and!; [done| |done]. rewrite He. destruct fuel; [lia|].
    by apply (insert_loop_stop fuel st1 (FR RB_BLACK (T RB_RED u g s) p :: k) RB_RED l a r Hr1).
Qed.

Lemma insert_round_LR fuel st k gc l a r p s g u :
  reps st (plug k (T gc (T RB_RED s p (T RB_RED l a r)) g u)) → (1 ≤ fuel)%nat →
  ∃ st1, outside (plug k (T gc (T RB_RED s p (T RB_RED l a r)) g u)) st st1 ∧
    if red u
    then __rbtree_rebalance_insert_loop (S fuel) a st = __rbtree_rebalance_insert_loop fuel g st1 ∧
         reps st1 (plug k (T RB_RED (T RB_BLACK s p (T RB_RED l a r)) g (paint RB_BLACK u)))
    else __rbtree_rebalance_insert_loop (S fuel) a st = Ok (tt, st1) ∧
         reps st1 (plug k (T RB_BLACK (T RB_RED s p l) a (T RB_RED r g u))).
Proof.
  intros Hr Hf. ins_head Hr (FR RB_RED s p :: FL gc g u :: k).
  rewrite bool_decide_eq_true_2 by done. repeat rbstep.
  rewrite (bind_ok _ _ _ (red u) st)
    by exact (is_red_exec st (FR gc (T RB_RED s p (T RB_RED l a r)) g :: k) u Hr).
  destruct (red u) eqn:Hu.
  - destruct (recolor_left (__rbtree_rebalance_insert_loop fuel g) _ _ _ _ _ _ _ _ Hr Hu)
      as (st1 & He & Hr1 & Ho1). exists st1. split; [done|].
    split; [|done]. exact He.
  - pose proof (reps_lt_sides st (FL gc g u :: k) RB_RED s p (T RB_RED l a r) Hr ltac:(done)) as Hne.
    repeat rbstep. rewrite (bool_decide_eq_false_2 (_ = a)) by done.
    rewrite bool_decide_eq_true_2 by done. cbn [eqb negb __rbtree_rotate]. repeat rbstep.
    rbcall (rotate_left_spec st (FL gc g u :: k) RB_RED s p l RB_RED a r Hr) st0 Hr0 Ho0.
    repeat rbstep.
    rewrite (bind_ok _ _ st0 a st0)
      by exact (rb_load_ok rb_parent _ _ _ (reps_lookup st0 (FL RB_RED a r :: FL gc g u :: k) _ _ _ _ Hr0)).
    repeat rbstep. cbn [plug plug1] in Hr0.
    destruct (rotate_paint_right (__rbtree_rebalance_insert_loop fuel p) _ _ _ _ _ _ _ _ _ Hr0)
      as (st1 & He & Hr1 & Ho1).
    exists st1. split; [eapply outside_trans; [|exact Ho0|exact Ho1]; same_nodes|].
    split; [|done]. cbn [__rbtree_rotate] in He. rewrite He. destruct fuel; [lia|].
    by apply (insert_loop_stop fuel st1 (FL RB_BLACK a (T RB_RED r g u) :: k) RB_RED s p l Hr1).
Qed.

Lemma insert_round_RL fuel st k gc l a r p s g u :
  reps st (plug k (T gc u g (T RB_RED (T RB_RED l a r) p s))) → (1 ≤ fuel)%nat →
  ∃ st1, outside (plug k (T gc u g (T RB_RED (T RB_RED l a r) p s))) st st1 ∧
    if red u
    then __rbtree_rebalance_insert_loop (S fuel) a st = __rbtree_rebalance_insert_loop fuel g st1 ∧
         reps st1 (plug k (T RB_RED (paint RB_BLACK u) g (T RB_BLACK (T RB_RED l a r) p s)))
    else __rbtree_rebalance_insert_loop (S fuel) a st = Ok (tt, st1) ∧
         reps st1 (plug k (T RB_BLACK (T RB_RED u g l) a (T RB_RED r p s))).
Proof.
  intros Hr Hf. ins_head Hr (FL RB_RED p s :: FR gc u g :: k).
  pose proof (reps_lt_sides st k gc u g (T RB_RED (T RB_RED l a r) p s) Hr ltac:(done)) as Hne.
  rewrite bool_decide_eq_false_2 by done. repeat rbstep.
  rewrite (bind_ok _ _ _ (red u) st)
    by exact (is_red_exec st (FL gc g (T RB_RED (T RB_RED l a r) p s) :: k) u Hr).
  destruct (red u) eqn:Hu.
  - destruct (recolor_right (__rbtree_rebalance_insert_loop fuel g) _ _ _ _ _ _ _ _ Hr Hu)
      as (st1 & He & Hr1 & Ho1). exists st1. split; [done|].
    split; [|done]. exact He.
  - repeat rbstep. rewrite (bool_decide_eq_true_2 (a = a)) by done.
    rewrite bool_decide_eq_false_2 by done. cbn [eqb negb __rbtree_rotate]. repeat rbstep.
    rbcall (rotate_right_spec st (FR gc u g :: k) RB_RED s p r RB_RED a l Hr) st0 Hr0 Ho0.
    repeat rbstep.
    rewrite (bind_ok _ _ st0 a st0)
      by exact (rb_load_ok rb_parent _ _ _ (reps_lookup st0 (FR RB_RED l a :: FR gc u g :: k) _ _ _ _ Hr0)).
    repeat rbstep. cbn [plug plug1] in Hr0.
    destruct (rotate_paint_left (__rbtree_rebalance_insert_loop fuel p) _ _ _ _ _ _ _ _ _ Hr0)
      as (st1 & He & Hr1 & Ho1).
    exists st1. split; [eapply outside_trans; [|exact Ho0|exact Ho1]; same_nodes|].
    split; [|done]. cbn [__rbtree_rotate] in He. rewrite He. destruct fuel; [lia|].
    by apply (insert_loop_stop fuel st1 (FR RB_BLACK (T RB_RED u g l) a :: k) RB_RED r p s Hr1).
Qed.

Lemma insert_loop_spec fuel st k c n l a r :
  reps st (plug k (T RB_RED l a r)) → rbk k c n → (length k < fuel)%nat →
  ∃ st', __rbtree_rebalance_insert_loop fuel a st = Ok (tt, st') ∧
    reps st' (ins_fix k (T RB_RED l a r)) ∧ outside (plug k (T RB_RED l a r)) st st'.
Proof.
  revert fuel st c n l a r. induction k as [|f|f g k IH] using ctx_ind2;
    intros fuel st c n l a r Hr Hk Hf; (destruct fuel as [|fuel]; [cbn in Hf; lia|]).
  - exists st. split; [by eapply (insert_loop_stop _ _ [])|done].
  - destruct (kred [f]) eqn:Hred.
    { inversion Hk; subst; try done; match goal with H : rbk [] RB_RED _ |- _ => inversion H end. }
    exists st. split; [by eapply insert_loop_stop|]. by destruct f as [[] ??|[] ??].
  - destruct (kred (f :: g :: k)) eqn:Hred;
      [|exists st; split; [by eapply insert_loop_stop|]; by destruct f as [[] ??|[] ??]].
    inversion Hk as [|? ? ? ? ? Hk1|? ? ? ? ? Hk1| |]; subst; try done;
      inversion Hk1 as [| | |? ? ? ? ? ? ? Hk2|? ? ? ? ? ? ? Hk2]; subst;
      cbn [ins_fix plug plug1 length] in *.
    1: destruct (insert_round_LL fuel st _ _ _ _ _ _ _ _ _ Hr ltac:(lia)) as (st1 & Ho1 & H1).
    2: destruct (insert_round_RL fuel st _ _ _ _ _ _ _ _ _ Hr ltac:(lia)) as (st1 & Ho1 & H1).
    3: destruct (insert_round_LR fuel st _ _ _ _ _ _ _ _ _ Hr ltac:(lia)) as (st1 & Ho1 & H1).
    4: destruct (insert_round_RR fuel st _ _ _ _ _ _ _ _ _ Hr ltac:(lia)) as (st1 & Ho1 & H1).
    all: destruct (red _); destruct H1 as [-> Hr1]; [|by exists st1].
    all: edestruct (IH fuel) as (st2 & He2 & Hr2 & Ho2); [exact Hr1|exact Hk2|lia|].
    all: exists st2; split_and!; [done..|].
    all: eapply outside_trans; [|exact Ho1|exact Ho2]; same_nodes.
Qed.

(** Linking a fresh node [z] into the hole of a tree. *)
Lemma link_exec {A} (rest : KM rbtree A) st k z n0 :
  reps st (plug k E) → rb_heap st !! z = Some n0 → z ∉ before k ++ after k → z ≠ NULL →
  ∃ st', (rb_store (set_color RB_RED) z ;; rb_store (set_left NULL) z ;;
          rb_store (set_right NULL) z ;; rb_store (set_parent (kaddr k)) z ;;
          set_clink (klink k) z ;; rest) st = rest st' ∧
    reps st' (plug k (T RB_RED E z E)) ∧
    (∀ x, x ∉ before k ++ z :: after k → rb_heap st' !! x = rb_heap st !! x).
Proof.
  destruct st as [root hp]. rewrite reps_plug. cbn [rb_heap rb_root addr inorder app rep].
  intros (Hk & _ & Hu & Hn) Hz Hfresh Hz0. do 4 rbstep. rewrite !insert_insert_eq.
  edestruct (set_clink_exec root) as (root' & hp' & He & Hk' & Hfr');
    [| |erewrite bind_ok by exact He].
  - eapply repk_frame; [|exact Hk]. intros x Hx. rewrite lookup_insert_ne; [done|].
    intros ->. done.
  - done.
  - eexists. split; [done|]. rewrite reps_plug. cbn [rb_heap rb_root addr inorder app rep].
    split_and!; try done.
    + rewrite Hfr' by done. by rewrite lookup_insert_eq.
    + apply not_elem_of_occ in Hfresh. split; [|set_solver]. intros x. specialize (Hu x).
      rewrite occ_app in *. cbn [occ]. case_decide; subst; lia.
    + intros x Hx. rewrite Hfr' by set_solver. rewrite lookup_insert_ne; [done|]. set_solver.
Qed.

Lemma rbk_hole_leaf k : rb_valid (plug k E) → ∃ c, rbk k c 0.
Proof. intros (c & ct & n & Hk & Ht & _)%plug_rbk. inversion Ht; subst. eauto. Qed.

Lemma insert_exec fuel st k z n0 :
  reps st (plug k E) → rb_valid (plug k E) → (rb_depth (plug k E) < fuel)%nat →
  rb_heap st !! z = Some n0 → z ∉ inorder (plug k E) → z ≠ NULL →
  ∃ st' t', rbtree_insert fuel z (kaddr k) (klink k) st = Ok (tt, st') ∧
    reps st' t' ∧ rb_valid t' ∧ inorder t' = before k ++ z :: after k ∧
    (∀ x, x ∉ inorder t' → rb_heap st' !! x = rb_heap st !! x).
Proof.
  intros Hr Hv Hf Hz Hfresh Hz0. rewrite inorder_plug in Hfresh. cbn in Hfresh.
  destruct (rbk_hole_leaf k Hv) as [c Hk].
  pose proof (rb_valid_height _ Hv). pose proof (height_plug k E).
  unfold rbtree_insert, __rbtree_insert.
  rewrite (bind_ok _ _ st tt st) by (apply assert_true, bool_decide_eq_true_2, Hz0).
  edestruct (link_exec (__rbtree_rebalance_insert fuel z) st k z n0) as (st1 & He1 & Hr1 & Ho1);
    [done..|]. rewrite He1. unfold __rbtree_rebalance_insert.
  rbcall (insert_loop_spec fuel st1 k c 0 E z E Hr1 Hk ltac:(lia)) st2 Hr2 Ho2.
  assert (Hin : inorder (ins_fix k (T RB_RED E z E)) = before k ++ z :: after k)
    by (by rewrite inorder_ins_fix, inorder_plug).
  pose proof (ins_fix_valid k c 0 E z E Hk (rbt_E) (rbt_E)) as Hval.
  destruct (ins_fix k (T RB_RED E z E)) as [|ct l a r].
  { by destruct (before k). }
  rewrite (bind_ok _ _ st2 a st2) by (destruct Hr2 as [Hroot _]; unfold get_root; by rewrite Hroot).
  rbcall (paint_exec RB_BLACK st2 [] ct l a r Hr2) st3 Hr3 Ho3.
  exists st3, (T RB_BLACK l a r). split_and!; [done..|].
  intros x Hx. cbn in Hin, Hx. rewrite Ho3, Ho2, Ho1; [done| | |done].
  - by rewrite <- Hin.
  - rewrite inorder_plug. cbn. by rewrite <- Hin.
Qed.
