(* ===== verification/RbDelete.v ===== *)
(** * Red-black trees: deletion refines [rb_remove]

    The same simulation as for insertion: the loop of
    [__rbtree_rebalance_delete] computes [del_fix], and [rbtree_delete] computes
    [rb_remove] of the context and the subtrees of the deleted node. *)
From S2P Require Import Prelude CList RbTree RbSpec RbRefine.

(** The last rotation of the loop, around the parent [p]. *)
Definition rotate_parent (nleft : bool) (p s i : Z) : KM rbtree unit :=
  __rbtree_rotate p nleft ;;
  pcolor ← rb_load rb_color p;
  rb_store (set_color pcolor) s ;;
  rb_store (set_color RB_BLACK) p ;;
  rb_store (set_color RB_BLACK) i.

Lemma rotate_parent_left st k cp t p x sl s y a i b :
  reps st (plug k (T cp t p (T x sl s (T y a i b)))) →
  ∃ st', rotate_parent true p s i st = Ok (tt, st') ∧
    reps st' (plug k (T cp (T RB_BLACK t p sl) s (T RB_BLACK a i b))) ∧
    outside (plug k (T cp t p (T x sl s (T y a i b)))) st st'.
Proof.
  intros Hr. unfold rotate_parent. cbn [__rbtree_rotate].
  rbcall (rotate_left_spec st k cp t p sl x s (T y a i b) Hr) st1 Hr1 Ho1.
  rewrite (bind_ok _ _ _ cp st1)
    by exact (rb_load_ok rb_color _ _ _ (reps_lookup st1 (FL x s (T y a i b) :: k) _ _ _ _ Hr1)).
  rbcall (paint_exec cp st1 k x (T cp t p sl) s (T y a i b) Hr1) st2 Hr2 Ho2.
  rbcall (paint_exec RB_BLACK st2 (FL cp s (T y a i b) :: k) cp t p sl Hr2) st3 Hr3 Ho3.
  rbcall (paint_exec RB_BLACK st3 (FR cp (T RB_BLACK t p sl) s :: k) y a i b Hr3) st4 Hr4 Ho4.
  exists st4. split_and!; [done..|].
  eapply outside_trans; [|exact Ho1|eapply outside_trans; [|exact Ho2|
    eapply outside_trans; [|exact Ho3|exact Ho4]]]; same_nodes.
Qed.

Lemma rotate_parent_right st k cp t p x sl s y a i b :
  reps st (plug k (T cp (T x (T y a i b) s sl) p t)) →
  ∃ st', rotate_parent false p s i st = Ok (tt, st') ∧
    reps st' (plug k (T cp (T RB_BLACK a i b) s (T RB_BLACK sl p t))) ∧
    outside (plug k (T cp (T x (T y a i b) s sl) p t)) st st'.
Proof.
  intros Hr. unfold rotate_parent. cbn [__rbtree_rotate].
  rbcall (rotate_right_spec st k cp t p sl x s (T y a i b) Hr) st1 Hr1 Ho1.
  rewrite (bind_ok _ _ _ cp st1)
    by exact (rb_load_ok rb_color _ _ _ (reps_lookup st1 (FR x (T y a i b) s :: k) _ _ _ _ Hr1)).
  rbcall (paint_exec cp st1 k x (T y a i b) s (T cp sl p t) Hr1) st2 Hr2 Ho2.
  rbcall (paint_exec RB_BLACK st2 (FR cp (T y a i b) s :: k) cp sl p t Hr2) st3 Hr3 Ho3.
  rbcall (paint_exec RB_BLACK st3 (FL cp s (T RB_BLACK sl p t) :: k) y a i b Hr3) st4 Hr4 Ho4.
  exists st4. split_and!; [done..|].
  eapply outside_trans; [|exact Ho1|eapply outside_trans; [|exact Ho2|
    eapply outside_trans; [|exact Ho3|exact Ho4]]]; same_nodes.
Qed.

(** Rewrites a color test of the node at the focus [k], [t]. *)
Ltac rbcolor Hr k t :=
  match type of Hr with reps ?st _ =>
    first [ rewrite (bind_ok _ _ _ _ _ (is_red_exec st k t Hr))
          | rewrite (bind_ok _ _ _ _ _ (is_black_exec st k t Hr)) ]
  end; cbn [red negb].

(** The black sibling [s] of the hole has a red child. *)
Lemma delete_rotate_left st k cp t p x sl s sr :
  reps st (plug k (T cp t p (T x sl s sr))) → red sl || red sr = true →
  ∃ st', __rbtree_rebalance_delete_rotate true p s st = Ok (tt, st') ∧
    reps st' (plug k (del_rot_left cp t p sl s sr)) ∧
    outside (plug k (T cp t p (T x sl s sr))) st st'.
Proof.
  intros Hr Hred. unfold __rbtree_rebalance_delete_rotate, del_rot_left.
  rbsee Hr. rbstep. rbcolor Hr (FR x sl s :: FR cp t p :: k) sr.
  destruct (red sr) eqn:Hsr; cbn [negb].
  - destruct sr as [|[] a i b]; [done..|]. repeat rbstep.
    rbcolor Hr (FR x sl s :: FR cp t p :: k) (T RB_RED a i b).
    exact (rotate_parent_left st k cp t p x sl s RB_RED a i b Hr).
  - rewrite orb_false_r in Hred. destruct sl as [|[] b o c]; [done..|]. repeat rbstep.
    rbcolor Hr (FL x s sr :: FR cp t p :: k) (T RB_RED b o c). repeat rbstep.
    rewrite (bind_ok _ _ _ tt st) by done. repeat rbstep. cbn [__rbtree_rotate].
    rbcall (rotate_right_spec st (FR cp t p :: k) x sr s c RB_RED o b Hr) st1 Hr1 Ho1.
    repeat rbstep.
    rbcall (paint_exec RB_BLACK st1 (FR cp t p :: k) RB_RED b o (T x c s sr) Hr1) st2 Hr2 Ho2.
    repeat rbstep.
    rbcall (paint_exec RB_RED st2 (FR RB_BLACK b o :: FR cp t p :: k) x c s sr Hr2) st3 Hr3 Ho3.
    repeat rbstep. rbcolor Hr3 (FR RB_BLACK b o :: FR cp t p :: k) (T RB_RED c s sr).
    rewrite (bind_ok _ _ _ tt st3) by done. cbn [plug plug1] in Hr3.
    destruct (rotate_parent_left st3 k cp t p RB_BLACK b o RB_RED c s sr Hr3) as (st4 & He & Hr4 & Ho4).
    exists st4. split_and!; [exact He|done|].
    eapply outside_trans; [|exact Ho1|eapply outside_trans; [|exact Ho2|
      eapply outside_trans; [|exact Ho3|exact Ho4]]]; same_nodes.
Qed.

Lemma delete_rotate_right st k cp t p x sl s sr :
  reps st (plug k (T cp (T x sl s sr) p t)) → red sl || red sr = true →
  ∃ st', __rbtree_rebalance_delete_rotate false p s st = Ok (tt, st') ∧
    reps st' (plug k (del_rot_right cp sl s sr p t)) ∧
    outside (plug k (T cp (T x sl s sr) p t)) st st'.
Proof.
  intros Hr Hred. unfold __rbtree_rebalance_delete_rotate, del_rot_right.
  rbsee Hr. rbstep. rbcolor Hr (FL x s sr :: FL cp p t :: k) sl.
  destruct (red sl) eqn:Hsl; cbn [negb].
  - destruct sl as [|[] a i b]; [done..|]. repeat rbstep.
    rbcolor Hr (FL x s sr :: FL cp p t :: k) (T RB_RED a i b).
    exact (rotate_parent_right st k cp t p x sr s RB_RED a i b Hr).
  - cbn [orb] in Hred. destruct sr as [|[] b o c]; [done..|]. repeat rbstep.
    rbcolor Hr (FR x sl s :: FL cp p t :: k) (T RB_RED b o c). repeat rbstep.
    rewrite (bind_ok _ _ _ tt st) by done. repeat rbstep. cbn [__rbtree_rotate].
    rbcall (rotate_left_spec st (FL cp p t :: k) x sl s b RB_RED o c Hr) st1 Hr1 Ho1.
    repeat rbstep.
    rbcall (paint_exec RB_BLACK st1 (FL cp p t :: k) RB_RED (T x sl s b) o c Hr1) st2 Hr2 Ho2.
    repeat rbstep.
    rbcall (paint_exec RB_RED st2 (FL RB_BLACK o c :: FL cp p t :: k) x sl s b Hr2) st3 Hr3 Ho3.
    repeat rbstep. rbcolor Hr3 (FL RB_BLACK o c :: FL cp p t :: k) (T RB_RED sl s b).
    rewrite (bind_ok _ _ _ tt st3) by done. cbn [plug plug1] in Hr3.
    destruct (rotate_parent_right st3 k cp t p RB_BLACK c o RB_RED sl s b Hr3) as (st4 & He & Hr4 & Ho4).
    exists st4. split_and!; [exact He|done|].
    eapply outside_trans; [|exact Ho1|eapply outside_trans; [|exact Ho2|
      eapply outside_trans; [|exact Ho3|exact Ho4]]]; same_nodes.
Qed.

(** The red sibling: after a rotation the hole has a red parent and a black
    sibling [m]. *)
Definition make_black_sibling (nleft : bool) (parent sibling : Z) : KM rbtree Z :=
  __rbtree_rotate parent nleft ;;
  rb_store (set_color RB_RED) parent ;;
  rb_store (set_color RB_BLACK) sibling ;;
  (if nleft then rb_load rb_right parent else rb_load rb_left parent).

Lemma make_black_sibling_left st k cp t p x sl s sr :
  reps st (plug k (T cp t p (T x sl s sr))) →
  ∃ st', make_black_sibling true p s st = Ok (addr sl, st') ∧
    reps st' (plug k (T RB_BLACK (T RB_RED t p sl) s sr)) ∧
    outside (plug k (T cp t p (T x sl s sr))) st st'.
Proof.
  intros Hr. unfold make_black_sibling. cbn [__rbtree_rotate].
  rbcall (rotate_left_spec st k cp t p sl x s sr Hr) st1 Hr1 Ho1.
  rbcall (paint_exec RB_RED st1 (FL x s sr :: k) cp t p sl Hr1) st2 Hr2 Ho2.
  rbcall (paint_exec RB_BLACK st2 k x (T RB_RED t p sl) s sr Hr2) st3 Hr3 Ho3.
  exists st3. split_and!.
  - exact (rb_load_ok rb_right _ _ _ (reps_lookup st3 (FL RB_BLACK s sr :: k) _ _ _ _ Hr3)).
  - done.
  - eapply outside_trans; [|exact Ho1|eapply outside_trans; [|exact Ho2|exact Ho3]]; same_nodes.
Qed.

Lemma make_black_sibling_right st k cp t p x sl s sr :
  reps st (plug k (T cp (T x sl s sr) p t)) →
  ∃ st', make_black_sibling false p s st = Ok (addr sr, st') ∧
    reps st' (plug k (T RB_BLACK sl s (T RB_RED sr p t))) ∧
    outside (plug k (T cp (T x sl s sr) p t)) st st'.
Proof.
  intros Hr. unfold make_black_sibling. cbn [__rbtree_rotate].
  rbcall (rotate_right_spec st k cp t p sr x s sl Hr) st1 Hr1 Ho1.
  rbcall (paint_exec RB_RED st1 (FR x sl s :: k) cp sr p t Hr1) st2 Hr2 Ho2.
  rbcall (paint_exec RB_BLACK st2 k x sl s (T RB_RED sr p t) Hr2) st3 Hr3 Ho3.
  exists st3. split_and!.
  - exact (rb_load_ok rb_left _ _ _ (reps_lookup st3 (FR RB_BLACK sl s :: k) _ _ _ _ Hr3)).
  - done.
  - eapply outside_trans; [|exact Ho1|eapply outside_trans; [|exact Ho2|exact Ho3]]; same_nodes.
Qed.

(** The rest of the loop body, once the sibling is black. *)
Definition fix_sibling (loop : Z → Z → KM rbtree Z) (nleft : bool) (parent sibling : Z)
    : KM rbtree Z :=
  sl ← rb_load rb_left sibling;
  sl_black ← rbtree_is_black sl;
  both_black ← (if (sl_black : bool)
                then sr ← rb_load rb_right sibling; rbtree_is_black sr
                else mret false);
  if (both_black : bool) then
    rb_store (set_color RB_RED) sibling ;;
    parent' ← rb_load rb_parent parent;
    loop parent' parent
  else
    __rbtree_rebalance_delete_rotate nleft parent sibling ;;
    get_root.

Lemma fix_sibling_left loop st k cp t p x sl s sr :
  reps st (plug k (T cp t p (T x sl s sr))) →
  ∃ st', outside (plug k (T cp t p (T x sl s sr))) st st' ∧
    if red sl || red sr
    then fix_sibling loop true p s st = Ok (rb_root st', st') ∧
         reps st' (plug k (del_rot_left cp t p sl s sr))
    else fix_sibling loop true p s st = loop (kaddr k) p st' ∧
         reps st' (plug k (T cp t p (T RB_RED sl s sr))).
Proof.
  intros Hr. unfold fix_sibling. rbsee Hr. rbstep.
  rbcolor Hr (FL x s sr :: FR cp t p :: k) sl.
  assert (Hb : (if negb (red sl) then sr ← rb_load rb_right s; rbtree_is_black sr
                else mret false) st = Ok (negb (red sl || red sr), st)).
  { destruct (red sl); cbn [negb orb]; [done|]. rbstep.
    exact (is_black_exec st (FR x sl s :: FR cp t p :: k) sr Hr). }
  rewrite (bind_ok _ _ _ _ _ Hb). clear Hb. destruct (red sl || red sr) eqn:Hred; cbn [negb].
  - rbcall (delete_rotate_left st k cp t p x sl s sr Hr Hred) st1 Hr1 Ho1. by exists st1.
  - rbcall (paint_exec RB_RED st (FR cp t p :: k) x sl s sr Hr) st1 Hr1 Ho1.
    exists st1. split_and!; [done| |done].
    rewrite (bind_ok _ _ _ _ _
      (rb_load_ok rb_parent _ _ _ (reps_lookup st1 k cp t p (T RB_RED sl s sr) Hr1))). done.
Qed.

Lemma fix_sibling_right loop st k cp t p x sl s sr :
  reps st (plug k (T cp (T x sl s sr) p t)) →
  ∃ st', outside (plug k (T cp (T x sl s sr) p t)) st st' ∧
    if red sl || red sr
    then fix_sibling loop false p s st = Ok (rb_root st', st') ∧
         reps st' (plug k (del_rot_right cp sl s sr p t))
    else fix_sibling loop false p s st = loop (kaddr k) p st' ∧
         reps st' (plug k (T cp (T RB_RED sl s sr) p t)).
Proof.
  intros Hr. unfold fix_sibling. rbsee Hr. rbstep.
  rbcolor Hr (FL x s sr :: FL cp p t :: k) sl.
  assert (Hb : (if negb (red sl) then sr ← rb_load rb_right s; rbtree_is_black sr
                else mret false) st = Ok (negb (red sl || red sr), st)).
  { destruct (red sl); cbn [negb orb]; [done|]. rbstep.
    exact (is_black_exec st (FR x sl s :: FL cp p t :: k) sr Hr). }
  rewrite (bind_ok _ _ _ _ _ Hb). clear Hb. destruct (red sl || red sr) eqn:Hred; cbn [negb].
  - rbcall (delete_rotate_right st k cp t p x sl s sr Hr Hred) st1 Hr1 Ho1. by exists st1.
  - rbcall (paint_exec RB_RED st (FL cp p t :: k) x sl s sr Hr) st1 Hr1 Ho1.
    exists st1. split_and!; [done| |done].
    rewrite (bind_ok _ _ _ _ _
      (rb_load_ok rb_parent _ _ _ (reps_lookup st1 k cp (T RB_RED sl s sr) p t Hr1))). done.
Qed.

(** The root of a tree with at least one frame lies in the context. *)
Lemma repk_root hp root f k hole :
  repk hp root (f :: k) hole → root ∈ before (f :: k) ++ after (f :: k).
Proof.
  revert f hole. induction k as [|g k IH]; intros f hole H.
  - destruct f as [c a r|c l a]; cbn in *; destruct H as (_ & _ & ->); set_solver.
  - assert (root ∈ before (g :: k) ++ after (g :: k)) as Hr.
    { destruct f as [c a r|c l a]; destruct H as (_ & _ & H); by eapply IH. }
    destruct f as [c a r|c l a]; cbn [before after] in *; set_solver.
Qed.

Lemma reps_root_ne st f k t : reps st (plug (f :: k) t) → addr t ≠ rb_root st.
Proof.
  intros H. pose proof (reps_repk _ _ _ H) as Hk%repk_root.
  pose proof (reps_uniq _ _ _ H) as Hu. pose proof (reps_null _ _ _ H) as Hn.
  intros Heq. rewrite <- Heq in Hk. destruct t as [|c l a r].
  - cbn [addr] in Hk. set_solver.
  - cbn [addr inorder] in *. revert Hu Hk. generalize (before (f :: k)) (after (f :: k)).
    intros b d Hu Hk. uniq_tac.
Qed.

Lemma reps_gt_sides st k c l a r :
  reps st (plug k (T c l a r)) → l ≠ E → addr l ≠ addr r.
Proof.
  intros H Hl. pose proof (reps_uniq _ _ _ H) as Hu. pose proof (reps_null _ _ _ H) as Hn.
  destruct l as [|cl ll b lr]; [done|]. cbn [inorder addr] in *. intros ->.
  assert (Ha : addr r ∈ inorder r) by (apply addr_elem; intros E; rewrite E in Hn; set_solver).
  uniq_tac.
Qed.

Lemma rb_valid_paint t : rb_valid t → paint RB_BLACK t = t.
Proof. intros [n Hn]. by inversion Hn. Qed.

(** The loop ends at once on a red node and at the root. *)
Lemma delete_loop_red fuel st k t par :
  reps st (plug k t) → red t = true →
  __rbtree_rebalance_delete_loop (S fuel) par (addr t) st = Ok (addr t, st).
Proof.
  intros Hr Hred. cbn [__rbtree_rebalance_delete_loop]. rbcolor Hr k t. by rewrite Hred.
Qed.

Lemma delete_loop_root fuel st t par :
  reps st t → __rbtree_rebalance_delete_loop (S fuel) par (addr t) st = Ok (addr t, st).
Proof.
  intros Hr. cbn [__rbtree_rebalance_delete_loop]. rbcolor Hr (@nil frame) t.
  rewrite (bind_ok _ _ st (rb_root st) st) by done. destruct Hr as [-> _].
  by rewrite (bool_decide_eq_false_2 (_ ≠ _)), andb_false_r by (intros H; by apply H).
Qed.

(** The body of the loop below a context frame. *)
Lemma delete_loop_left fuel st k cp p t x sl s sr :
  reps st (plug k (T cp t p (T x sl s sr))) → red t = false →
  __rbtree_rebalance_delete_loop (S fuel) p (addr t) st =
    match x with
    | RB_RED => (s' ← make_black_sibling true p s;
                 fix_sibling (__rbtree_rebalance_delete_loop fuel) true p s') st
    | RB_BLACK => fix_sibling (__rbtree_rebalance_delete_loop fuel) true p s st
    end.
Proof.
  intros Hr Hred. cbn [__rbtree_rebalance_delete_loop].
  rbcolor Hr (FL cp p (T x sl s sr) :: k) t. rewrite Hred. cbn [negb].
  rewrite (bind_ok _ _ st (rb_root st) st) by done.
  rewrite bool_decide_eq_true_2 by exact (reps_root_ne st (FL cp p (T x sl s sr)) k t Hr).
  cbn [andb]. rbsee Hr. rbstep. rewrite bool_decide_eq_true_2 by done. rbstep.
  rbcolor Hr (FR cp t p :: k) (T x sl s sr).
  destruct x; [|unfold make_black_sibling; by rewrite !bind_assoc]. done.
Qed.

Lemma delete_loop_right fuel st k cp p t x sl s sr :
  reps st (plug k (T cp (T x sl s sr) p t)) → red t = false →
  __rbtree_rebalance_delete_loop (S fuel) p (addr t) st =
    match x with
    | RB_RED => (s' ← make_black_sibling false p s;
                 fix_sibling (__rbtree_rebalance_delete_loop fuel) false p s') st
    | RB_BLACK => fix_sibling (__rbtree_rebalance_delete_loop fuel) false p s st
    end.
Proof.
  intros Hr Hred. cbn [__rbtree_rebalance_delete_loop].
  rbcolor Hr (FR cp (T x sl s sr) p :: k) t. rewrite Hred. cbn [negb].
  rewrite (bind_ok _ _ st (rb_root st) st) by done.
  rewrite bool_decide_eq_true_2 by exact (reps_root_ne st (FR cp (T x sl s sr) p) k t Hr).
  cbn [andb]. rbsee Hr. rbstep.
  rewrite bool_decide_eq_false_2
    by exact (not_eq_sym (reps_gt_sides st k cp (T x sl s sr) p t Hr ltac:(done))).
  rbstep.
  rbcolor Hr (FL cp p t :: k) (T x sl s sr).
  destruct x; [|unfold make_black_sibling; by rewrite !bind_assoc]. done.
Qed.

(** What the loop promises: painting the root of the focus black yields
    [del_fix k t]. *)
Definition delete_loop_post (st : rbtree) (k : ctx) (t : tree) (r : outcome (Z * rbtree)) : Prop :=
  ∃ st' k' t', r = Ok (addr t', st') ∧ reps st' (plug k' t') ∧
    plug k' (paint RB_BLACK t') = del_fix k t ∧ outside (plug k t) st st'.

Lemma delete_post_end st st' k t :
  reps st' (del_fix k t) → rb_valid (del_fix k t) → outside (plug k t) st st' →
  delete_loop_post st k t (Ok (rb_root st', st')).
Proof.
  intros Hr Hv Ho. exists st', [], (del_fix k t). destruct Hr as [Hroot Hr].
  rewrite Hroot. split_and!; [done|done| |done]. cbn. by apply rb_valid_paint.
Qed.

(** After the red sibling case with a black-childed new sibling, the loop stops at
    the red parent. *)
Lemma delete_post_red fuel st st' k t k' par l p r :
  (0 < fuel)%nat → reps st' (plug k' (T RB_RED l p r)) → outside (plug k t) st st' →
  plug k' (T RB_BLACK l p r) = del_fix k t →
  delete_loop_post st k t (__rbtree_rebalance_delete_loop fuel par p st').
Proof.
  intros Hf Hr Ho Heq. destruct fuel as [|fuel]; [lia|].
  exists st', k', (T RB_RED l p r). split_and!; [|done..].
  exact (delete_loop_red fuel st' k' (T RB_RED l p r) par Hr eq_refl).
Qed.

Lemma delete_post_step st st' k t k1 t1 r :
  inorder (plug k1 t1) = inorder (plug k t) → outside (plug k t) st st' →
  del_fix k1 t1 = del_fix k t → delete_loop_post st' k1 t1 r → delete_loop_post st k t r.
Proof.
  intros Hin Ho Heq (st2 & k' & t' & -> & Hr & Hp & Ho2). exists st2, k', t'.
  split_and!; [done|done|congruence|]. by eapply outside_trans.
Qed.

(** One round, for the two colors of the sibling and the two sides. *)
Lemma delete_black_left fuel st k cp p t sl s sr :
  reps st (plug (FL cp p (T RB_BLACK sl s sr) :: k) t) → red t = false →
  rb_valid (del_fix (FL cp p (T RB_BLACK sl s sr) :: k) t) →
  (red sl || red sr = false → ∀ st1, reps st1 (plug k (T cp t p (T RB_RED sl s sr))) →
    delete_loop_post st1 k (T cp t p (T RB_RED sl s sr))
      (__rbtree_rebalance_delete_loop fuel (kaddr k) p st1)) →
  delete_loop_post st (FL cp p (T RB_BLACK sl s sr) :: k) t
    (__rbtree_rebalance_delete_loop (S fuel) p (addr t) st).
Proof.
  intros Hr Ht Hv Hnext. rewrite (delete_loop_left _ _ _ _ _ _ _ _ _ _ Hr Ht).
  destruct (fix_sibling_left (__rbtree_rebalance_delete_loop fuel) _ _ _ _ _ _ _ _ _ Hr)
    as (st1 & Ho & Hcase).
  destruct (red sl || red sr) eqn:Hred; destruct Hcase as [-> Hr1].
  - apply delete_post_end; [|done|done]. cbn [del_fix]. by rewrite Ht, Hred.
  - eapply delete_post_step; [..|apply Hnext; done].
    + same_nodes.
    + done.
    + cbn [del_fix]. by rewrite Ht, Hred.
Qed.

Lemma delete_black_right fuel st k cp p t sl s sr :
  reps st (plug (FR cp (T RB_BLACK sl s sr) p :: k) t) → red t = false →
  rb_valid (del_fix (FR cp (T RB_BLACK sl s sr) p :: k) t) →
  (red sl || red sr = false → ∀ st1, reps st1 (plug k (T cp (T RB_RED sl s sr) p t)) →
    delete_loop_post st1 k (T cp (T RB_RED sl s sr) p t)
      (__rbtree_rebalance_delete_loop fuel (kaddr k) p st1)) →
  delete_loop_post st (FR cp (T RB_BLACK sl s sr) p :: k) t
    (__rbtree_rebalance_delete_loop (S fuel) p (addr t) st).
Proof.
  intros Hr Ht Hv Hnext. rewrite (delete_loop_right _ _ _ _ _ _ _ _ _ _ Hr Ht).
  destruct (fix_sibling_right (__rbtree_rebalance_delete_loop fuel) _ _ _ _ _ _ _ _ _ Hr)
    as (st1 & Ho & Hcase).
  destruct (red sl || red sr) eqn:Hred; destruct Hcase as [-> Hr1].
  - apply delete_post_end; [|done|done]. cbn [del_fix]. by rewrite Ht, Hred.
  - eapply delete_post_step; [..|apply Hnext; done].
    + same_nodes.
    + done.
    + cbn [del_fix]. by rewrite Ht, Hred.
Qed.

Lemma delete_red_left fuel st k cp p t x a m b s sr :
  reps st (plug (FL cp p (T RB_RED (T x a m b) s sr) :: k) t) → red t = false →
  rb_valid (del_fix (FL cp p (T RB_RED (T x a m b) s sr) :: k) t) → (0 < fuel)%nat →
  delete_loop_post st (FL cp p (T RB_RED (T x a m b) s sr) :: k) t
    (__rbtree_rebalance_delete_loop (S fuel) p (addr t) st).
Proof.
  intros Hr Ht Hv Hf. rewrite (delete_loop_left _ _ _ _ _ _ _ _ _ _ Hr Ht).
  rbcall (make_black_sibling_left _ _ _ _ _ _ _ _ _ Hr) st0 Hr0 Ho0.
  destruct (fix_sibling_left (__rbtree_rebalance_delete_loop fuel) st0 (FL RB_BLACK s sr :: k)
    RB_RED t p x a m b Hr0) as (st1 & Ho & Hcase). cbn [addr].
  assert (Ho1 : outside (plug k (T cp t p (T RB_RED (T x a m b) s sr))) st st1).
  { eapply outside_trans; [|exact Ho0|exact Ho]. same_nodes. }
  destruct (red a || red b) eqn:Hred; destruct Hcase as [-> Hr1].
  - apply delete_post_end; [|done|done]. cbn [del_fix]. by rewrite Ht, Hred.
  - eapply delete_post_red; [done|exact Hr1|done|]. cbn [del_fix]. by rewrite Ht, Hred.
Qed.

Lemma delete_red_right fuel st k cp p t x a m b s sl :
  reps st (plug (FR cp (T RB_RED sl s (T x a m b)) p :: k) t) → red t = false →
  rb_valid (del_fix (FR cp (T RB_RED sl s (T x a m b)) p :: k) t) → (0 < fuel)%nat →
  delete_loop_post st (FR cp (T RB_RED sl s (T x a m b)) p :: k) t
    (__rbtree_rebalance_delete_loop (S fuel) p (addr t) st).
Proof.
  intros Hr Ht Hv Hf. rewrite (delete_loop_right _ _ _ _ _ _ _ _ _ _ Hr Ht).
  rbcall (make_black_sibling_right _ _ _ _ _ _ _ _ _ Hr) st0 Hr0 Ho0.
  destruct (fix_sibling_right (__rbtree_rebalance_delete_loop fuel) st0 (FR RB_BLACK sl s :: k)
    RB_RED t p x a m b Hr0) as (st1 & Ho & Hcase). cbn [addr].
  assert (Ho1 : outside (plug k (T cp (T RB_RED sl s (T x a m b)) p t)) st st1).
  { eapply outside_trans; [|exact Ho0|exact Ho]. same_nodes. }
  destruct (red a || red b) eqn:Hred; destruct Hcase as [-> Hr1].
  - apply delete_post_end; [|done|done]. cbn [del_fix]. by rewrite Ht, Hred.
  - eapply delete_post_red; [done|exact Hr1|done|]. cbn [del_fix]. by rewrite Ht, Hred.
Qed.

Lemma delete_loop_spec fuel st k c n t ct :
  reps st (plug k t) → rbk k c (S n) → rbt t ct n → (length k < fuel)%nat →
  delete_loop_post st k t (__rbtree_rebalance_delete_loop fuel (kaddr k) (addr t) st).
Proof.
  revert fuel st c n t ct. induction k as [|f k IH]; intros fuel st c n t ct Hr Hk Ht Hf;
    (destruct fuel as [|fuel]; [lia|]);
    (destruct (red t) eqn:Hred;
      [exists st; eexists; exists t; rewrite (delete_loop_red fuel st _ t _ Hr Hred);
       split_and!; [done|exact Hr|by rewrite del_fix_red by (by rewrite Hred)|done]|]);
    pose proof (del_fix_valid _ _ _ _ _ Hk Ht) as Hv;
    pose proof (rbt_not_red _ _ _ Ht Hred); subst; cbn [length] in Hf.
  { rewrite (delete_loop_root fuel st t _ Hr). exists st, [], t. split_and!; try done.
    cbn [plug del_fix] in *. rewrite Hred in *. by apply rb_valid_paint. }
  inversion Hk as [|p s ? ? Hs Hk'|p s ? ? Hs Hk'|p s ? c' ? ? Hs Hk'|p s ? c' ? ? Hs Hk']; subst;
    cbn [kaddr].
  (* a red parent: the sibling is black, and the next round stops at the parent *)
  1,2: apply rbt_black_S in Hs as (sl & sa & sr & cl & cr & -> & Hl & Hsr).
  1: apply delete_black_left; [done..|]; intros Hnb st1 Hr1.
  2: apply delete_black_right; [done..|]; intros Hnb st1 Hr1.
  1,2: eapply delete_post_red; [lia|exact Hr1|done|by rewrite del_fix_red].
  all: inversion Hs as [|sl sa sr ? Hl Hsr|sl sa sr ? ? ? Hl Hsr]; subst.
  - apply rbt_black_S in Hl as (a & m & b & ? & ? & -> & ? & ?).
    apply delete_red_left; [done..|lia].
  - apply delete_black_left; [done..|]. intros Hnb st1 Hr1.
    destruct (orb_not_red _ _ _ _ _ Hl Hsr Hnb).
    exact (IH fuel st1 _ _ _ _ Hr1 Hk' ltac:(eauto with rb) ltac:(lia)).
  - apply rbt_black_S in Hsr as (a & m & b & ? & ? & -> & ? & ?).
    apply delete_red_right; [done..|lia].
  - apply delete_black_right; [done..|]. intros Hnb st1 Hr1.
    destruct (orb_not_red _ _ _ _ _ Hl Hsr Hnb).
    exact (IH fuel st1 _ _ _ _ Hr1 Hk' ltac:(eauto with rb) ltac:(lia)).
Qed.

Lemma rebalance_delete_spec fuel st k c n t ct :
  reps st (plug k t) → rbk k c (S n) → rbt t ct n → (length k < fuel)%nat →
  ∃ st', __rbtree_rebalance_delete fuel (kaddr k) (addr t) st = Ok (tt, st') ∧
    reps st' (del_fix k t) ∧ outside (plug k t) st st'.
Proof.
  intros Hr Hk Ht Hf. unfold __rbtree_rebalance_delete.
  destruct (delete_loop_spec fuel st k c n t ct Hr Hk Ht Hf) as (st1 & k' & t' & He & Hr1 & Hp & Ho).
  erewrite bind_ok by exact He. rewrite <- Hp.
  pose proof (reps_null _ _ _ Hr1) as Hn. rewrite addr_node by set_solver.
  destruct t' as [|c' l a r]; [by exists st1|]. cbn [addr paint].
  rbcall (paint_exec RB_BLACK st1 k' c' l a r Hr1) st2 Hr2 Ho2. exists st2. split_and!; [done..|].
  eapply outside_trans; [|exact Ho|exact Ho2].
  rewrite <- (inorder_del_fix k t), <- Hp. same_nodes.
Qed.

(** ** Unlinking the node *)

(** A subtree whose root is attached to another parent. *)
Lemma rep_reparent hp hp' par par' t :
  rep hp par t → addrs_ok (inorder t) →
  (∀ x, x ∈ inorder t → x ≠ addr t → hp' !! x = hp !! x) →
  (∀ n, addr t ≠ NULL → hp !! addr t = Some n → hp' !! addr t = Some (set_parent par' n)) →
  rep hp' par' t.
Proof.
  intros Ht [Hu Hn] Hfr Hroot. destruct t as [|c l a r]; [done|].
  destruct Ht as (Ha & Hl & Hr). cbn [addr inorder rep] in *. split_and!.
  - erewrite Hroot; [|by intros ->; set_solver|done]. done.
  - eapply rep_frame; [|done]. intros x Hx. apply Hfr; [set_solver|uniq_tac].
  - eapply rep_frame; [|done]. intros x Hx. apply Hfr; [set_solver|uniq_tac].
Qed.

(** Splicing out a node with at most one child. *)
Lemma splice_exec st k c l a r t :
  reps st (plug k (T c l a r)) → (l = E ∧ t = r) ∨ (r = E ∧ t = l) →
  ∃ st', __rbtree_move_parent a (addr t) st = Ok (kaddr k, st') ∧
    reps st' (plug k t) ∧ rb_heap st' !! a = rb_heap st !! a ∧
    outside (plug k (T c l a r)) st st'.
Proof.
  intros Hr Ht. destruct st as [root hp].
  assert (Hin : inorder l ++ a :: inorder r = a :: inorder t ∨
                inorder l ++ a :: inorder r = inorder t ++ [a])
    by (destruct Ht as [[-> ->]|[-> ->]]; auto).
  assert (Hok : addrs_ok (a :: before k ++ inorder t ++ after k)).
  { apply reps_plug in Hr as (_ & _ & Hu & Hn). cbn [inorder] in *. split.
    - intros z. specialize (Hu z). destruct Hin as [H|H]; rewrite H in Hu;
        revert Hu; rewrite ?occ_cons, ?occ_app, ?occ_cons, ?occ_app; cbn [occ]; lia.
    - destruct Hin as [H|H]; rewrite H in Hn; set_solver. }
  pose proof (reps_lookup _ _ _ _ _ _ Hr) as Ha. cbn [rb_heap] in Ha.
  assert (Hrep : rep hp a t)
    by (apply reps_rep in Hr as (_ & ? & ?); destruct Ht as [[_ ->]|[_ ->]]; done).
  pose proof (reps_repk _ _ _ Hr) as Hk. cbn [rb_root rb_heap addr] in Hk.
  destruct Hok as [Hu Hn].
  assert (Hat : addr t ≠ NULL → addr t ∈ inorder t) by apply addr_elem.
  edestruct (move_parent_exec root hp k a (addr t)) as (root' & hp' & He & Hk' & Hfr & Hnew & Hnull);
    [exact Hk|exact Ha|done|split; [sub_uniq Hu|set_solver]|uniq_tac|set_solver| | |].
  { intros Hx. destruct t as [|ct tl ta tr]; [set_solver|]. cbn [addr inorder] in *. uniq_tac. }
  { destruct t as [|ct tl ta tr]; [by left|]. right. destruct Hrep as [Hta _]. eexists. exact Hta. }
  exists (RbTree root' hp'). split; [done|]. rewrite reps_plug. cbn [rb_heap rb_root].
  assert (Hne : a ≠ addr t).
  { intros ->. apply (not_elem_of_occ (addr t) (before k ++ inorder t ++ after k)).
    - specialize (Hu (addr t)). rewrite occ_cons, decide_True in Hu by done. lia.
    - rewrite !elem_of_app. right. left. apply Hat. set_solver. }
  split_and!; [done| | | |].
  - eapply rep_reparent; [exact Hrep|split; [sub_uniq Hu|set_solver]| |done].
    intros x Hx Hxr. apply Hfr; [uniq_tac|done].
  - split; [sub_uniq Hu|set_solver].
  - apply Hfr; [uniq_tac|done].
  - intros x. rewrite inorder_plug. cbn [inorder rb_heap]. intros Hx.
    destruct (decide (x = addr t)) as [->|Hxt].
    + destruct t as [|ct tl ta tr]; [by apply Hnull|]. exfalso. apply Hx.
      destruct Hin as [-> | ->]; set_solver.
    + apply Hfr; [set_solver|done].
Qed.

Lemma del_at_exec fuel st k c l a r t :
  reps st (plug k t) → rb_valid (plug k (T c l a r)) → t = l ∨ t = r → (length k < fuel)%nat →
  ∃ st', (if bool_decide (c = RB_BLACK)
          then __rbtree_rebalance_delete fuel (kaddr k) (addr t) else mret ()) st = Ok (tt, st') ∧
    reps st' (del_at k c t) ∧ outside (plug k t) st st'.
Proof.
  intros Hr (ck & ct & n & Hk & Ht & Hc)%plug_rbk Hlr Hf. unfold del_at.
  case_bool_decide as Hb; [|by exists st]. subst c.
  inversion Ht; subst; destruct Hlr; subst; by eapply rebalance_delete_spec.
Qed.

(** [__rbtree_first] walks to the node that [descend] finds. *)
Lemma first_exec fuel st k t ks cs s rs :
  reps st (plug k t) → descend k t = Some (ks, cs, s, rs) → (height t ≤ fuel)%nat →
  __rbtree_first fuel (addr t) st = Ok (s, st).
Proof.
  revert fuel k. induction t as [|c l IHl a r _]; intros fuel k Hr Hd Hf; [done|].
  destruct fuel as [|fuel]; [cbn in Hf; lia|]. cbn [__rbtree_first addr].
  pose proof (reps_null _ _ _ Hr) as Hn. cbn [inorder] in Hn.
  pose proof (reps_lookup _ _ _ _ _ _ Hr) as Ha.
  erewrite bind_ok by (by apply has_left_exec). cbn [rb_left].
  rewrite addr_node by set_solver. destruct l as [|cl ll al rl].
  - by injection Hd as <- <- <- <-.
  - rbstep. apply (IHl fuel (FL c a r :: k)); [exact Hr|exact Hd|cbn in *; lia].
Qed.

(** [__rbtree_move_children] hands both subtrees of [a] over to [s]. *)
Lemma move_children_exec root hp c l a r par s ns :
  hp !! a = Some (RbNode c (addr l) (addr r) par) → rep hp a l → rep hp a r →
  hp !! s = Some ns → s ≠ NULL → uniq (s :: inorder l ++ a :: inorder r) →
  NULL ∉ inorder l ++ a :: inorder r →
  ∃ hp', __rbtree_move_children a s (RbTree root hp) = Ok (tt, RbTree root hp') ∧
    hp' !! s = Some (RbNode (rb_color ns) (addr l) (addr r) (rb_parent ns)) ∧
    rep hp' s l ∧ rep hp' s r ∧
    (∀ x, x ∉ s :: inorder l ++ inorder r → hp' !! x = hp !! x).
Proof.
  intros Ha Hl Hr Hs Hs0 Hus Hn. unfold __rbtree_move_children.
  assert (Hnode : rbtree_is_node s = true) by (by apply bool_decide_eq_true_2).
  assert (Has : a ≠ s) by uniq_tac.
  rewrite Hnode. repeat rbstep. rewrite insert_insert_eq. set (hp1 := <[s:=_]> hp).
  assert (Hs1 : hp1 !! s = Some (RbNode (rb_color ns) (addr l) (addr r) (rb_parent ns)))
    by apply lookup_insert_eq.
  assert (Hfr1 : ∀ x, x ≠ s → hp1 !! x = hp !! x) by (intros x ?; by apply lookup_insert_ne).
  clearbody hp1.
  assert (Ha1 : hp1 !! a = Some (RbNode c (addr l) (addr r) par)) by (by rewrite Hfr1).
  assert (Hl1 : rep hp1 a l) by (eapply rep_frame; [|done]; intros x Hx; apply Hfr1; uniq_tac).
  assert (Hr1 : rep hp1 a r) by (eapply rep_frame; [|done]; intros x Hx; apply Hfr1; uniq_tac).
  erewrite bind_ok by (apply has_left_exec; exact Ha1). cbn [rb_left].
  edestruct (child_reparent_exec rb_left root hp1 a _ a l s Ha1 eq_refl Hl1) as (hp2 & He2 & Hl2 & Hfr2).
  { split; [sub_uniq Hus|set_solver]. }
  erewrite bind_ok by exact He2.
  assert (Ha2 : hp2 !! a = Some (RbNode c (addr l) (addr r) par)) by (rewrite Hfr2; [done|uniq_tac]).
  assert (Hr2 : rep hp2 a r) by (eapply rep_frame; [|done]; intros x Hx; apply Hfr2; uniq_tac).
  erewrite bind_ok by (apply has_right_exec; exact Ha2). cbn [rb_right].
  edestruct (child_reparent_exec rb_right root hp2 a _ a r s Ha2 eq_refl Hr2) as (hp3 & He3 & Hr3 & Hfr3).
  { split; [sub_uniq Hus|set_solver]. }
  exists hp3. split_and!; [exact He3| | |exact Hr3|].
  - rewrite Hfr3, Hfr2; [done|uniq_tac..].
  - eapply rep_frame; [|exact Hl2]. intros x Hx. apply Hfr3. uniq_tac.
  - intros x Hx. rewrite Hfr3, Hfr2, Hfr1; [done|set_solver..].
Qed.

(** [__rbtree_replace] puts the unlinked node [s] in the place of [a]. *)
Lemma replace_exec st k c l a r s ns :
  reps st (plug k (T c l a r)) → rb_heap st !! s = Some ns → s ≠ NULL →
  s ∉ inorder (plug k (T c l a r)) →
  ∃ st', __rbtree_replace a s st = Ok (tt, st') ∧
    reps st' (plug k (T c l s r)) ∧
    (∀ x, x ∉ s :: inorder (plug k (T c l a r)) → rb_heap st' !! x = rb_heap st !! x).
Proof.
  destruct st as [root hp]. rewrite inorder_plug. intros Hr Hs Hs0 Hfresh.
  apply reps_plug in Hr as (Hk & (Ha & Hl & Hrr) & Hu & Hn).
  cbn [rb_heap rb_root addr inorder] in *.
  assert (Hus : uniq (s :: before k ++ (inorder l ++ a :: inorder r) ++ after k)).
  { apply not_elem_of_occ in Hfresh. intros x. specialize (Hu x). cbn [occ].
    case_decide; subst; lia. }
  clear Hu. unfold __rbtree_replace.
  assert (Hnode : rbtree_is_node s = true) by (by apply bool_decide_eq_true_2).
  assert (Has : a ≠ s) by uniq_tac. rewrite Hnode. repeat rbstep.
  edestruct (move_children_exec root (<[s:=set_color c ns]> hp)) as (hp3 & He3 & Hs3 & Hl3 & Hr3 & Hfr3).
  { rewrite lookup_insert_ne; [exact Ha|done]. }
  { eapply rep_frame; [|exact Hl]. intros x Hx. rewrite lookup_insert_ne; [done|uniq_tac]. }
  { eapply rep_frame; [|exact Hrr]. intros x Hx. rewrite lookup_insert_ne; [done|uniq_tac]. }
  { apply lookup_insert_eq. }
  { done. }
  { sub_uniq Hus. }
  { set_solver. }
  erewrite bind_ok by exact He3. cbn [set_color rb_color rb_parent] in Hs3.
  assert (Hfr1 : ∀ x, x ∉ s :: inorder l ++ inorder r → hp3 !! x = hp !! x).
  { intros x Hx. rewrite Hfr3 by done. rewrite lookup_insert_ne; [done|set_solver]. }
  clear Hfr3.
  edestruct (move_parent_exec root hp3 k a s) as (root' & hp4 & He4 & Hk4 & Hfr4 & Hs4 & _).
  { eapply repk_frame; [|exact Hk]. intros x Hx. apply Hfr1. uniq_tac. }
  { rewrite Hfr1; [exact Ha|uniq_tac]. }
  { done. }
  { split; [sub_uniq Hus|set_solver]. }
  { uniq_tac. }
  { set_solver. }
  { uniq_tac. }
  { right. eauto. }
  erewrite bind_ok by exact He4. eexists. split; [done|].
  rewrite reps_plug. cbn [rb_heap rb_root addr rep inorder]. split_and!; [done| | | | |].
  - by rewrite (Hs4 _ Hs0 Hs3).
  - eapply rep_frame; [|exact Hl3]. intros x Hx. apply Hfr4; uniq_tac.
  - eapply rep_frame; [|exact Hr3]. intros x Hx. apply Hfr4; uniq_tac.
  - split; [sub_uniq Hus|set_solver].
  - intros x Hx. rewrite Hfr4, Hfr1; [done|set_solver..].
Qed.

Lemma depth_fuel k t fuel :
  rb_valid (plug k t) → (rb_depth (plug k t) < fuel)%nat →
  (length k < fuel ∧ height t < fuel)%nat.
Proof.
  intros Hv Hf. pose proof (rb_valid_height _ Hv). pose proof (height_plug k t). lia.
Qed.

Definition is_T (t : tree) : bool := match t with E => false | _ => true end.

Lemma has_both_exec st k c l a r :
  reps st (plug k (T c l a r)) → rbtree_has_both a st = Ok (is_T l && is_T r, st).
Proof.
  intros Hr. pose proof (reps_null _ _ _ Hr) as Hn. cbn [inorder] in Hn.
  unfold rbtree_has_both. rbsee Hr. rbstep. rewrite addr_node by set_solver.
  destruct l; [done|]. rbstep. rewrite addr_node by set_solver. by destruct r.
Qed.

(** Deleting a node with at most one child. *)
Lemma delete_one_exec fuel st k c l a r t :
  reps st (plug k (T c l a r)) → rb_valid (plug k (T c l a r)) → (length k < fuel)%nat →
  (l = E ∧ t = r) ∨ (r = E ∧ t = l) →
  ∃ st', __rbtree_delete fuel a st = Ok (tt, st') ∧
    reps st' (del_at k c t) ∧ outside (plug k (T c l a r)) st st'.
Proof.
  intros Hr Hv Hk Ht. pose proof (reps_null _ _ _ Hr) as Hn. cbn [inorder] in Hn.
  pose proof (reps_lookup _ _ _ _ _ _ Hr) as Ha. unfold __rbtree_delete.
  erewrite bind_ok by exact (has_both_exec _ _ _ _ _ _ Hr).
  replace (is_T l && is_T r) with false by (destruct Ht as [[-> _]|[-> _]]; [done|by rewrite andb_false_r]).
  cbn [negb]. rewrite bind_assoc. erewrite bind_ok by (by apply has_left_exec). cbn [rb_left].
  rewrite bind_assoc, (bind_ok _ _ st (addr t) st).
  2: { rewrite addr_node by set_solver.
       destruct Ht as [[-> ->]|[-> Htl]]; [|subst t; destruct l]; by rewrite (rb_load_ok _ _ _ _ Ha). }
  destruct (splice_exec _ _ _ _ _ _ _ Hr Ht) as (st1 & He1 & Hr1 & Ha1 & Ho1).
  rewrite Ha in Ha1. rewrite bind_assoc. erewrite bind_ok by exact He1.
  rewrite bind_assoc. erewrite bind_ok by (by apply rb_load_ok). rewrite bind_ret. cbn [rb_color].
  destruct (del_at_exec fuel st1 k c l a r t Hr1 Hv) as (st2 & He2 & Hr2 & Ho2).
  { destruct Ht as [[_ ->]|[_ ->]]; auto. }
  { done. }
  exists st2. split_and!; [exact He2|done|].
  intros x Hx. rewrite Ho2, Ho1; [done..|]. rewrite inorder_plug in *. cbn [inorder] in *.
  destruct Ht as [[-> ->]|[-> ->]]; set_solver.
Qed.

(** The parent of the hole moves with its node when [a] is replaced by [s]. *)
Lemma kaddr_subst ks c l a s k t :
  uniq (before (ks ++ FR c l a :: k) ++ inorder t ++ after (ks ++ FR c l a :: k)) →
  (if bool_decide (kaddr (ks ++ FR c l a :: k) = a) then s else kaddr (ks ++ FR c l a :: k))
    = kaddr (ks ++ FR c l s :: k).
Proof.
  rewrite before_app, after_app. intros Hu.
  destruct ks as [|[fc fa fr|fc fl fa] ks]; cbn [kaddr app before after] in *.
  - by rewrite bool_decide_eq_true_2.
  - rewrite bool_decide_eq_false_2; [done|uniq_tac].
  - rewrite bool_decide_eq_false_2; [done|uniq_tac].
Qed.

Lemma rbtree_first_exec fuel st k t ks cs s rs :
  reps st (plug k t) → descend [] t = Some (ks, cs, s, rs) → (height t ≤ fuel)%nat →
  rbtree_first fuel (addr t) st = Ok (s, st).
Proof.
  intros Hr Hd Hf. pose proof (reps_null _ _ _ Hr) as Hn. unfold rbtree_first.
  rewrite (bind_ok _ _ st tt st).
  - apply (first_exec fuel st k t (ks ++ k) cs s rs); [done| |done].
    exact (descend_app _ _ k _ _ _ _ Hd).
  - apply assert_true, bool_decide_eq_true_2. destruct t; [done|]. cbn in *. set_solver.
Qed.

(** Deleting a node with two children: its in-order successor [s] is spliced out
    and takes its place. *)
Lemma delete_two_exec fuel st k c l a r ks cs s rs :
  reps st (plug k (T c l a r)) → rb_valid (plug k (T c l a r)) →
  (rb_depth (plug k (T c l a r)) < fuel)%nat → is_T l = true →
  descend [] r = Some (ks, cs, s, rs) →
  ∃ st', __rbtree_delete fuel a st = Ok (tt, st') ∧
    reps st' (del_at (ks ++ FR c l s :: k) cs rs) ∧ outside (plug k (T c l a r)) st st'.
Proof.
  intros Hr Hv Hf Hl Hd. pose proof (reps_null _ _ _ Hr) as Hn. cbn [inorder] in Hn.
  destruct (depth_fuel _ _ _ Hv Hf) as [_ Hheight]. cbn [height] in Hheight.
  pose proof (reps_lookup _ _ _ _ _ _ Hr) as Ha. unfold __rbtree_delete.
  erewrite bind_ok by exact (has_both_exec _ _ _ _ _ _ Hr).
  assert (HrT : is_T r = true) by (by destruct r).
  rewrite Hl, HrT. cbn [andb negb]. rewrite bind_assoc.
  erewrite bind_ok by (by apply rb_load_ok). cbn [rb_right].
  pose proof (descend_plug _ _ _ _ _ _ Hd) as Hp. cbn [plug] in Hp.
  rewrite bind_assoc.
  erewrite bind_ok by exact (rbtree_first_exec fuel st (FR c l a :: k) r _ _ _ _ Hr Hd ltac:(lia)).
  assert (Hrs : reps st (plug (ks ++ FR c l a :: k) (T cs E s rs))).
  { rewrite plug_app, <- Hp. exact Hr. }
  assert (Hlen : (length (ks ++ FR c l a :: k) < fuel)%nat).
  { apply (depth_fuel _ (T cs E s rs)); rewrite plug_app; cbn [plug plug1]; by rewrite <- Hp. }
  assert (Hus : uniq (before (ks ++ FR c l a :: k) ++ inorder rs ++ after (ks ++ FR c l a :: k))
    ∧ s ∉ before (ks ++ FR c l a :: k) ++ inorder rs ++ after (ks ++ FR c l a :: k) ∧ s ≠ NULL).
  { pose proof (reps_uniq _ _ _ Hrs) as Hu. pose proof (reps_null _ _ _ Hrs) as Hn'.
    cbn [inorder app] in Hu, Hn'. split_and!; [sub_uniq Hu|uniq_tac|set_solver]. }
  destruct Hus as (Hus & Hsfresh & Hs0).
  pose proof (reps_lookup _ _ _ _ _ _ Hrs) as Hs.
  rewrite bind_assoc. erewrite bind_ok by (by apply rb_load_ok). cbn [rb_right].
  destruct (splice_exec _ _ _ _ _ _ rs Hrs ltac:(auto)) as (st1 & He1 & Hr1 & Hs1 & Ho1).
  rewrite bind_assoc. erewrite bind_ok by exact He1. rewrite Hs in Hs1.
  rewrite bind_assoc. erewrite bind_ok by (by apply rb_load_ok). cbn [rb_color].
  assert (Hin : inorder (plug k (T c l a (plug ks rs)))
    = before (ks ++ FR c l a :: k) ++ inorder rs ++ after (ks ++ FR c l a :: k)).
  { rewrite <- inorder_plug, plug_app. done. }
  rewrite plug_app in Hr1. cbn [plug plug1] in Hr1.
  destruct (replace_exec st1 k c l a (plug ks rs) s _ Hr1 Hs1 Hs0) as (st2 & He2 & Hr2 & Ho2).
  { by rewrite Hin. }
  rewrite bind_assoc. erewrite bind_ok by exact He2. rewrite bind_ret.
  rewrite (kaddr_subst ks c l a s k rs Hus).
  destruct (del_at_exec fuel st2 (ks ++ FR c l s :: k) cs E s rs rs) as (st3 & He3 & Hr3 & Ho3).
  { rewrite plug_app. exact Hr2. }
  { rewrite plug_app. cbn [plug plug1]. rewrite <- Hp. by eapply rb_valid_replace. }
  { by right. }
  { rewrite length_app in *. exact Hlen. }
  exists st3. split_and!; [exact He3|done|].
  intros x Hx. rewrite Ho3, Ho2, Ho1.
  - done.
  - rewrite plug_app. cbn [plug plug1]. by rewrite <- Hp.
  - rewrite Hin. rewrite inorder_plug in Hx. cbn [inorder] in Hx. rewrite Hp, inorder_plug in Hx.
    rewrite before_app, after_app. cbn [before after inorder] in *. clear -Hx. set_solver.
  - rewrite inorder_plug in *. cbn [inorder] in Hx. rewrite Hp, inorder_plug in Hx.
    rewrite before_app, after_app. cbn [before after inorder] in *. clear -Hx. set_solver.
Qed.

Lemma delete_exec fuel st k c l a r :
  reps st (plug k (T c l a r)) → rb_valid (plug k (T c l a r)) →
  (rb_depth (plug k (T c l a r)) < fuel)%nat →
  ∃ st', rbtree_delete fuel a st = Ok (tt, st') ∧
    reps st' (rb_remove k c l r) ∧ outside (plug k (T c l a r)) st st'.
Proof.
  intros Hr Hv Hf. destruct (depth_fuel _ _ _ Hv Hf) as [Hk _].
  pose proof (reps_null _ _ _ Hr) as Hn. cbn [inorder] in Hn. unfold rbtree_delete.
  rewrite (bind_ok _ _ st tt st)
    by (apply assert_true, bool_decide_eq_true_2; intros ->; set_solver).
  unfold rb_remove. destruct l as [|cl ll al rl].
  { apply delete_one_exec; auto. }
  destruct r as [|cr lr ar rr].
  { apply delete_one_exec; auto. }
  destruct (descend_some cr lr ar rr []) as [[[[ks cs] s] rs] Hd]. rewrite Hd.
  by apply delete_two_exec.
Qed.
