(* ===== verification/RbIter.v ===== *)
(** * Red-black trees: search and traversal

    [first]/[last]/[next]/[prev] against the in-order sequence, [find] against a
    search key. *)
From Stdlib Require Import Sorted.
From S2P Require Import Prelude CList RbTree RbSpec RbRefine RbDelete.

(** The node at a position of the in-order sequence. *)
Lemma inorder_split t xs a ys :
  inorder t = xs ++ a :: ys →
  ∃ k c l r, t = plug k (T c l a r) ∧ xs = before k ++ inorder l ∧ ys = inorder r ++ after k.
Proof.
  enough (Hgen : ∀ t k xs ys, inorder t = xs ++ a :: ys →
    ∃ k' c l r, plug k t = plug k' (T c l a r) ∧ before k ++ xs = before k' ++ inorder l ∧
      ys ++ after k = inorder r ++ after k').
  { intros H. destruct (Hgen t [] xs ys H) as (k & c & l & r & ? & ? & He).
    cbn in *. rewrite app_nil_r in He. eauto 10. }
  clear. intros t. induction t as [|c l IHl b r IHr]; intros k xs ys H; cbn in H.
  { by destruct xs. }
  apply app_eq_inv in H as [(m & Hl & H)|(m & -> & H)].
  - destruct m as [|z m]; cbn in H; simplify_eq.
    + exists k, c, l, r. rewrite app_nil_r in Hl. by subst.
    + destruct (IHl (FL c b r :: k) xs m Hl) as (k' & c' & l' & r' & ? & ? & He).
      exists k', c', l', r'. cbn in *. split_and!; [done..|]. rewrite <- He. by app_norm.
  - destruct m as [|z m]; cbn in H; simplify_eq.
    + exists k, c, l, r. by rewrite app_nil_r.
    + destruct (IHr (FR c l z :: k) m ys ltac:(done)) as (k' & c' & l' & r' & ? & He & ?).
      exists k', c', l', r'. cbn in *. split_and!; [done| |done]. rewrite <- He. by app_norm.
Qed.

Definition hd_or_null (xs : list Z) : Z := default NULL (head xs).
Definition last_or_null (xs : list Z) : Z := default NULL (last xs).

Lemma hd_app_ne xs ys : xs ≠ [] → hd_or_null (xs ++ ys) = hd_or_null xs.
Proof. by destruct xs. Qed.

Lemma last_app_ne xs ys : ys ≠ [] → last_or_null (xs ++ ys) = last_or_null ys.
Proof.
  unfold last_or_null. intros H. rewrite last_app. destruct (last ys) eqn:El; [done|].
  apply last_None in El. done.
Qed.

Lemma inorder_ne t : is_T t = true → inorder t ≠ [].
Proof. destruct t as [|? l ? ?]; [done|]. intros _. cbn. by destruct (inorder l). Qed.

Lemma first_node fuel st k t :
  reps st (plug k t) → is_T t = true → (height t ≤ fuel)%nat →
  __rbtree_first fuel (addr t) st = Ok (hd_or_null (inorder t), st).
Proof.
  revert fuel k. induction t as [|c l IHl a r _]; intros fuel k Hr HT Hf; [done|].
  destruct fuel as [|fuel]; [cbn in Hf; lia|]. cbn [__rbtree_first addr].
  pose proof (reps_null _ _ _ Hr) as Hn. cbn [inorder] in Hn.
  pose proof (reps_lookup _ _ _ _ _ _ Hr) as Ha.
  erewrite bind_ok by (by apply has_left_exec). cbn [rb_left].
  rewrite addr_node by set_solver. destruct l as [|cl ll al rl]; [done|].
  rbstep.
  rewrite (IHl fuel (FL c a r :: k)); [|exact Hr|done|cbn in *; lia].
  cbn [inorder]. rewrite (hd_app_ne (inorder ll ++ _)); [done|]. by apply (inorder_ne (T cl ll al rl)).
Qed.

Lemma last_node fuel st k t :
  reps st (plug k t) → is_T t = true → (height t ≤ fuel)%nat →
  __rbtree_last fuel (addr t) st = Ok (last_or_null (inorder t), st).
Proof.
  revert fuel k. induction t as [|c l _ a r IHr]; intros fuel k Hr HT Hf; [done|].
  destruct fuel as [|fuel]; [cbn in Hf; lia|]. cbn [__rbtree_last addr].
  pose proof (reps_null _ _ _ Hr) as Hn. cbn [inorder] in Hn.
  pose proof (reps_lookup _ _ _ _ _ _ Hr) as Ha.
  erewrite bind_ok by (by apply has_right_exec). cbn [rb_right].
  rewrite addr_node by set_solver. cbn [inorder]. rewrite last_app_ne by done.
  destruct r as [|cr lr ar rr]; [done|].
  rbstep.
  rewrite (IHr fuel (FR c l a :: k)); [|exact Hr|done|cbn in *; lia].
  change (a :: inorder (T cr lr ar rr)) with ([a] ++ inorder (T cr lr ar rr)).
  rewrite (last_app_ne [a]); [done|]. by apply (inorder_ne (T cr lr ar rr)).
Qed.

(** Climbing while the node is a right child ends at the first node after the
    subtree. *)
Lemma next_up fuel st k t :
  reps st (plug k t) → is_T t = true → (length k < fuel)%nat →
  __rbtree_next_up fuel (addr t) st = Ok (hd_or_null (after k), st).
Proof.
  revert fuel t. induction k as [|f k IH]; intros fuel t Hr HT Hf;
    (destruct fuel as [|fuel]; [lia|]); cbn [__rbtree_next_up];
    (destruct t as [|ct lt at_ rt]; [done|]); cbn [addr];
    pose proof (reps_lookup _ _ _ _ _ _ Hr) as Ha; rbstep; [done|].
  pose proof (reps_null st k (plug1 f (T ct lt at_ rt)) Hr) as Hn.
  destruct f as [c a r|c l a]; cbn [kaddr plug plug1] in *; rbsee Hr;
    unfold rbtree_is_node; rewrite bool_decide_eq_true_2
       by (intros ->; cbn [inorder] in Hn; set_solver); rbstep.
  - rewrite bool_decide_eq_false_2
      by exact (reps_gt_sides st k c (T ct lt at_ rt) a r Hr ltac:(done)). done.
  - rewrite bool_decide_eq_true_2 by done.
    exact (IH fuel (T c l a (T ct lt at_ rt)) Hr eq_refl ltac:(cbn in Hf; lia)).
Qed.

Lemma prev_up fuel st k t :
  reps st (plug k t) → is_T t = true → (length k < fuel)%nat →
  __rbtree_prev_up fuel (addr t) st = Ok (last_or_null (before k), st).
Proof.
  revert fuel t. induction k as [|f k IH]; intros fuel t Hr HT Hf;
    (destruct fuel as [|fuel]; [lia|]); cbn [__rbtree_prev_up];
    (destruct t as [|ct lt at_ rt]; [done|]); cbn [addr];
    pose proof (reps_lookup _ _ _ _ _ _ Hr) as Ha; rbstep; [done|].
  pose proof (reps_null st k (plug1 f (T ct lt at_ rt)) Hr) as Hn.
  destruct f as [c a r|c l a]; cbn [kaddr plug plug1] in *; rbsee Hr;
    unfold rbtree_is_node; rewrite bool_decide_eq_true_2
       by (intros ->; cbn [inorder] in Hn; set_solver); rbstep.
  - rewrite bool_decide_eq_true_2 by done.
    exact (IH fuel (T c (T ct lt at_ rt) a r) Hr eq_refl ltac:(cbn in Hf; lia)).
  - rewrite bool_decide_eq_false_2
      by exact (not_eq_sym (reps_lt_sides st k c l a (T ct lt at_ rt) Hr ltac:(done))).
    cbn [before]. by rewrite app_assoc, last_app_ne.
Qed.

Lemma next_exec fuel st k c l a r :
  reps st (plug k (T c l a r)) → (height (plug k (T c l a r)) ≤ fuel)%nat →
  rbtree_next fuel a st = Ok (hd_or_null (inorder r ++ after k), st).
Proof.
  intros Hr Hf. pose proof (height_plug k (T c l a r)) as Hh. cbn [height] in Hh.
  pose proof (reps_null _ _ _ Hr) as Hn. cbn [inorder] in Hn.
  pose proof (reps_lookup _ _ _ _ _ _ Hr) as Ha. unfold rbtree_next, __rbtree_next.
  rewrite (bind_ok _ _ st tt st)
    by (apply assert_true, bool_decide_eq_true_2; intros ->; set_solver).
  erewrite bind_ok by (by apply has_right_exec). cbn [rb_right].
  rewrite addr_node by set_solver. destruct r as [|cr lr ar rr].
  - by apply (next_up fuel st k (T c l a E)); [|done|lia].
  - rbstep. rewrite (first_node fuel st (FR c l a :: k)); [|exact Hr|done|lia].
    rewrite hd_app_ne; [done|]. by apply inorder_ne.
Qed.

Lemma prev_exec fuel st k c l a r :
  reps st (plug k (T c l a r)) → (height (plug k (T c l a r)) ≤ fuel)%nat →
  rbtree_prev fuel a st = Ok (last_or_null (before k ++ inorder l), st).
Proof.
  intros Hr Hf. pose proof (height_plug k (T c l a r)) as Hh. cbn [height] in Hh.
  pose proof (reps_null _ _ _ Hr) as Hn. cbn [inorder] in Hn.
  pose proof (reps_lookup _ _ _ _ _ _ Hr) as Ha. unfold rbtree_prev, __rbtree_prev.
  rewrite (bind_ok _ _ st tt st)
    by (apply assert_true, bool_decide_eq_true_2; intros ->; set_solver).
  erewrite bind_ok by (by apply has_left_exec). cbn [rb_left].
  rewrite addr_node by set_solver. destruct l as [|cl ll al rl].
  - cbn [inorder]. rewrite app_nil_r. by apply (prev_up fuel st k (T c E a r)); [|done|lia].
  - rbstep. rewrite (last_node fuel st (FL c a r :: k)); [|exact Hr|done|lia].
    rewrite last_app_ne; [done|]. by apply inorder_ne.
Qed.

(** The nodes are sorted with respect to the searched key: along the sequence the
    answers of [compare] go from positive to zero to negative. *)
Definition sorted_for (compare : Z → Z) (xs : list Z) : Prop :=
  StronglySorted (λ a b, Z.sgn (compare b) ≤ Z.sgn (compare a)) xs.

Definition find_post (compare : Z → Z) (xs : list Z) (n : Z) : Prop :=
  (n ∈ xs ∧ compare n = 0) ∨ (n = NULL ∧ ∀ x, x ∈ xs → compare x ≠ 0).

Lemma sorted_app_r compare xs a ys :
  sorted_for compare (xs ++ a :: ys) →
  sorted_for compare xs ∧ sorted_for compare ys ∧
  (compare a < 0 → ∀ x, x ∈ a :: ys → compare x ≠ 0) ∧
  (0 < compare a → ∀ x, x ∈ xs ++ [a] → compare x ≠ 0).
Proof.
  unfold sorted_for. induction xs as [|y xs IH]; cbn.
  - intros [Hs Hall]%StronglySorted_inv. rewrite Forall_forall in Hall.
    split_and!; [constructor|done|..].
    + intros Hc x [->|Hx]%elem_of_cons; [lia|]. specialize (Hall x Hx). lia.
    + intros Hc x ->%list_elem_of_singleton. lia.
  - intros [Hs Hall]%StronglySorted_inv. destruct (IH Hs) as (Hxs & Hys & Hl & Hr).
    rewrite Forall_app, Forall_cons in Hall. destruct Hall as (Hall1 & Ha & Hall2).
    split_and!; [by constructor|done|done|].
    intros Hc x [->|Hx]%elem_of_cons; [|by apply Hr]. lia.
Qed.

Lemma find_exec fuel compare st k t :
  reps st (plug k t) → (height t < fuel)%nat → sorted_for compare (inorder t) →
  ∃ n, rbtree_find fuel compare (addr t) st = Ok (n, st) ∧ find_post compare (inorder t) n.
Proof.
  revert fuel k. induction t as [|c l IHl a r IHr]; intros fuel k Hr Hf Hs;
    (destruct fuel as [|fuel]; [lia|]); cbn [rbtree_find addr].
  { exists NULL. split; [done|]. right. split; [done|]. intros x Hx. by apply elem_of_nil in Hx. }
  pose proof (reps_null _ _ _ Hr) as Hn. cbn [inorder height] in *.
  unfold rbtree_is_node at 1. rewrite bool_decide_eq_true_2 by (intros ->; set_solver).
  apply sorted_app_r in Hs as (Hsl & Hsr & Hlt & Hgt). rbsee Hr.
  destruct (Z.ltb_spec (compare a) 0) as [Hc|Hc]; [|destruct (Z.ltb_spec 0 (compare a)) as [Hc'|Hc']].
  - rbstep. destruct (IHl fuel (FL c a r :: k) Hr ltac:(lia) Hsl) as (n & He & Hp).
    exists n. split; [exact He|]. destruct Hp as [[Hin ?]|[-> Hno]]; [left; set_solver|].
    right. split; [done|]. intros x [Hx|Hx]%elem_of_app; [by apply Hno|by apply Hlt].
  - rbstep. destruct (IHr fuel (FR c l a :: k) Hr ltac:(lia) Hsr) as (n & He & Hp).
    exists n. split; [exact He|]. destruct Hp as [[Hin ?]|[-> Hno]]; [left; set_solver|].
    right. split; [done|]. intros x [Hx|[->|Hx]%elem_of_cons]%elem_of_app; [|lia|by apply Hno].
    apply Hgt; [done|set_solver].
  - exists a. split; [done|]. left. split; [set_solver|lia].
Qed.
