(* ===== verification/RbTheorems.v ===== *)
(** * Red-black trees: the theorems of the component

    A tree is described by the abstract tree [t] it represents ([reps]), whose
    in-order sequence is the abstract value; [rb_valid] is the red-black
    invariant.  The fuel bound [rb_depth] is logarithmic in the number of
    nodes, so each theorem also bounds the number of loop rounds. *)
From Stdlib Require Import Sorted.
From S2P Require Import Prelude CList RbTree RbSpec RbRefine RbDelete RbIter.

(** ** A concrete tree for the witnesses *)
Definition sample_tree : tree := T RB_BLACK (T RB_RED E 16 E) 32 (T RB_RED E 48 E).

Definition sample_store : rbtree := RbTree 32 (list_to_map
  [ (16, RbNode RB_RED NULL NULL 32);
    (32, RbNode RB_BLACK 16 48 NULL);
    (48, RbNode RB_RED NULL NULL 32);
    (64, RbNode RB_RED 1 1 1) ]).

Lemma sample_reps : reps sample_store sample_tree.
Proof.
  split; [done|]. split; [by vm_compute|]. split.
  - apply uniq_NoDup. by apply (bool_decide_unpack _).
  - by apply (bool_decide_unpack _).
Qed.

Lemma sample_valid : rb_valid sample_tree.
Proof. exists 1%nat. unfold sample_tree. eauto with rb. Qed.

(** C6. Inserting a fresh node [z] at an empty link of a valid red-black tree
    (the context [k] of the hole gives the [parent] and [clinkp] arguments)
    terminates within a logarithmic number of rounds, without dereferencing an
    invalid pointer; the result is a valid red-black tree that stores the old
    nodes in the same order, with [z] at the position of the link; memory outside
    the tree is unchanged. *)
Theorem rbtree_insert_correct fuel st k z n0 :
  reps st (plug k E) → rb_valid (plug k E) → (rb_depth (plug k E) < fuel)%nat →
  rb_heap st !! z = Some n0 → z ∉ inorder (plug k E) → z ≠ NULL →
  ∃ st' t', rbtree_insert fuel z (kaddr k) (klink k) st = Ok (tt, st') ∧
    reps st' t' ∧ rb_valid t' ∧ inorder t' = before k ++ z :: after k ∧
    (∀ x, x ∉ inorder t' → rb_heap st' !! x = rb_heap st !! x).
Proof. apply insert_exec. Qed.

Lemma rbtree_insert_correct_witness :
  ∃ st' t', rbtree_insert 5 64 48 (RightLink 48) sample_store = Ok (tt, st') ∧
    reps st' t' ∧ rb_valid t' ∧ inorder t' = [16; 32; 48; 64] ∧
    (∀ x, x ∉ inorder t' → rb_heap st' !! x = rb_heap sample_store !! x).
Proof.
  apply (rbtree_insert_correct 5 sample_store
    [FR RB_RED E 48; FR RB_BLACK (T RB_RED E 16 E) 32] 64 (RbNode RB_RED 1 1 1)).
  - exact sample_reps.
  - exact sample_valid.
  - vm_compute. lia.
  - reflexivity.
  - by apply (bool_decide_unpack _).
  - done.
Defined.

(** C5. Deleting the node [a] of a valid red-black tree terminates within a
    logarithmic number of rounds, trips none of the asserts of the rebalancing,
    removes exactly [a] from the in-order sequence and yields a valid red-black
    tree again; memory outside the tree is unchanged. *)
Theorem rbtree_delete_correct fuel st t xs a ys :
  reps st t → rb_valid t → (rb_depth t < fuel)%nat → inorder t = xs ++ a :: ys →
  ∃ st' t', rbtree_delete fuel a st = Ok (tt, st') ∧
    reps st' t' ∧ rb_valid t' ∧ inorder t' = xs ++ ys ∧ outside t st st'.
Proof.
  intros Hr Hv Hf (k & c & l & r & -> & -> & ->)%inorder_split.
  destruct (delete_exec fuel st k c l a r Hr Hv Hf) as (st' & He & Hr' & Ho).
  exists st', (rb_remove k c l r). split_and!; [done|done| | |done].
  - by eapply rb_remove_valid.
  - by rewrite inorder_rb_remove, <- app_assoc.
Qed.

Lemma rbtree_delete_correct_witness :
  ∃ st' t', rbtree_delete 5 32 sample_store = Ok (tt, st') ∧
    reps st' t' ∧ rb_valid t' ∧ inorder t' = [16; 48] ∧ outside sample_tree sample_store st'.
Proof.
  apply (rbtree_delete_correct 5 sample_store sample_tree [16] 32 [48]).
  - exact sample_reps.
  - exact sample_valid.
  - vm_compute. lia.
  - reflexivity.
Defined.

(** [rbtree_find] terminates after at most [rb_depth t + 1] calls of the
    comparison; on a tree sorted for the searched key it returns a node that
    compares equal when there is one and [NULL] otherwise, and it changes
    nothing. *)
Theorem rbtree_find_correct fuel compare st t :
  reps st t → rb_valid t → (rb_depth t < fuel)%nat → sorted_for compare (inorder t) →
  ∃ n, rbtree_find fuel compare (rb_root st) st = Ok (n, st) ∧ find_post compare (inorder t) n.
Proof.
  intros Hr Hv Hf Hs. pose proof (rb_valid_height t Hv). destruct Hr as [Hroot Hr'] eqn:E.
  rewrite Hroot. apply (find_exec fuel compare st []); [done|lia|done].
Qed.

Lemma rbtree_find_correct_witness :
  ∃ n, rbtree_find 5 (λ x, 48 - x) 32 sample_store = Ok (n, sample_store) ∧
    find_post (λ x, 48 - x) [16; 32; 48] n.
Proof.
  apply (rbtree_find_correct 5 (λ x, 48 - x) sample_store sample_tree).
  - exact sample_reps.
  - exact sample_valid.
  - vm_compute. lia.
  - repeat constructor; vm_compute; discriminate.
Defined.

(** In-order traversal: [rbtree_first] and [rbtree_last] return the ends of the
    in-order sequence, and [rbtree_next] and [rbtree_prev] of a node return its
    neighbours in it ([NULL] past either end), all within a logarithmic number
    of steps and without changing the tree. *)
Theorem rbtree_traversal_correct fuel st t xs a ys :
  reps st t → rb_valid t → (rb_depth t ≤ fuel)%nat → inorder t = xs ++ a :: ys →
  rbtree_first fuel (rb_root st) st = Ok (hd_or_null (inorder t), st) ∧
  rbtree_last fuel (rb_root st) st = Ok (last_or_null (inorder t), st) ∧
  rbtree_next fuel a st = Ok (hd_or_null ys, st) ∧
  rbtree_prev fuel a st = Ok (last_or_null xs, st).
Proof.
  intros Hr Hv Hf Ht. pose proof (rb_valid_height t Hv) as Hh. pose proof Hr as [Hroot _].
  assert (HT : is_T t = true) by (destruct t; [by destruct xs|done]).
  assert (Hn0 : addr t ≠ NULL).
  { destruct Hr as (_ & _ & _ & Hn). destruct t; [done|]. cbn in *. set_solver. }
  split_and!.
  - unfold rbtree_first. rewrite (bind_ok _ _ st tt st), Hroot.
    + by apply (first_node fuel st []); [|done|lia].
    + rewrite Hroot. by apply assert_true, bool_decide_eq_true_2.
  - unfold rbtree_last. rewrite (bind_ok _ _ st tt st), Hroot.
    + by apply (last_node fuel st []); [|done|lia].
    + rewrite Hroot. by apply assert_true, bool_decide_eq_true_2.
  - apply inorder_split in Ht as (k & c & l & r & -> & -> & ->). eapply next_exec; [done|lia].
  - apply inorder_split in Ht as (k & c & l & r & -> & -> & ->). eapply prev_exec; [done|lia].
Qed.

Lemma rbtree_traversal_correct_witness :
  rbtree_first 4 32 sample_store = Ok (16, sample_store) ∧
  rbtree_last 4 32 sample_store = Ok (48, sample_store) ∧
  rbtree_next 4 16 sample_store = Ok (32, sample_store) ∧
  rbtree_prev 4 16 sample_store = Ok (NULL, sample_store).
Proof.
  apply (rbtree_traversal_correct 4 sample_store sample_tree [] 16 [32; 48]).
  - exact sample_reps.
  - exact sample_valid.
  - vm_compute. lia.
  - reflexivity.
Defined.

(** A left rotation keeps the in-order sequence and is undone by the right
    rotation around the node it lifted; both preserve the representation, that is
    all parent and child pointers agree. *)
Theorem rbtree_rotate_roundtrip st k cp a p b cc x d :
  reps st (plug k (T cp a p (T cc b x d))) →
  ∃ st1 st2, __rbtree_rotate p true st = Ok (tt, st1) ∧
    reps st1 (plug k (T cc (T cp a p b) x d)) ∧
    inorder (plug k (T cc (T cp a p b) x d)) = inorder (plug k (T cp a p (T cc b x d))) ∧
    __rbtree_rotate x false st1 = Ok (tt, st2) ∧
    reps st2 (plug k (T cp a p (T cc b x d))).
Proof.
  intros Hr. cbn [__rbtree_rotate].
  destruct (rotate_left_spec _ _ _ _ _ _ _ _ _ Hr) as (st1 & He1 & Hr1 & _).
  destruct (rotate_right_spec st1 k cc d x b cp p a Hr1) as (st2 & He2 & Hr2 & _).
  exists st1, st2. split_and!; [done|done| |done|done]. same_nodes.
Qed.

Lemma rbtree_rotate_roundtrip_witness :
  ∃ st1 st2, __rbtree_rotate 32 true sample_store = Ok (tt, st1) ∧
    reps st1 (T RB_RED (T RB_BLACK (T RB_RED E 16 E) 32 E) 48 E) ∧
    [16; 32; 48] = [16; 32; 48] ∧
    __rbtree_rotate 48 false st1 = Ok (tt, st2) ∧
    reps st2 sample_tree.
Proof.
  apply (rbtree_rotate_roundtrip sample_store [] RB_BLACK (T RB_RED E 16 E) 32 E RB_RED 48 E).
  exact sample_reps.
Defined.
