(* ===== verification/Cpu.v ===== *)
(** * Machine definitions ([include/c.h], [include/shared.h])

    Error codes, alignment and address-segment macros, the random generator and
    the interrupt enable bit of the CP0 Status register.  A state that contains
    the register is an instance of [CpuState]. *)
From S2P Require Import Prelude.

(** ** Error codes *)
Definition EOK : Z := 0.
Definition EAGAIN : Z := -11.
Definition ENOMEM : Z := -12.
Definition EINVAL : Z := -22.
Definition ENOSYS : Z := -38.
Definition ETIMEDOUT : Z := -145.
Definition EKILLED : Z := -666.

(** ** Alignment *)
Definition ALIGN_DOWN (size align : Z) : Z := Z.land size (Z.lnot (align - 1)).
Definition ALIGN_UP (size align : Z) : Z :=
  Z.land (wrap (size + (align - 1))) (Z.lnot (align - 1)).

Lemma land_lnot_ones x k : 0 ≤ k → Z.land x (Z.lnot (2 ^ k - 1)) = x - x mod 2 ^ k.
Proof.
  intros Hk.
  rewrite <- Z.ldiff_land. replace (2 ^ k - 1) with (Z.ones k) by (rewrite Z.ones_equiv; lia).
  rewrite Z.ldiff_ones_r, Z.shiftl_mul_pow2, Z.shiftr_div_pow2 by done.
  pose proof (Z.div_mod x (2 ^ k)). lia.
Qed.

Lemma ALIGN_UP_spec size k :
  0 ≤ k → 0 ≤ size → size + (2 ^ k - 1) < word_max →
  size ≤ ALIGN_UP size (2 ^ k) < size + 2 ^ k ∧ (2 ^ k | ALIGN_UP size (2 ^ k)).
Proof.
  intros Hk H0 Hmax. unfold ALIGN_UP. pose proof (Z.pow_pos_nonneg 2 k ltac:(lia) Hk).
  rewrite wrap_small by (unfold u32; lia). rewrite land_lnot_ones by done.
  set (x := size + (2 ^ k - 1)). pose proof (Z.mod_pos_bound x (2 ^ k) ltac:(lia)).
  split; [lia|]. exists (x / 2 ^ k). pose proof (Z.div_mod x (2 ^ k) ltac:(lia)). lia.
Qed.

Lemma ALIGN_DOWN_spec size k :
  0 ≤ k → 0 ≤ size →
  ALIGN_DOWN size (2 ^ k) ≤ size < ALIGN_DOWN size (2 ^ k) + 2 ^ k ∧
  (2 ^ k | ALIGN_DOWN size (2 ^ k)).
Proof.
  intros Hk H0. unfold ALIGN_DOWN. pose proof (Z.pow_pos_nonneg 2 k ltac:(lia) Hk).
  rewrite land_lnot_ones by done. pose proof (Z.mod_pos_bound size (2 ^ k) ltac:(lia)).
  split; [lia|]. exists (size / 2 ^ k). pose proof (Z.div_mod size (2 ^ k) ltac:(lia)). lia.
Qed.

(** ** Address segments *)
Definition MAX_CPU : Z := 32.
Definition ADDR_PREFIX_MASK : Z := 0xE0000000.
Definition ADDR_OFFSET_MASK : Z := 0x1FFFFFFF.
Definition ADDR_PREFIX_KSEG0 : Z := 0x80000000.
Definition ADDR_OFFSET (x : Z) : Z := Z.land x ADDR_OFFSET_MASK.
Definition ADDR_IN_KSEG0 (x : Z) : Z := Z.lor (ADDR_OFFSET x) ADDR_PREFIX_KSEG0.
Definition ADDR_FROM_KSEG0 (x : Z) : Z := ADDR_OFFSET x.
Definition ADDR_FROM_KSEG1 (x : Z) : Z := ADDR_OFFSET x.

Lemma ADDR_OFFSET_mod x : ADDR_OFFSET x = x mod 2 ^ 29.
Proof. unfold ADDR_OFFSET. exact (Z.land_ones x 29 ltac:(lia)). Qed.

(** The window of physical memory visible in KSEG0. *)
Definition phys_ok (p : Z) : Prop := 0 ≤ p < 2 ^ 29.

Lemma lor_disjoint_add a b : Z.land a b = 0 → Z.lor a b = a + b.
Proof. intros H. by rewrite Z.add_nocarry_lxor, Z.lxor_lor. Qed.

Lemma land_small_pow x k : 0 ≤ k → 0 ≤ x < 2 ^ k → Z.land x (2 ^ k) = 0.
Proof.
  intros Hk Hx. apply Z.bits_inj'. intros n Hn.
  rewrite Z.land_spec, Z.bits_0, Z.pow2_bits_eqb by done.
  destruct (Z.eqb_spec k n) as [->|]; [|by rewrite andb_false_r].
  rewrite Z.testbit_eqb by done. by rewrite Z.div_small by done.
Qed.

Lemma ADDR_IN_KSEG0_add p : phys_ok p → ADDR_IN_KSEG0 p = p + ADDR_PREFIX_KSEG0.
Proof.
  intros Hp. unfold ADDR_IN_KSEG0. rewrite ADDR_OFFSET_mod, Z.mod_small by exact Hp.
  apply lor_disjoint_add. unfold phys_ok in Hp. apply (land_small_pow p 31); lia.
Qed.

Lemma ADDR_FROM_IN_KSEG0 p : phys_ok p → ADDR_FROM_KSEG0 (p + ADDR_PREFIX_KSEG0) = p.
Proof.
  intros Hp. unfold ADDR_FROM_KSEG0. rewrite ADDR_OFFSET_mod.
  replace (p + ADDR_PREFIX_KSEG0) with (p + 4 * 2 ^ 29) by (unfold ADDR_PREFIX_KSEG0; lia).
  rewrite Z_mod_plus_full. by apply Z.mod_small.
Qed.

(** ** The random generator: the new seed and the number drawn *)
Definition random (seed : Z) : Z * Z :=
  let seed := wrap ((wrap (seed * 873511)) mod 22348977 + 7) in
  (Z.shiftr seed 8, seed).

(** ** The interrupt enable bit *)
Definition CP0_STATUS_IE_MASK : Z := 1.

Class CpuState (S : Type) := {
  cp0_status : S → Z;
  set_cp0_status : Z → S → S;
}.

Class CpuStateLaws (S : Type) `{CpuState S} := {
  cp0_status_set v s : cp0_status (set_cp0_status v s) = v;
  set_cp0_status_set v w s : set_cp0_status v (set_cp0_status w s) = set_cp0_status v s;
  set_cp0_status_same s : set_cp0_status (cp0_status s) s = s;
}.

Section interrupts.
  Context {S : Type} `{CpuState S}.

Definition query_and_disable_interrupts : KM S Z := λ s,
  let status := cp0_status s in
  Ok (Z.land status CP0_STATUS_IE_MASK,
      set_cp0_status (Z.land status (Z.lnot CP0_STATUS_IE_MASK)) s).

Definition disable_interrupts : KM S unit :=
  kmodify (λ s, set_cp0_status (Z.land (cp0_status s) (Z.lnot CP0_STATUS_IE_MASK)) s).

Definition enable_interrupts : KM S unit :=
  kmodify (λ s, set_cp0_status (Z.lor (cp0_status s) CP0_STATUS_IE_MASK) s).

Definition conditionally_enable_interrupts (state : Z) : KM S unit :=
  if bool_decide (state ≠ 0) then enable_interrupts else mret ().

(** Interrupts are enabled. *)
Definition ints_on (s : S) : bool := bool_decide (Z.land (cp0_status s) CP0_STATUS_IE_MASK ≠ 0).

(** The Status register with the interrupt enable bit cleared. *)
Definition ints_masked (s : S) : S :=
  set_cp0_status (Z.land (cp0_status s) (Z.lnot CP0_STATUS_IE_MASK)) s.

End interrupts.

Lemma status_restore x :
  (if bool_decide (Z.land x 1 ≠ 0) then Z.lor (Z.land x (Z.lnot 1)) 1
   else Z.land x (Z.lnot 1)) = x.
Proof.
  assert (Hbits : ∀ n, Z.testbit 1 n = bool_decide (n = 0)).
  { intros n. destruct (decide (n = 0)) as [->|Hn]; [done|]. rewrite bool_decide_eq_false_2 by done.
    destruct n; [done| |done]. by destruct p. }
  assert (Hx : Z.land x 1 = if Z.testbit x 0 then 1 else 0).
  { apply Z.bits_inj'. intros n Hn. rewrite Z.land_spec, Hbits.
    case_bool_decide; subst; [by destruct (Z.testbit x 0)|].
    rewrite andb_false_r. destruct (Z.testbit x 0); [|by rewrite Z.bits_0].
    by rewrite Hbits, bool_decide_eq_false_2. }
  rewrite Hx. destruct (Z.testbit x 0) eqn:E.
  - rewrite bool_decide_eq_true_2 by done. apply Z.bits_inj'. intros n Hn.
    rewrite Z.lor_spec, Z.land_spec, Z.lnot_spec, !Hbits by done.
    case_bool_decide; subst; rewrite ?E; by rewrite ?andb_true_r, ?orb_false_r, ?orb_true_r.
  - rewrite bool_decide_eq_false_2 by (intros []; done). apply Z.bits_inj'. intros n Hn.
    rewrite Z.land_spec, Z.lnot_spec, !Hbits by done.
    case_bool_decide; subst; rewrite ?E; by rewrite ?andb_true_r.
Qed.

Lemma ints_query_exec {S} `{CpuState S} (s : S) :
  query_and_disable_interrupts s = Ok (Z.land (cp0_status s) CP0_STATUS_IE_MASK, ints_masked s).
Proof. done. Qed.

(** The pair of functions restores the register, whatever happens between them
    that leaves the register alone. *)
Lemma ints_restore {S} `{CpuStateLaws S} (s s' : S) :
  cp0_status s' = cp0_status (ints_masked s) →
  conditionally_enable_interrupts (Z.land (cp0_status s) CP0_STATUS_IE_MASK) s' =
    Ok (tt, set_cp0_status (cp0_status s) s').
Proof.
  unfold ints_masked. rewrite cp0_status_set. intros Hs.
  pose proof (status_restore (cp0_status s)) as Hr.
  unfold conditionally_enable_interrupts, CP0_STATUS_IE_MASK in *.
  case_bool_decide as Hc.
  - unfold enable_interrupts, kmodify. rewrite Hs. unfold CP0_STATUS_IE_MASK. by rewrite Hr.
  - rewrite Hr in Hs. rewrite <- Hs. by rewrite set_cp0_status_same.
Qed.
