(* ===== verification/Atomic.v ===== *)
(** * Atomic variables ([kernel/adt/atomic.h])

    The operations are loops around a pair of LL and SC instructions.  Processors
    execute them instruction by instruction, in any order; an exception on a
    processor loses its link.  First each processor performs one operation, then
    ([action]) as many as it likes. *)
From S2P Require Import Prelude Cpu.

(** ** The code *)

(** What distinguishes the loops: after LL has read [orig], the loop is left without
    a store if [ac_skip orig]; otherwise SC stores [ac_store orig]; the function
    returns [ac_ret orig]. *)
Record atomic_code := AtomicCode {
  ac_skip : Z → bool;
  ac_store : Z → Z;
  ac_ret : Z → Z;
}.

Definition atomic_test_and_set : atomic_code :=
  AtomicCode (λ orig, negb (orig =? 0)) (λ _, 1) (λ orig, orig).
Definition atomic_add (num : Z) : atomic_code :=
  AtomicCode (λ _, false) (λ orig, wrap (orig + num)) (λ orig, wrap (orig + num)).
Definition atomic_post_add (num : Z) : atomic_code :=
  AtomicCode (λ _, false) (λ orig, wrap (orig + num)) (λ orig, orig).
Definition atomic_sub (num : Z) : atomic_code :=
  AtomicCode (λ _, false) (λ orig, wrap (orig - num)) (λ orig, wrap (orig - num)).

(** Where a processor is: before LL, between LL and SC, or returned. *)
Inductive phase := Try | Linked (orig : Z) | Done (ret : Z).

(** A processor, with its link to the variable. *)
Record acpu := ACpu {
  cpu_code : atomic_code;
  cpu_phase : phase;
  cpu_link : bool;
}.

Record amachine := AMachine {
  am_value : Z;
  am_cpus : list acpu;
}.

Definition atomic_get (m : amachine) : Z := am_value m.

Definition unlink (c : acpu) : acpu := ACpu (cpu_code c) (cpu_phase c) false.

(** Every store to the variable breaks all links to it. *)
Definition am_store (v : Z) (m : amachine) : amachine := AMachine v (unlink <$> am_cpus m).

Definition atomic_set (val : Z) (m : amachine) : amachine := am_store val m.

(** ** The instructions *)
Definition ll (i : nat) (c : acpu) (m : amachine) : amachine :=
  let orig := am_value m in
  let p := if ac_skip (cpu_code c) orig then Done (ac_ret (cpu_code c) orig) else Linked orig in
  AMachine orig (<[i := ACpu (cpu_code c) p true]> (am_cpus m)).

Definition sc (i : nat) (c : acpu) (orig : Z) (m : amachine) : amachine :=
  if cpu_link c then
    let m := am_store (ac_store (cpu_code c) orig) m in
    AMachine (am_value m) (<[i := ACpu (cpu_code c) (Done (ac_ret (cpu_code c) orig)) false]> (am_cpus m))
  else
    AMachine (am_value m) (<[i := ACpu (cpu_code c) Try false]> (am_cpus m)).

(** Processor [i] executes its next instruction, or takes an exception. *)
Inductive event := Exec (i : nat) | Lose (i : nat).

#[export] Instance event_eq_dec : EqDecision event.
Proof. solve_decision. Defined.

Definition am_step (e : event) (m : amachine) : amachine :=
  match e with
  | Exec i =>
    match am_cpus m !! i with
    | Some c => match cpu_phase c with
                | Try => ll i c m
                | Linked orig => sc i c orig m
                | Done _ => m
                end
    | None => m
    end
  | Lose i => AMachine (am_value m) (alter unlink i (am_cpus m))
  end.

Definition am_run (es : list event) (m : amachine) : amachine := foldl (λ m e, am_step e m) m es.

Definition am_init (v : Z) (codes : list atomic_code) : amachine :=
  AMachine v ((λ c, ACpu c Try false) <$> codes).

(** ** The sequential reference: the new value and the result of one operation *)
Definition atomic_exec (c : atomic_code) (v : Z) : Z * Z :=
  (if ac_skip c v then v else ac_store c v, ac_ret c v).

Fixpoint atomic_seq (cs : list atomic_code) (v : Z) : Z * list Z :=
  match cs with
  | [] => (v, [])
  | c :: cs =>
    let '(v, r) := atomic_exec c v in
    let '(v, rs) := atomic_seq cs v in
    (v, r :: rs)
  end.

Lemma atomic_seq_app cs ds v :
  atomic_seq (cs ++ ds) v =
    ((atomic_seq ds (atomic_seq cs v).1).1, (atomic_seq cs v).2 ++ (atomic_seq ds (atomic_seq cs v).1).2).
Proof.
  revert v. induction cs as [|c cs IH]; intros v; cbn.
  - by destruct (atomic_seq ds v).
  - rewrite IH. by destruct (atomic_seq cs _).
Qed.

(** ** Linearisation *)

Definition ccode (m : amachine) (i : nat) : option atomic_code := cpu_code <$> am_cpus m !! i.
Definition cphase (m : amachine) (i : nat) : option phase := cpu_phase <$> am_cpus m !! i.

(** [order] lists the processors that have returned; executing their operations
    one after the other yields the value of the variable and their results. *)
Definition linearized (v : Z) (order : list nat) (m : amachine) : Prop :=
  NoDup order ∧
  (∀ i, i ∈ order ↔ ∃ r, cphase m i = Some (Done r)) ∧
  ∃ cs rs,
    Forall2 (λ i c, ccode m i = Some c) order cs ∧
    Forall2 (λ i r, cphase m i = Some (Done r)) order rs ∧
    atomic_seq cs v = (am_value m, rs).

(** A valid link means that the variable still has the value LL has read. *)
Definition links_valid (m : amachine) : Prop :=
  ∀ i c orig, am_cpus m !! i = Some c → cpu_phase c = Linked orig →
    ac_skip (cpu_code c) orig = false ∧ (cpu_link c = true → orig = am_value m).

Lemma linearized_keep v order m m' :
  linearized v order m → am_value m' = am_value m → (∀ i, ccode m' i = ccode m i) →
  (∀ i r, cphase m' i = Some (Done r) ↔ cphase m i = Some (Done r)) → linearized v order m'.
Proof.
  intros (Hnd & Hin & cs & rs & Hcs & Hrs & Hseq) Hv Hc Hp. split_and!; [done| |].
  - intros i. rewrite Hin. by setoid_rewrite Hp.
  - exists cs, rs. rewrite Hv. split_and!; [| |done].
    + eapply Forall2_impl; [exact Hcs|]. intros i c. by rewrite Hc.
    + eapply Forall2_impl; [exact Hrs|]. intros i r. by rewrite Hp.
Qed.

Lemma Forall2_and_Forall_l {A B} (P : A → Prop) (Q : A → B → Prop) xs ys :
  Forall P xs → Forall2 Q xs ys → Forall2 (λ x y, P x ∧ Q x y) xs ys.
Proof. intros HP HQ. induction HQ; inversion_clear HP; constructor; auto. Qed.

(** Processor [i] performs its operation. *)
Lemma linearized_add v order m m' i c :
  linearized v order m → ccode m i = Some c → (∀ r, cphase m i ≠ Some (Done r)) →
  am_value m' = (atomic_exec c (am_value m)).1 → (∀ j, ccode m' j = ccode m j) →
  (∀ j r, cphase m' j = Some (Done r) ↔
     if decide (j = i) then r = (atomic_exec c (am_value m)).2 else cphase m j = Some (Done r)) →
  linearized v (order ++ [i]) m'.
Proof.
  intros (Hnd & Hin & cs & rs & Hcs & Hrs & Hseq) Hi Hnot Hv Hc Hp.
  assert (Hni : i ∉ order) by (rewrite Hin; intros [r Hr]; by apply (Hnot r)).
  split_and!.
  - apply NoDup_app. split_and!; [done|set_solver|apply NoDup_singleton].
  - intros j. rewrite elem_of_app, list_elem_of_singleton, Hin. setoid_rewrite Hp.
    destruct (decide (j = i)) as [->|]; [|naive_solver]. split; [eauto|by right].
  - exists (cs ++ [c]), (rs ++ [(atomic_exec c (am_value m)).2]). split_and!.
    + apply Forall2_app; [|by repeat constructor; rewrite Hc].
      eapply Forall2_impl; [exact Hcs|]. intros j d. by rewrite Hc.
    + apply Forall2_app; [|repeat constructor; apply Hp; by rewrite decide_True].
      assert (Hall : Forall (λ j, j ≠ i) order) by (apply Forall_forall; intros j Hj ->; done).
      eapply Forall2_impl; [exact (Forall2_and_Forall_l _ _ _ _ Hall Hrs)|].
      intros j r [Hne Hj]. apply Hp. by rewrite decide_False.
    + rewrite atomic_seq_app, Hseq, Hv. reflexivity.
Qed.

Lemma lookup_unlink (l : list acpu) i : (unlink <$> l) !! i = unlink <$> l !! i.
Proof. apply list_lookup_fmap. Qed.

Lemma fmap_unlink {A} (f : acpu → A) (o : option acpu) :
  (∀ c, f (unlink c) = f c) → f <$> (unlink <$> o) = f <$> o.
Proof. intros Hf. destruct o; cbn; by rewrite ?Hf. Qed.

(** The effect of a step on the codes and the phases. *)
Lemma step_codes e m j : ccode (am_step e m) j = ccode m j.
Proof.
  unfold ccode. destruct e as [i|i]; cbn.
  - destruct (am_cpus m !! i) as [c|] eqn:Ec; [|done]. destruct (cpu_phase c) eqn:Ep; [| |done].
    + unfold ll. cbn. destruct (decide (j = i)) as [->|]; [|by rewrite list_lookup_insert_ne].
      rewrite Ec, list_lookup_insert_eq by (by eapply lookup_lt_Some). done.
    + unfold sc. destruct (cpu_link c); cbn; (destruct (decide (j = i)) as [->|]).
      * rewrite Ec, list_lookup_insert_eq; [done|]. rewrite length_fmap. by eapply lookup_lt_Some.
      * rewrite list_lookup_insert_ne, lookup_unlink by done. by apply fmap_unlink.
      * rewrite Ec, list_lookup_insert_eq by (by eapply lookup_lt_Some). done.
      * by rewrite list_lookup_insert_ne.
  - destruct (decide (j = i)) as [->|]; [|by rewrite list_lookup_alter_ne].
    rewrite list_lookup_alter_eq. by apply fmap_unlink.
Qed.

Lemma lookup_step_ne i j m : j ≠ i →
  cpu_phase <$> am_cpus (am_step (Exec i) m) !! j = cpu_phase <$> am_cpus m !! j.
Proof.
  intros Hne. cbn. destruct (am_cpus m !! i) as [c|]; [|done]. destruct (cpu_phase c); [| |done].
  - unfold ll. cbn. by rewrite list_lookup_insert_ne.
  - unfold sc. destruct (cpu_link c); cbn; rewrite list_lookup_insert_ne by done; [|done].
    rewrite lookup_unlink. by apply fmap_unlink.
Qed.

Lemma lookup_step_eq i c m :
  am_cpus m !! i = Some c →
  cphase (am_step (Exec i) m) i = Some
    match cpu_phase c with
    | Try => if ac_skip (cpu_code c) (am_value m) then Done (ac_ret (cpu_code c) (am_value m))
             else Linked (am_value m)
    | Linked orig => if cpu_link c then Done (ac_ret (cpu_code c) orig) else Try
    | Done r => Done r
    end.
Proof.
  intros Hi. unfold cphase. cbn. rewrite Hi. pose proof (lookup_lt_Some _ _ _ Hi).
  destruct (cpu_phase c) eqn:Ep.
  - unfold ll. cbn. by rewrite list_lookup_insert_eq.
  - unfold sc. destruct (cpu_link c); cbn; rewrite list_lookup_insert_eq; try done. by rewrite length_fmap.
  - by rewrite Hi, <- Ep.
Qed.

Lemma links_valid_step e m : links_valid m → links_valid (am_step e m).
Proof.
  intros Hl j c' orig'. destruct e as [i|i]; cbn.
  - destruct (am_cpus m !! i) as [c|] eqn:Ec; [|apply Hl]. pose proof (lookup_lt_Some _ _ _ Ec).
    destruct (cpu_phase c) as [|orig|] eqn:Ep; [| |apply Hl].
    + unfold ll. cbn. destruct (decide (j = i)) as [->|]; [|rewrite list_lookup_insert_ne by done; apply Hl].
      rewrite list_lookup_insert_eq by done. intros [= <-]. cbn.
      destruct (ac_skip (cpu_code c) (am_value m)) eqn:Es; [done|]. by intros [= <-].
    + unfold sc. destruct (cpu_link c); cbn.
      * destruct (decide (j = i)) as [->|].
        -- rewrite list_lookup_insert_eq by (by rewrite length_fmap). by intros [= <-].
        -- rewrite list_lookup_insert_ne, lookup_unlink by done.
           destruct (am_cpus m !! j) as [d|] eqn:Ej; [|done]. intros [= <-]. cbn. intros Hp.
           split; [|done]. by apply (Hl j d).
      * destruct (decide (j = i)) as [->|]; [|rewrite list_lookup_insert_ne by done; apply Hl].
        rewrite list_lookup_insert_eq by done. by intros [= <-].
  - destruct (decide (j = i)) as [->|]; [|rewrite list_lookup_alter_ne by done; apply Hl].
    rewrite list_lookup_alter_eq. destruct (am_cpus m !! i) as [d|] eqn:Ej; [|done]. intros [= <-]. cbn.
    intros Hp. split; [|done]. by apply (Hl i d).
Qed.

Lemma linearized_step v order e m :
  links_valid m → linearized v order m → ∃ order', linearized v order' (am_step e m).
Proof.
  intros Hl Hlin. destruct e as [i|i].
  2: { exists order. eapply linearized_keep; [exact Hlin|done|apply (step_codes (Lose i))|].
    intros j r. unfold cphase. cbn. destruct (decide (j = i)) as [->|]; [|by rewrite list_lookup_alter_ne].
    rewrite list_lookup_alter_eq. by rewrite fmap_unlink. }
  destruct (am_cpus m !! i) as [c|] eqn:Ec.
  2: { exists order. cbn. by rewrite Ec. }
  pose proof (lookup_step_eq i c m Ec) as Hp.
  assert (Hci : ccode m i = Some (cpu_code c)) by (unfold ccode; by rewrite Ec).
  assert (Hpi : cphase m i = Some (cpu_phase c)) by (unfold cphase; by rewrite Ec).
  assert (Hkeep : am_value (am_step (Exec i) m) = am_value m →
    (∀ r, cphase (am_step (Exec i) m) i = Some (Done r) ↔ cphase m i = Some (Done r)) →
    ∃ order', linearized v order' (am_step (Exec i) m)).
  { intros Hv Hd. exists order. eapply linearized_keep; [exact Hlin|done|apply step_codes|].
    intros j r. destruct (decide (j = i)) as [->|]; [apply Hd|]. unfold cphase. by rewrite lookup_step_ne. }
  assert (Hadd : (∀ r, cphase m i ≠ Some (Done r)) →
    am_value (am_step (Exec i) m) = (atomic_exec (cpu_code c) (am_value m)).1 →
    cphase (am_step (Exec i) m) i = Some (Done (ac_ret (cpu_code c) (am_value m))) →
    ∃ order', linearized v order' (am_step (Exec i) m)).
  { intros Hnot Hv Hd. exists (order ++ [i]). eapply linearized_add; try done; [apply step_codes|].
    intros j r. destruct (decide (j = i)) as [->|]; [|unfold cphase; by rewrite lookup_step_ne].
    rewrite Hd. cbn. split; [by intros [= ->]|by intros ->]. }
  destruct (cpu_phase c) as [|orig|r0] eqn:Ep.
  - destruct (ac_skip (cpu_code c) (am_value m)) eqn:Es.
    + apply Hadd; [by rewrite Hpi| |done]. cbn. rewrite Ec, Ep, Es. done.
    + apply Hkeep; [cbn; by rewrite Ec, Ep|]. intros r. by rewrite Hp, Hpi.
  - destruct (Hl i c orig Ec Ep) as [Hs Hv]. destruct (cpu_link c) eqn:El.
    + specialize (Hv eq_refl) as ->. apply Hadd; [by rewrite Hpi| |done].
      cbn. rewrite Ec, Ep. unfold sc. rewrite El. cbn. by rewrite Hs.
    + apply Hkeep; [cbn; rewrite Ec, Ep; unfold sc; by rewrite El|]. intros r. by rewrite Hp, Hpi.
  - exists order. cbn. by rewrite Ec, Ep.
Qed.

Lemma linearized_init v codes : linearized v [] (am_init v codes).
Proof.
  split_and!; [apply NoDup_nil_2| |].
  - intros i. split; [by intros ?%elem_of_nil|]. intros [r Hr]. unfold cphase, am_init in Hr. cbn in Hr.
    rewrite list_lookup_fmap in Hr. by destruct (codes !! i).
  - exists [], []. split_and!; [constructor..|done].
Qed.

Lemma links_valid_init v codes : links_valid (am_init v codes).
Proof.
  intros i c orig Hi Hp. cbn in Hi. rewrite list_lookup_fmap in Hi.
  destruct (codes !! i); [|done]. by injection Hi as <-.
Qed.

Lemma linearized_run v es m order :
  links_valid m → linearized v order m → ∃ order', linearized v order' (am_run es m).
Proof.
  revert m order. induction es as [|e es IH]; intros m order Hl Hlin; [by exists order|].
  destruct (linearized_step v order e m Hl Hlin) as [order1 H1].
  apply (IH (am_step e m) order1); [by apply links_valid_step|done].
Qed.

(** ** Progress *)

(** The sum of [f] over the processors. *)
Definition total (f : acpu → Z) (l : list acpu) : Z := foldr (λ c, Z.add (f c)) 0 l.

Lemma total_cons f c l : total f (c :: l) = f c + total f l.
Proof. done. Qed.

Lemma total_insert f l i c d : l !! i = Some c → total f (<[i := d]> l) = total f l - f c + f d.
Proof.
  revert i. induction l as [|x l IH]; intros [|i] Hi; [done..| |].
  - injection Hi as ->. change (<[0%nat := d]> (c :: l)) with (d :: l). rewrite !total_cons. lia.
  - change (<[Datatypes.S i := d]> (x :: l)) with (x :: <[i := d]> l). rewrite !total_cons, (IH i Hi). lia.
Qed.

Lemma total_le f g l : (∀ c, f c ≤ g c) → total f l ≤ total g l.
Proof. intros Hfg. induction l as [|x l IH]; [done|]. rewrite !total_cons. specialize (Hfg x). lia. Qed.

Lemma total_fmap f (h : acpu → acpu) l : total f (h <$> l) = total (λ c, f (h c)) l.
Proof. induction l as [|x l IH]; [done|]. rewrite fmap_cons, !total_cons, IH. done. Qed.

Lemma total_plus f g k l : total (λ c, f c + k * g c) l = total f l + k * total g l.
Proof. induction l as [|x l IH]; [cbn; lia|]. rewrite !total_cons, IH. lia. Qed.

Lemma total_alter f (h : acpu → acpu) l i k :
  0 ≤ k → (∀ c, f (h c) ≤ f c + k) → total f (alter h i l) ≤ total f l + k.
Proof.
  intros Hk Hh. revert i. induction l as [|x l IH]; intros [|i]; [cbn; lia..| |].
  - change (alter h 0%nat (x :: l)) with (h x :: l). rewrite !total_cons. specialize (Hh x). lia.
  - change (alter h (Datatypes.S i) (x :: l)) with (x :: alter h i l). rewrite !total_cons. specialize (IH i). lia.
Qed.

(** Instructions a processor has left if nobody interferes, and whether it has any. *)
Definition left_of (c : acpu) : Z :=
  match cpu_phase c with
  | Try => 2
  | Linked _ => if cpu_link c then 1 else 3
  | Done _ => 0
  end.

Definition pending (c : acpu) : Z := match cpu_phase c with Done _ => 0 | _ => 1 end.

(** A bound on the instructions left in any interleaving. *)
Definition potential (m : amachine) : Z :=
  total left_of (am_cpus m) + total pending (am_cpus m) * (total pending (am_cpus m) - 1).

Lemma measure_nonneg f l : (∀ c, 0 ≤ f c) → 0 ≤ total f l.
Proof. intros Hf. induction l as [|x l IH]; [done|]. rewrite total_cons. specialize (Hf x). lia. Qed.

Lemma pending_range c : 0 ≤ pending c ≤ 1.
Proof. unfold pending. destruct (cpu_phase c); lia. Qed.

Lemma left_of_nonneg c : 0 ≤ left_of c.
Proof. unfold left_of. destruct (cpu_phase c), (cpu_link c); lia. Qed.

Lemma potential_nonneg m : 0 ≤ potential m.
Proof.
  unfold potential. pose proof (measure_nonneg left_of (am_cpus m) left_of_nonneg).
  pose proof (measure_nonneg pending (am_cpus m) (λ c, proj1 (pending_range c))). nia.
Qed.

Lemma left_of_unlink c : left_of (unlink c) ≤ left_of c + 2 * pending c.
Proof. unfold left_of, pending, unlink. cbn. destruct (cpu_phase c), (cpu_link c); lia. Qed.

(** Event [e] is an instruction of an operation that has not returned. *)
Definition busy (e : event) (m : amachine) : bool :=
  match e with
  | Exec i => match cphase m i with Some (Try | Linked _) => true | _ => false end
  | Lose _ => false
  end.

Lemma potential_exec i m : busy (Exec i) m = true → potential (am_step (Exec i) m) + 1 ≤ potential m.
Proof.
  unfold busy, cphase. destruct (am_cpus m !! i) as [c|] eqn:Ec; [|done]. cbn [fmap option_fmap option_map].
  intros Hb. unfold potential. cbn [am_step]. rewrite Ec.
  assert (Hge : pending c ≤ total pending (am_cpus m)).
  { apply list_elem_of_lookup_2 in Ec. clear -Ec. induction Ec as [c l|c x l _ IH]; rewrite total_cons.
    - pose proof (measure_nonneg pending l (λ c, proj1 (pending_range c))). lia.
    - pose proof (pending_range x). lia. }
  assert (Hpend : pending c = 1) by (unfold pending; by destruct (cpu_phase c)).
  destruct (cpu_phase c) as [|orig|] eqn:Ep; [| |done].
  - assert (Hleft : left_of c = 2) by (unfold left_of; by rewrite Ep).
    unfold ll. cbn [am_cpus]. rewrite !(total_insert _ _ _ c), Hleft, Hpend by done. rewrite Hpend in Hge.
    destruct (ac_skip (cpu_code c) (am_value m)).
    + cbn [left_of pending cpu_phase cpu_link]. nia.
    + cbn [left_of pending cpu_phase cpu_link]. nia.
  - unfold sc. destruct (cpu_link c) eqn:El; cbn [am_cpus am_store].
    + assert (Hleft : left_of (unlink c) = 3) by (unfold left_of, unlink; cbn; by rewrite Ep).
      assert (Hpu : pending (unlink c) = pending c) by done.
      rewrite Hpend in Hge, Hpu.
      rewrite !(total_insert _ _ _ (unlink c)), Hleft, Hpu by (by rewrite lookup_unlink, Ec).
      rewrite !total_fmap. pose proof (total_le _ _ (am_cpus m) left_of_unlink) as Hle.
      rewrite total_plus in Hle. change (λ c0, pending (unlink c0)) with pending.
      cbn [left_of pending cpu_phase cpu_link]. nia.
    + assert (Hleft : left_of c = 3) by (unfold left_of; by rewrite Ep, El).
      rewrite Hpend in Hge. rewrite !(total_insert _ _ _ c), Hleft, Hpend by done.
      cbn [left_of pending cpu_phase cpu_link]. nia.
Qed.

Lemma step_not_busy i m : busy (Exec i) m = false → am_step (Exec i) m = m.
Proof.
  unfold busy, cphase. cbn. destruct (am_cpus m !! i) as [c|]; [|done]. cbn. by destruct (cpu_phase c).
Qed.

Lemma potential_lose i m : potential (am_step (Lose i) m) ≤ potential m + 2.
Proof.
  unfold potential. cbn [am_step am_cpus].
  assert (Hp : total pending (alter unlink i (am_cpus m)) = total pending (am_cpus m)).
  { generalize (am_cpus m). intros l. revert i. induction l as [|x l IH]; intros [|i]; try done.
    change (alter unlink (Datatypes.S i) (x :: l)) with (x :: alter unlink i l). by rewrite !total_cons, IH. }
  rewrite Hp. pose proof (total_alter left_of unlink (am_cpus m) i 2 ltac:(lia)) as Hl.
  assert (Hu : ∀ c, left_of (unlink c) ≤ left_of c + 2).
  { intros c. pose proof (left_of_unlink c). pose proof (pending_range c). lia. }
  specialize (Hl Hu). lia.
Qed.

(** How often an event occurs, and the number of losses, in a sequence. *)
Definition execs (i : nat) (es : list event) : Z :=
  Z.of_nat (length (filter (λ e, e = Exec i) es)).

Definition is_loss (e : event) : bool := match e with Lose _ => true | _ => false end.

Definition losses (es : list event) : Z := Z.of_nat (length (filter (λ e, is_loss e = true) es)).

(** The instructions executed by operations that have not returned. *)
Fixpoint work (es : list event) (m : amachine) : Z :=
  match es with
  | [] => 0
  | e :: es => (if busy e m then 1 else 0) + work es (am_step e m)
  end.

Lemma losses_cons e es : losses (e :: es) = (match e with Lose _ => 1 | _ => 0 end) + losses es.
Proof.
  unfold losses. destruct e; [rewrite filter_cons_False by done|rewrite filter_cons_True by done]; cbn [length]; lia.
Qed.

Lemma execs_cons i e es : execs i (e :: es) = (if decide (e = Exec i) then 1 else 0) + execs i es.
Proof.
  unfold execs. destruct (decide (e = Exec i)); [rewrite filter_cons_True by done|rewrite filter_cons_False by done];
    cbn [length]; lia.
Qed.

Lemma work_bound es m : work es m + potential (am_run es m) ≤ potential m + 2 * losses es.
Proof.
  revert m. induction es as [|e es IH]; intros m; [unfold losses; cbn; lia|].
  specialize (IH (am_step e m)). rewrite losses_cons. cbn [work am_run foldl].
  change (foldl _ _ es) with (am_run es (am_step e m)). destruct e as [i|i].
  - destruct (busy (Exec i) m) eqn:Eb; [pose proof (potential_exec i m Eb)|rewrite (step_not_busy i m Eb) in *]; lia.
  - pose proof (potential_lose i m). cbn [busy]. lia.
Qed.

(** An operation that has not returned in the end has never been idle. *)
Lemma done_run es m i r : cphase m i = Some (Done r) → cphase (am_run es m) i = Some (Done r).
Proof.
  revert m. induction es as [|e es IH]; intros m Hd; [done|]. apply IH. destruct e as [j|j].
  - destruct (decide (i = j)) as [->|]; [|by unfold cphase in *; rewrite lookup_step_ne].
    rewrite (step_not_busy j m); [done|]. unfold busy. by rewrite Hd.
  - unfold cphase in *. cbn. destruct (decide (i = j)) as [->|]; [|by rewrite list_lookup_alter_ne].
    rewrite list_lookup_alter_eq. by rewrite fmap_unlink.
Qed.

Lemma work_nonneg es m : 0 ≤ work es m.
Proof. revert m. induction es as [|e es IH]; intros m; cbn; [done|]. specialize (IH (am_step e m)). case_match; lia. Qed.

Lemma execs_work es m i :
  is_Some (am_cpus m !! i) → (∀ r, cphase (am_run es m) i ≠ Some (Done r)) → execs i es ≤ work es m.
Proof.
  revert m. induction es as [|e es IH]; intros m Hi Hnot; [done|].
  assert (Hi' : is_Some (am_cpus (am_step e m) !! i)).
  { pose proof (step_codes e m i) as Hc. unfold ccode in Hc. destruct Hi as [c Hi]. rewrite Hi in Hc.
    destruct (am_cpus (am_step e m) !! i); [eauto|done]. }
  specialize (IH (am_step e m) Hi' Hnot). rewrite execs_cons. cbn [work].
  case_decide as E; [|case_match; lia]. subst e.
  assert (Hb : busy (Exec i) m = true); [|by rewrite Hb; lia].
  unfold busy. destruct (cphase m i) as [[|orig|r]|] eqn:Ep; [done|done| |].
  - exfalso. apply (Hnot r). by apply (done_run (Exec i :: es)).
  - unfold cphase in Ep. destruct Hi as [c Hi]. by rewrite Hi in Ep.
Qed.

Lemma total_init f k codes :
  (∀ c, f (ACpu c Try false) = k) →
  total f ((λ c, ACpu c Try false) <$> codes) = k * Z.of_nat (length codes).
Proof.
  intros Hk. induction codes as [|c cs IH]; [cbn; lia|]. rewrite fmap_cons, total_cons, IH, Hk. cbn [length]. lia.
Qed.

Lemma potential_init v codes :
  potential (am_init v codes) = Z.of_nat (length codes) * (Z.of_nat (length codes) + 1).
Proof.
  unfold potential, am_init. cbn [am_cpus].
  rewrite (total_init left_of 2), (total_init pending 1) by done. lia.
Qed.

Lemma code_init v codes i es : ccode (am_run es (am_init v codes)) i = codes !! i.
Proof.
  assert (Hr : ∀ m, ccode (am_run es m) i = ccode m i).
  { induction es as [|e es IH]; intros m; [done|]. cbn [am_run foldl]. etrans; [apply IH|]. apply step_codes. }
  rewrite Hr. unfold ccode, am_init. cbn. rewrite list_lookup_fmap. by destruct (codes !! i).
Qed.

(** ** The theorems *)

(** C14. The atomic operations are linearisable: however the processors interleave
    their instructions, and whatever exceptions break their links, the operations
    that have returned can be put in an order such that executing them one after the
    other, each at once, gives the same results and the same value of the variable. *)
Theorem atomic_linearizable v codes es :
  let m := am_run es (am_init v codes) in
  ∃ order cs rs, NoDup order ∧
    (∀ i, i ∈ order ↔ ∃ r, cphase m i = Some (Done r)) ∧
    Forall2 (λ i c, codes !! i = Some c) order cs ∧
    Forall2 (λ i r, cphase m i = Some (Done r)) order rs ∧
    atomic_seq cs v = (atomic_get m, rs).
Proof.
  intros m. destruct (linearized_run v es (am_init v codes) [] (links_valid_init v codes) (linearized_init v codes))
    as (order & Hnd & Hin & cs & rs & Hcs & Hrs & Hseq).
  exists order, cs, rs. split_and!; try done. eapply Forall2_impl; [exact Hcs|].
  intros i c Hc. rewrite <- Hc. symmetry. apply code_init.
Qed.

(** When each of [n] processors performs one operation and no more, then, in any
    interleaving, an operation has returned once its processor has executed more than
    [n * (n + 1)] instructions of the loop, plus two for each link lost to an
    exception.  With more operations a processor may starve, see [atomic_may_starve]. *)
Lemma atomic_single_bound v codes es i :
  (i < length codes)%nat →
  Z.of_nat (length codes) * (Z.of_nat (length codes) + 1) + 2 * losses es < execs i es →
  ∃ r, cphase (am_run es (am_init v codes)) i = Some (Done r).
Proof.
  intros Hi Hn. pose proof (work_bound es (am_init v codes)) as Hw. rewrite potential_init in Hw.
  pose proof (potential_nonneg (am_run es (am_init v codes))) as Hp.
  assert (Hi' : is_Some (am_cpus (am_init v codes) !! i)).
  { cbn. rewrite list_lookup_fmap. apply fmap_is_Some, lookup_lt_is_Some. done. }
  pose proof (execs_work es (am_init v codes) i Hi') as Hex.
  destruct (cphase (am_run es (am_init v codes)) i) as [[|orig|r]|]; [| |by exists r|];
    (assert (execs i es ≤ work es (am_init v codes)) by (by apply Hex)); lia.
Qed.

(** ** One operation after the other

    A processor that has returned may call again. *)
Inductive action := Step (e : event) | Call (i : nat) (c : atomic_code).

Definition act (a : action) (m : amachine) : amachine :=
  match a with
  | Step e => am_step e m
  | Call i c =>
    match am_cpus m !! i with
    | Some (ACpu _ (Done _) l) => AMachine (am_value m) (<[i := ACpu c Try l]> (am_cpus m))
    | _ => m
    end
  end.

Definition act_run (acts : list action) (m : amachine) : amachine := foldl (λ m a, act a m) m acts.

(** The operation that returns with this action: its processor, its code, its result. *)
Definition returned (a : action) (m : amachine) : option (nat * atomic_code * Z) :=
  match a with
  | Step (Exec i) =>
    match am_cpus m !! i with
    | Some c => if pending c =? 1 then
        match cphase (am_step (Exec i) m) i with Some (Done r) => Some (i, cpu_code c, r) | _ => None end
      else None
    | None => None
    end
  | _ => None
  end.

(** All of them, in the order of their returns. *)
Fixpoint history (acts : list action) (m : amachine) : list (nat * atomic_code * Z) :=
  match acts with
  | [] => []
  | a :: acts => option_list (returned a m) ++ history acts (act a m)
  end.

(** How many actions are instructions of the loops, and how many are losses of links. *)
Definition loop_instr (a : action) (m : amachine) : bool := match a with Step e => busy e m | Call _ _ => false end.
Definition loss (a : action) : bool := match a with Step (Lose _) => true | _ => false end.

Fixpoint loop_work (acts : list action) (m : amachine) : Z :=
  match acts with [] => 0 | a :: acts => Z.b2z (loop_instr a m) + loop_work acts (act a m) end.
Definition link_losses (acts : list action) : Z := foldr (λ a, Z.add (Z.b2z (loss a))) 0 acts.

(** *** The operations are atomic *)
Lemma returned_exec a m :
  links_valid m →
  match returned a m with
  | Some (_, c, r) => atomic_exec c (am_value m) = (am_value (act a m), r)
  | None => am_value (act a m) = am_value m
  end.
Proof.
  intros Hl. destruct a as [[i|i]|i c]; cbn [returned act].
  - destruct (am_cpus m !! i) as [c|] eqn:Ec; [|cbn; by rewrite Ec]. rewrite (lookup_step_eq i c m Ec). cbn [am_step].
    rewrite Ec. destruct (cpu_phase c) as [|orig|r] eqn:Ep; unfold pending; rewrite Ep; cbn [Z.eqb]; [| |done].
    + unfold atomic_exec, ll. cbn. destruct (ac_skip (cpu_code c) (am_value m)) eqn:Es; cbn; by rewrite ?Es.
    + destruct (Hl i c orig Ec Ep) as [Hs Hv]. unfold sc. destruct (cpu_link c); [|done].
      rewrite (Hv eq_refl) in *. unfold atomic_exec. cbn. by rewrite Hs.
  - done.
  - destruct (am_cpus m !! i) as [[? [| |] ?]|]; done.
Qed.

Lemma links_valid_act a m : links_valid m → links_valid (act a m).
Proof.
  intros Hl. destruct a as [e|i c]; [by apply links_valid_step|]. cbn [act].
  destruct (am_cpus m !! i) as [[? [| |] l]|] eqn:E; try done. intros j c' orig Hj.
  apply list_lookup_insert_Some in Hj as [(_ & <- & _)|[_ Hj]]; [done|]. by apply (Hl j c' orig).
Qed.

(** *** Some operation returns *)

(** The instructions a processor has left if nobody interferes and, when it has returned,
    those of its next attempt. *)
Definition cost (c : acpu) : Z := match cpu_phase c with Done _ => 2 | _ => left_of c end.

Lemma cost_range c : 0 ≤ cost c ≤ 3.
Proof. unfold cost, left_of. destruct (cpu_phase c), (cpu_link c); lia. Qed.

Lemma cost_unlink c : cost (unlink c) ≤ cost c + 2 * 1.
Proof. unfold cost, left_of, unlink. cbn. destruct (cpu_phase c), (cpu_link c); lia. Qed.

Lemma total_one l : total (λ _, 1) l = Z.of_nat (length l).
Proof. induction l as [|x l IH]; [done|]. rewrite total_cons, IH. cbn [length]. lia. Qed.

Lemma total_unlink l : total cost (unlink <$> l) ≤ total cost l + 2 * Z.of_nat (length l).
Proof. rewrite total_fmap, <- total_one, <- total_plus. apply total_le, cost_unlink. Qed.

Lemma total_cost l : 0 ≤ total cost l ≤ 3 * Z.of_nat (length l).
Proof.
  split; [apply measure_nonneg, cost_range|]. etrans; [apply (total_le _ (λ c, 0 + 3 * 1)); intros c; apply cost_range|].
  rewrite (total_plus (λ _, 0)), total_one. induction l as [|x l IH]; [done|]. rewrite total_cons. cbn [length]. lia.
Qed.

Lemma act_length a m : length (am_cpus (act a m)) = length (am_cpus m).
Proof.
  destruct a as [[i|i]|i c]; cbn [act am_step].
  - destruct (am_cpus m !! i) as [c|]; [|done]. destruct (cpu_phase c); [|unfold sc; destruct (cpu_link c)|done];
      cbn; by rewrite length_insert, ?length_fmap.
  - apply length_alter.
  - destruct (am_cpus m !! i) as [[? [| |] ?]|]; try done. cbn. by rewrite length_insert.
Qed.

(** Every instruction of a loop costs one; a store makes others start again, but it returns. *)
Lemma act_cost a m :
  Z.b2z (loop_instr a m) + total cost (am_cpus (act a m)) ≤
    total cost (am_cpus m) + 2 * Z.b2z (loss a) +
    2 * Z.of_nat (length (am_cpus m)) * Z.of_nat (length (option_list (returned a m))).
Proof.
  destruct a as [[i|i]|i c]; cbn [loop_instr loss returned act busy Z.b2z].
  - destruct (am_cpus m !! i) as [c|] eqn:Ec.
    2: { unfold cphase. cbn. rewrite Ec. cbn. lia. }
    rewrite (lookup_step_eq i c m Ec). unfold cphase. rewrite Ec. cbn [fmap option_fmap option_map am_step]. rewrite Ec.
    pose proof (lookup_lt_Some _ _ _ Ec) as Hlen. unfold pending.
    destruct (cpu_phase c) as [|orig|r] eqn:Ep; cbn [Z.eqb Pos.eqb option_list length Z.b2z]; [| |lia].
    + unfold ll. cbn [am_cpus]. rewrite (total_insert _ _ _ c) by done.
      assert (cost c = 2) as -> by (unfold cost, left_of; by rewrite Ep).
      destruct (ac_skip _ _); cbn -[total]; nia.
    + unfold sc. destruct (cpu_link c) eqn:El; cbn [am_cpus am_store option_list length].
      * rewrite (total_insert _ _ _ (unlink c)) by (by rewrite lookup_unlink, Ec). pose proof (total_unlink (am_cpus m)).
        assert (cost (unlink c) = 3) as -> by (unfold cost, left_of, unlink; cbn; by rewrite Ep).
        cbn -[total]. nia.
      * rewrite (total_insert _ _ _ c) by done. assert (cost c = 3) as -> by (unfold cost, left_of; by rewrite Ep, El).
        cbn -[total]. nia.
  - cbn [am_step am_cpus option_list length].
    pose proof (total_alter cost unlink (am_cpus m) i 2 ltac:(lia) cost_unlink). lia.
  - destruct (am_cpus m !! i) as [[c' [| |r] l]|] eqn:Ec; cbn [option_list length]; try lia.
    cbn [am_cpus]. rewrite (total_insert _ _ _ (ACpu c' (Done r) l)) by done. cbn [cost left_of cpu_phase]. lia.
Qed.

Lemma act_work acts m :
  loop_work acts m + total cost (am_cpus (act_run acts m)) ≤
    total cost (am_cpus m) + 2 * link_losses acts +
    2 * Z.of_nat (length (am_cpus m)) * Z.of_nat (length (history acts m)).
Proof.
  revert m. induction acts as [|a acts IH]; intros m; cbn [loop_work link_losses foldr history length]; [cbn; lia|].
  specialize (IH (act a m)). pose proof (act_cost a m) as Hc. rewrite act_length in IH. rewrite length_app.
  cbn [act_run foldl]. change (foldl _ _ acts) with (act_run acts (act a m)).
  change (foldr _ 0 acts) with (link_losses acts). lia.
Qed.

Lemma history_exec acts m :
  links_valid m →
  atomic_seq ((history acts m).*1.*2) (am_value m) = (am_value (act_run acts m), (history acts m).*2).
Proof.
  revert m. induction acts as [|a acts IH]; intros m Hl; [done|]. cbn [history act_run foldl].
  change (foldl _ _ acts) with (act_run acts (act a m)). specialize (IH _ (links_valid_act a m Hl)).
  pose proof (returned_exec a m Hl) as Hr. destruct (returned a m) as [[[i c] r]|].
  - cbn -[atomic_exec history act_run act]. rewrite Hr. by rewrite IH.
  - cbn -[atomic_exec history act_run act]. by rewrite <- Hr.
Qed.

(** C40. The operations are atomic and lock-free, also when processors call them again and
    again.  From any state with valid links (such as the initial one), for any sequence of
    instructions, calls and exceptions: the operations that have returned, in the order in
    which they returned, yield their results and the value of the variable when they are
    executed one after the other, each at once; and the processors together make progress:
    among [n] of them, once more than [3 * n + 2 * n * k] instructions of the loops have been
    executed, plus two for each link lost to an exception, more than [k] operations have
    returned.  (A single processor may starve, see [atomic_may_starve].) *)
Theorem atomic_lock_free acts m :
  links_valid m →
  let n := Z.of_nat (length (am_cpus m)) in let h := history acts m in
  atomic_seq (h.*1.*2) (am_value m) = (atomic_get (act_run acts m), h.*2) ∧
  ∀ k, 3 * n + 2 * n * k + 2 * link_losses acts < loop_work acts m → k < Z.of_nat (length h).
Proof.
  intros Hl n h. split; [by apply history_exec|]. intros k Hk. pose proof (act_work acts m) as Hw. fold n h in Hw.
  pose proof (total_cost (am_cpus m)) as Hc. pose proof (total_cost (am_cpus (act_run acts m))) as Hc'. fold n in Hc.
  assert (0 ≤ n) by lia. nia.
Qed.

(** *** A processor may starve

    Processor 1 links, processor 0 stores and calls again, processor 1 fails. *)
Definition starve (c : atomic_code) : list action := [Step (Exec 1); Step (Exec 0); Step (Exec 0); Call 0 c; Step (Exec 1)].

Lemma starve_round c d v l0 l1 :
  (∀ x, ac_skip c x = false) → (∀ x, ac_skip d x = false) →
  ∃ v', act_run (starve c) (AMachine v [ACpu c Try l0; ACpu d Try l1]) = AMachine v' [ACpu c Try false; ACpu d Try false] ∧
    (history (starve c) (AMachine v [ACpu c Try l0; ACpu d Try l1])).*1.*1 = [0%nat].
Proof.
  intros Hc Hd. exists (ac_store c v). unfold starve, act_run. cbn. unfold ll, sc. cbn. rewrite Hd. cbn. rewrite Hc. cbn.
  unfold cphase. by split.
Qed.

Lemma history_app acts acts' m : history (acts ++ acts') m = history acts m ++ history acts' (act_run acts m).
Proof. revert m. induction acts as [|a acts IH]; intros m; [done|]. cbn. by rewrite IH, <- app_assoc. Qed.

Lemma starve_rounds c d k v l0 l1 :
  (∀ x, ac_skip c x = false) → (∀ x, ac_skip d x = false) →
  let m := AMachine v [ACpu c Try l0; ACpu d Try l1] in let acts := mjoin (replicate k (starve c)) in
  cphase (act_run acts m) 1 = Some Try ∧ (history acts m).*1.*1 = replicate k 0%nat.
Proof.
  intros Hc Hd. revert v l0 l1. induction k as [|k IH]; intros v l0 l1 m acts; [done|].
  unfold acts. cbn [replicate mjoin list_join]. unfold act_run. rewrite foldl_app, history_app.
  destruct (starve_round c d v l0 l1 Hc Hd) as (v' & E & Eh). fold (act_run (starve c) m).
  change (act_run (starve c) m = AMachine v' [ACpu c Try false; ACpu d Try false]) in E. rewrite E.
  destruct (IH v' false false) as [IH1 IH2]. split; [exact IH1|].
  rewrite !fmap_app. change (history (starve c) m) with (history (starve c) (AMachine v [ACpu c Try l0; ACpu d Try l1])).
  rewrite Eh. cbn [replicate app]. by f_equal.
Qed.

(** However long this goes on, only the operations of processor 0 return. *)
Lemma atomic_may_starve c d v k :
  (∀ x, ac_skip c x = false) → (∀ x, ac_skip d x = false) →
  let m := am_init v [c; d] in let acts := mjoin (replicate k (starve c)) in
  cphase (act_run acts m) 1 = Some Try ∧ (history acts m).*1.*1 = replicate k 0%nat.
Proof. exact (starve_rounds c d k v false false). Qed.

(** A counter with [atomic_post_add]: tickets. *)
Lemma atomic_seq_tickets n v :
  atomic_seq (replicate n (atomic_post_add 1)) v =
    (if decide (n = 0%nat) then v else wrap (v + Z.of_nat n),
     match n with O => [] | S n => v :: ((λ k, wrap (v + Z.of_nat k)) <$> seq 1 n) end).
Proof.
  revert v. induction n as [|n IH]; intros v; [done|]. cbn [replicate atomic_seq].
  cbn [atomic_exec ac_skip ac_store ac_ret atomic_post_add]. rewrite IH.
  destruct n as [|n].
  - cbn. f_equal.
  - rewrite !decide_False by done. f_equal; [rewrite wrap_add_l; f_equal; lia|]. f_equal.
    cbn [seq fmap list_fmap]. f_equal.
    rewrite <- (fmap_S_seq 1 n). rewrite <- list_fmap_compose. apply list_fmap_ext.
    intros _ k _. cbn. rewrite wrap_add_l. f_equal. lia.
Qed.

Lemma seq_tickets_lookup n v k r :
  u32 v → (atomic_seq (replicate n (atomic_post_add 1)) v).2 !! k = Some r → r = wrap (v + Z.of_nat k).
Proof.
  intros Hv. rewrite atomic_seq_tickets. cbn [snd]. destruct n as [|n]; [by rewrite lookup_nil|].
  destruct k as [|k].
  - intros [= <-]. rewrite Z.add_0_r. symmetry. by apply wrap_small.
  - change (((λ j : nat, wrap (v + Z.of_nat j)) <$> seq 1 n) !! k = Some r → r = wrap (v + Z.of_nat (Datatypes.S k))).
    rewrite list_lookup_fmap. destruct (seq 1 n !! k) as [j|] eqn:Ej; [|done].
    apply lookup_seq in Ej as [-> _]. intros [= <-]. done.
Qed.

(** [n] processors that each take a ticket with [atomic_post_add (var, 1)] get
    the numbers following the value of the variable, each of them once, and the
    variable ends up increased by [n] (modulo the word size). *)
Theorem atomic_tickets v n es :
  u32 v → (0 < n)%nat →
  let m := am_run es (am_init v (replicate n (atomic_post_add 1))) in
  (∀ i, (i < n)%nat → ∃ r, cphase m i = Some (Done r)) →
  atomic_get m = wrap (v + Z.of_nat n) ∧
  ∃ order, order ≡ₚ seq 0 n ∧
    ∀ k i, order !! k = Some i → cphase m i = Some (Done (wrap (v + Z.of_nat k))).
Proof.
  intros Hv Hn m Hdone. set (codes := replicate n (atomic_post_add 1)) in *.
  destruct (linearized_run v es (am_init v codes) [] (links_valid_init v codes) (linearized_init v codes))
    as (order & Hnd & Hin & cs & rs & Hcs & Hrs & Hseq). fold m in Hin, Hcs, Hrs, Hseq.
  assert (Hperm : order ≡ₚ seq 0 n).
  { apply NoDup_Permutation; [done|apply NoDup_seq|]. intros i. rewrite Hin, elem_of_seq. split.
    - intros [r Hr]. pose proof (code_init v codes i es) as Hc. fold m in Hc.
      unfold cphase in Hr. unfold ccode in Hc. destruct (am_cpus m !! i); [|done].
      symmetry in Hc. apply lookup_replicate in Hc as [_ Hc]. lia.
    - intros Hi. apply Hdone. lia. }
  assert (Hcodes : cs = replicate n (atomic_post_add 1)).
  { replace n with (length cs) by (rewrite <- (Forall2_length _ _ _ Hcs), Hperm; apply length_seq).
    symmetry. apply replicate_as_Forall_2; [done|]. apply Forall_forall. intros c Hc.
    apply list_elem_of_lookup in Hc as [k Hk].
    destruct (Forall2_lookup_r _ _ _ _ _ Hcs Hk) as (i & _ & Hi).
    pose proof (code_init v codes i es) as Hci. fold m in Hci. rewrite Hi in Hci.
    symmetry in Hci. by apply lookup_replicate in Hci as [-> _]. }
  rewrite Hcodes in Hseq. split.
  - rewrite atomic_seq_tickets in Hseq. rewrite decide_False in Hseq by lia. injection Hseq as Hval _. symmetry. exact Hval.
  - exists order. split; [done|]. intros k i Hk.
    destruct (Forall2_lookup_l _ _ _ _ _ Hrs Hk) as (r & Hr & Hi). rewrite Hi.
    rewrite (seq_tickets_lookup n v k r Hv); [done|]. by rewrite Hseq.
Qed.

(** ** Witnesses *)

(** Two processors compete; the first calls again after its return. *)
Definition race : list action :=
  [Step (Exec 0); Step (Exec 1); Step (Exec 0); Step (Exec 1); Call 0 (atomic_post_add 1); Step (Lose 1);
   Step (Exec 1); Step (Exec 0); Step (Exec 1); Step (Exec 0); Step (Exec 0); Step (Exec 0)].

Lemma atomic_lock_free_witness :
  let m := am_init 5 [atomic_add 3; atomic_add 10] in
  history race m = [(0%nat, atomic_add 3, 8); (1%nat, atomic_add 10, 18); (0%nat, atomic_post_add 1, 18)] ∧
  atomic_seq [atomic_add 3; atomic_add 10; atomic_post_add 1] 5 = (atomic_get (act_run race m), [8; 18; 18]) ∧
  loop_work race m = 10 ∧ 0 < Z.of_nat (length (history race m)).
Proof.
  intros m. assert (Hl : links_valid m) by apply links_valid_init.
  destruct (atomic_lock_free race m Hl) as [Hseq Hk]. split; [reflexivity|]. split; [exact Hseq|].
  split; [reflexivity|]. apply (Hk 0). by vm_compute.
Defined.

Lemma atomic_tickets_witness :
  let m := am_run (mjoin (replicate 7 [Exec 0; Exec 1])) (am_init (2^32 - 1) [atomic_post_add 1; atomic_post_add 1]) in
  atomic_get m = 1 ∧
  ∃ order, order ≡ₚ [0; 1]%nat ∧ ∀ k i, order !! k = Some i → cphase m i = Some (Done (wrap (2^32 - 1 + Z.of_nat k))).
Proof.
  apply (atomic_tickets (2^32 - 1) 2); [done|lia|].
  intros [|[|i]] Hi; [eexists; vm_compute; reflexivity..|lia].
Defined.
