(* ===== verification/Cp0.v ===== *)
(** * The registers of the System Control Coprocessor ([kernel/include/shared.h])

    [shared.h] gives a mask and a shift for each field of each register; the macro
    named after a field extracts it.  Here a register is the list of its fields. *)
From stdpp Require Import strings.
From S2P Require Import Prelude Cpu.

(** The field [CP0_<register>_<name>]. *)
Record field := Field {
  fd_name : string;
  fd_mask : Z;
  fd_shift : Z;
}.

(** [(((R) & CP0_x_y_MASK) >> CP0_x_y_SHIFT)] *)
Definition field_get (f : field) (R : Z) : Z := Z.shiftr (Z.land R (fd_mask f)) (fd_shift f).

Definition field_named (name : string) (fs : list field) : option field :=
  list_find (λ f, fd_name f = name) fs ≫= λ '(_, f), Some f.

(** The macro [CP0_<register>_<name> (R)]. *)
Definition cp0_get (fs : list field) (name : string) (R : Z) : option Z :=
  f ← field_named name fs; Some (field_get f R).

Definition CP0_INDEX : list field := [
  Field "INDEX" 0x0000003f 0;
  Field "RES" 0x7fffffc0 6;
  Field "P" 0x80000000 31
].

Definition CP0_RANDOM : list field := [
  Field "RANDOM" 0x0000003f 0;
  Field "RES" 0xffffffc0 6
].

Definition CP0_STATUS : list field := [
  Field "IE" 0x00000001 0;
  Field "EXL" 0x00000002 1;
  Field "ERL" 0x00000004 2;
  Field "KSU" 0x00000018 3;
  Field "UX" 0x00000020 5;
  Field "SX" 0x00000040 6;
  Field "KX" 0x00000080 7;
  Field "IM" 0x0000ff00 8;
  Field "DE" 0x00010000 16;
  Field "CE" 0x00020000 17;
  Field "CH" 0x00040000 18;
  Field "RES1" 0x00080000 19;
  Field "SR" 0x00100000 20;
  Field "TS" 0x00200000 21;
  Field "BEV" 0x00400000 22;
  Field "RES2" 0x01800000 23;
  Field "RE" 0x02000000 25;
  Field "FR" 0x04000000 26;
  Field "RP" 0x08000000 27;
  Field "CU0" 0x10000000 28;
  Field "CU1" 0x20000000 29;
  Field "CU2" 0x40000000 30;
  Field "CU3" 0x80000000 31
].

(** The four usability bits as one field. *)
Definition CP0_STATUS_CU : field := Field "CU" 0xf0000000 28.

Definition CP0_ENTRYHI : list field := [
  Field "ASID" 0x000000ff 0;
  Field "RES1" 0x00001f00 8;
  Field "VPN2" 0xffffe000 13
].

Definition CP0_ENTRYLO : list field := [
  Field "G" 0x00000001 0;
  Field "V" 0x00000002 1;
  Field "D" 0x00000004 2;
  Field "C" 0x00000038 3;
  Field "PFN" 0x3fffffc0 6;
  Field "RES1" 0xc0000000 30
].

Definition CP0_WIRED : list field := [
  Field "W" 0x0000001f 0;
  Field "RES1" 0xffffffe0 6
].

Definition CP0_CONTEXT : list field := [
  Field "RES1" 0x0000000f 0;
  Field "BADVPN2" 0x007ffff0 4;
  Field "PTEBASE" 0xff800000 23
].

Definition CP0_PAGEMASK : list field := [
  Field "RES1" 0x00001fff 0;
  Field "MASK" 0x01ffe000 13;
  Field "RES2" 0xfe000000 25
].

(** The values of the field MASK, by the size of the page. *)
Definition CP0_PAGEMASK_SIZES : list (Z * Z) := [
  (2 ^ 14, Z.shiftl 0x003 13);
  (2 ^ 16, Z.shiftl 0x00f 13);
  (2 ^ 18, Z.shiftl 0x03f 13);
  (2 ^ 20, Z.shiftl 0x0ff 13);
  (2 ^ 22, Z.shiftl 0x3ff 13);
  (2 ^ 24, Z.shiftl 0xfff 13)
].

Definition CP0_COUNT : list field := [
  Field "COUNT" 0xffffffff 0
].

Definition CP0_BADVAADDR : list field := [
  Field "BADVAADDR" 0xffffffff 0
].

Definition CP0_COMPARE : list field := [
  Field "COMPARE" 0xffffffff 0
].

Definition CP0_EPC : list field := [
  Field "EPC" 0xffffffff 0
].

Definition CP0_CAUSE : list field := [
  Field "RES1" 0x00000003 0;
  Field "EXCCODE" 0x0000007c 2;
  Field "RES2" 0x00000080 7;
  Field "IP" 0x0000ff00 8;
  Field "RES3" 0x0fff0000 16;
  Field "CE" 0x30000000 28;
  Field "RES4" 0x40000000 30;
  Field "BD" 0x80000000 31
].

(** The codes of [CP0_CAUSE_EXCCODE]. *)
Definition CP0_CAUSE_EXCCODE_INT : Z := 0.
Definition CP0_CAUSE_EXCCODE_MOD : Z := 1.
Definition CP0_CAUSE_EXCCODE_TLBL : Z := 2.
Definition CP0_CAUSE_EXCCODE_TLBS : Z := 3.
Definition CP0_CAUSE_EXCCODE_ADEL : Z := 4.
Definition CP0_CAUSE_EXCCODE_ADES : Z := 5.
Definition CP0_CAUSE_EXCCODE_IBE : Z := 6.
Definition CP0_CAUSE_EXCCODE_DBE : Z := 7.
Definition CP0_CAUSE_EXCCODE_SYS : Z := 8.
Definition CP0_CAUSE_EXCCODE_BP : Z := 9.
Definition CP0_CAUSE_EXCCODE_RI : Z := 10.
Definition CP0_CAUSE_EXCCODE_CPU : Z := 11.
Definition CP0_CAUSE_EXCCODE_OV : Z := 12.
Definition CP0_CAUSE_EXCCODE_TR : Z := 13.

Definition CP0_CAUSE_EXCCODE (R : Z) : Z := Z.shiftr (Z.land R 0x7c) 2.
Definition CP0_CAUSE_IP4_MASK : Z := 0x1000.
Definition CP0_CAUSE_IP7_MASK : Z := 0x8000.

(** Bits of the Status register. *)
Definition CP0_STATUS_EXL_MASK : Z := 0x2.
Definition CP0_STATUS_KSU_MASK : Z := 0x18.
Definition CP0_STATUS_KSU_UM : Z := 0x10.

(** ** Layouts *)

(** The fields start at their shift, are disjoint, and cover the register. *)
Fixpoint fields_disjoint (used : Z) (fs : list field) : bool :=
  match fs with
  | [] => true
  | f :: fs => (Z.land used (fd_mask f) =? 0) && fields_disjoint (Z.lor used (fd_mask f)) fs
  end.

Definition field_aligned (f : field) : bool :=
  (0 <=? fd_shift f) && (Z.land (fd_mask f) (Z.ones (fd_shift f)) =? 0) &&
  (Z.shiftr (fd_mask f) (fd_shift f) =? Z.ones (Z.log2 (Z.shiftr (fd_mask f) (fd_shift f)) + 1)).

Definition layout_ok (fs : list field) : bool :=
  forallb field_aligned fs && fields_disjoint 0 fs &&
  (foldr (λ f, Z.lor (fd_mask f)) 0 fs =? word_max - 1).

(** The register made of the given field values. *)
Fixpoint layout_put (fs : list field) (vs : list Z) : Z :=
  match fs, vs with
  | f :: fs, v :: vs => Z.lor (Z.land (Z.shiftl v (fd_shift f)) (fd_mask f)) (layout_put fs vs)
  | _, _ => 0
  end.

Definition layout_get (fs : list field) (R : Z) : list Z := (λ f, field_get f R) <$> fs.

(** Values that fit the fields. *)
Definition fits (f : field) (v : Z) : Prop := 0 ≤ v ∧ v ≤ Z.shiftr (fd_mask f) (fd_shift f).

Lemma land_mask_aligned f R : field_aligned f = true → Z.land (Z.shiftl (field_get f R) (fd_shift f)) (fd_mask f) = Z.land R (fd_mask f).
Proof.
  unfold field_aligned, field_get. rewrite !andb_true_iff, !Z.eqb_eq, Z.leb_le. intros [[Hs Hm] _].
  apply Z.bits_inj'. intros n Hn. rewrite !Z.land_spec, Z.shiftl_spec by done.
  destruct (Z.testbit (fd_mask f) n) eqn:Eb; [|by rewrite !andb_false_r].
  destruct (decide (n < fd_shift f)).
  - assert (Hc : Z.testbit (Z.land (fd_mask f) (Z.ones (fd_shift f))) n = true).
    { rewrite Z.land_spec, Eb, Z.ones_spec_low by lia. done. }
    by rewrite Hm, Z.bits_0 in Hc.
  - rewrite Z.shiftr_spec, Z.land_spec by lia. replace (n - fd_shift f + fd_shift f) with n by lia.
    by rewrite Eb, !andb_true_r.
Qed.

Lemma layout_put_get fs R :
  forallb field_aligned fs = true →
  layout_put fs (layout_get fs R) = Z.land R (foldr (λ f, Z.lor (fd_mask f)) 0 fs).
Proof.
  induction fs as [|f fs IH]; cbn; [by rewrite Z.land_0_r|]. rewrite andb_true_iff. intros [Hf Hfs].
  rewrite land_mask_aligned by done. unfold layout_get in IH. rewrite IH by done. by rewrite Z.land_lor_distr_r.
Qed.

(** Bits outside the masks are clear. *)
Lemma layout_put_outside fs vs m :
  (∀ f, f ∈ fs → Z.land m (fd_mask f) = 0) → Z.land m (layout_put fs vs) = 0.
Proof.
  revert vs. induction fs as [|f fs IH]; intros vs Hm; cbn; [apply Z.land_0_r|].
  destruct vs as [|v vs]; [apply Z.land_0_r|].
  rewrite Z.land_lor_distr_r, IH by (intros g Hg; apply Hm; by right).
  rewrite (Z.land_comm (Z.shiftl _ _)), Z.land_assoc, Hm by left. done.
Qed.

Lemma fields_disjoint_used used fs f :
  fields_disjoint used fs = true → f ∈ fs → Z.land used (fd_mask f) = 0.
Proof.
  intros Hd Hin. revert used Hd. induction Hin as [f fs|f g fs _ IH]; intros used; cbn;
    rewrite andb_true_iff, Z.eqb_eq; intros [He Hd]; [done|].
  specialize (IH _ Hd). rewrite Z.land_lor_distr_l in IH. by apply Z.lor_eq_0_iff in IH as [? _].
Qed.

Lemma fields_disjoint_weaken used used' fs :
  Z.land used' used = used' → fields_disjoint used fs = true → fields_disjoint used' fs = true.
Proof.
  revert used used'. induction fs as [|f fs IH]; intros used used' Hu; cbn; [done|].
  rewrite !andb_true_iff, !Z.eqb_eq. intros [He Hd]. split.
  - rewrite <- Hu, <- Z.land_assoc, He. apply Z.land_0_r.
  - eapply IH; [|exact Hd]. rewrite <- Hu. apply Z.bits_inj'. intros n Hn. rewrite !Z.land_spec, !Z.lor_spec, !Z.land_spec.
    destruct (Z.testbit used' n), (Z.testbit used n), (Z.testbit (fd_mask f) n); done.
Qed.

(** A value that fits is read back from its place. *)
Lemma field_get_put f v :
  field_aligned f = true → fits f v → field_get f (Z.land (Z.shiftl v (fd_shift f)) (fd_mask f)) = v.
Proof.
  unfold field_aligned, field_get, fits. rewrite !andb_true_iff, !Z.eqb_eq, Z.leb_le. intros [[Hs Hm] Hw] [Hv0 Hv].
  rewrite <- Z.land_assoc, Z.land_diag, Z.shiftr_land, Z.shiftr_shiftl_l, Z.sub_diag, Z.shiftl_0_r by done.
  rewrite Hw in Hv |- *. pose proof (Z.log2_nonneg (Z.shiftr (fd_mask f) (fd_shift f))).
  rewrite Z.land_ones by lia. apply Z.mod_small. rewrite Z.ones_equiv in Hv. lia.
Qed.

Lemma layout_get_put fs vs :
  forallb field_aligned fs = true → fields_disjoint 0 fs = true → Forall2 fits fs vs →
  layout_get fs (layout_put fs vs) = vs.
Proof.
  intros Ha Hd Hf. induction Hf as [|f v fs vs Hfv Hf IH]; [done|].
  cbn in Ha, Hd. rewrite andb_true_iff in Ha, Hd. destruct Ha as [Ha Has], Hd as [_ Hd].
  assert (Hdf : ∀ g, g ∈ fs → Z.land (fd_mask f) (fd_mask g) = 0).
  { intros g Hg. by apply (fields_disjoint_used _ _ _ Hd). }
  cbn [layout_put layout_get fmap list_fmap]. f_equal.
  - unfold field_get. rewrite Z.land_lor_distr_l, (Z.land_comm (layout_put _ _)), layout_put_outside, Z.lor_0_r by done.
    by apply field_get_put.
  - trans (layout_get fs (layout_put fs vs)).
    2: { apply IH; [done|]. eapply fields_disjoint_weaken; [|exact Hd]. apply Z.land_0_l. }
    unfold layout_get. apply list_fmap_ext. intros j g Hg. apply list_elem_of_lookup_2 in Hg. clear j.
    unfold field_get. f_equal. rewrite Z.land_lor_distr_l, <- Z.land_assoc, Hdf by done.
    by rewrite Z.land_0_r, Z.lor_0_l.
Qed.

(** The registers whose fields partition them. *)
Definition cp0_layouts : list (list field) :=
  [CP0_INDEX; CP0_RANDOM; CP0_STATUS; CP0_ENTRYHI; CP0_ENTRYLO; CP0_CONTEXT; CP0_PAGEMASK; CP0_COUNT;
   CP0_BADVAADDR; CP0_COMPARE; CP0_EPC; CP0_CAUSE].

Lemma cp0_layouts_ok : forallb layout_ok cp0_layouts = true.
Proof. vm_compute. reflexivity. Qed.

(** The field macros take a register apart without loss and without overlap:
    every register value is recovered from its fields, every choice of field values
    that fit is read back unchanged from the register made of them.  This holds for
    all registers of [shared.h] but Wired. *)
Theorem cp0_fields_roundtrip fs :
  fs ∈ cp0_layouts →
  (∀ R, u32 R → layout_put fs (layout_get fs R) = R) ∧
  (∀ vs, Forall2 fits fs vs → layout_get fs (layout_put fs vs) = vs).
Proof.
  intros Hin. pose proof cp0_layouts_ok as Hok. rewrite forallb_forall in Hok.
  specialize (Hok fs). rewrite <- list_elem_of_In in Hok. specialize (Hok Hin).
  unfold layout_ok in Hok. rewrite !andb_true_iff, Z.eqb_eq in Hok. destruct Hok as [[Ha Hd] Hm]. split.
  - intros R HR. rewrite layout_put_get, Hm by done. change (word_max - 1) with (Z.ones 32).
    rewrite Z.land_ones by done. apply Z.mod_small. exact HR.
  - intros vs Hvs. by apply layout_get_put.
Qed.

Lemma cp0_fields_roundtrip_witness :
  (∀ R, u32 R → layout_put CP0_ENTRYHI (layout_get CP0_ENTRYHI R) = R) ∧
  (∀ vs, Forall2 fits CP0_ENTRYHI vs → layout_get CP0_ENTRYHI (layout_put CP0_ENTRYHI vs) = vs).
Proof. apply cp0_fields_roundtrip. do 3 right. left. Defined.

(** The reserved field of Wired starts at bit 5, but its shift is 6: bit 5 is lost. *)
Lemma cp0_wired_loses_bit : layout_put CP0_WIRED (layout_get CP0_WIRED 0x20) = 0.
Proof. reflexivity. Qed.

(** A page mask covers the offset in a pair of pages of its size. *)
Lemma pagemask_sizes :
  Forall (λ '(size, mask), Z.land mask 0x01ffe000 = mask ∧ Z.lor mask 0x1fff + 1 = 2 * size) CP0_PAGEMASK_SIZES.
Proof. repeat constructor. Qed.
