(* ===== verification/Mips.v ===== *)
(** * Registers and exception entry ([kernel/include/asm.h], [kernel/head.S])

    The instructions the assembler code uses, on the registers of the processor and
    a memory of words; the layout of [context_t] ([c.h], [gen_offset.c]), the macros
    of [asm.h] and the handlers of [head.S] as sequences of instructions.  Compiled
    C code the handlers call is a parameter. *)
From S2P Require Import Prelude CList Cpu Cp0.

(** ** The machine *)
Record mips := Mips {
  m_gpr : gmap Z Z;  (** the general registers *)
  m_hi : Z;
  m_lo : Z;
  m_cp0 : gmap Z Z;  (** the registers of the System Control Coprocessor *)
  m_mem : words;
  m_pc : Z;          (** where a jump or [eret] has led *)
}.

Definition set_gpr (f : gmap Z Z → gmap Z Z) (s : mips) : mips :=
  Mips (f (m_gpr s)) (m_hi s) (m_lo s) (m_cp0 s) (m_mem s) (m_pc s).
Definition set_cp0 (f : gmap Z Z → gmap Z Z) (s : mips) : mips :=
  Mips (m_gpr s) (m_hi s) (m_lo s) (f (m_cp0 s)) (m_mem s) (m_pc s).
Definition set_mmem (f : words → words) (s : mips) : mips :=
  Mips (m_gpr s) (m_hi s) (m_lo s) (m_cp0 s) (f (m_mem s)) (m_pc s).
Definition set_pc (v : Z) (s : mips) : mips :=
  Mips (m_gpr s) (m_hi s) (m_lo s) (m_cp0 s) (m_mem s) v.

(** Register numbers. *)
Definition r_zero : Z := 0.
Definition r_at : Z := 1.
Definition r_v0 : Z := 2.
Definition r_v1 : Z := 3.
Definition r_a0 : Z := 4.
Definition r_a1 : Z := 5.
Definition r_a2 : Z := 6.
Definition r_a3 : Z := 7.
Definition r_t0 : Z := 8.
Definition r_t1 : Z := 9.
Definition r_t2 : Z := 10.
Definition r_t3 : Z := 11.
Definition r_t4 : Z := 12.
Definition r_t5 : Z := 13.
Definition r_t6 : Z := 14.
Definition r_t7 : Z := 15.
Definition r_t8 : Z := 24.
Definition r_t9 : Z := 25.
Definition r_s0 : Z := 16.
Definition r_s1 : Z := 17.
Definition r_s2 : Z := 18.
Definition r_s3 : Z := 19.
Definition r_s4 : Z := 20.
Definition r_s5 : Z := 21.
Definition r_s6 : Z := 22.
Definition r_s7 : Z := 23.
Definition r_k0 : Z := 26.
Definition r_k1 : Z := 27.
Definition r_gp : Z := 28.
Definition r_fp : Z := 30.
Definition r_sp : Z := 29.
Definition r_ra : Z := 31.

Definition c_badvaddr : Z := 8.
Definition c_entryhi : Z := 10.
Definition c_status : Z := 12.
Definition c_cause : Z := 13.
Definition c_epc : Z := 14.

(** Register 0 is always 0. *)
Definition reg (r : Z) (s : mips) : Z := if r =? 0 then 0 else default 0 (m_gpr s !! r).
Definition creg (c : Z) (s : mips) : Z := default 0 (m_cp0 s !! c).
Definition set_reg (r v : Z) (s : mips) : mips := set_gpr <[r := v]> s.

(** ** The instructions *)
Definition sw (rt off base : Z) : KM mips unit :=
  kload (λ s, m_mem s !! wrap (reg base s + off)) ;;
  kmodify (λ s, set_mmem <[wrap (reg base s + off) := reg rt s]> s).
Definition lw (rt off base : Z) : KM mips unit :=
  v ← kload (λ s, m_mem s !! wrap (reg base s + off));
  kmodify (set_reg rt v).
Definition la (rd v : Z) : KM mips unit := kmodify (set_reg rd v).
Definition addiu (rd rs imm : Z) : KM mips unit := kmodify (λ s, set_reg rd (wrap (reg rs s + imm)) s).
Definition addu (rd rs rt : Z) : KM mips unit := kmodify (λ s, set_reg rd (wrap (reg rs s + reg rt s)) s).
Definition or (rd rs rt : Z) : KM mips unit := kmodify (λ s, set_reg rd (Z.lor (reg rs s) (reg rt s)) s).
Definition and (rd rs rt : Z) : KM mips unit := kmodify (λ s, set_reg rd (Z.land (reg rs s) (reg rt s)) s).
Definition sll (rd rt sa : Z) : KM mips unit := kmodify (λ s, set_reg rd (wrap (Z.shiftl (reg rt s) sa)) s).
Definition move (rd rs : Z) : KM mips unit := kmodify (λ s, set_reg rd (reg rs s) s).
Definition mflo (rd : Z) : KM mips unit := kmodify (λ s, set_reg rd (m_lo s) s).
Definition mfhi (rd : Z) : KM mips unit := kmodify (λ s, set_reg rd (m_hi s) s).
Definition mtlo (rs : Z) : KM mips unit :=
  kmodify (λ s, Mips (m_gpr s) (m_hi s) (reg rs s) (m_cp0 s) (m_mem s) (m_pc s)).
Definition mthi (rs : Z) : KM mips unit :=
  kmodify (λ s, Mips (m_gpr s) (reg rs s) (m_lo s) (m_cp0 s) (m_mem s) (m_pc s)).
Definition mfc0 (rt c : Z) : KM mips unit := kmodify (λ s, set_reg rt (creg c s) s).
Definition mtc0 (rt c : Z) : KM mips unit := kmodify (λ s, set_cp0 <[c := reg rt s]> s).
Definition jr (rs : Z) : KM mips unit := kmodify (λ s, set_pc (reg rs s) s).
(** The exception level ends and execution goes on at EPC. *)
Definition eret : KM mips unit :=
  kmodify (λ s, set_pc (creg c_epc s) (set_cp0 <[c_status := Z.land (creg c_status s) (Z.lnot CP0_STATUS_EXL_MASK)]> s)).

(** ** [context_t] *)
Definition REGS_OFFSET_ZERO : Z := 0.
Definition REGS_OFFSET_AT : Z := 4.
Definition REGS_OFFSET_V0 : Z := 8.
Definition REGS_OFFSET_V1 : Z := 12.
Definition REGS_OFFSET_A0 : Z := 16.
Definition REGS_OFFSET_A1 : Z := 20.
Definition REGS_OFFSET_A2 : Z := 24.
Definition REGS_OFFSET_A3 : Z := 28.
Definition REGS_OFFSET_T0 : Z := 32.
Definition REGS_OFFSET_T1 : Z := 36.
Definition REGS_OFFSET_T2 : Z := 40.
Definition REGS_OFFSET_T3 : Z := 44.
Definition REGS_OFFSET_T4 : Z := 48.
Definition REGS_OFFSET_T5 : Z := 52.
Definition REGS_OFFSET_T6 : Z := 56.
Definition REGS_OFFSET_T7 : Z := 60.
Definition REGS_OFFSET_T8 : Z := 64.
Definition REGS_OFFSET_T9 : Z := 68.
Definition REGS_OFFSET_S0 : Z := 72.
Definition REGS_OFFSET_S1 : Z := 76.
Definition REGS_OFFSET_S2 : Z := 80.
Definition REGS_OFFSET_S3 : Z := 84.
Definition REGS_OFFSET_S4 : Z := 88.
Definition REGS_OFFSET_S5 : Z := 92.
Definition REGS_OFFSET_S6 : Z := 96.
Definition REGS_OFFSET_S7 : Z := 100.
Definition REGS_OFFSET_K0 : Z := 104.
Definition REGS_OFFSET_K1 : Z := 108.
Definition REGS_OFFSET_GP : Z := 112.
Definition REGS_OFFSET_FP : Z := 116.
Definition REGS_OFFSET_SP : Z := 120.
Definition REGS_OFFSET_RA : Z := 124.
Definition REGS_OFFSET_LO : Z := 128.
Definition REGS_OFFSET_HI : Z := 132.
Definition REGS_OFFSET_EPC : Z := 136.
Definition REGS_OFFSET_CAUSE : Z := 140.
Definition REGS_OFFSET_BADVA : Z := 144.
Definition REGS_OFFSET_ENTRYHI : Z := 148.
Definition REGS_OFFSET_STATUS : Z := 152.
Definition CONTEXT_SIZE : Z := 156.

(** ** The macros *)

(** The registers of [SAVE_REGISTERS] and [LOAD_REGISTERS], in order. *)
Definition saved_registers : list (Z * Z) := [
    (r_zero, REGS_OFFSET_ZERO); (r_at, REGS_OFFSET_AT); (r_v0, REGS_OFFSET_V0); (r_v1, REGS_OFFSET_V1);
    (r_a0, REGS_OFFSET_A0); (r_a1, REGS_OFFSET_A1); (r_a2, REGS_OFFSET_A2); (r_a3, REGS_OFFSET_A3);
    (r_t0, REGS_OFFSET_T0); (r_t1, REGS_OFFSET_T1); (r_t2, REGS_OFFSET_T2); (r_t3, REGS_OFFSET_T3);
    (r_t4, REGS_OFFSET_T4); (r_t5, REGS_OFFSET_T5); (r_t6, REGS_OFFSET_T6); (r_t7, REGS_OFFSET_T7);
    (r_t8, REGS_OFFSET_T8); (r_t9, REGS_OFFSET_T9); (r_s0, REGS_OFFSET_S0); (r_s1, REGS_OFFSET_S1);
    (r_s2, REGS_OFFSET_S2); (r_s3, REGS_OFFSET_S3); (r_s4, REGS_OFFSET_S4); (r_s5, REGS_OFFSET_S5);
    (r_s6, REGS_OFFSET_S6); (r_s7, REGS_OFFSET_S7); (r_gp, REGS_OFFSET_GP); (r_fp, REGS_OFFSET_FP);
    (r_ra, REGS_OFFSET_RA)
].
Definition loaded_registers : list (Z * Z) := [
    (r_ra, REGS_OFFSET_RA); (r_fp, REGS_OFFSET_FP); (r_gp, REGS_OFFSET_GP); (r_s7, REGS_OFFSET_S7);
    (r_s6, REGS_OFFSET_S6); (r_s5, REGS_OFFSET_S5); (r_s4, REGS_OFFSET_S4); (r_s3, REGS_OFFSET_S3);
    (r_s2, REGS_OFFSET_S2); (r_s1, REGS_OFFSET_S1); (r_s0, REGS_OFFSET_S0); (r_t9, REGS_OFFSET_T9);
    (r_t8, REGS_OFFSET_T8); (r_t7, REGS_OFFSET_T7); (r_t6, REGS_OFFSET_T6); (r_t5, REGS_OFFSET_T5);
    (r_t4, REGS_OFFSET_T4); (r_t3, REGS_OFFSET_T3); (r_t2, REGS_OFFSET_T2); (r_t1, REGS_OFFSET_T1);
    (r_t0, REGS_OFFSET_T0); (r_a3, REGS_OFFSET_A3); (r_a2, REGS_OFFSET_A2); (r_a1, REGS_OFFSET_A1);
    (r_a0, REGS_OFFSET_A0); (r_v1, REGS_OFFSET_V1); (r_v0, REGS_OFFSET_V0); (r_at, REGS_OFFSET_AT);
    (r_zero, REGS_OFFSET_ZERO)
].

Fixpoint sw_all (base : Z) (l : list (Z * Z)) : KM mips unit :=
  match l with
  | [] => mret ()
  | (r, off) :: l => sw r off base ;; sw_all base l
  end.

Fixpoint lw_all (base : Z) (l : list (Z * Z)) : KM mips unit :=
  match l with
  | [] => mret ()
  | (r, off) :: l => lw r off base ;; lw_all base l
  end.

Definition SAVE_REGISTERS (base : Z) : KM mips unit := sw_all base saved_registers.
Definition LOAD_REGISTERS (base : Z) : KM mips unit := lw_all base loaded_registers.

Definition ABI_STACK_FRAME : Z := 32.
Definition ADDR_PREFIX_KSEG1 : Z := 0xA0000000.
Definition ADDR_IN_KSEG1 (x : Z) : Z := Z.lor (ADDR_OFFSET x) ADDR_PREFIX_KSEG1.
Definition DEVICE_DORDER_ADDR : Z := 0x10000010.
Definition KERNEL_STATIC_ADDR : Z := 0x400.
Definition KERNEL_STATIC_SHIFT : Z := 10.
Definition KERNEL_STATIC_SIZE : Z := 0x400.
Definition STATIC_OFFSET_EPC : Z := 0.
Definition STATIC_OFFSET_CAUSE : Z := 4.
Definition STATIC_OFFSET_BADVA : Z := 8.
Definition STATIC_OFFSET_ENTRYHI : Z := 12.
Definition STATIC_OFFSET_STATUS : Z := 16.

Definition SETUP_STATIC_AREA (temp0 temp1 ptr displacement : Z) : KM mips unit :=
  la temp0 (ADDR_IN_KSEG1 DEVICE_DORDER_ADDR) ;;
  lw temp1 0 temp0 ;;
  sll temp0 temp1 KERNEL_STATIC_SHIFT ;;
  la ptr (wrap (ADDR_IN_KSEG0 KERNEL_STATIC_ADDR - displacement)) ;;
  addu ptr ptr temp0 ;;
  la temp0 KERNEL_STATIC_SIZE ;;
  addu ptr ptr temp0.

(** The multiplier registers and [SAVE_REGISTERS]. *)
Definition save_context (base : Z) : KM mips unit :=
  SAVE_REGISTERS base ;;
  mflo r_t0 ;; mfhi r_t1 ;;
  sw r_t0 REGS_OFFSET_LO base ;; sw r_t1 REGS_OFFSET_HI base.

Definition load_context (base : Z) : KM mips unit :=
  lw r_t0 REGS_OFFSET_LO base ;; lw r_t1 REGS_OFFSET_HI base ;;
  mtlo r_t0 ;; mthi r_t1 ;;
  LOAD_REGISTERS base.

(** Registers of the coprocessor are stored at [base], by way of [rt]. *)
Fixpoint store_cp0s (rt base : Z) (l : list (Z * Z)) : KM mips unit :=
  match l with
  | [] => mret ()
  | (c, off) :: l => mfc0 rt c ;; sw rt off base ;; store_cp0s rt base l
  end.

(** Words are copied from [src] to [dst], by way of [rt]. *)
Fixpoint copy_words (rt src dst : Z) (l : list (Z * Z)) : KM mips unit :=
  match l with
  | [] => mret ()
  | (from, to) :: l => lw rt from src ;; sw rt to dst ;; copy_words rt src dst l
  end.

(** ** The code of [head.S] *)

(** [cpu_switch_context], up to the loading of the new stack pointer, and from there. *)
Definition switch_save : KM mips unit :=
  addiu r_sp r_sp (- CONTEXT_SIZE) ;;
  sw r_sp 0 r_a0 ;;
  save_context r_sp ;;
  mfc0 r_t0 c_status ;;
  sw r_t0 REGS_OFFSET_STATUS r_sp ;;
  la r_t1 (wrap (Z.lnot CP0_STATUS_IE_MASK)) ;;
  and r_t0 r_t0 r_t1 ;;
  mtc0 r_t0 c_status ;;
  mfc0 r_t0 c_entryhi ;;
  la r_t1 (wrap (Z.lnot 0xff)) ;;
  and r_t0 r_t0 r_t1 ;;
  or r_t0 r_t0 r_a2 ;;
  mtc0 r_t0 c_entryhi.

Definition switch_load : KM mips unit :=
  lw r_sp 0 r_a1 ;;
  load_context r_sp ;;
  lw r_k0 REGS_OFFSET_STATUS r_sp ;;
  addiu r_sp r_sp CONTEXT_SIZE ;;
  jr r_ra ;;
  mtc0 r_k0 c_status.

Definition cpu_switch_context_code : KM mips unit := switch_save ;; switch_load.

Definition cpu_uspace_jump : KM mips unit :=
  move r_sp r_a0 ;; move r_a0 r_a1 ;; move r_a1 r_a2 ;; eret.

(** The words of the context, and of the static area, for the coprocessor. *)
Definition cp0_words : list (Z * Z) :=
  [(c_epc, REGS_OFFSET_EPC); (c_cause, REGS_OFFSET_CAUSE); (c_badvaddr, REGS_OFFSET_BADVA);
   (c_entryhi, REGS_OFFSET_ENTRYHI); (c_status, REGS_OFFSET_STATUS)].

Definition static_words : list (Z * Z) :=
  [(c_epc, STATIC_OFFSET_EPC); (c_cause, STATIC_OFFSET_CAUSE); (c_badvaddr, STATIC_OFFSET_BADVA);
   (c_entryhi, STATIC_OFFSET_ENTRYHI); (c_status, STATIC_OFFSET_STATUS)].

Definition static_copies : list (Z * Z) :=
  [(STATIC_OFFSET_EPC, REGS_OFFSET_EPC); (STATIC_OFFSET_CAUSE, REGS_OFFSET_CAUSE);
   (STATIC_OFFSET_BADVA, REGS_OFFSET_BADVA); (STATIC_OFFSET_ENTRYHI, REGS_OFFSET_ENTRYHI);
   (STATIC_OFFSET_STATUS, REGS_OFFSET_STATUS)].

(** The handlers, up to the call of the compiled C function and from its return. *)
Definition tlb_refill_enter : KM mips unit :=
  SETUP_STATIC_AREA r_k0 r_k1 r_k1 CONTEXT_SIZE ;;
  sw r_sp REGS_OFFSET_SP r_k1 ;;
  or r_sp r_zero r_k1 ;;
  save_context r_sp ;;
  store_cp0s r_k0 r_sp cp0_words ;;
  or r_a0 r_zero r_sp ;;
  addiu r_sp r_sp (- ABI_STACK_FRAME).

Definition tlb_refill_leave : KM mips unit :=
  addiu r_sp r_sp ABI_STACK_FRAME ;;
  load_context r_sp ;;
  lw r_sp REGS_OFFSET_SP r_sp ;;
  eret.

Definition exception_mask : Z :=
  wrap (Z.lnot (Z.lor (Z.lor CP0_STATUS_KSU_MASK CP0_STATUS_EXL_MASK) CP0_STATUS_IE_MASK)).

(** [handle_general] in order: the registers of the coprocessor are saved in the
    static area and the exception level is left; the context is saved on the stack.
    [general_restore] and [general_return] undo this after the call. *)
Definition general_save_cp0 : KM mips unit :=
  SETUP_STATIC_AREA r_k0 r_k1 r_k1 KERNEL_STATIC_SIZE ;;
  store_cp0s r_k0 r_k1 static_words ;;
  la r_k1 exception_mask ;;
  and r_k0 r_k0 r_k1 ;;
  mtc0 r_k0 c_status.

Definition general_save : KM mips unit :=
  addiu r_sp r_sp (- CONTEXT_SIZE) ;;
  save_context r_sp ;;
  SETUP_STATIC_AREA r_k0 r_k1 r_t1 KERNEL_STATIC_SIZE ;;
  copy_words r_t0 r_t1 r_sp static_copies ;;
  or r_a0 r_zero r_sp ;;
  addiu r_sp r_sp (- ABI_STACK_FRAME).

Definition general_enter : KM mips unit := general_save_cp0 ;; general_save.

Definition general_restore : KM mips unit :=
  addiu r_sp r_sp ABI_STACK_FRAME ;;
  SETUP_STATIC_AREA r_k0 r_k1 r_t1 KERNEL_STATIC_SIZE ;;
  copy_words r_t0 r_sp r_t1
    [(REGS_OFFSET_STATUS, STATIC_OFFSET_STATUS); (REGS_OFFSET_EPC, STATIC_OFFSET_EPC)] ;;
  load_context r_sp ;;
  addiu r_sp r_sp CONTEXT_SIZE.

Definition general_return : KM mips unit :=
  SETUP_STATIC_AREA r_k0 r_k1 r_k1 KERNEL_STATIC_SIZE ;;
  lw r_k0 STATIC_OFFSET_EPC r_k1 ;; mtc0 r_k0 c_epc ;;
  lw r_k0 STATIC_OFFSET_STATUS r_k1 ;; mtc0 r_k0 c_status ;;
  eret.

Definition general_leave : KM mips unit := general_restore ;; general_return.

Section handlers.
  (** The compiled C functions, from the jump to the return. *)
  Context (wrapped_tlb_refill_code wrapped_general_code : KM mips unit).

Definition handle_tlb_refill : KM mips unit :=
  tlb_refill_enter ;; wrapped_tlb_refill_code ;; tlb_refill_leave.

Definition handle_general : KM mips unit :=
  general_enter ;; wrapped_general_code ;; general_leave.

End handlers.
