(* ===== verification/MipsTheorems.v ===== *)
(** * Registers and exception entry: contexts are saved and restored

    The saving and loading of registers, and the context switch.  (The exception
    handlers are in [MipsExc].) *)
From S2P Require Import Prelude CList Cpu Cp0 Mips.

(** ** Registers *)
Lemma reg_eq r v s : r ≠ 0 → reg r (set_reg r v s) = v.
Proof. intros Hr. unfold reg. rewrite (proj2 (Z.eqb_neq r 0)) by done. cbn. by rewrite lookup_insert_eq. Qed.

Lemma reg_ne r r' v s : r ≠ r' → reg r (set_reg r' v s) = reg r s.
Proof. intros Hr. unfold reg. cbn. by rewrite lookup_insert_ne. Qed.

Lemma creg_eq c s f v : creg c (set_cp0 <[c := v]> (set_cp0 f s)) = v.
Proof. unfold creg. cbn. by rewrite lookup_insert_eq. Qed.

(** The states agree on the registers [P] selects. *)
Definition same_regs (P : Z → Prop) (s s' : mips) : Prop := ∀ r, P r → reg r s' = reg r s.

(** The word at [a]. *)
Definition word (s : mips) (a : Z) : Z := default 0 (m_mem s !! a).

(** The words at [a], [a + 4], … [a + 4 (n - 1)] exist, and addresses do not wrap. *)
Definition area (s : mips) (a n : Z) : Prop :=
  0 ≤ a ∧ a + 4 * n ≤ word_max ∧ ∀ k, 0 ≤ k < n → is_Some (m_mem s !! (a + 4 * k)).

(** The memory differs from that of [s] only in [A], and no word has disappeared. *)
Definition same_mem (A : Z → Prop) (s s' : mips) : Prop :=
  (∀ a, ¬ A a → m_mem s' !! a = m_mem s !! a) ∧ (∀ a, is_Some (m_mem s !! a) → is_Some (m_mem s' !! a)).

(** The words of a context at [b]. *)
Definition in_context (b a : Z) : Prop := b ≤ a < b + CONTEXT_SIZE.

Lemma same_mem_refl A s : same_mem A s s.
Proof. by split. Qed.

Lemma same_mem_trans A s1 s2 s3 : same_mem A s1 s2 → same_mem A s2 s3 → same_mem A s1 s3.
Proof. intros [H1 D1] [H2 D2]. split; [|eauto]. intros a Ha. by rewrite H2, H1. Qed.

Lemma same_mem_weaken (A B : Z → Prop) s s' : (∀ a, A a → B a) → same_mem A s s' → same_mem B s s'.
Proof. intros HAB [H D]. split; [|done]. intros a Ha. apply H. eauto. Qed.

Lemma same_mem_area A s s' a n : same_mem A s s' → area s a n → area s' a n.
Proof. intros [_ D] (H0 & H1 & Hm). split_and!; try done. intros k Hk. by apply D, Hm. Qed.

Lemma word_some s a : is_Some (m_mem s !! a) → m_mem s !! a = Some (word s a).
Proof. intros [v Hv]. unfold word. by rewrite Hv. Qed.

Lemma area_lookup s b n off :
  area s b n → 0 ≤ off < 4 * n → off mod 4 = 0 → wrap (b + off) = b + off ∧ m_mem s !! (b + off) = Some (word s (b + off)).
Proof.
  intros (H0 & H1 & Hm) Hoff Hmod. split; [apply wrap_small; word_lia|]. apply word_some.
  replace off with (4 * (off / 4)) by (pose proof (Z.div_mod off 4 ltac:(lia)); lia).
  apply Hm. pose proof (Z.div_mod off 4 ltac:(lia)). lia.
Qed.

(** ** Single instructions *)
Lemma sw_exec rt off base s b n :
  reg base s = b → area s b n → 0 ≤ off < 4 * n → off mod 4 = 0 →
  sw rt off base s = Ok (tt, set_mmem <[b + off := reg rt s]> s).
Proof.
  intros Hb Ha Ho Hm. destruct (area_lookup s b n off Ha Ho Hm) as [Hw Hl].
  unfold sw. erewrite bind_ok by (apply load_some; rewrite Hb, Hw; exact Hl).
  unfold kmodify. by rewrite Hb, Hw.
Qed.

Lemma lw_exec rt off base s b n :
  reg base s = b → area s b n → 0 ≤ off < 4 * n → off mod 4 = 0 →
  lw rt off base s = Ok (tt, set_reg rt (word s (b + off)) s).
Proof.
  intros Hb Ha Ho Hm. destruct (area_lookup s b n off Ha Ho Hm) as [Hw Hl].
  unfold lw. erewrite bind_ok by (apply load_some; rewrite Hb, Hw; exact Hl). done.
Qed.

Lemma same_mem_store A s a v : A a → same_mem A s (set_mmem <[a := v]> s).
Proof.
  intros Ha. split; cbn; intros a' Ha'.
  - rewrite lookup_insert_ne; [done|]. by intros ->.
  - destruct (decide (a = a')) as [->|]; [rewrite lookup_insert_eq; eauto|by rewrite lookup_insert_ne].
Qed.

Lemma word_store_eq s a v : word (set_mmem <[a := v]> s) a = v.
Proof. unfold word. cbn. by rewrite lookup_insert_eq. Qed.

Lemma word_store_ne s a a' v : a' ≠ a → word (set_mmem <[a := v]> s) a' = word s a'.
Proof. intros Ha. unfold word. cbn. by rewrite lookup_insert_ne. Qed.

Lemma word_same A s s' a : same_mem A s s' → ¬ A a → word s' a = word s a.
Proof. intros [H _] Ha. unfold word. by rewrite H. Qed.

(** ** The macros *)
Definition offsets_ok (l : list (Z * Z)) : Prop :=
  Forall (λ '(_, off), 0 ≤ off < CONTEXT_SIZE ∧ off mod 4 = 0) l.

Lemma sw_all_spec base b l s :
  reg base s = b → area s b 39 → offsets_ok l → NoDup (snd <$> l) →
  ∃ m, sw_all base l s = Ok (tt, set_mmem (λ _, m) s) ∧
    same_mem (λ a, ∃ off, off ∈ snd <$> l ∧ a = b + off) s (set_mmem (λ _, m) s) ∧
    ∀ r off, (r, off) ∈ l → word (set_mmem (λ _, m) s) (b + off) = reg r s.
Proof.
  revert s. induction l as [|[r off] l IH]; intros s Hb Ha Ho Hnd.
  { exists (m_mem s). assert (set_mmem (λ _, m_mem s) s = s) as -> by (by destruct s).
    split; [done|]. split; [apply same_mem_refl|]. by intros r off ?%elem_of_nil. }
  apply Forall_cons in Ho as [[Hr Hm] Ho]. cbn in Hnd. apply NoDup_cons in Hnd as [Hn Hnd].
  set (s1 := set_mmem <[b + off := reg r s]> s).
  assert (Ha1 : area s1 b 39).
  { eapply same_mem_area; [|exact Ha]. apply (same_mem_store (λ _, True)). done. }
  destruct (IH s1) as (m & He & Hs & Hw); [done..|].
  exists m. split; [|split].
  - cbn [sw_all]. erewrite bind_ok by (eapply sw_exec; [done|exact Ha|unfold CONTEXT_SIZE in Hr; lia|done]). exact He.
  - change (set_mmem (λ _, m) s) with (set_mmem (λ _, m) s1). eapply same_mem_trans.
    + apply same_mem_store. exists off. split; [left|done].
    + eapply same_mem_weaken; [|exact Hs]. intros a (off' & Hin & ->). exists off'. split; [by right|done].
  - intros r' off' [[= -> ->]|Hin]%elem_of_cons.
    + change (set_mmem (λ _, m) s) with (set_mmem (λ _, m) s1).
      rewrite (word_same _ s1 _ _ Hs).
      * apply word_store_eq.
      * intros (off'' & Hin & E). by assert (off = off'') as -> by lia.
    + by apply Hw.
Qed.

Lemma lw_all_spec base b l s :
  reg base s = b → base ∉ fst <$> l → area s b 39 → offsets_ok l → NoDup (fst <$> l) →
  ∃ g, lw_all base l s = Ok (tt, set_gpr (λ _, g) s) ∧
    same_regs (λ r, r ∉ fst <$> l) s (set_gpr (λ _, g) s) ∧
    ∀ r off, (r, off) ∈ l → r ≠ 0 → reg r (set_gpr (λ _, g) s) = word s (b + off).
Proof.
  revert s. induction l as [|[r off] l IH]; intros s Hb Hbase Ha Ho Hnd.
  { exists (m_gpr s). assert (set_gpr (λ _, m_gpr s) s = s) as -> by (by destruct s).
    split; [done|]. split; [done|]. by intros r off ?%elem_of_nil. }
  apply Forall_cons in Ho as [[Hr Hm] Ho]. cbn in Hnd, Hbase. apply NoDup_cons in Hnd as [Hn Hnd].
  rewrite elem_of_cons in Hbase.
  set (s1 := set_reg r (word s (b + off)) s).
  destruct (IH s1) as (g & He & Hs & Hw); [|tauto|done..|].
  { unfold s1. rewrite reg_ne; [done|]. intros ->. tauto. }
  exists g. split; [|split].
  - cbn [lw_all]. erewrite bind_ok by (eapply lw_exec; [done|exact Ha|unfold CONTEXT_SIZE in Hr; lia|done]). exact He.
  - intros r' Hr'. cbn in Hr'. rewrite elem_of_cons in Hr'.
    change (set_gpr (λ _, g) s) with (set_gpr (λ _, g) s1). rewrite Hs by tauto.
    unfold s1. rewrite reg_ne; [done|]. intros ->. tauto.
  - intros r' off' [[= -> ->]|Hin]%elem_of_cons Hr0.
    + change (set_gpr (λ _, g) s) with (set_gpr (λ _, g) s1). rewrite Hs by done. by apply reg_eq.
    + by apply Hw.
Qed.

Lemma saved_ok : offsets_ok saved_registers ∧ NoDup (snd <$> saved_registers).
Proof. split; [repeat constructor; done|by apply (bool_decide_unpack _)]. Qed.

Lemma loaded_ok : offsets_ok loaded_registers ∧ NoDup (fst <$> loaded_registers).
Proof. split; [repeat constructor; done|by apply (bool_decide_unpack _)]. Qed.

(** The macros treat the same registers: all but [$k0], [$k1] and [$sp]. *)
Lemma loaded_saved : loaded_registers ≡ₚ saved_registers.
Proof. apply (bool_decide_unpack _). by vm_compute. Qed.

(** The words of a context [save_context] fills. *)
Definition saved_offsets : list Z := (snd <$> saved_registers) ++ [REGS_OFFSET_LO; REGS_OFFSET_HI].

Definition saved_word (b a : Z) : Prop := ∃ off, off ∈ saved_offsets ∧ a = b + off.

Lemma saved_in_context b a : saved_word b a → in_context b a.
Proof.
  intros (off & Hin & ->). unfold in_context.
  assert (Hall : Forall (λ off, 0 ≤ off < CONTEXT_SIZE) saved_offsets) by (repeat constructor; done).
  rewrite Forall_forall in Hall. specialize (Hall off Hin). lia.
Qed.

Lemma not_saved b off : off ∉ saved_offsets → ¬ saved_word b (b + off).
Proof. intros Hn (off' & Hin & E). by assert (off = off') as -> by lia. Qed.

(** The context at [b] holds the registers of [s]. *)
Definition holds_regs (s' s : mips) (b : Z) : Prop :=
  (∀ r off, (r, off) ∈ saved_registers → word s' (b + off) = reg r s) ∧
  word s' (b + REGS_OFFSET_LO) = m_lo s ∧ word s' (b + REGS_OFFSET_HI) = m_hi s.

Lemma save_context_spec b s :
  reg r_sp s = b → area s b 39 →
  ∃ s', save_context r_sp s = Ok (tt, s') ∧ same_regs (λ r, r ≠ r_t0 ∧ r ≠ r_t1) s s' ∧
    m_cp0 s' = m_cp0 s ∧ m_hi s' = m_hi s ∧ m_lo s' = m_lo s ∧ m_pc s' = m_pc s ∧
    same_mem (saved_word b) s s' ∧ holds_regs s' s b.
Proof.
  intros Hb Ha. destruct saved_ok as [Ho Hnd].
  destruct (sw_all_spec r_sp b saved_registers s Hb Ha Ho Hnd) as (m & He & Hs & Hw).
  set (s1 := set_mmem (λ _, m) s) in *.
  assert (Ha1 : area s1 b 39) by (by eapply same_mem_area).
  set (s2 := set_reg r_t1 (m_hi s) (set_reg r_t0 (m_lo s) s1)).
  assert (Ha2 : area s2 b 39) by exact Ha1.
  set (s3 := set_mmem <[b + REGS_OFFSET_LO := m_lo s]> s2).
  assert (Ha3 : area s3 b 39) by (eapply same_mem_area; [by apply (same_mem_store (λ _, True))|exact Ha2]).
  exists (set_mmem <[b + REGS_OFFSET_HI := m_hi s]> s3). split_and!; try done.
  - unfold save_context, SAVE_REGISTERS. erewrite bind_ok by exact He.
    do 2 (erewrite bind_ok by reflexivity). change (set_reg r_t1 _ _) with s2.
    assert (H2b : reg r_sp s2 = b) by (unfold s2; by rewrite !reg_ne).
    erewrite bind_ok by (eapply sw_exec; [exact H2b|exact Ha2|done|done]).
    assert (H2 : reg r_t0 s2 = m_lo s) by (unfold s2; by rewrite reg_ne, reg_eq). rewrite H2.
    change (set_mmem _ s2) with s3.
    assert (H3 : reg r_t1 s3 = m_hi s) by (change (reg r_t1 s2 = m_hi s); unfold s2; by rewrite reg_eq).
    rewrite (sw_exec _ _ _ _ b 39); [by rewrite H3|exact H2b|exact Ha3|done|done].
  - intros r [Hr0 Hr1]. change (reg r s2 = reg r s). unfold s2. by rewrite !reg_ne.
  - eapply same_mem_trans; [|eapply same_mem_trans].
    + eapply same_mem_weaken; [|exact Hs]. intros a (off & Hin & ->). exists off.
      split; [by apply elem_of_app; left|done].
    + change s1 with s1. apply (same_mem_store _ s2). exists REGS_OFFSET_LO. split; [|done]. by apply (bool_decide_unpack _).
    + apply same_mem_store. exists REGS_OFFSET_HI. split; [|done]. by apply (bool_decide_unpack _).
  - split_and!.
    + intros r off Hin. assert (Hne : off ∉ [REGS_OFFSET_LO; REGS_OFFSET_HI]).
      { assert (Hall : Forall (λ '(_, off), off ∉ [REGS_OFFSET_LO; REGS_OFFSET_HI]) saved_registers)
          by (by apply (bool_decide_unpack _)).
        rewrite Forall_forall in Hall. exact (Hall _ Hin). }
      rewrite word_store_ne; [unfold s3; rewrite word_store_ne|].
      * by apply Hw.
      * intros E. apply Hne. assert (off = REGS_OFFSET_LO) as -> by (unfold REGS_OFFSET_LO in *; lia). left.
      * intros E. apply Hne. assert (off = REGS_OFFSET_HI) as -> by lia. right. left.
    + rewrite word_store_ne by (unfold REGS_OFFSET_LO, REGS_OFFSET_HI; lia). apply word_store_eq.
    + apply word_store_eq.
Qed.

Lemma load_context_spec b s :
  reg r_sp s = b → area s b 39 →
  ∃ s', load_context r_sp s = Ok (tt, s') ∧ same_regs (λ r, r = r_sp ∨ r = r_k0 ∨ r = r_k1) s s' ∧
    m_cp0 s' = m_cp0 s ∧ m_mem s' = m_mem s ∧ m_pc s' = m_pc s ∧
    (∀ r off, (r, off) ∈ saved_registers → r ≠ 0 → reg r s' = word s (b + off)) ∧
    m_lo s' = word s (b + REGS_OFFSET_LO) ∧ m_hi s' = word s (b + REGS_OFFSET_HI).
Proof.
  intros Hb Ha. destruct loaded_ok as [Ho Hnd].
  set (s1 := set_reg r_t1 (word s (b + REGS_OFFSET_HI)) (set_reg r_t0 (word s (b + REGS_OFFSET_LO)) s)).
  set (s2 := Mips (m_gpr s1) (word s (b + REGS_OFFSET_HI)) (word s (b + REGS_OFFSET_LO)) (m_cp0 s) (m_mem s) (m_pc s)).
  assert (Hb2 : reg r_sp s2 = b) by (change (reg r_sp s1 = b); unfold s1; by rewrite !reg_ne).
  destruct (lw_all_spec r_sp b loaded_registers s2 Hb2) as (g & He & Hs & Hw); try done.
  { by apply (bool_decide_unpack _). }
  exists (set_gpr (λ _, g) s2). split_and!; try done.
  - unfold load_context, LOAD_REGISTERS.
    erewrite bind_ok by (eapply lw_exec; [exact Hb|exact Ha|done|done]).
    erewrite bind_ok by (eapply (lw_exec _ _ _ _ b 39); [by rewrite reg_ne|exact Ha|done|done]).
    do 2 (erewrite bind_ok by reflexivity).
    change (word (set_reg _ _ s) (b + REGS_OFFSET_HI)) with (word s (b + REGS_OFFSET_HI)).
    change (set_reg r_t1 _ _) with s1. cbn [m_gpr m_hi m_lo m_cp0 m_mem m_pc].
    assert (Ht0 : reg r_t0 s1 = word s (b + REGS_OFFSET_LO)) by (unfold s1; by rewrite reg_ne, reg_eq).
    assert (Ht1 : ∀ lo, reg r_t1 (Mips (m_gpr s1) (m_hi s1) lo (m_cp0 s1) (m_mem s1) (m_pc s1)) = word s (b + REGS_OFFSET_HI)).
    { intros lo. change (reg r_t1 s1 = word s (b + REGS_OFFSET_HI)). unfold s1. by rewrite reg_eq. }
    rewrite Ht1, Ht0. exact He.
  - assert (Hn : ∀ r, r = r_sp ∨ r = r_k0 ∨ r = r_k1 → r ∉ loaded_registers.*1).
    { intros r [->|[->| ->]]; by apply (bool_decide_unpack _). }
    intros r Hr. rewrite (Hs r) by (by apply Hn). change (reg r s1 = reg r s). unfold s1.
    rewrite !reg_ne; [done|..]; by intros ->; destruct Hr as [|[|]].
  - intros r off Hin Hr. rewrite (Hw r off); [done| |done]. by rewrite loaded_saved.
Qed.

(** ** The context switch *)

(** Everything [SAVE_REGISTERS] saves but the zero register; all registers but
    [$k0], [$k1] and [$sp]. *)
Lemma saved_cover r : 0 < r < 32 → r ≠ r_k0 → r ≠ r_k1 → r ≠ r_sp → ∃ off, (r, off) ∈ saved_registers.
Proof.
  intros Hr H0 H1 Hs.
  assert (Hall : Forall (λ r, r = r_k0 ∨ r = r_k1 ∨ r = r_sp ∨ r ∈ fst <$> saved_registers)
    (Z.of_nat <$> seq 1 31)) by (by apply (bool_decide_unpack _)).
  rewrite Forall_forall in Hall. specialize (Hall r).
  destruct Hall as [|[|[|Hin]]]; try done.
  - apply list_elem_of_fmap. exists (Z.to_nat r). rewrite elem_of_seq. lia.
  - apply list_elem_of_fmap in Hin as ([r' off] & -> & Hin). by exists off.
Qed.

Definition ie_clear (status : Z) : Z := Z.land status (wrap (Z.lnot CP0_STATUS_IE_MASK)).
Definition asid_set (entryhi asid : Z) : Z := Z.lor (Z.land entryhi (wrap (Z.lnot 0xff))) asid.

(** What is written when the thread with stack [b + CONTEXT_SIZE] is left. *)
Definition switch_word (b old a : Z) : Prop := in_context b a ∨ a = old.

(** Status has a slot of its own in the context. *)
Lemma no_status_slot r : (r, REGS_OFFSET_STATUS) ∉ saved_registers.
Proof.
  assert (Hall : Forall (λ '(_, off), off ≠ REGS_OFFSET_STATUS) saved_registers) by (by apply (bool_decide_unpack _)).
  rewrite Forall_forall in Hall. intros Hin. exact (Hall _ Hin eq_refl).
Qed.

(** The space for the context is taken, and its address noted. *)
Lemma switch_push_spec s b old :
  reg r_sp s = b + CONTEXT_SIZE → area s b 39 → reg r_a0 s = old → area s old 1 →
  ∃ s', (addiu r_sp r_sp (- CONTEXT_SIZE) ;; sw r_sp 0 r_a0) s = Ok (tt, s') ∧
    s' = set_mmem <[old := b]> (set_reg r_sp b s) ∧ reg r_sp s' = b ∧ area s' b 39 ∧
    same_mem (switch_word b old) s s' ∧ same_regs (λ r, r ≠ r_sp) s s'.
Proof.
  intros Hsp Ha Ha0 Hao. set (s1 := set_reg r_sp b s).
  assert (H1 : addiu r_sp r_sp (- CONTEXT_SIZE) s = Ok (tt, s1)).
  { unfold addiu, kmodify, s1. rewrite Hsp. replace (b + CONTEXT_SIZE + - CONTEXT_SIZE) with b by lia.
    rewrite wrap_small; [done|]. destruct Ha as (? & ? & _). word_lia. }
  assert (Hsp1 : reg r_sp s1 = b) by (by apply reg_eq).
  assert (Hm : same_mem (switch_word b old) s (set_mmem <[old := b]> s1)) by (apply (same_mem_store _ s1); by right).
  exists (set_mmem <[old := b]> s1). split_and!; [|done|exact Hsp1|by eapply same_mem_area|exact Hm|].
  - erewrite bind_ok by exact H1.
    rewrite (sw_exec _ _ _ _ old 1); [by rewrite Hsp1, Z.add_0_r|by unfold s1; rewrite reg_ne|exact Hao|lia|done].
  - intros r Hr. change (reg r s1 = reg r s). unfold s1. by rewrite reg_ne.
Qed.

(** Status is saved, and loaded with interrupts off; the address space is exchanged. *)
Lemma switch_cp0_spec s b :
  reg r_sp s = b → area s b 39 →
  ∃ s', (mfc0 r_t0 c_status ;; sw r_t0 REGS_OFFSET_STATUS r_sp ;;
      la r_t1 (wrap (Z.lnot CP0_STATUS_IE_MASK)) ;; and r_t0 r_t0 r_t1 ;; mtc0 r_t0 c_status ;;
      mfc0 r_t0 c_entryhi ;; la r_t1 (wrap (Z.lnot 0xff)) ;; and r_t0 r_t0 r_t1 ;; or r_t0 r_t0 r_a2 ;;
      mtc0 r_t0 c_entryhi) s = Ok (tt, s') ∧
    same_regs (λ r, r ≠ r_t0 ∧ r ≠ r_t1) s s' ∧ m_lo s' = m_lo s ∧ m_hi s' = m_hi s ∧
    m_mem s' = <[b + REGS_OFFSET_STATUS := creg c_status s]> (m_mem s) ∧
    m_cp0 s' = <[c_entryhi := asid_set (creg c_entryhi s) (reg r_a2 s)]> (<[c_status := ie_clear (creg c_status s)]> (m_cp0 s)).
Proof.
  intros Hsp Ha. set (s1 := set_reg r_t0 (creg c_status s) s).
  set (s2 := set_mmem <[b + REGS_OFFSET_STATUS := creg c_status s]> s1).
  set (s3 := set_reg r_t1 (wrap (Z.lnot CP0_STATUS_IE_MASK)) s2).
  set (s4 := set_reg r_t0 (ie_clear (creg c_status s)) s3).
  set (s5 := set_cp0 <[c_status := ie_clear (creg c_status s)]> s4).
  set (s6 := set_reg r_t1 (wrap (Z.lnot 0xff)) (set_reg r_t0 (creg c_entryhi s) s5)).
  set (s7 := set_reg r_t0 (Z.land (creg c_entryhi s) (wrap (Z.lnot 0xff))) s6).
  set (s8 := set_reg r_t0 (asid_set (creg c_entryhi s) (reg r_a2 s)) s7).
  assert (Hregs : same_regs (λ r, r ≠ r_t0 ∧ r ≠ r_t1) s s8).
  { intros r [Ht0 Ht1]. unfold s8, s7, s6. rewrite !reg_ne by done. change (reg r s5) with (reg r s4).
    unfold s4, s3. rewrite !reg_ne by done. change (reg r s2) with (reg r s1). unfold s1. by rewrite reg_ne. }
  exists (set_cp0 <[c_entryhi := asid_set (creg c_entryhi s) (reg r_a2 s)]> s8). split_and!; try done.
  erewrite bind_ok by reflexivity. change (set_reg r_t0 _ s) with s1.
  erewrite bind_ok by (eapply (sw_exec _ _ _ _ b 39); [unfold s1; by rewrite reg_ne|exact Ha|done|done]).
  unfold s1 at 1. rewrite reg_eq by done. change (set_mmem _ s1) with s2. erewrite bind_ok by reflexivity.
  assert (Hand : and r_t0 r_t0 r_t1 s3 = Ok (tt, s4)).
  { unfold and, kmodify, s3. rewrite reg_eq, reg_ne by done. change (reg r_t0 s2) with (reg r_t0 s1).
    unfold s1. by rewrite reg_eq. }
  erewrite bind_ok by exact Hand.
  assert (Hmt : mtc0 r_t0 c_status s4 = Ok (tt, s5)) by (unfold mtc0, kmodify, s4; by rewrite reg_eq).
  erewrite bind_ok by exact Hmt.
  assert (Hhi : creg c_entryhi s5 = creg c_entryhi s) by (unfold creg, s5; cbn; by rewrite lookup_insert_ne).
  assert (Hmf : mfc0 r_t0 c_entryhi s5 = Ok (tt, set_reg r_t0 (creg c_entryhi s) s5)) by (unfold mfc0, kmodify; by rewrite Hhi).
  erewrite bind_ok by exact Hmf. erewrite bind_ok by reflexivity.
  assert (Hand2 : and r_t0 r_t0 r_t1 s6 = Ok (tt, s7)) by (unfold and, kmodify, s6; by rewrite reg_eq, reg_ne, reg_eq).
  erewrite bind_ok by exact Hand2.
  assert (Hor : or r_t0 r_t0 r_a2 s7 = Ok (tt, s8)).
  { assert (Ea : reg r_a2 s7 = reg r_a2 s) by (rewrite <- (Hregs r_a2) by done; unfold s8; by rewrite reg_ne).
    unfold or, kmodify. rewrite Ea. unfold s7 at 1. by rewrite reg_eq. }
  erewrite bind_ok by exact Hor. unfold mtc0, kmodify, s8. by rewrite reg_eq.
Qed.

Lemma switch_save_spec s b old :
  reg r_sp s = b + CONTEXT_SIZE → area s b 39 → reg r_a0 s = old → area s old 1 → ¬ in_context b old →
  ∃ s', switch_save s = Ok (tt, s') ∧ reg r_sp s' = b ∧
    same_regs (λ r, r ≠ r_sp ∧ r ≠ r_t0 ∧ r ≠ r_t1) s s' ∧
    m_cp0 s' = <[c_entryhi := asid_set (creg c_entryhi s) (reg r_a2 s)]> (<[c_status := ie_clear (creg c_status s)]> (m_cp0 s)) ∧
    same_mem (switch_word b old) s s' ∧
    word s' old = b ∧ holds_regs s' s b ∧ word s' (b + REGS_OFFSET_STATUS) = creg c_status s.
Proof.
  intros Hsp Ha Ha0 Hao Hnot.
  destruct (switch_push_spec s b old Hsp Ha Ha0 Hao) as (s2 & H2 & E2 & Hsp2 & Ha2 & Hm2 & Hr2).
  destruct (save_context_spec b s2 Hsp2 Ha2) as (s3 & H3 & Hr3 & Hc3 & Hhi3 & Hlo3 & Hpc3 & Hm3 & Hh3).
  assert (Hsp3 : reg r_sp s3 = b) by (by rewrite (Hr3 r_sp)).
  assert (Ec3 : m_cp0 s3 = m_cp0 s) by (rewrite Hc3, E2; done).
  destruct (switch_cp0_spec s3 b Hsp3 (same_mem_area _ _ _ _ _ Hm3 Ha2)) as (s4 & H4 & Hr4 & Hlo4 & Hhi4 & Em4 & Ec4).
  assert (Hr : same_regs (λ r, r ≠ r_sp ∧ r ≠ r_t0 ∧ r ≠ r_t1) s s4).
  { intros r (? & ? & ?). by rewrite (Hr4 r), (Hr3 r), (Hr2 r). }
  unfold creg in Ec4, Em4. rewrite Ec3 in Ec4, Em4. fold (creg c_status s) (creg c_entryhi s) in Ec4, Em4.
  rewrite (Hr3 r_a2), (Hr2 r_a2) in Ec4 by done.
  assert (Hw4 : ∀ a, a ≠ b + REGS_OFFSET_STATUS → word s4 a = word s3 a).
  { intros a Hne. unfold word. by rewrite Em4, lookup_insert_ne. }
  exists s4. split_and!; try done.
  - unfold switch_save. rewrite <- bind_assoc. erewrite bind_ok by exact H2. erewrite bind_ok by exact H3. exact H4.
  - by rewrite (Hr4 r_sp).
  - eapply same_mem_trans; [exact Hm2|]. eapply same_mem_trans.
    + eapply same_mem_weaken; [|exact Hm3]. intros a Hin. left. by apply saved_in_context.
    + split; intros a Hx; rewrite Em4; [rewrite lookup_insert_ne; [done|]|apply lookup_insert_is_Some'; by right].
      intros <-. apply Hx. left. unfold in_context, REGS_OFFSET_STATUS, CONTEXT_SIZE. lia.
  - rewrite Hw4, (word_same _ _ _ _ Hm3), E2; [apply word_store_eq| |].
    + intros Hin. apply Hnot. by apply saved_in_context.
    + intros ->. apply Hnot. unfold in_context, REGS_OFFSET_STATUS, CONTEXT_SIZE. lia.
  - destruct Hh3 as (Hh & Hlo & Hhi). rewrite E2 in Hlo, Hhi. split_and!.
    + intros r off Hin. rewrite Hw4, (Hh r off Hin).
      * apply Hr2. intros ->. assert (Hno : r_sp ∉ fst <$> saved_registers) by (by apply (bool_decide_unpack _)).
        apply Hno. apply list_elem_of_fmap. by exists (r_sp, off).
      * intros E. assert (off = REGS_OFFSET_STATUS) as -> by lia. revert Hin. by apply no_status_slot.
    + rewrite Hw4; [exact Hlo|]. unfold REGS_OFFSET_LO, REGS_OFFSET_STATUS. lia.
    + rewrite Hw4; [exact Hhi|]. unfold REGS_OFFSET_HI, REGS_OFFSET_STATUS. lia.
  - unfold word. by rewrite Em4, lookup_insert_eq.
Qed.

Lemma switch_load_spec s new b :
  reg r_a1 s = new → area s new 1 → word s new = b → area s b 39 →
  ∃ s', switch_load s = Ok (tt, s') ∧ reg r_sp s' = wrap (b + CONTEXT_SIZE) ∧
    (∀ r off, (r, off) ∈ saved_registers → r ≠ 0 → reg r s' = word s (b + off)) ∧
    m_lo s' = word s (b + REGS_OFFSET_LO) ∧ m_hi s' = word s (b + REGS_OFFSET_HI) ∧
    m_mem s' = m_mem s ∧ m_pc s' = word s (b + REGS_OFFSET_RA) ∧
    m_cp0 s' = <[c_status := word s (b + REGS_OFFSET_STATUS)]> (m_cp0 s).
Proof.
  intros Ha1 Han Hb Ha. set (s1 := set_reg r_sp b s).
  assert (H1 : lw r_sp 0 r_a1 s = Ok (tt, s1)).
  { rewrite (lw_exec _ _ _ _ new 1) by done. by rewrite Z.add_0_r, Hb. }
  assert (Hsp1 : reg r_sp s1 = b) by (by apply reg_eq).
  destruct (load_context_spec b s1 Hsp1 Ha) as (s2 & H2 & Hs2 & Hc2 & Hm2 & _ & Hr2 & Hlo & Hhi).
  set (st := word s (b + REGS_OFFSET_STATUS)). set (s3 := set_reg r_k0 st s2).
  assert (Hsp2 : reg r_sp s2 = b) by (rewrite (Hs2 r_sp); [done|by left]).
  assert (Hw2 : ∀ a, word s2 a = word s a) by (intros a; unfold word; by rewrite Hm2).
  assert (Ha2 : area s2 b 39) by (unfold area in *; by rewrite Hm2).
  assert (H3 : lw r_k0 REGS_OFFSET_STATUS r_sp s2 = Ok (tt, s3)).
  { rewrite (lw_exec _ _ _ _ b 39) by done. by rewrite Hw2. }
  set (s4 := set_reg r_sp (wrap (b + CONTEXT_SIZE)) s3).
  assert (Hra : reg r_ra s4 = word s (b + REGS_OFFSET_RA)).
  { unfold s4, s3. rewrite !reg_ne by done. apply (Hr2 r_ra REGS_OFFSET_RA); [by apply (bool_decide_unpack _)|done]. }
  exists (set_cp0 <[c_status := st]> (set_pc (word s (b + REGS_OFFSET_RA)) s4)). split_and!; try done.
  - unfold switch_load. erewrite bind_ok by exact H1. erewrite bind_ok by exact H2. erewrite bind_ok by exact H3.
    assert (H4 : addiu r_sp r_sp CONTEXT_SIZE s3 = Ok (tt, s4)).
    { unfold addiu, kmodify, s3. by rewrite reg_ne, Hsp2. }
    erewrite bind_ok by exact H4. erewrite bind_ok by reflexivity. rewrite Hra.
    unfold mtc0, kmodify. change (reg r_k0 (set_pc _ s4)) with (reg r_k0 s4).
    unfold s4, s3. by rewrite reg_ne, reg_eq.
  - change (reg r_sp s4 = wrap (b + CONTEXT_SIZE)). by apply reg_eq.
  - intros r off Hin Hr. change (reg r s4 = word s (b + off)). unfold s4, s3.
    assert (Hno : Forall (λ '(r, _), r ≠ r_sp ∧ r ≠ r_k0) saved_registers) by (by apply (bool_decide_unpack _)).
    rewrite Forall_forall in Hno. destruct (Hno _ Hin). rewrite !reg_ne by done. by apply Hr2.
  - cbn. by rewrite Hc2.
Qed.

(** A thread whose stack ends at [b + CONTEXT_SIZE] may switch to the thread whose
    context is at [b'] ([old], [new]: the addresses of the stack tops). *)
Record can_switch (s : mips) (old new b b' : Z) : Prop := {
  cs_sp : reg r_sp s = b + CONTEXT_SIZE;
  cs_stack : area s b 39;
  cs_no_overflow : b + CONTEXT_SIZE < word_max;
  cs_a0 : reg r_a0 s = old;
  cs_a1 : reg r_a1 s = new;
  cs_old : area s old 1;
  cs_new : area s new 1;
  cs_old_sep : ¬ in_context b old;
  cs_context : if decide (new = old) then b' = b
               else b' = word s new ∧ area s b' 39 ∧ ¬ in_context b new ∧
                    ∀ a, in_context b' a → ¬ switch_word b old a;
}.

(** Thread [s] has been given the processor back in [s']. *)
Definition resumed_as (s s' : mips) : Prop :=
  (∀ r, 0 ≤ r < 32 → r ≠ r_k0 → r ≠ r_k1 → reg r s' = reg r s) ∧
  m_hi s' = m_hi s ∧ m_lo s' = m_lo s ∧ creg c_status s' = creg c_status s ∧ m_pc s' = reg r_ra s.

(** The context of a suspended thread: what its registers will be. *)
Definition suspended_as (s0 s : mips) (b : Z) : Prop :=
  holds_regs s s0 b ∧ word s (b + REGS_OFFSET_STATUS) = creg c_status s0 ∧ reg r_sp s0 = b + CONTEXT_SIZE ∧
  u32 (reg r_sp s0).

Lemma switch_load_resumes s s0 new b :
  reg r_a1 s = new → area s new 1 → word s new = b → area s b 39 → suspended_as s0 s b →
  ∃ s', switch_load s = Ok (tt, s') ∧ resumed_as s0 s' ∧ m_mem s' = m_mem s ∧ creg c_entryhi s' = creg c_entryhi s.
Proof.
  intros Ha1 Han Hb Ha ((Hh & Hlo & Hhi) & Hst & Hsp & Hu).
  destruct (switch_load_spec s new b Ha1 Han Hb Ha) as (s' & He & Hsp' & Hr & Hlo' & Hhi' & Hm & Hpc & Hc).
  exists s'. split; [done|]. split; [split_and!|split_and!; [done|]].
  - intros r Hrr Hk0 Hk1. destruct (decide (r = 0)) as [->|]; [done|].
    destruct (decide (r = r_sp)) as [->|]; [rewrite Hsp', Hsp; apply wrap_small; by rewrite <- Hsp|].
    destruct (saved_cover r) as [off Hin]; [lia|done..|]. by rewrite (Hr r off Hin), (Hh r off Hin).
  - by rewrite Hhi', Hhi.
  - by rewrite Hlo', Hlo.
  - unfold creg. rewrite Hc, lookup_insert_eq. exact Hst.
  - rewrite Hpc. apply Hh. by apply (bool_decide_unpack _).
  - unfold creg. rewrite Hc. by rewrite lookup_insert_ne.
Qed.

Lemma word_area s s' a n : m_mem s' = m_mem s → area s a n → area s' a n.
Proof. unfold area. by intros ->. Qed.

Lemma switch_save_suspends s old new b b' :
  can_switch s old new b b' →
  ∃ s1, switch_save s = Ok (tt, s1) ∧ suspended_as s s1 b ∧ word s1 old = b ∧ word s1 new = b' ∧
    reg r_a1 s1 = new ∧ area s1 new 1 ∧ area s1 b' 39 ∧ same_mem (switch_word b old) s s1 ∧
    creg c_entryhi s1 = asid_set (creg c_entryhi s) (reg r_a2 s).
Proof.
  intros [Hsp Ha Hov Ha0 Ha1 Hao Han Hsep Hctx].
  destruct (switch_save_spec s b old Hsp Ha Ha0 Hao Hsep) as (s1 & He & Hsp1 & Hr1 & Hc1 & Hm1 & Hw1 & Hh1 & Hst1).
  assert (Hnew : word s1 new = b' ∧ area s b' 39).
  { case_decide as E; [rewrite Hctx, E; by split|]. destruct Hctx as (-> & Ha' & Hn & _). split; [|done].
    apply (word_same _ _ _ _ Hm1). intros [?|?]; done. }
  destruct Hnew. assert (Hu : u32 (reg r_sp s)).
  { rewrite Hsp. destruct Ha as (? & _). unfold CONTEXT_SIZE in *. word_lia. }
  exists s1. split; [done|]. split; [done|]. split_and!; try done.
  - by rewrite (Hr1 r_a1).
  - by eapply same_mem_area.
  - by eapply same_mem_area.
  - unfold creg. by rewrite Hc1, lookup_insert_eq.
Qed.

(** C7. A context switch is transparent to the threads: [cpu_switch_context] resumes
    the thread whose context it loads with all its registers but [$k0] and [$k1]
    (which are the kernel's), its multiplier registers, its stack pointer and its
    Status register, at the instruction after its own call of [cpu_switch_context];
    and it leaves behind the context of the calling thread, so that any later switch
    to that thread resumes it in the same way, as long as the context has not been
    overwritten.  A thread that switches to itself goes on at once. *)
Theorem context_switch_transparent s old new b b' :
  can_switch s old new b b' →
  (∀ s0, (if decide (new = old) then s0 = s else suspended_as s0 s b') →
   ∃ s1, cpu_switch_context_code s = Ok (tt, s1) ∧ resumed_as s0 s1 ∧
     creg c_entryhi s1 = asid_set (creg c_entryhi s) (reg r_a2 s) ∧
     same_mem (switch_word b old) s s1) ∧
  (∀ s1, cpu_switch_context_code s = Ok (tt, s1) → suspended_as s s1 b ∧ word s1 old = b).
Proof.
  intros Hcs. destruct (switch_save_suspends _ _ _ _ _ Hcs) as
    (s1 & He & Hsus & Hold & Hnew & Ha1 & Han & Ha' & Hm1 & Hhi1). split.
  - intros s0 Hs0.
    assert (Hs01 : suspended_as s0 s1 b').
    { destruct Hcs as [Hsp Ha Hov Ha0 _ Hao _ Hsep Hctx]. destruct (decide (new = old)); [by subst|].
      destruct Hs0 as ((Hh & Hlo & Hhi) & Hst & Hsp0 & Hu). destruct Hctx as (_ & _ & _ & Hdis).
      assert (Hkeep : ∀ off, 0 ≤ off < CONTEXT_SIZE → word s1 (b' + off) = word s (b' + off)).
      { intros off Hoff. apply (word_same _ _ _ _ Hm1), Hdis. unfold in_context. lia. }
      split; [split; [|split]|split_and!; [|done..]].
      - intros r off Hin. rewrite Hkeep; [by apply Hh|]. pose proof (proj1 saved_ok) as Ho.
        unfold offsets_ok in Ho. rewrite Forall_forall in Ho. by apply (Ho (r, off)).
      - by rewrite Hkeep.
      - by rewrite Hkeep.
      - by rewrite Hkeep. }
    destruct (switch_load_resumes s1 s0 new b' Ha1 Han Hnew Ha' Hs01) as (s2 & He2 & Hres & Hm2 & Hhi2).
    exists s2. split_and!; [|done| |].
    + unfold cpu_switch_context_code. by erewrite bind_ok by exact He.
    + by rewrite Hhi2.
    + destruct Hm1 as [Hm1 Hd1]. split; intros a; rewrite Hm2; [apply Hm1|apply Hd1].
  - intros s2 Hs2. unfold cpu_switch_context_code in Hs2. erewrite bind_ok in Hs2 by exact He.
    destruct (switch_load_spec s1 new b' Ha1 Han Hnew Ha') as (s2' & He2 & _ & _ & _ & _ & Hm2 & _).
    assert (s2' = s2) as -> by congruence.
    destruct Hsus as ((Hh & Hlo & Hhi) & Hst & Hsp & Hu).
    unfold suspended_as, holds_regs, word. rewrite Hm2. split_and!; done.
Qed.
