(* ===== verification/MipsExc.v ===== *)
(** * Exception entry: the handlers are transparent

    What the exception handlers of [head.S] do around the compiled C functions. *)
From S2P Require Import Prelude CList Cpu Cp0 Mips MipsTheorems.

(** ** The static area of a processor *)
Definition static_area (cpu : Z) : Z := ADDR_IN_KSEG0 KERNEL_STATIC_ADDR + KERNEL_STATIC_SIZE * cpu.

Definition dorder : Z := ADDR_IN_KSEG1 DEVICE_DORDER_ADDR.

(** The dorder device tells the number of the processor, and its static area exists. *)
Definition on_cpu (cpu : Z) (s : mips) : Prop :=
  0 ≤ cpu < 32 ∧ area s dorder 1 ∧ word s dorder = cpu ∧ area s (static_area cpu) 256.

Lemma static_area_range cpu : 0 ≤ cpu < 32 → 0x80000400 ≤ static_area cpu ≤ 0x80008000.
Proof. unfold static_area. change (ADDR_IN_KSEG0 KERNEL_STATIC_ADDR) with 0x80000400. unfold KERNEL_STATIC_SIZE. lia. Qed.

Lemma dorder_eq : dorder = 0xB0000010.
Proof. reflexivity. Qed.

Lemma on_cpu_same A cpu s s' :
  on_cpu cpu s → same_mem A s s' → ¬ A dorder → on_cpu cpu s'.
Proof.
  intros (Hc & Hd & Hw & Ha) Hm Hn. split_and!; try apply Hc; try (by eapply same_mem_area).
  by rewrite (word_same _ _ _ _ Hm).
Qed.

Lemma on_cpu_mem cpu s s' : on_cpu cpu s → m_mem s' = m_mem s → on_cpu cpu s'.
Proof.
  intros Hc Hm. apply (on_cpu_same (λ _, False) cpu s); [done| |tauto].
  split; [by intros; rewrite Hm|]. by rewrite Hm.
Qed.

(** The macro computes the address, and changes nothing but three registers. *)
Lemma setup_spec t0 t1 ptr disp cpu s :
  on_cpu cpu s → t0 ≠ 0 → t1 ≠ 0 → ptr ≠ 0 → t0 ≠ t1 → ptr ≠ t0 → 0 ≤ disp ≤ KERNEL_STATIC_SIZE →
  ∃ g, SETUP_STATIC_AREA t0 t1 ptr disp s = Ok (tt, set_gpr (λ _, g) s) ∧
    same_regs (λ r, r ≠ t0 ∧ r ≠ t1 ∧ r ≠ ptr) s (set_gpr (λ _, g) s) ∧
    reg ptr (set_gpr (λ _, g) s) = static_area cpu + (KERNEL_STATIC_SIZE - disp).
Proof.
  intros (Hcpu & Hd & Hw & _) H0 H1 Hp H01 Hp0 Hdisp.
  set (s1 := set_reg t0 dorder s). set (s2 := set_reg t1 cpu s1).
  set (s3 := set_reg t0 (KERNEL_STATIC_SIZE * cpu) s2).
  set (s4 := set_reg ptr (0x80000400 - disp) s3).
  set (s5 := set_reg ptr (0x80000400 - disp + KERNEL_STATIC_SIZE * cpu) s4).
  set (s6 := set_reg t0 KERNEL_STATIC_SIZE s5).
  set (s7 := set_reg ptr (static_area cpu + (KERNEL_STATIC_SIZE - disp)) s6).
  exists (m_gpr s7). split_and!.
  - unfold SETUP_STATIC_AREA. erewrite bind_ok by reflexivity.
    assert (E2 : lw t1 0 t0 s1 = Ok (tt, s2)).
    { rewrite (lw_exec _ _ _ _ dorder 1); [|by apply reg_eq|exact Hd|lia|done].
      change (word s1 (dorder + 0)) with (word s (dorder + 0)). by rewrite Z.add_0_r, Hw. }
    erewrite bind_ok by exact E2.
    assert (E3 : sll t0 t1 KERNEL_STATIC_SHIFT s2 = Ok (tt, s3)).
    { unfold sll, kmodify, s2. rewrite reg_eq by done. rewrite Z.shiftl_mul_pow2 by done.
      unfold s3, KERNEL_STATIC_SHIFT, KERNEL_STATIC_SIZE. rewrite wrap_small by word_lia.
      by rewrite Z.mul_comm. }
    erewrite bind_ok by exact E3.
    assert (E4 : la ptr (wrap (ADDR_IN_KSEG0 KERNEL_STATIC_ADDR - disp)) s3 = Ok (tt, s4)).
    { unfold la, kmodify, s4. change (ADDR_IN_KSEG0 KERNEL_STATIC_ADDR) with 0x80000400.
      unfold KERNEL_STATIC_SIZE in Hdisp. by rewrite wrap_small by word_lia. }
    erewrite bind_ok by exact E4.
    assert (E5 : addu ptr ptr t0 s4 = Ok (tt, s5)).
    { unfold addu, kmodify, s4. rewrite reg_eq, reg_ne by done. unfold s3. rewrite reg_eq by done.
      unfold s5, KERNEL_STATIC_SIZE in *. by rewrite wrap_small by word_lia. }
    erewrite bind_ok by exact E5. erewrite bind_ok by reflexivity. change (set_reg t0 _ s5) with s6.
    unfold addu, kmodify, s6. rewrite reg_eq, (reg_ne ptr) by done. unfold s5. rewrite reg_eq by done.
    unfold KERNEL_STATIC_SIZE in *. rewrite wrap_small by word_lia.
    replace (0x80000400 - disp + 0x400 * cpu + 0x400) with (static_area cpu + (0x400 - disp)).
    2: { unfold static_area. change (ADDR_IN_KSEG0 KERNEL_STATIC_ADDR) with 0x80000400. unfold KERNEL_STATIC_SIZE. lia. }
    reflexivity.
  - intros r (? & ? & ?). change (reg r s7 = reg r s).
    unfold s7, s6, s5, s4, s3, s2, s1. by rewrite !reg_ne.
  - change (reg ptr s7 = static_area cpu + (KERNEL_STATIC_SIZE - disp)). by apply reg_eq.
Qed.

(** ** Sequences of moves *)
Lemma store_cp0s_spec rt base b n l s :
  reg base s = b → area s b n → rt ≠ base → rt ≠ 0 →
  Forall (λ '(_, off), 0 ≤ off < 4 * n ∧ off mod 4 = 0) l → NoDup (snd <$> l) →
  ∃ s', store_cp0s rt base l s = Ok (tt, s') ∧ same_regs (λ r, r ≠ rt) s s' ∧
    m_cp0 s' = m_cp0 s ∧ m_hi s' = m_hi s ∧ m_lo s' = m_lo s ∧
    same_mem (λ a, ∃ off, off ∈ snd <$> l ∧ a = b + off) s s' ∧
    (∀ c off, (c, off) ∈ l → word s' (b + off) = creg c s) ∧
    (∀ c off l', l = l' ++ [(c, off)] → reg rt s' = creg c s).
Proof.
  revert s. induction l as [|[c off] l IH]; intros s Hb Ha Hne H0 Ho Hnd.
  { exists s. split_and!; try done; [by intros ? ? ?%elem_of_nil|intros c off l' El; by destruct l']. }
  apply Forall_cons in Ho as [[Hr Hm] Ho]. cbn in Hnd. apply NoDup_cons in Hnd as [Hn Hnd].
  set (s1 := set_reg rt (creg c s) s). set (s2 := set_mmem <[b + off := creg c s]> s1).
  assert (Hb1 : reg base s1 = b) by (unfold s1; rewrite reg_ne; [done|congruence]).
  assert (E2 : sw rt off base s1 = Ok (tt, s2)).
  { rewrite (sw_exec _ _ _ _ b n) by done. unfold s1 at 1. by rewrite reg_eq. }
  assert (M2 : same_mem (λ a, a = b + off) s1 s2) by (by apply same_mem_store).
  destruct (IH s2) as (s' & E & Hs & Hc & Hhi & Hlo & Hmm & Hw & Hl); try done.
  { by eapply same_mem_area. }
  assert (Hmem : same_mem (λ a, ∃ o, o ∈ snd <$> (c, off) :: l ∧ a = b + o) s s').
  { apply (same_mem_trans _ s s2).
    - eapply same_mem_weaken; [|exact M2]. intros a ->. exists off. split; [left|done].
    - eapply same_mem_weaken; [|exact Hmm]. intros a (o & Hin & ->). exists o. split; [by right|done]. }
  exists s'. split_and!; try done.
  - cbn [store_cp0s]. erewrite bind_ok by reflexivity. erewrite bind_ok by exact E2. exact E.
  - intros r Hr'. rewrite Hs by done. change (reg r s1 = reg r s). unfold s1. by rewrite reg_ne.
  - intros c' off' [[= -> ->]|Hin]%elem_of_cons; [|by apply (Hw c')].
    rewrite (word_same _ _ _ _ Hmm); [apply word_store_eq|].
    intros (o & Hin & Eo). by assert (off = o) as -> by lia.
  - intros c' off' l' El. destruct l' as [|x l'].
    + injection El as <- <- El. subst l. cbn in E. injection E as <-. change (reg rt s1 = creg c s). by apply reg_eq.
    + injection El as _ El. by apply (Hl c' off' l').
Qed.

Lemma copy_words_spec rt src dst a b n k l s :
  reg src s = a → reg dst s = b → area s a n → area s b k → rt ≠ src → rt ≠ dst → rt ≠ 0 →
  Forall (λ '(from, to), 0 ≤ from < 4 * n ∧ from mod 4 = 0 ∧ 0 ≤ to < 4 * k ∧ to mod 4 = 0) l →
  NoDup (snd <$> l) → (∀ i j, 0 ≤ i < 4 * n → 0 ≤ j < 4 * k → a + i ≠ b + j) →
  ∃ s', copy_words rt src dst l s = Ok (tt, s') ∧ same_regs (λ r, r ≠ rt) s s' ∧
    m_cp0 s' = m_cp0 s ∧ m_hi s' = m_hi s ∧ m_lo s' = m_lo s ∧
    same_mem (λ x, ∃ to, to ∈ snd <$> l ∧ x = b + to) s s' ∧
    (∀ from to, (from, to) ∈ l → word s' (b + to) = word s (a + from)).
Proof.
  revert s. induction l as [|[from to] l IH]; intros s Ha Hb Haa Hab Hsrc Hdst H0 Ho Hnd Hdis.
  { exists s. split_and!; try done. by intros ? ? ?%elem_of_nil. }
  apply Forall_cons in Ho as [(Hf & Hfm & Ht & Htm) Ho]. cbn in Hnd. apply NoDup_cons in Hnd as [Hn Hnd].
  set (s1 := set_reg rt (word s (a + from)) s). set (s2 := set_mmem <[b + to := word s (a + from)]> s1).
  assert (E1 : lw rt from src s = Ok (tt, s1)) by (by rewrite (lw_exec _ _ _ _ a n)).
  assert (Hr1 : ∀ r, r ≠ rt → reg r s1 = reg r s) by (intros r Hr; unfold s1; by rewrite reg_ne).
  assert (E2 : sw rt to dst s1 = Ok (tt, s2)).
  { rewrite (sw_exec _ _ _ _ b k); [unfold s1 at 1; by rewrite reg_eq|by rewrite Hr1|done..]. }
  assert (M2 : same_mem (λ x, x = b + to) s1 s2) by (by apply same_mem_store).
  destruct (IH s2) as (s' & E & Hs & Hc & Hhi & Hlo & Hmm & Hw); try done.
  { rewrite <- Ha. by apply (Hr1 src). } { rewrite <- Hb. by apply (Hr1 dst). } { by eapply same_mem_area. } { by eapply same_mem_area. }
  assert (Hmem : same_mem (λ x, ∃ o, o ∈ snd <$> (from, to) :: l ∧ x = b + o) s s').
  { apply (same_mem_trans _ s s2).
    - eapply same_mem_weaken; [|exact M2]. intros x ->. exists to. split; [left|done].
    - eapply same_mem_weaken; [|exact Hmm]. intros x (o & Hin & ->). exists o. split; [by right|done]. }
  exists s'. split_and!; try done.
  - cbn [copy_words]. erewrite bind_ok by exact E1. erewrite bind_ok by exact E2. exact E.
  - intros r Hr. rewrite Hs by done. by apply Hr1.
  - intros from' to' [[= -> ->]|Hin]%elem_of_cons.
    + rewrite (word_same _ _ _ _ Hmm); [apply word_store_eq|].
      intros (o & Hin & Eo). by assert (to = o) as -> by lia.
    + rewrite (Hw from' to' Hin). unfold s2. rewrite word_store_ne; [done|].
      rewrite Forall_forall in Ho. destruct (Ho _ Hin) as (? & _). apply Hdis; lia.
Qed.

Lemma area_sub s a n i k : area s a n → 0 ≤ i → 0 ≤ k → i + k ≤ n → area s (a + 4 * i) k.
Proof.
  intros (H0 & H1 & Hm) Hi Hk Hn. split_and!; [lia|lia|]. intros j Hj.
  replace (a + 4 * i + 4 * j) with (a + 4 * (i + j)) by lia. apply Hm. lia.
Qed.

Lemma store_cp0s_outside b l a s s' :
  same_mem (λ x, ∃ off, off ∈ snd <$> (l : list (Z * Z)) ∧ x = b + off) s s' →
  (∀ off, off ∈ snd <$> l → a ≠ b + off) → word s' a = word s a.
Proof. intros Hm Ha. apply (word_same _ _ _ _ Hm). intros (off & Hin & ->). by apply (Ha off). Qed.

(** The context at [b] in [s'] describes the interrupted state [s]. *)
Definition context_of (s' s : mips) (b : Z) : Prop :=
  holds_regs s' s b ∧ ∀ c off, (c, off) ∈ cp0_words → word s' (b + off) = creg c s.

(** Stores elsewhere leave the saved registers in place. *)
Lemma holds_regs_keep A s0 s s' b :
  same_mem A s s' → (∀ off, off ∈ saved_offsets → ¬ A (b + off)) → holds_regs s s0 b → holds_regs s' s0 b.
Proof.
  intros Hm HA (Hh & Hlo & Hhi). split_and!.
  - intros r off Hin. rewrite (word_same _ _ _ _ Hm); [by apply Hh|]. apply HA, elem_of_app. left.
    apply list_elem_of_fmap. by exists (r, off).
  - rewrite (word_same _ _ _ _ Hm); [done|]. apply HA. by apply (bool_decide_unpack _).
  - rewrite (word_same _ _ _ _ Hm); [done|]. apply HA. by apply (bool_decide_unpack _).
Qed.

(** Only the saved registers matter. *)
Lemma holds_regs_same s' s s0 b :
  same_regs (λ r, r ≠ r_sp ∧ r ≠ r_k0 ∧ r ≠ r_k1) s0 s → m_lo s = m_lo s0 → m_hi s = m_hi s0 →
  holds_regs s' s b → holds_regs s' s0 b.
Proof.
  intros Hr Hl Hh (H1 & H2 & H3). split_and!; [|congruence..].
  intros r off Hin. rewrite (H1 r off Hin). apply Hr.
  assert (Hno : Forall (λ '(r, _), r ≠ r_sp ∧ r ≠ r_k0 ∧ r ≠ r_k1) saved_registers) by (by apply (bool_decide_unpack _)).
  rewrite Forall_forall in Hno. exact (Hno _ Hin).
Qed.

Lemma cp0_words_ok : Forall (λ '(_, off), 0 ≤ off < 4 * 39 ∧ off mod 4 = 0) cp0_words ∧ NoDup (snd <$> cp0_words).
Proof. split; [repeat constructor; done|by apply (bool_decide_unpack _)]. Qed.

Lemma cp0_words_saved off : off ∈ saved_offsets → off ∉ snd <$> cp0_words.
Proof.
  assert (Hall : Forall (λ off, off ∉ snd <$> cp0_words) saved_offsets) by (by apply (bool_decide_unpack _)).
  rewrite Forall_forall in Hall. apply Hall.
Qed.

(** ** The TLB refill handler *)
Definition refill_context (cpu : Z) : Z := static_area cpu + (KERNEL_STATIC_SIZE - CONTEXT_SIZE).

(** The stack pointer moves to the context in the static area, its old value is in there. *)
Lemma refill_push_spec cpu s :
  on_cpu cpu s → let b := refill_context cpu in
  ∃ s3, (∀ K : KM mips unit,
      (SETUP_STATIC_AREA r_k0 r_k1 r_k1 CONTEXT_SIZE ;; sw r_sp REGS_OFFSET_SP r_k1 ;; or r_sp r_zero r_k1 ;; K) s = K s3) ∧
    reg r_sp s3 = b ∧ same_regs (λ r, r ≠ r_sp ∧ r ≠ r_k0 ∧ r ≠ r_k1) s s3 ∧
    m_cp0 s3 = m_cp0 s ∧ m_lo s3 = m_lo s ∧ m_hi s3 = m_hi s ∧
    word s3 (b + REGS_OFFSET_SP) = reg r_sp s ∧ same_mem (in_context b) s s3 ∧ area s3 b 39.
Proof.
  intros Hon b. pose proof Hon as (Hcpu & Hd & Hw & Harea). pose proof (static_area_range cpu Hcpu) as Hrange.
  assert (Hb : area s b 39) by (apply (area_sub s (static_area cpu) 256 217); [done|lia..]).
  destruct (setup_spec r_k0 r_k1 r_k1 CONTEXT_SIZE cpu s) as (g & E1 & R1 & P1); try done.
  set (s1 := set_gpr (λ _, g) s) in *. change (reg r_k1 s1 = b) in P1.
  set (s2 := set_mmem <[b + REGS_OFFSET_SP := reg r_sp s]> s1).
  assert (E2 : sw r_sp REGS_OFFSET_SP r_k1 s1 = Ok (tt, s2)).
  { rewrite (sw_exec _ _ _ _ b 39) by done. by rewrite (R1 r_sp). }
  assert (E3 : or r_sp r_zero r_k1 s2 = Ok (tt, set_reg r_sp b s2)).
  { unfold or, kmodify. change (reg r_k1 s2) with (reg r_k1 s1). rewrite P1.
    change (reg r_zero s2) with 0. by rewrite Z.lor_0_l. }
  assert (M3 : same_mem (in_context b) s (set_reg r_sp b s2)).
  { apply (same_mem_store _ s1). unfold in_context, REGS_OFFSET_SP, CONTEXT_SIZE. lia. }
  exists (set_reg r_sp b s2). split; [|split_and!; try done].
  - intros K. erewrite bind_ok by exact E1. erewrite bind_ok by exact E2. by erewrite bind_ok by exact E3.
  - by apply reg_eq.
  - intros r (? & ? & ?). rewrite reg_ne by done. by apply R1.
  - change (word s2 (b + REGS_OFFSET_SP) = reg r_sp s). apply word_store_eq.
  - by eapply same_mem_area.
Qed.

Lemma tlb_refill_enter_spec cpu s :
  on_cpu cpu s → let b := refill_context cpu in
  ∃ s1, tlb_refill_enter s = Ok (tt, s1) ∧ reg r_a0 s1 = b ∧ reg r_sp s1 = b - ABI_STACK_FRAME ∧
    context_of s1 s b ∧ word s1 (b + REGS_OFFSET_SP) = reg r_sp s ∧ m_cp0 s1 = m_cp0 s ∧
    same_mem (in_context b) s s1 ∧ area s1 b 39.
Proof.
  intros Hon b. pose proof Hon as (Hcpu & _). pose proof (static_area_range cpu Hcpu) as Hrange.
  destruct (refill_push_spec cpu s Hon) as (s3 & E3 & P3 & R3 & C3 & L3 & H3 & W3 & M3 & A3).
  fold b in P3, W3, M3, A3.
  destruct (save_context_spec b s3) as (s4 & E4 & R4 & C4 & Hi4 & Lo4 & _ & M4 & H4);
    [done..|].
  destruct cp0_words_ok as [Hok Hnd].
  assert (A4 : area s4 b 39) by (eapply same_mem_area; [exact M4|done]).
  assert (Hsp4 : reg r_sp s4 = b) by (by rewrite (R4 r_sp)).
  destruct (store_cp0s_spec r_k0 r_sp b 39 cp0_words s4 Hsp4 A4) as (s5 & E5 & R5 & C5 & Hi5 & Lo5 & M5 & W5 & _); try done.
  assert (Hsp5 : reg r_sp s5 = b) by (by rewrite (R5 r_sp)).
  exists (set_reg r_sp (b - ABI_STACK_FRAME) (set_reg r_a0 b s5)).
  assert (M5' : same_mem (in_context b) s s5).
  { eapply same_mem_trans; [exact M3|]. eapply same_mem_trans.
    - eapply same_mem_weaken; [|exact M4]. apply saved_in_context.
    - eapply same_mem_weaken; [|exact M5]. intros a (off & Hin & ->).
      apply list_elem_of_fmap in Hin as ([c o] & -> & Hin). rewrite Forall_forall in Hok.
      destruct (Hok _ Hin) as [? _]. unfold in_context, CONTEXT_SIZE. cbn. lia. }
  split; [|split; [|split; [|split; [split|split; [|split; [|split]]]]]].
  - unfold tlb_refill_enter. rewrite E3. erewrite bind_ok by exact E4. erewrite bind_ok by exact E5.
    assert (E6 : or r_a0 r_zero r_sp s5 = Ok (tt, set_reg r_a0 b s5)).
    { unfold or, kmodify. change (reg r_zero s5) with 0. by rewrite Z.lor_0_l, Hsp5. }
    erewrite bind_ok by exact E6. unfold addiu, kmodify. rewrite reg_ne, Hsp5 by done.
    unfold b, refill_context, ABI_STACK_FRAME, KERNEL_STATIC_SIZE, CONTEXT_SIZE in *.
    rewrite wrap_small by word_lia. done.
  - rewrite reg_ne by done. by apply reg_eq.
  - by apply reg_eq.
  - apply (holds_regs_keep _ _ s4 s5 _ M5).
    + intros off Hin (o & Ho & Eo). assert (off = o) as -> by lia. by apply (cp0_words_saved o).
    + apply (holds_regs_same _ s3); [| | |exact H4]; [|done..]. exact R3.
  - intros c off Hin. change (word s5 (b + off) = creg c s). rewrite (W5 c off Hin). unfold creg. by rewrite C4, C3.
  - change (word s5 (b + REGS_OFFSET_SP) = reg r_sp s).
    rewrite (word_same _ _ _ _ M5), (word_same _ _ _ _ M4).
    + exact W3.
    + apply not_saved. by apply (bool_decide_unpack _).
    + intros (o & Ho & Eo). assert (REGS_OFFSET_SP = o) as <- by lia. revert Ho. by apply (bool_decide_unpack _).
  - cbn. by rewrite C5, C4, C3.
  - exact M5'.
  - apply (same_mem_area _ _ _ _ _ M5 A4).
Qed.

Lemma tlb_refill_leave_spec b s :
  reg r_sp s = b - ABI_STACK_FRAME → ABI_STACK_FRAME ≤ b → area s b 39 →
  ∃ s1, tlb_refill_leave s = Ok (tt, s1) ∧
    (∀ r off, (r, off) ∈ saved_registers → r ≠ 0 → reg r s1 = word s (b + off)) ∧
    reg r_sp s1 = word s (b + REGS_OFFSET_SP) ∧
    m_lo s1 = word s (b + REGS_OFFSET_LO) ∧ m_hi s1 = word s (b + REGS_OFFSET_HI) ∧
    m_pc s1 = creg c_epc s ∧ m_mem s1 = m_mem s ∧
    creg c_status s1 = Z.land (creg c_status s) (Z.lnot CP0_STATUS_EXL_MASK).
Proof.
  intros Hsp Hlow Ha. set (s1 := set_reg r_sp b s).
  assert (E1 : addiu r_sp r_sp ABI_STACK_FRAME s = Ok (tt, s1)).
  { unfold addiu, kmodify. rewrite Hsp. replace (b - ABI_STACK_FRAME + ABI_STACK_FRAME) with b by lia.
    rewrite wrap_small; [done|]. destruct Ha as (? & ? & _). word_lia. }
  destruct (load_context_spec b s1) as (s2 & E2 & R2 & C2 & M2 & _ & H2 & Lo2 & Hi2); [by apply reg_eq|exact Ha|].
  assert (Hsp2 : reg r_sp s2 = b) by (rewrite (R2 r_sp) by (by left); by apply reg_eq).
  assert (A2 : area s2 b 39) by (by eapply word_area).
  set (s3 := set_reg r_sp (word s2 (b + REGS_OFFSET_SP)) s2).
  assert (E3 : lw r_sp REGS_OFFSET_SP r_sp s2 = Ok (tt, s3)) by (by rewrite (lw_exec _ _ _ _ b 39)).
  eexists. split_and!.
  - unfold tlb_refill_leave. erewrite bind_ok by exact E1. erewrite bind_ok by exact E2. erewrite bind_ok by exact E3.
    reflexivity.
  - intros r off Hin Hr. change (reg r s3 = word s (b + off)). unfold s3. rewrite reg_ne; [by apply H2|].
    intros ->. assert (Hno : r_sp ∉ fst <$> saved_registers) by (by apply (bool_decide_unpack _)).
    apply Hno, list_elem_of_fmap. by exists (r_sp, off).
  - change (reg r_sp s3 = word s (b + REGS_OFFSET_SP)). unfold s3. rewrite reg_eq by done. unfold word. by rewrite M2.
  - exact Lo2.
  - exact Hi2.
  - cbn. unfold creg. cbn. by rewrite C2.
  - exact M2.
  - unfold creg at 1. cbn. rewrite lookup_insert_eq. cbn. unfold creg. cbn. by rewrite C2.
Qed.

(** C39. A TLB refill is transparent to the interrupted code: the C function is called
    with a pointer to a context that describes the interrupted state, and if it
    returns without having touched that context and EPC, all registers but [$k0] and
    [$k1] have their old values again, and the interrupted instruction is executed
    anew.  Apart from what the C function does, only the top of the static area of
    the processor is written. *)
Theorem tlb_refill_transparent (wrapped : KM mips unit) cpu s :
  on_cpu cpu s →
  let b := refill_context cpu in
  (∀ s1, reg r_a0 s1 = b → reg r_sp s1 = b - ABI_STACK_FRAME → context_of s1 s b →
     ∃ s2, wrapped s1 = Ok (tt, s2) ∧ reg r_sp s2 = reg r_sp s1 ∧ creg c_epc s2 = creg c_epc s1 ∧
       same_mem (λ a, ¬ in_context b a) s1 s2) →
  ∃ s1 s2 s3, tlb_refill_enter s = Ok (tt, s1) ∧ wrapped s1 = Ok (tt, s2) ∧
    handle_tlb_refill wrapped s = Ok (tt, s3) ∧
    same_mem (in_context b) s s1 ∧ m_mem s3 = m_mem s2 ∧
    (∀ r, 0 ≤ r < 32 → r ≠ r_k0 → r ≠ r_k1 → reg r s3 = reg r s) ∧
    m_hi s3 = m_hi s ∧ m_lo s3 = m_lo s ∧ m_pc s3 = creg c_epc s.
Proof.
  intros Hon b Hwr. destruct (tlb_refill_enter_spec cpu s Hon) as (s1 & E1 & Ha0 & Hsp1 & Hctx & Hsp & Hc1 & M1 & A1).
  fold b in Ha0, Hsp1, Hctx, Hsp, M1, A1.
  destruct (Hwr s1 Ha0 Hsp1 Hctx) as (s2 & E2 & Hsp2 & Hepc & M2).
  assert (Hkeep : ∀ off, 0 ≤ off < CONTEXT_SIZE → word s2 (b + off) = word s1 (b + off)).
  { intros off Hoff. apply (word_same _ _ _ _ M2). intros Hn. apply Hn. unfold in_context. lia. }
  assert (Hlow : ABI_STACK_FRAME ≤ b).
  { destruct Hon as (Hcpu & _). pose proof (static_area_range cpu Hcpu).
    unfold b, refill_context, ABI_STACK_FRAME, KERNEL_STATIC_SIZE, CONTEXT_SIZE. lia. }
  destruct (tlb_refill_leave_spec b s2) as (s3 & E3 & H3 & Hsp3 & Lo3 & Hi3 & Pc3 & M3 & _);
    [by rewrite Hsp2|done|by eapply same_mem_area|].
  destruct Hctx as [(Hh & Hlo & Hhi) Hcp].
  exists s1, s2, s3. split; [done|]. split; [done|]. split.
  { unfold handle_tlb_refill. erewrite bind_ok by exact E1. erewrite bind_ok by exact E2. exact E3. }
  split; [done|]. split; [done|]. split_and!.
  - intros r Hr H0 H1. destruct (decide (r = 0)) as [->|]; [done|].
    destruct (decide (r = r_sp)) as [->|]; [by rewrite Hsp3, Hkeep|].
    destruct (saved_cover r) as [off Hin]; [lia|done..|]. rewrite (H3 r off Hin), Hkeep.
    + by apply Hh.
    + pose proof (proj1 saved_ok) as Ho. unfold offsets_ok in Ho. rewrite Forall_forall in Ho. by apply (Ho (r, off)).
    + done.
  - by rewrite Hi3, Hkeep.
  - by rewrite Lo3, Hkeep.
  - rewrite Pc3, Hepc. unfold creg. by rewrite Hc1.
Qed.

(** ** The general handler *)

(** The stack of the interrupted code has room for a context at [b], away from the
    static area and the device. *)
Definition stack_for (cpu b : Z) (s : mips) : Prop :=
  reg r_sp s = b + CONTEXT_SIZE ∧ b + CONTEXT_SIZE < word_max ∧ ABI_STACK_FRAME ≤ b ∧ area s b 39 ∧
  ∀ a, in_context b a → a ≠ dorder ∧ ¬ (static_area cpu ≤ a < static_area cpu + KERNEL_STATIC_SIZE).

(** The part of the static area the general handler uses. *)
Definition static_word (cpu a : Z) : Prop := static_area cpu ≤ a ≤ static_area cpu + STATIC_OFFSET_STATUS.

Lemma general_save_cp0_spec cpu s :
  on_cpu cpu s →
  ∃ s1, general_save_cp0 s = Ok (tt, s1) ∧ same_regs (λ r, r ≠ r_k0 ∧ r ≠ r_k1) s s1 ∧
    m_hi s1 = m_hi s ∧ m_lo s1 = m_lo s ∧
    m_cp0 s1 = <[c_status := Z.land (creg c_status s) exception_mask]> (m_cp0 s) ∧
    same_mem (static_word cpu) s s1 ∧ ∀ c off, (c, off) ∈ static_words → word s1 (static_area cpu + off) = creg c s.
Proof.
  intros Hon. pose proof Hon as (Hcpu & _ & _ & Harea).
  destruct (setup_spec r_k0 r_k1 r_k1 KERNEL_STATIC_SIZE cpu s) as (g & E1 & R1 & P1); try done.
  rewrite Z.sub_diag, Z.add_0_r in P1. set (s1 := set_gpr (λ _, g) s) in *.
  destruct (store_cp0s_spec r_k0 r_k1 (static_area cpu) 256 static_words s1 P1) as
    (s2 & E2 & R2 & C2 & Hi2 & Lo2 & M2 & W2 & L2); try done; [by repeat constructor|by apply (bool_decide_unpack _)|].
  set (s3 := set_reg r_k1 exception_mask s2).
  set (s4 := set_reg r_k0 (Z.land (creg c_status s) exception_mask) s3).
  exists (set_cp0 <[c_status := Z.land (creg c_status s) exception_mask]> s4).
  assert (M2' : same_mem (static_word cpu) s s2).
  { eapply same_mem_weaken; [|exact M2]. intros a (off & Hin & ->). unfold static_word.
    assert (Hall : Forall (λ off, 0 ≤ off ≤ STATIC_OFFSET_STATUS) static_words.*2) by (repeat constructor; done).
    rewrite Forall_forall in Hall. specialize (Hall off Hin). lia. }
  split; [|split; [|split; [|split; [|split; [|split]]]]]; try done.
  - unfold general_save_cp0. erewrite bind_ok by exact E1. erewrite bind_ok by exact E2.
    erewrite bind_ok by reflexivity.
    assert (E4 : and r_k0 r_k0 r_k1 s3 = Ok (tt, s4)).
    { unfold and, kmodify, s3. rewrite reg_eq, reg_ne by done.
      by rewrite (L2 c_status STATIC_OFFSET_STATUS (take 4 static_words)) by reflexivity. }
    change (set_reg r_k1 exception_mask s2) with s3. erewrite bind_ok by exact E4.
    unfold mtc0, kmodify, s4. by rewrite reg_eq.
  - intros r [H0 H1]. change (reg r s4 = reg r s). unfold s4, s3. rewrite !reg_ne, (R2 r) by done. by apply R1.
  - cbn. by rewrite C2.
Qed.

Lemma stack_apart cpu b s i j :
  on_cpu cpu s → stack_for cpu b s → 0 ≤ i < 4 * 256 → 0 ≤ j < 4 * 39 → static_area cpu + i ≠ b + j.
Proof.
  intros _ (_ & _ & _ & _ & Hsep) Hi Hj E. destruct (Hsep (b + j)) as [_ Hn].
  - unfold in_context, CONTEXT_SIZE. lia.
  - apply Hn. unfold KERNEL_STATIC_SIZE. lia.
Qed.

Lemma general_save_spec cpu b s :
  on_cpu cpu s → stack_for cpu b s →
  ∃ s1, general_save s = Ok (tt, s1) ∧ reg r_a0 s1 = b ∧ reg r_sp s1 = b - ABI_STACK_FRAME ∧
    holds_regs s1 s b ∧
    (∀ from to, (from, to) ∈ static_copies → word s1 (b + to) = word s (static_area cpu + from)) ∧
    m_cp0 s1 = m_cp0 s ∧ same_mem (in_context b) s s1.
Proof.
  intros Hon Hst. pose proof Hst as (Hsp & Hov & Hlow & Ha & Hsep). pose proof Hon as (_ & _ & _ & Harea).
  set (s1 := set_reg r_sp b s).
  assert (E1 : addiu r_sp r_sp (- CONTEXT_SIZE) s = Ok (tt, s1)).
  { unfold addiu, kmodify. rewrite Hsp. replace (b + CONTEXT_SIZE + - CONTEXT_SIZE) with b by lia.
    rewrite wrap_small; [done|]. destruct Ha as (? & ? & _). word_lia. }
  destruct (save_context_spec b s1) as (s2 & E2 & R2 & C2 & Hi2 & Lo2 & _ & M2 & H2); [by apply reg_eq|exact Ha|].
  assert (M2' : same_mem (in_context b) s s2).
  { eapply same_mem_weaken; [|exact M2]. apply saved_in_context. }
  assert (Hon2 : on_cpu cpu s2).
  { apply (on_cpu_same _ _ _ _ Hon M2'). intros Hd. by destruct (Hsep dorder Hd). }
  destruct (setup_spec r_k0 r_k1 r_t1 KERNEL_STATIC_SIZE cpu s2 Hon2) as (g & E3 & R3 & P3); try done.
  rewrite Z.sub_diag, Z.add_0_r in P3. set (s3 := set_gpr (λ _, g) s2) in *.
  assert (Hsp3 : reg r_sp s3 = b) by (rewrite (R3 r_sp), (R2 r_sp) by done; by apply reg_eq).
  pose proof Hon2 as (_ & _ & _ & Harea2).
  destruct (copy_words_spec r_t0 r_t1 r_sp (static_area cpu) b 256 39 static_copies s3) as
    (s4 & E4 & R4 & C4 & Hi4 & Lo4 & M4 & W4); try done.
  { by eapply same_mem_area. } { by repeat constructor. } { by apply (bool_decide_unpack _). }
  { intros i j Hi Hj. by apply (stack_apart cpu b s). }
  assert (Hsp4 : reg r_sp s4 = b) by (by rewrite (R4 r_sp)).
  assert (M4' : same_mem (in_context b) s s4).
  { eapply same_mem_trans; [exact M2'|]. eapply same_mem_weaken; [|exact M4]. intros a (off & Hin & ->).
    assert (Hall : Forall (λ off, 0 ≤ off < CONTEXT_SIZE) static_copies.*2) by (repeat constructor; done).
    rewrite Forall_forall in Hall. specialize (Hall off Hin). unfold in_context. lia. }
  exists (set_reg r_sp (b - ABI_STACK_FRAME) (set_reg r_a0 b s4)).
  split; [|split; [|split; [|split; [|split; [|split]]]]].
  - unfold general_save. erewrite bind_ok by exact E1. erewrite bind_ok by exact E2. erewrite bind_ok by exact E3.
    erewrite bind_ok by exact E4.
    assert (E5 : or r_a0 r_zero r_sp s4 = Ok (tt, set_reg r_a0 b s4)).
    { unfold or, kmodify. change (reg r_zero s4) with 0. by rewrite Z.lor_0_l, Hsp4. }
    erewrite bind_ok by exact E5. unfold addiu, kmodify. rewrite reg_ne, Hsp4 by done.
    destruct Ha as (? & ? & _). unfold ABI_STACK_FRAME in *. by rewrite wrap_small by word_lia.
  - rewrite reg_ne by done. by apply reg_eq.
  - by apply reg_eq.
  - apply (holds_regs_keep _ _ s2 s4 _ M4).
    + intros off Hin (o & Ho & Eo). assert (off = o) as -> by lia. by apply (cp0_words_saved o).
    + apply (holds_regs_same _ s1); [|done..|done]. intros r (? & ? & ?). unfold s1. by rewrite reg_ne.
  - intros from to Hin. change (word s4 (b + to) = word s (static_area cpu + from)). rewrite (W4 from to Hin).
    change (word s3 (static_area cpu + from)) with (word s2 (static_area cpu + from)).
    apply (word_same _ _ _ _ M2'). intros Hc. destruct (Hsep _ Hc) as [_ Hn]. apply Hn.
    assert (Hall : Forall (λ from, 0 ≤ from < KERNEL_STATIC_SIZE) static_copies.*1) by (repeat constructor; done).
    rewrite Forall_forall in Hall. assert (from ∈ static_copies.*1) as Hf by (apply list_elem_of_fmap; by exists (from, to)).
    specialize (Hall from Hf). lia.
  - trans (m_cp0 s3); [exact C4|exact C2].
  - exact M4'.
Qed.

Lemma general_enter_spec cpu b s :
  on_cpu cpu s → stack_for cpu b s →
  ∃ s1, general_enter s = Ok (tt, s1) ∧ reg r_a0 s1 = b ∧ reg r_sp s1 = b - ABI_STACK_FRAME ∧
    context_of s1 s b ∧ m_cp0 s1 = <[c_status := Z.land (creg c_status s) exception_mask]> (m_cp0 s) ∧
    same_mem (λ a, in_context b a ∨ static_word cpu a) s s1.
Proof.
  intros Hon Hst. destruct (general_save_cp0_spec cpu s Hon) as (s1 & E1 & R1 & Hi1 & Lo1 & C1 & M1 & W1).
  pose proof Hst as (Hsp & Hov & Hlow & Ha & Hsep). pose proof Hon as (Hcpu & _).
  assert (Hon1 : on_cpu cpu s1).
  { apply (on_cpu_same _ _ _ _ Hon M1). intros [? Hd]. pose proof (static_area_range cpu Hcpu).
    rewrite dorder_eq in Hd. unfold STATIC_OFFSET_STATUS in Hd. lia. }
  assert (Hst1 : stack_for cpu b s1).
  { split_and!; try done; [by rewrite (R1 r_sp)|by eapply same_mem_area]. }
  destruct (general_save_spec cpu b s1 Hon1 Hst1) as (s2 & E2 & Ha0 & Hsp2 & H2 & W2 & C2 & M2).
  exists s2. split; [|split; [|split; [|split; [split|split]]]]; try done.
  - unfold general_enter. erewrite bind_ok by exact E1. exact E2.
  - apply (holds_regs_same _ s1); [|done..]. intros r (? & ? & ?). by apply R1.
  - intros c off Hin. assert (Hs : ∃ from, (c, from) ∈ static_words ∧ (from, off) ∈ static_copies).
    { assert (Hall : Forall (λ '(c, off), Exists (λ '(c', from), c' = c ∧ (from, off) ∈ static_copies) static_words) cp0_words)
        by (by apply (bool_decide_unpack _)).
      rewrite Forall_forall in Hall. specialize (Hall _ Hin). apply Exists_exists in Hall as ([c' from] & Hw & -> & Hf).
      by exists from. }
    destruct Hs as (from & Hf & Ht). by rewrite (W2 from off Ht), (W1 c from Hf).
  - by rewrite C2.
  - eapply same_mem_trans; [eapply same_mem_weaken; [|exact M1]; by right|].
    eapply same_mem_weaken; [|exact M2]. by left.
Qed.

Lemma general_return_spec cpu s :
  on_cpu cpu s →
  ∃ s1, general_return s = Ok (tt, s1) ∧ same_regs (λ r, r ≠ r_k0 ∧ r ≠ r_k1) s s1 ∧
    m_hi s1 = m_hi s ∧ m_lo s1 = m_lo s ∧ m_mem s1 = m_mem s ∧
    m_pc s1 = word s (static_area cpu + STATIC_OFFSET_EPC) ∧
    creg c_status s1 = Z.land (word s (static_area cpu + STATIC_OFFSET_STATUS)) (Z.lnot CP0_STATUS_EXL_MASK).
Proof.
  intros Hon. pose proof Hon as (Hcpu & _ & _ & Harea).
  destruct (setup_spec r_k0 r_k1 r_k1 KERNEL_STATIC_SIZE cpu s) as (g & E1 & R1 & P1); try done.
  rewrite Z.sub_diag, Z.add_0_r in P1. set (s1 := set_gpr (λ _, g) s) in *.
  set (epc := word s (static_area cpu + STATIC_OFFSET_EPC)). set (st := word s (static_area cpu + STATIC_OFFSET_STATUS)).
  set (s2 := set_reg r_k0 epc s1). set (s3 := set_cp0 <[c_epc := epc]> s2).
  set (s4 := set_reg r_k0 st s3). set (s5 := set_cp0 <[c_status := st]> s4).
  exists (set_pc epc (set_cp0 <[c_status := Z.land st (Z.lnot CP0_STATUS_EXL_MASK)]> s5)).
  assert (P3 : reg r_k1 s3 = static_area cpu) by (change (reg r_k1 s2 = static_area cpu); unfold s2; by rewrite reg_ne).
  split_and!; try done.
  - unfold general_return. erewrite bind_ok by exact E1.
    assert (E2 : lw r_k0 STATIC_OFFSET_EPC r_k1 s1 = Ok (tt, s2)) by (by rewrite (lw_exec _ _ _ _ (static_area cpu) 256)).
    erewrite bind_ok by exact E2.
    assert (E3 : mtc0 r_k0 c_epc s2 = Ok (tt, s3)) by (unfold mtc0, kmodify, s2; by rewrite reg_eq).
    erewrite bind_ok by exact E3.
    assert (E4 : lw r_k0 STATIC_OFFSET_STATUS r_k1 s3 = Ok (tt, s4)) by (by rewrite (lw_exec _ _ _ _ (static_area cpu) 256)).
    erewrite bind_ok by exact E4.
    assert (E5 : mtc0 r_k0 c_status s4 = Ok (tt, s5)) by (unfold mtc0, kmodify, s4; by rewrite reg_eq).
    erewrite bind_ok by exact E5. unfold eret, kmodify.
    assert (Hepc : creg c_epc s5 = epc) by (unfold creg; cbn; by rewrite lookup_insert_ne, lookup_insert_eq).
    assert (Hst : creg c_status s5 = st) by (unfold creg; cbn; by rewrite lookup_insert_eq).
    by rewrite Hepc, Hst.
  - intros r [H0 H1]. change (reg r s4 = reg r s). unfold s4. rewrite reg_ne by done. change (reg r s3) with (reg r s2).
    unfold s2. rewrite reg_ne by done. by apply R1.
  - unfold creg. cbn. by rewrite lookup_insert_eq.
Qed.

Lemma stack_for_mem cpu b s v s' :
  stack_for cpu b (set_reg r_sp (b + CONTEXT_SIZE) s) → m_mem s' = m_mem s → reg r_sp s' = v →
  v = b + CONTEXT_SIZE → stack_for cpu b s'.
Proof. intros (_ & ? & ? & Ha & ?) Hm Hr ->. split_and!; try done. unfold area in *. by rewrite Hm. Qed.

Lemma general_restore_spec cpu b s :
  on_cpu cpu s → reg r_sp s = b - ABI_STACK_FRAME → stack_for cpu b (set_reg r_sp (b + CONTEXT_SIZE) s) →
  ∃ s1, general_restore s = Ok (tt, s1) ∧
    (∀ r off, (r, off) ∈ saved_registers → r ≠ 0 → reg r s1 = word s (b + off)) ∧
    reg r_sp s1 = b + CONTEXT_SIZE ∧
    m_lo s1 = word s (b + REGS_OFFSET_LO) ∧ m_hi s1 = word s (b + REGS_OFFSET_HI) ∧
    same_mem (static_word cpu) s s1 ∧
    word s1 (static_area cpu + STATIC_OFFSET_EPC) = word s (b + REGS_OFFSET_EPC) ∧
    word s1 (static_area cpu + STATIC_OFFSET_STATUS) = word s (b + REGS_OFFSET_STATUS).
Proof.
  intros Hon Hsp Hst. pose proof Hst as (_ & Hov & Hlow & Ha & Hsep). change (area s b 39) in Ha.
  set (s1 := set_reg r_sp b s).
  assert (E1 : addiu r_sp r_sp ABI_STACK_FRAME s = Ok (tt, s1)).
  { unfold addiu, kmodify. rewrite Hsp. replace (b - ABI_STACK_FRAME + ABI_STACK_FRAME) with b by lia.
    rewrite wrap_small; [done|]. destruct Ha as (? & ? & _). word_lia. }
  assert (Hon1 : on_cpu cpu s1) by (by apply (on_cpu_mem cpu s)).
  destruct (setup_spec r_k0 r_k1 r_t1 KERNEL_STATIC_SIZE cpu s1 Hon1) as (g & E2 & R2 & P2); try done.
  rewrite Z.sub_diag, Z.add_0_r in P2. set (s2 := set_gpr (λ _, g) s1) in *.
  pose proof Hon as (_ & _ & _ & Harea).
  assert (Hsp2 : reg r_sp s2 = b) by (rewrite (R2 r_sp) by done; by apply reg_eq).
  destruct (copy_words_spec r_t0 r_sp r_t1 b (static_area cpu) 39 256
    [(REGS_OFFSET_STATUS, STATIC_OFFSET_STATUS); (REGS_OFFSET_EPC, STATIC_OFFSET_EPC)] s2) as
    (s3 & E3 & R3 & C3 & Hi3 & Lo3 & M3 & W3); try done.
  { by repeat constructor. } { by apply (bool_decide_unpack _). }
  { intros i j Hi Hj E. symmetry in E. revert E. by apply (stack_apart cpu b (set_reg r_sp (b + CONTEXT_SIZE) s)). }
  assert (Hsp3 : reg r_sp s3 = b) by (by rewrite (R3 r_sp)).
  assert (M3' : same_mem (static_word cpu) s s3).
  { eapply same_mem_weaken; [|exact M3]. intros a (off & Hin & ->). unfold static_word.
    cbn in Hin. rewrite !elem_of_cons in Hin. unfold STATIC_OFFSET_STATUS, STATIC_OFFSET_EPC in *.
    destruct Hin as [->|[->|[]%elem_of_nil]]; lia. }
  assert (Hkeep : ∀ off, 0 ≤ off < CONTEXT_SIZE → word s3 (b + off) = word s (b + off)).
  { intros off Hoff. apply (word_same _ _ _ _ M3'). intros [? ?]. destruct (Hsep (b + off)) as [_ Hn].
    - unfold in_context. lia.
    - apply Hn. unfold STATIC_OFFSET_STATUS, KERNEL_STATIC_SIZE in *. lia. }
  destruct (load_context_spec b s3 Hsp3) as (s4 & E4 & R4 & C4 & M4 & _ & H4 & Lo4 & Hi4); [by eapply same_mem_area|].
  exists (set_reg r_sp (b + CONTEXT_SIZE) s4).
  split; [|split; [|split; [|split; [|split; [|split; [|split]]]]]].
  - unfold general_restore. erewrite bind_ok by exact E1. erewrite bind_ok by exact E2. erewrite bind_ok by exact E3.
    erewrite bind_ok by exact E4. unfold addiu, kmodify. rewrite (R4 r_sp), Hsp3 by (by left).
    destruct Ha as (? & ? & _). unfold CONTEXT_SIZE in *. by rewrite wrap_small by word_lia.
  - intros r off Hin Hr.
    assert (Hno : Forall (λ '(r, off), r ≠ r_sp ∧ 0 ≤ off < CONTEXT_SIZE) saved_registers) by (by apply (bool_decide_unpack _)).
    rewrite Forall_forall in Hno. destruct (Hno _ Hin). rewrite reg_ne, (H4 r off Hin Hr) by done. by apply Hkeep.
  - by apply reg_eq.
  - rewrite <- Hkeep by done. exact Lo4.
  - rewrite <- Hkeep by done. exact Hi4.
  - destruct M3' as [MM MD]. split; intros a; change (m_mem (set_reg _ _ s4)) with (m_mem s4); rewrite M4; auto.
  - unfold word at 1. change (m_mem (set_reg _ _ s4)) with (m_mem s4). rewrite M4.
    apply (W3 REGS_OFFSET_EPC STATIC_OFFSET_EPC). by right; left.
  - unfold word at 1. change (m_mem (set_reg _ _ s4)) with (m_mem s4). rewrite M4.
    apply (W3 REGS_OFFSET_STATUS STATIC_OFFSET_STATUS). by left.
Qed.

Lemma handle_general_exec (wrapped : KM mips unit) cpu b s :
  on_cpu cpu s → stack_for cpu b s →
  (∀ s1, reg r_a0 s1 = b → reg r_sp s1 = b - ABI_STACK_FRAME → context_of s1 s b → on_cpu cpu s1 → area s1 b 39 →
     ∃ s2, wrapped s1 = Ok (tt, s2) ∧ reg r_sp s2 = reg r_sp s1 ∧ on_cpu cpu s2 ∧ area s2 b 39) →
  ∃ s1 s2 s3, general_enter s = Ok (tt, s1) ∧ wrapped s1 = Ok (tt, s2) ∧
    handle_general wrapped s = Ok (tt, s3) ∧
    creg c_status s1 = Z.land (creg c_status s) exception_mask ∧
    same_mem (λ a, in_context b a ∨ static_word cpu a) s s1 ∧ same_mem (static_word cpu) s2 s3 ∧
    (∀ r off, (r, off) ∈ saved_registers → r ≠ 0 → reg r s3 = word s2 (b + off)) ∧
    reg r_sp s3 = reg r_sp s ∧
    m_lo s3 = word s2 (b + REGS_OFFSET_LO) ∧ m_hi s3 = word s2 (b + REGS_OFFSET_HI) ∧
    m_pc s3 = word s2 (b + REGS_OFFSET_EPC) ∧
    creg c_status s3 = Z.land (word s2 (b + REGS_OFFSET_STATUS)) (Z.lnot CP0_STATUS_EXL_MASK).
Proof.
  intros Hon Hst Hwr. destruct (general_enter_spec cpu b s Hon Hst) as (s1 & E1 & Ha0 & Hsp1 & Hctx & C1 & M1).
  pose proof Hst as (Hsp & Hov & Hlow & Ha & Hsep).
  assert (Hon1 : on_cpu cpu s1).
  { apply (on_cpu_same _ _ _ _ Hon M1). intros [Hd|[_ Hd]]; [by apply Hsep in Hd as [? _]|].
    destruct Hon as (Hcpu & _). pose proof (static_area_range cpu Hcpu).
    rewrite dorder_eq in Hd. unfold STATIC_OFFSET_STATUS in Hd. lia. }
  destruct (Hwr s1 Ha0 Hsp1 Hctx Hon1 (same_mem_area _ _ _ _ _ M1 Ha)) as (s2 & E2 & Hsp2 & Hon2 & A2).
  destruct (general_restore_spec cpu b s2 Hon2) as (s3 & E3 & H3 & Hsp3 & Lo3 & Hi3 & M3 & We & Ws);
    [by rewrite Hsp2|split_and!; try done; by apply reg_eq|].
  assert (Hon3 : on_cpu cpu s3).
  { apply (on_cpu_same _ _ _ _ Hon2 M3). intros [? Hd]. destruct Hon as (Hcpu & _).
    pose proof (static_area_range cpu Hcpu). rewrite dorder_eq in Hd. unfold STATIC_OFFSET_STATUS in Hd. lia. }
  destruct (general_return_spec cpu s3 Hon3) as (s4 & E4 & R4 & Hi4 & Lo4 & M4 & Pc4 & St4).
  exists s1, s2, s4. split; [done|]. split; [done|].
  split; [|split; [|split; [done|split; [|split; [|split; [|split; [|split; [|split]]]]]]]].
  - unfold handle_general. erewrite bind_ok by exact E1. erewrite bind_ok by exact E2.
    unfold general_leave. erewrite bind_ok by exact E3. exact E4.
  - unfold creg at 1. by rewrite C1, lookup_insert_eq.
  - destruct M3 as [MM MD]. split; intros a; rewrite M4; auto.
  - intros r off Hin Hr.
    assert (Hno : Forall (λ '(r, _), r ≠ r_k0 ∧ r ≠ r_k1) saved_registers) by (by apply (bool_decide_unpack _)).
    rewrite Forall_forall in Hno. destruct (Hno _ Hin). rewrite (R4 r) by done. by apply H3.
  - by rewrite (R4 r_sp), Hsp3, Hsp.
  - by rewrite Lo4.
  - by rewrite Hi4.
  - by rewrite Pc4, We.
  - by rewrite St4, Ws.
Qed.

(** C24. The general exception handler implements a function on contexts: the C
    function is called in kernel mode, with interrupts disabled and the exception
    level left, with a pointer to a context on the stack of the interrupted code that
    describes the interrupted state; when it returns, the registers (but [$k0] and
    [$k1]), the multiplier registers, the Status register and the address where
    execution goes on are what the context then says, and the stack pointer has its
    old value.  Only the context and five words of the static area are written. *)
Theorem handle_general_context (wrapped : KM mips unit) cpu b s :
  on_cpu cpu s → stack_for cpu b s →
  (∀ s1, reg r_a0 s1 = b → reg r_sp s1 = b - ABI_STACK_FRAME → context_of s1 s b → on_cpu cpu s1 → area s1 b 39 →
     ∃ s2, wrapped s1 = Ok (tt, s2) ∧ reg r_sp s2 = reg r_sp s1 ∧ on_cpu cpu s2 ∧ area s2 b 39) →
  ∃ s1 s2 s3, general_enter s = Ok (tt, s1) ∧ wrapped s1 = Ok (tt, s2) ∧
    handle_general wrapped s = Ok (tt, s3) ∧
    creg c_status s1 = Z.land (creg c_status s) exception_mask ∧
    same_mem (λ a, in_context b a ∨ static_word cpu a) s s1 ∧ same_mem (static_word cpu) s2 s3 ∧
    (∀ r off, (r, off) ∈ saved_registers → r ≠ 0 → reg r s3 = word s2 (b + off)) ∧
    reg r_sp s3 = reg r_sp s ∧
    m_lo s3 = word s2 (b + REGS_OFFSET_LO) ∧ m_hi s3 = word s2 (b + REGS_OFFSET_HI) ∧
    m_pc s3 = word s2 (b + REGS_OFFSET_EPC) ∧
    creg c_status s3 = Z.land (word s2 (b + REGS_OFFSET_STATUS)) (Z.lnot CP0_STATUS_EXL_MASK).
Proof. apply handle_general_exec. Qed.
