(* ===== verification/MipsSample.v ===== *)
(** * A concrete machine for the theorems on the assembler code

    Processor 3 with its static area, the stacks of two threads and the words that hold
    their stack tops; the theorems of [MipsTheorems] and [MipsExc] applied to it. *)
From S2P Require Import Prelude CList Cpu Cp0 Mips MipsTheorems MipsExc.

(** [n] words of value 0 at [a]. *)
Definition zeros (a n : Z) : words := list_to_map ((λ k, (a + 4 * k, 0)) <$> seqZ 0 n).

Definition sample_mem : words :=
  <[0xB0000010 := 3]> (zeros 0x80100000 39 ∪ zeros 0x80200000 2 ∪ zeros 0x80300000 39 ∪ zeros 0x80001000 256).

(** The running thread, with its stack at [0x80100000]; all registers are 5 but
    those that hold the arguments of [cpu_switch_context]. *)
Definition sample_regs : gmap Z Z := list_to_map ((λ r, (r, 5)) <$> seqZ 0 32).
Definition sample_mips : mips :=
  Mips (<[r_sp := 0x80100000 + 156]> (<[r_a0 := 0x80200000]> (<[r_a1 := 0x80200004]> (<[r_a2 := 7]> sample_regs))))
    1 2 {[c_entryhi := 0x401000; c_status := 0xff01; c_epc := 0x80012344]}
    (<[0x80200004 := 0x80300000]> sample_mem) 0x80010000.

(** Another thread, when it was suspended: its context is the zero words at [0x80300000]. *)
Definition sample_other : mips := Mips {[r_sp := 0x80300000 + 156]} 0 0 ∅ ∅ 0.

(** A decidable statement about the sample is decided by evaluation. *)
Ltac decide_now := apply (bool_decide_unpack _); vm_compute; exact I.

Lemma area_compute s a n :
  0 ≤ a → a + 4 * n ≤ word_max → Forall (λ k, is_Some (m_mem s !! (a + 4 * k))) (seqZ 0 n) → area s a n.
Proof.
  intros Ha Hn Hf. split; [done|split; [done|]]. intros k Hk. rewrite Forall_forall in Hf. apply Hf.
  by apply elem_of_seqZ.
Qed.

Lemma sample_area : area sample_mips 0x80100000 39 ∧ area sample_mips 0x80200000 1 ∧
  area sample_mips 0x80200004 1 ∧ area sample_mips 0x80300000 39 ∧
  area sample_mips (static_area 3) 256 ∧ area sample_mips dorder 1.
Proof.
  split; [|split; [|split; [|split; [|split]]]]; (apply area_compute; [done|done|decide_now]).
Qed.

Lemma sample_on_cpu : on_cpu 3 sample_mips.
Proof. split; [done|]. split; [apply sample_area|]. split; [by vm_compute|apply sample_area]. Qed.

Lemma sample_stack : stack_for 3 0x80100000 sample_mips.
Proof.
  split; [by vm_compute|]. split; [done|]. split; [done|]. split; [apply sample_area|].
  intros a Ha. unfold in_context, CONTEXT_SIZE in Ha. rewrite dorder_eq.
  change (static_area 3) with 0x80001000. unfold KERNEL_STATIC_SIZE. lia.
Qed.

Lemma sample_suspended : suspended_as sample_other sample_mips 0x80300000.
Proof.
  split; [split|].
  - intros r off Hin.
    assert (Hall : Forall (λ '(r, off), word sample_mips (0x80300000 + off) = reg r sample_other) saved_registers)
      by (decide_now).
    rewrite Forall_forall in Hall. exact (Hall _ Hin).
  - split; by vm_compute.
  - split; [by vm_compute|]. split; [by vm_compute|]. change (reg r_sp sample_other) with (0x80300000 + 156). done.
Qed.

Lemma sample_can_switch : can_switch sample_mips 0x80200000 0x80200004 0x80100000 0x80300000.
Proof.
  destruct sample_area as (H1 & H2 & H3 & H4 & _).
  split.
  - by vm_compute.
  - exact H1.
  - done.
  - by vm_compute.
  - by vm_compute.
  - exact H2.
  - exact H3.
  - unfold in_context, CONTEXT_SIZE. lia.
  - rewrite decide_False by done. split; [by vm_compute|]. split; [exact H4|].
    unfold switch_word, in_context, CONTEXT_SIZE. split; [lia|]. intros a. lia.
Qed.

Lemma context_switch_transparent_witness :
  ∃ s1, cpu_switch_context_code sample_mips = Ok (tt, s1) ∧ resumed_as sample_other s1 ∧
    suspended_as sample_mips s1 0x80100000.
Proof.
  destruct (context_switch_transparent sample_mips 0x80200000 0x80200004 0x80100000 0x80300000 sample_can_switch)
    as [Hr Hs].
  destruct (Hr sample_other) as (s1 & E & Hres & _).
  - rewrite decide_False by done. exact sample_suspended.
  - exists s1. split; [done|]. split; [done|]. by apply Hs.
Defined.

Lemma tlb_refill_transparent_witness :
  ∃ s3, handle_tlb_refill (mret ()) sample_mips = Ok (tt, s3) ∧
    (∀ r, 0 ≤ r < 32 → r ≠ r_k0 → r ≠ r_k1 → reg r s3 = reg r sample_mips) ∧ m_pc s3 = 0x80012344.
Proof.
  destruct (tlb_refill_transparent (mret ()) 3 sample_mips sample_on_cpu) as (s1 & s2 & s3 & _ & _ & E & _ & _ & Hr & _ & _ & Hpc).
  - intros s1 _ _ _. exists s1. split; [done|]. split; [done|]. split; [done|]. split; tauto.
  - exists s3. split; [exact E|]. split; [exact Hr|]. by rewrite Hpc.
Defined.

Lemma handle_general_context_witness :
  ∃ s1 s3, general_enter sample_mips = Ok (tt, s1) ∧ creg c_status s1 = 0xff00 ∧
    handle_general (mret ()) sample_mips = Ok (tt, s3) ∧ reg r_sp s3 = reg r_sp sample_mips.
Proof.
  destruct (handle_general_context (mret ()) 3 0x80100000 sample_mips sample_on_cpu sample_stack)
    as (s1 & s2 & s3 & E1 & _ & E & Hst & _ & _ & _ & Hsp & _).
  - intros s1 _ Hsp _ Hon Ha. exists s1. done.
  - exists s1, s3. split; [exact E1|]. split; [by rewrite Hst|]. split; [exact E|exact Hsp].
Defined.
