(* ===== verification/Entry.v ===== *)
(** * From power-on to the compiled code ([kernel/boot/loader.S], [kernel/head.S], [drivers/dorder.h])

    The loader, the code at the hardwired addresses and the start-up code of [head.S], with
    the compiled C functions as parameters; the registers of the dorder device as [dorder.h]
    accesses them.  Then the accesses of C code to special registers and to the simulator
    ([include/c.h]). *)
From S2P Require Import Prelude CList Cpu Cp0 Mips MipsTheorems MipsExc MipsSample.

(** ** The dorder device *)
Definition DORDER_ADDRESS : Z := ADDR_IN_KSEG1 DEVICE_DORDER_ADDR.
Definition DORDER_DEASSERT_ADDRESS : Z := ADDR_IN_KSEG1 (DEVICE_DORDER_ADDR + 4).

Section device.
  (** Volatile accesses to the device. *)
  Context {S : Type} (read32 : Z → KM S Z) (write32 : Z → Z → KM S unit).

Definition dorder_cpuid : KM S Z := read32 DORDER_ADDRESS.
Definition dorder_assert (cpuid : Z) : KM S unit := write32 DORDER_ADDRESS (wrap (Z.shiftl 1 cpuid)).
Definition dorder_deassert (cpuid : Z) : KM S unit := write32 DORDER_DEASSERT_ADDRESS (wrap (Z.shiftl 1 cpuid)).

End device.

(** The mask of a processor has its bit and no other. *)
Lemma dorder_mask cpu k : 0 ≤ cpu < 32 → Z.testbit (wrap (Z.shiftl 1 cpu)) k = bool_decide (k = cpu).
Proof.
  intros Hc. rewrite Z.shiftl_1_l, wrap_small.
  - rewrite Z.pow2_bits_eqb by lia. destruct (Z.eqb_spec cpu k); symmetry; [by apply bool_decide_eq_true_2|apply bool_decide_eq_false_2; lia].
  - split; [lia|]. unfold word_max. apply Z.pow_lt_mono_r; lia.
Qed.

(** ** Addresses *)
Definition HANDLER_TLB_REFILL : Z := ADDR_IN_KSEG0 0x000.
Definition HANDLER_CACHE_ERROR : Z := ADDR_IN_KSEG0 0x100.
Definition HANDLER_GENERAL_EXCEPTION : Z := ADDR_IN_KSEG0 0x180.
Definition KERNEL_ENTRY_POINT : Z := ADDR_IN_KSEG0 0x300.
Definition KERNEL_STATIC_TOTAL : Z := MAX_CPU * KERNEL_STATIC_SIZE.
Definition KERNEL_STATIC_AREA : Z := ADDR_IN_KSEG0 KERNEL_STATIC_ADDR.

(** ** Instructions that only the start-up uses *)

(** The simulator stops. *)
Definition halt : KM mips unit := kpanic.
(** A call, with the instruction in the delay slot; [link] is the return address. *)
Definition jal (callee : KM mips unit) (link : Z) (delay : KM mips unit) : KM mips unit :=
  kmodify (set_reg r_ra link) ;; delay ;; callee.
Definition bne (rs rt : Z) (taken next : KM mips unit) : KM mips unit :=
  c ← kload (λ s, Some (negb (reg rs s =? reg rt s)));
  if c : bool then taken else next.

Section start.
  (** The compiled C functions and the addresses behind the two calls. *)
  Context (wrapped_tlb_refill_code wrapped_general_code bsp_start_code ap_start_code : KM mips unit).
  Context (after_bsp_start after_ap_start : Z).

Definition exception_tlb_refill : KM mips unit := handle_tlb_refill wrapped_tlb_refill_code.
Definition handle_cacheerror : KM mips unit := halt.
Definition exception_cacheerror : KM mips unit := handle_cacheerror.
Definition exception_general : KM mips unit := handle_general wrapped_general_code.

Definition start_ap : KM mips unit :=
  jal ap_start_code after_ap_start (addiu r_sp r_sp (- ABI_STACK_FRAME)) ;;
  addiu r_sp r_sp ABI_STACK_FRAME ;;
  halt.

Definition start : KM mips unit :=
  SETUP_STATIC_AREA r_k0 r_k1 r_sp 0 ;;
  la r_gp (ADDR_IN_KSEG0 0) ;;
  bne r_k1 r_zero start_ap
    (jal bsp_start_code after_bsp_start (addiu r_sp r_sp (- ABI_STACK_FRAME)) ;;
     addiu r_sp r_sp ABI_STACK_FRAME ;;
     halt).

(** The code that is placed at a fixed address by [.org]. *)
Definition excvec (a : Z) : option (KM mips unit) :=
  if a =? HANDLER_TLB_REFILL then Some exception_tlb_refill
  else if a =? HANDLER_CACHE_ERROR then Some exception_cacheerror
  else if a =? HANDLER_GENERAL_EXCEPTION then Some exception_general
  else if a =? KERNEL_ENTRY_POINT then Some start
  else None.

(** Execution goes on where a jump has led. *)
Definition run_jump : KM mips unit := code ← kload (λ s, excvec (m_pc s)); code.

(** The boot loader. *)
Definition __start : KM mips unit := la r_ra KERNEL_ENTRY_POINT ;; jr r_ra.

(** ** The start of a processor *)

(** The macro leaves the number of the processor in its second register. *)
Lemma setup_cpu t0 t1 ptr disp cpu s s' :
  on_cpu cpu s → t0 ≠ 0 → t1 ≠ 0 → t1 ≠ t0 → t1 ≠ ptr →
  SETUP_STATIC_AREA t0 t1 ptr disp s = Ok (tt, s') → reg t1 s' = cpu.
Proof.
  intros (Hcpu & Hd & Hw & _) H0 H1 H10 H1p. unfold SETUP_STATIC_AREA. erewrite bind_ok by reflexivity.
  erewrite bind_ok by (apply (lw_exec _ _ _ _ dorder 1); [by apply reg_eq|exact Hd|lia|done]).
  unfold sll, la, addu, kmodify. cbn [mbind KM_bind]. intros [= <-].
  rewrite !reg_ne by done. rewrite reg_eq by done.
  change (word s (dorder + 0) = cpu). by rewrite Z.add_0_r.
Qed.

(** The stack a processor starts on. *)
Definition start_sp (cpu : Z) : Z := static_area cpu + KERNEL_STATIC_SIZE - ABI_STACK_FRAME.

(** What the compiled code finds: its stack pointer and the global pointer; memory and the
    coprocessor are as before. *)
Record started (cpu link : Z) (s s' : mips) : Prop := {
  sd_sp : reg r_sp s' = start_sp cpu;
  sd_gp : reg r_gp s' = 0x80000000;
  sd_ra : reg r_ra s' = link;
  sd_mem : m_mem s' = m_mem s;
  sd_cp0 : m_cp0 s' = m_cp0 s;
  sd_cpu : dorder_cpuid (λ a, kload (λ s, m_mem s !! a)) s' = Ok (cpu, s');
}.

(** A call that is followed by [halt] does not come back. *)
Lemma call_halt callee link s :
  (jal callee link (addiu r_sp r_sp (- ABI_STACK_FRAME)) ;; addiu r_sp r_sp ABI_STACK_FRAME ;; halt) s =
  (callee ;; halt) (set_reg r_sp (wrap (reg r_sp s - ABI_STACK_FRAME)) (set_reg r_ra link s)).
Proof.
  unfold jal. rewrite !bind_assoc. erewrite bind_ok by reflexivity. rewrite bind_assoc. erewrite bind_ok by reflexivity.
  rewrite reg_ne by done. unfold mbind, KM_bind. by destruct (callee _) as [[]| | |].
Qed.

Lemma enter_exec cpu s : on_cpu cpu s →
  ∃ s', start s = ((if cpu =? 0 then bsp_start_code else ap_start_code) ;; halt) s' ∧
    started cpu (if cpu =? 0 then after_bsp_start else after_ap_start) s s'.
Proof.
  intros Hon. destruct (setup_spec r_k0 r_k1 r_sp 0 cpu s Hon) as (g & E & _ & Hsp); [done..|].
  pose proof (setup_cpu r_k0 r_k1 r_sp 0 cpu s _ Hon ltac:(done) ltac:(done) ltac:(done) ltac:(done) E) as Hk1.
  set (s1 := set_gpr (λ _, g) s) in *. set (s2 := set_reg r_gp (ADDR_IN_KSEG0 0) s1).
  set (link := if cpu =? 0 then after_bsp_start else after_ap_start).
  assert (Hk2 : reg r_k1 s2 = cpu) by (unfold s2; by rewrite reg_ne).
  assert (Hs2 : reg r_sp s2 = static_area cpu + KERNEL_STATIC_SIZE) by (unfold s2; rewrite reg_ne by done; rewrite Hsp; lia).
  exists (set_reg r_sp (start_sp cpu) (set_reg r_ra link s2)).
  pose proof Hon as (Hc & Hd & Hw & _). pose proof (static_area_range cpu Hc). split.
  - unfold start. erewrite bind_ok by exact E. erewrite bind_ok by reflexivity. change (set_reg r_gp _ s1) with s2.
    unfold bne. erewrite bind_ok by reflexivity. rewrite Hk2. change (reg r_zero s2) with 0. unfold start_sp, link.
    destruct (Z.eqb_spec cpu 0); cbn [negb]; unfold start_ap; rewrite call_halt, Hs2, wrap_small
      by (unfold KERNEL_STATIC_SIZE, ABI_STACK_FRAME; word_lia); done.
  - split; try done.
    + by apply reg_eq.
    + rewrite !reg_ne by done. by apply reg_eq.
    + rewrite reg_ne by done. by apply reg_eq.
    + unfold dorder_cpuid. apply load_some. change (m_mem s !! dorder = Some cpu). rewrite <- Hw at 1. apply word_some.
      destruct Hd as (_ & _ & Hd). specialize (Hd 0 ltac:(lia)). by rewrite Z.mul_0_r, Z.add_0_r in Hd.
Qed.

(** C25. The boot loader leads to the start-up code of the kernel.  Processor 0 calls
    [bsp_start], every other one [ap_start], each with the global pointer at the start of
    KSEG0 and its stack at the end of its own part of the static area, which is disjoint
    from that of every other processor; a processor never comes back from there. *)
Theorem processors_enter_kernel cpu s : on_cpu cpu s →
  (∃ s', (__start ;; run_jump) s = ((if cpu =? 0 then bsp_start_code else ap_start_code) ;; halt) s' ∧
     started cpu (if cpu =? 0 then after_bsp_start else after_ap_start) s s') ∧
  (∀ r, (__start ;; run_jump) s ≠ Ok r) ∧
  KERNEL_STATIC_AREA ≤ static_area cpu ∧ start_sp cpu + ABI_STACK_FRAME = static_area cpu + KERNEL_STATIC_SIZE ∧
  start_sp cpu + ABI_STACK_FRAME ≤ KERNEL_STATIC_AREA + KERNEL_STATIC_TOTAL ∧
  (∀ cpu', 0 ≤ cpu' < MAX_CPU → cpu' ≠ cpu →
     static_area cpu + KERNEL_STATIC_SIZE ≤ static_area cpu' ∨ static_area cpu' + KERNEL_STATIC_SIZE ≤ static_area cpu).
Proof.
  intros Hon. assert (He : ∃ s', (__start ;; run_jump) s = ((if cpu =? 0 then bsp_start_code else ap_start_code) ;; halt) s' ∧
     started cpu (if cpu =? 0 then after_bsp_start else after_ap_start) s s').
  { set (s1 := set_pc KERNEL_ENTRY_POINT (set_reg r_ra KERNEL_ENTRY_POINT s)).
    destruct (enter_exec cpu s1) as (s' & E & []); [by apply (on_cpu_mem cpu s)|]. exists s'.
    split; [|by split]. rewrite <- E. unfold __start, run_jump. rewrite bind_assoc. erewrite bind_ok by reflexivity.
    unfold jr. erewrite bind_ok by reflexivity. rewrite reg_eq by done. by erewrite bind_ok by reflexivity. }
  split; [exact He|]. split.
  { destruct He as (s' & -> & _). intros r. unfold mbind, KM_bind. by destruct ((if cpu =? 0 then bsp_start_code else ap_start_code) s') as [[]| | |]. }
  destruct Hon as (Hc & _). unfold static_area, start_sp, KERNEL_STATIC_TOTAL, KERNEL_STATIC_AREA, KERNEL_STATIC_SIZE, MAX_CPU, static_area, KERNEL_STATIC_SIZE.
  split; [lia|]. split; [lia|]. split; [unfold ABI_STACK_FRAME; lia|]. intros cpu' Hc' Hne. lia.
Qed.

End start.

(** Processor 3 of [sample_mips], with C functions that do nothing. *)
Lemma processors_enter_kernel_witness :
  ∃ s', (__start ;; run_jump (mret ()) (mret ()) (mret ()) (mret ()) 0x80000350 0x80000364) sample_mips = (mret () ;; halt) s' ∧
    reg r_sp s' = 0x800013e0 ∧ reg r_ra s' = 0x80000364.
Proof.
  destruct (processors_enter_kernel (mret ()) (mret ()) (mret ()) (mret ()) 0x80000350 0x80000364 3 sample_mips sample_on_cpu)
    as [(s' & E & []) _].
  exists s'. split; [exact E|]. split; [by rewrite sd_sp0|done].
Defined.

(** ** Special registers and simulator instructions from C ([include/c.h])

    The macros around [mfc0] and [mtc0] and the functions around the instructions that the
    simulator adds, on the machine of [Mips]. *)

(** ** The registers of the coprocessor *)
Definition read_cp0_register (number : Z) : KM mips Z := λ s, Ok (creg number s, s).
Definition write_cp0_register (number value : Z) : KM mips unit := kmodify (set_cp0 <[number := value]>).

Definition read_cp0_badvaddr : KM mips Z := read_cp0_register 8.
Definition read_cp0_compare : KM mips Z := read_cp0_register 11.
Definition read_cp0_status : KM mips Z := read_cp0_register 12.
Definition read_cp0_cause : KM mips Z := read_cp0_register 13.
Definition read_cp0_epc : KM mips Z := read_cp0_register 14.
Definition read_cp0_xcontext : KM mips Z := read_cp0_register 20.
Definition read_cp0_eepc : KM mips Z := read_cp0_register 30.
Definition write_cp0_status (val : Z) : KM mips unit := write_cp0_register 12 val.
Definition write_cp0_cause (val : Z) : KM mips unit := write_cp0_register 13 val.
Definition write_cp0_epc (val : Z) : KM mips unit := write_cp0_register 14 val.
Definition write_cp0_eepc (val : Z) : KM mips unit := write_cp0_register 30 val.

(** ** The instructions of the simulator

    They change nothing that the machine has; [msim_halt] is the end of the simulation. *)
Definition msim_trace_on : KM mips unit := mret ().
Definition msim_trace_off : KM mips unit := mret ().
Definition msim_reg_dump : KM mips unit := mret ().
Definition msim_stop : KM mips unit := mret ().
Definition msim_halt : KM mips unit := halt.

(** ** The machine has a Status register

    The functions on interrupts of [Cpu], written for any state with a Status register,
    are what [c.h] makes of the macros. *)
#[export] Instance mips_cpu : CpuState mips := {
  cp0_status := creg c_status;
  set_cp0_status v := set_cp0 <[c_status := v]>;
}.

Lemma query_and_disable_interrupts_c s :
  query_and_disable_interrupts s =
    (status ← read_cp0_status;
     write_cp0_status (Z.land status (Z.lnot CP0_STATUS_IE_MASK)) ;;
     mret (Z.land status CP0_STATUS_IE_MASK)) s.
Proof. done. Qed.

Lemma disable_interrupts_c s :
  disable_interrupts s =
    (status ← read_cp0_status; write_cp0_status (Z.land status (Z.lnot CP0_STATUS_IE_MASK))) s.
Proof. done. Qed.

Lemma enable_interrupts_c s :
  enable_interrupts s = (status ← read_cp0_status; write_cp0_status (Z.lor status CP0_STATUS_IE_MASK)) s.
Proof. done. Qed.

(** [query_and_disable_interrupts] and [conditionally_enable_interrupts] are a pair: what
    runs between them with interrupts disabled ends with the Status register it began with. *)
Lemma status_pair (m : KM mips unit) s s1 :
  m (ints_masked s) = Ok (tt, s1) → creg c_status s1 = creg c_status (ints_masked s) →
  ∃ s2, (state ← query_and_disable_interrupts; m ;; conditionally_enable_interrupts state) s = Ok (tt, s2) ∧
    creg c_status s2 = creg c_status s ∧ (∀ c, c ≠ c_status → creg c s2 = creg c s1) ∧
    m_gpr s2 = m_gpr s1 ∧ m_mem s2 = m_mem s1.
Proof.
  intros Hm Hst. erewrite bind_ok by apply ints_query_exec. erewrite bind_ok by exact Hm.
  assert (Hms : creg c_status (ints_masked s) = Z.land (creg c_status s) (Z.lnot 1)).
  { unfold creg, ints_masked. cbn. by rewrite lookup_insert_eq. }
  pose proof (status_restore (creg c_status s)) as Hr. unfold conditionally_enable_interrupts, enable_interrupts.
  change (cp0_status s) with (creg c_status s). unfold CP0_STATUS_IE_MASK. case_bool_decide as E.
  - eexists. split; [reflexivity|]. split_and!; try done.
    + cbn. unfold creg at 1. cbn. rewrite lookup_insert_eq. cbn. change (cp0_status s1) with (creg c_status s1). by rewrite Hst, Hms.
    + intros c Hc. unfold creg. cbn. by rewrite lookup_insert_ne.
  - exists s1. split_and!; try done. by rewrite Hst, Hms.
Qed.
