(* ===== verification/Bytes.v ===== *)
(** * Memory blocks ([kernel/lib/string.c])

    [memcpy] and [bzero] over any memory that is read and written by bytes: plain
    memory in [Print], virtual memory in [Paging].  [n] and [cnt] count bytes. *)
From S2P Require Import Prelude.

(** The instructions [lb] and [sb]; both may change the state (by a TLB exception). *)
Class ByteMemory (S : Type) := {
  load8 : Z → KM S Z;
  store8 : Z → Z → KM S unit;
}.

Section code.
  Context {S : Type} `{ByteMemory S}.

Fixpoint memcpy_loop (fuel : nat) (dp sp cnt : Z) : KM S unit :=
  match fuel with
  | O => knofuel
  | Datatypes.S fuel =>
    if cnt =? 0 then mret ()
    else v ← load8 sp; store8 dp v ;; memcpy_loop fuel (wrap (dp + 1)) (wrap (sp + 1)) (wrap (cnt - 1))
  end.

Definition memcpy (fuel : nat) (dst src cnt : Z) : KM S Z := memcpy_loop fuel dst src cnt ;; mret dst.

Fixpoint bzero (fuel : nat) (dp cnt : Z) : KM S unit :=
  match fuel with
  | O => knofuel
  | Datatypes.S fuel => if cnt =? 0 then mret () else store8 dp 0 ;; bzero fuel (wrap (dp + 1)) (wrap (cnt - 1))
  end.

(** ** The loops as iterations: [I i] holds when [i] bytes are done *)
Lemma memcpy_rule (I : Z → S → Prop) dst src n fuel s :
  0 ≤ dst → dst + n ≤ word_max → 0 ≤ src → src + n ≤ word_max → 0 ≤ n < Z.of_nat fuel →
  (∀ i s, 0 ≤ i < n → I i s →
     ∃ v s1 s2, load8 (src + i) s = Ok (v, s1) ∧ store8 (dst + i) v s1 = Ok (tt, s2) ∧ I (i + 1) s2) →
  I 0 s → ∃ s', memcpy fuel dst src n s = Ok (dst, s') ∧ I n s'.
Proof.
  intros Hd Hdn Hs Hsn Hf Hstep H0.
  cut (∀ fuel i s, 0 ≤ i ≤ n → n - i < Z.of_nat fuel → I i s →
    ∃ s', memcpy_loop fuel (wrap (dst + i)) (wrap (src + i)) (n - i) s = Ok (tt, s') ∧ I n s').
  { intros Hc. destruct (Hc fuel 0 s) as (s' & He & HI); [lia..|done|]. exists s'. split; [|done].
    rewrite !Z.add_0_r, Z.sub_0_r in He. unfold memcpy.
    destruct (decide (n = 0)) as [->|Hn].
    - destruct fuel; [lia|]. cbn in He |- *. injection He as <-. done.
    - rewrite !wrap_small in He by word_lia. by erewrite bind_ok by exact He. }
  clear Hf H0 s fuel. induction fuel as [|fuel IH]; intros i s Hi Hf HI; [lia|]. cbn [memcpy_loop].
  destruct (Z.eqb_spec (n - i) 0) as [E|E].
  - exists s. split; [done|]. by replace n with i by lia.
  - destruct (Hstep i s) as (v & s1 & s2 & Hl & Hst & HI'); [lia|done|].
    rewrite !(wrap_small (_ + i)) by word_lia. erewrite bind_ok by exact Hl. erewrite bind_ok by exact Hst.
    destruct (IH (i + 1) s2) as (s' & He & HI2); [lia..|done|]. exists s'. split; [|done].
    rewrite (wrap_small (n - i - 1)) by word_lia. rewrite <- !Z.add_assoc. by replace (n - i - 1) with (n - (i + 1)) by lia.
Qed.

Lemma bzero_rule (I : Z → S → Prop) dst n fuel s :
  0 ≤ dst → dst + n ≤ word_max → 0 ≤ n < Z.of_nat fuel →
  (∀ i s, 0 ≤ i < n → I i s → ∃ s', store8 (dst + i) 0 s = Ok (tt, s') ∧ I (i + 1) s') →
  I 0 s → ∃ s', bzero fuel (wrap dst) n s = Ok (tt, s') ∧ I n s'.
Proof.
  intros Hd Hdn Hf Hstep H0.
  cut (∀ fuel i s, 0 ≤ i ≤ n → n - i < Z.of_nat fuel → I i s →
    ∃ s', bzero fuel (wrap (dst + i)) (n - i) s = Ok (tt, s') ∧ I n s').
  { intros Hc. destruct (Hc fuel 0 s) as (s' & He & HI); [lia..|done|]. exists s'.
    by rewrite Z.add_0_r, Z.sub_0_r in He. }
  clear Hf H0 s fuel. induction fuel as [|fuel IH]; intros i s Hi Hf HI; [lia|]. cbn [bzero].
  destruct (Z.eqb_spec (n - i) 0) as [E|E].
  - exists s. split; [done|]. by replace n with i by lia.
  - destruct (Hstep i s) as (s1 & Hst & HI'); [lia|done|]. rewrite (wrap_small (dst + i)) by word_lia.
    erewrite bind_ok by exact Hst. destruct (IH (i + 1) s1) as (s' & He & HI2); [lia..|done|]. exists s'. split; [|done].
    rewrite (wrap_small (n - i - 1)) by word_lia. rewrite <- Z.add_assoc. by replace (n - i - 1) with (n - (i + 1)) by lia.
Qed.
End code.
