(* ===== verification/Bitmap.v ===== *)
(** * Bit maps ([kernel/adt/bitmap.h])

    The inline functions of the header, over a memory of bytes ([bm_bytes]) and of
    [bitmap_t] structures ([bm_structs]).  The functions that the header only declares
    ([bitmap_init], the ranges) are in an object file. *)
From S2P Require Import Prelude Bytes.

(** ** Code *)
Definition BITMAP_ELEMENT_BITS : Z := 8.
Definition BITMAP_REMAINER : Z := 7.

Record bitmap_t := Bitmap { bm_elements : Z; bm_bits : Z }.

Record bm_state := BmState { bm_structs : gmap Z bitmap_t; bm_bytes : gmap Z Z }.

Definition bm_load8 (a : Z) : KM bm_state Z := kload (λ s, bm_bytes s !! a).
Definition bm_store8 (a v : Z) : KM bm_state unit :=
  bm_load8 a ;; kmodify (λ s, BmState (bm_structs s) (<[a := v]> (bm_bytes s))).
#[export] Instance bm_byte_memory : ByteMemory bm_state := { load8 := bm_load8; store8 := bm_store8 }.

Definition get_bitmap {A} (f : bitmap_t → A) (bitmap : Z) : KM bm_state A :=
  b ← kload (λ s, bm_structs s !! bitmap); mret (f b).

(** Conversion to [uint8_t]. *)
Definition u8 (x : Z) : Z := x mod 256.

Definition bitmap_set (bitmap element value : Z) : KM bm_state unit :=
  elements ← get_bitmap bm_elements bitmap;
  if elements <=? element then mret ()
  else
    let byte := element / BITMAP_ELEMENT_BITS in
    let mask := u8 (Z.shiftl 1 (Z.land element BITMAP_REMAINER)) in
    bits ← get_bitmap bm_bits bitmap;
    v ← load8 (wrap (bits + byte));
    if negb (value =? 0) then store8 (wrap (bits + byte)) (u8 (Z.lor v mask))
    else store8 (wrap (bits + byte)) (u8 (Z.land v (Z.lnot mask))).

Definition bitmap_get (bitmap element : Z) : KM bm_state Z :=
  elements ← get_bitmap bm_elements bitmap;
  if elements <=? element then mret 0
  else
    let byte := element / BITMAP_ELEMENT_BITS in
    let mask := u8 (Z.shiftl 1 (Z.land element BITMAP_REMAINER)) in
    bits ← get_bitmap bm_bits bitmap;
    v ← load8 (wrap (bits + byte));
    mret (Z.b2z (negb (Z.land v mask =? 0))).

(** ** The set a bit map stands for *)

(** The bit [k] of the byte at [a]. *)
Definition bit_at (s : bm_state) (a k : Z) : option bool := flip Z.testbit k <$> bm_bytes s !! a.

(** The bit map at [p] has [n] elements and its storage begins at [bits]; [X] holds
    the elements that are set.  The storage is as long as [n] elements need and does
    not wrap around. *)
Record bitmap_rep (s : bm_state) (p n bits : Z) (X : gset Z) : Prop := {
  br_struct : bm_structs s !! p = Some (Bitmap n bits);
  br_count : u32 n;
  br_storage : 0 ≤ bits ∧ bits + (n + 7) / 8 ≤ word_max;
  br_bytes a v : bits ≤ a < bits + (n + 7) / 8 → bm_bytes s !! a = Some v → 0 ≤ v < 256;
  br_bits e : 0 ≤ e < n → bit_at s (bits + e / 8) (e mod 8) = Some (bool_decide (e ∈ X));
  br_bound e : e ∈ X → 0 ≤ e < n;
}.

(** Elements of the set after [bitmap_set]. *)
Definition set_element (n e value : Z) (X : gset Z) : gset Z :=
  if bool_decide (n ≤ e) then X else if bool_decide (value = 0) then X ∖ {[e]} else {[e]} ∪ X.

Lemma element_mask e : 0 ≤ e → u8 (Z.shiftl 1 (Z.land e BITMAP_REMAINER)) = 2 ^ (e mod 8).
Proof.
  intros He. change BITMAP_REMAINER with (Z.ones 3). rewrite Z.land_ones, Z.shiftl_1_l by lia.
  change (2 ^ 3) with 8. pose proof (Z.mod_pos_bound e 8 ltac:(lia)). apply Z.mod_small. split; [lia|].
  change 256 with (2 ^ 8). apply Z.pow_lt_mono_r; lia.
Qed.

Lemma u8_testbit x k : 0 ≤ k < 8 → Z.testbit (u8 x) k = Z.testbit x k.
Proof. intros Hk. change (u8 x) with (x mod 2 ^ 8). apply Z.mod_pow2_bits_low. lia. Qed.

(** The byte of an element lies in the storage, and the address does not wrap. *)
Lemma element_byte n e : 0 ≤ e < n → 0 ≤ e / 8 < (n + 7) / 8.
Proof.
  intros He. split; [apply Z.div_pos; lia|]. apply Z.div_lt_upper_bound; [lia|].
  pose proof (Z.div_mod (n + 7) 8 ltac:(lia)). pose proof (Z.mod_pos_bound (n + 7) 8 ltac:(lia)). lia.
Qed.

Lemma rep_element s p n bits X e :
  bitmap_rep s p n bits X → 0 ≤ e < n →
  wrap (bits + e / BITMAP_ELEMENT_BITS) = bits + e / 8 ∧
  ∃ v, bm_bytes s !! (bits + e / 8) = Some v ∧ 0 ≤ v < 256 ∧ Z.testbit v (e mod 8) = bool_decide (e ∈ X).
Proof.
  intros [] He. pose proof (element_byte n e He). split.
  - apply wrap_small. unfold BITMAP_ELEMENT_BITS. word_lia.
  - specialize (br_bits0 e He). unfold bit_at in br_bits0. destruct (bm_bytes s !! _) as [v|] eqn:E; [|done].
    exists v. injection br_bits0 as Hb. split_and!; [done|eapply br_bytes0; [|exact E]; lia..|done].
Qed.

(** The two new values of the byte, bit by bit. *)
Lemma mask_set_testbit v m k : 0 ≤ m < 8 → 0 ≤ k < 8 →
  Z.testbit (u8 (Z.lor v (2 ^ m))) k = (bool_decide (k = m) || Z.testbit v k).
Proof.
  intros Hm Hk. rewrite u8_testbit, Z.lor_spec, Z.pow2_bits_eqb by lia. case_bool_decide; destruct (Z.eqb_spec m k); try lia; by rewrite orb_comm.
Qed.

Lemma mask_clear_testbit v m k : 0 ≤ m < 8 → 0 ≤ k < 8 →
  Z.testbit (u8 (Z.land v (Z.lnot (2 ^ m)))) k = (negb (bool_decide (k = m)) && Z.testbit v k).
Proof.
  intros Hm Hk. rewrite u8_testbit, Z.land_spec, Z.lnot_spec, Z.pow2_bits_eqb by lia.
  case_bool_decide; destruct (Z.eqb_spec m k); try lia; by rewrite andb_comm.
Qed.

(** A byte stored for the element [e] changes the element [e] only. *)
Lemma bitmap_rep_store s p n bits X e v w b :
  bitmap_rep s p n bits X → 0 ≤ e < n → bm_bytes s !! (bits + e / 8) = Some v → 0 ≤ w < 256 →
  (∀ k, 0 ≤ k < 8 → Z.testbit w k = if bool_decide (k = e mod 8) then b else Z.testbit v k) →
  let s' := BmState (bm_structs s) (<[bits + e / 8 := w]> (bm_bytes s)) in
  bitmap_rep s' p n bits (if b : bool then {[e]} ∪ X else X ∖ {[e]}) ∧
  (∀ a k, 0 ≤ k < 8 → (a, k) ≠ (bits + e / 8, e mod 8) → bit_at s' a k = bit_at s a k).
Proof.
  intros [] He Hv Hw Hbit s'. pose proof (Z.mod_pos_bound e 8 ltac:(lia)).
  assert (Hframe : ∀ a k, 0 ≤ k < 8 → (a, k) ≠ (bits + e / 8, e mod 8) → bit_at s' a k = bit_at s a k).
  { intros a k Hk Hne. unfold bit_at, s'; cbn. destruct (decide (a = bits + e / 8)) as [->|]; [|by rewrite lookup_insert_ne].
    rewrite lookup_insert_eq, Hv. cbn. rewrite Hbit by done. rewrite bool_decide_eq_false_2; [done|]. intros ->. done. }
  split; [|exact Hframe]. split; [done..| | |].
  - intros a v' Ha. unfold s'; cbn. intros [[_ <-]|[_ E]]%lookup_insert_Some; [done|by eapply br_bytes0].
  - intros e' He'. pose proof (Z.mod_pos_bound e' 8 ltac:(lia)). destruct (decide (e' = e)) as [->|Hne].
    + unfold bit_at, s'; cbn. rewrite lookup_insert_eq. cbn. rewrite Hbit, bool_decide_eq_true_2 by done.
      f_equal. destruct b; symmetry; [apply bool_decide_eq_true_2|apply bool_decide_eq_false_2]; set_solver.
    + rewrite Hframe, br_bits0 by (done || (intros [=]; apply Hne; rewrite (Z.div_mod e 8), (Z.div_mod e' 8) by lia; lia)).
      f_equal. apply bool_decide_ext. destruct b; set_solver.
  - intros e' He'. destruct b; [|apply br_bound0; set_solver].
    apply elem_of_union in He' as [->%elem_of_singleton|]; [lia|by apply br_bound0].
Qed.

Lemma get_bitmap_ok {A} (f : bitmap_t → A) s p b : bm_structs s !! p = Some b → get_bitmap f p s = Ok (f b, s).
Proof. intros H. unfold get_bitmap. by erewrite bind_ok by (by apply load_some). Qed.

(** [bitmap_set] changes the one element, none when it is out of range, and no other
    bit of the storage. *)
Lemma bitmap_set_exec s p n bits X e value :
  bitmap_rep s p n bits X → u32 e →
  ∃ s', bitmap_set p e value s = Ok (tt, s') ∧ bitmap_rep s' p n bits (set_element n e value X) ∧
        bm_structs s' = bm_structs s ∧
        (∀ a k, 0 ≤ k < 8 → (e < n → (a, k) ≠ (bits + e / 8, e mod 8)) → bit_at s' a k = bit_at s a k).
Proof.
  intros Hr [He _]. pose proof (br_struct _ _ _ _ _ Hr) as Hs. unfold bitmap_set, set_element.
  erewrite bind_ok by (by apply get_bitmap_ok). cbn.
  destruct (Z.leb_spec n e) as [Hn|Hn]; [rewrite bool_decide_eq_true_2 by done; by exists s|].
  rewrite (bool_decide_eq_false_2 (n ≤ e)) by lia.
  destruct (rep_element s p n bits X e Hr ltac:(lia)) as (Hw & v & Hv & Hv8 & Hb).
  erewrite bind_ok by (by apply get_bitmap_ok). cbn [bm_bits]. rewrite Hw, element_mask by done.
  unfold load8, store8, bm_byte_memory. erewrite bind_ok by (by apply load_some).
  pose proof (Z.mod_pos_bound e 8 ltac:(lia)).
  destruct (Z.eqb_spec value 0) as [->|Hne]; cbn [negb]; unfold bm_store8, bm_load8; erewrite bind_ok by (by apply load_some).
  - eexists; split; [done|]. rewrite (bool_decide_eq_true_2 (0 = 0)) by done.
    destruct (bitmap_rep_store s p n bits X e v (u8 (Z.land v (Z.lnot (2 ^ (e mod 8))))) false) as [H1 H2]; try done.
    + apply Z.mod_pos_bound. lia.
    + intros k Hk. rewrite mask_clear_testbit by done. by destruct (bool_decide (k = _)).
    + split_and!; [done|done|]. intros. apply H2; auto.
  - eexists; split; [done|]. rewrite (bool_decide_eq_false_2 (value = 0)) by done.
    destruct (bitmap_rep_store s p n bits X e v (u8 (Z.lor v (2 ^ (e mod 8)))) true) as [H1 H2]; try done.
    + apply Z.mod_pos_bound. lia.
    + intros k Hk. rewrite mask_set_testbit by done. by destruct (bool_decide (k = _)).
    + split_and!; [done|done|]. intros. apply H2; auto.
Qed.

Lemma land_pow2_zero v m : 0 ≤ m → (Z.land v (2 ^ m) =? 0) = negb (Z.testbit v m).
Proof.
  intros Hm. destruct (Z.testbit v m) eqn:E; cbn; [apply Z.eqb_neq|apply Z.eqb_eq].
  - intros H. apply (f_equal (λ x, Z.testbit x m)) in H.
    by rewrite Z.land_spec, E, Z.pow2_bits_true, Z.bits_0 in H by done.
  - apply Z.bits_inj_iff. intros k. rewrite Z.land_spec, Z.bits_0, Z.pow2_bits_eqb by done.
    destruct (Z.eqb_spec m k) as [<-|]; [by rewrite E|by rewrite andb_false_r].
Qed.

Lemma bitmap_get_exec s p n bits X e :
  bitmap_rep s p n bits X → u32 e → bitmap_get p e s = Ok (Z.b2z (bool_decide (e ∈ X)), s).
Proof.
  intros Hr [He _]. pose proof (br_struct _ _ _ _ _ Hr) as Hs. unfold bitmap_get.
  erewrite bind_ok by (by apply get_bitmap_ok). cbn.
  destruct (Z.leb_spec n e) as [Hn|Hn].
  { rewrite bool_decide_eq_false_2; [done|]. intros ?%(br_bound _ _ _ _ _ Hr). lia. }
  destruct (rep_element s p n bits X e Hr ltac:(lia)) as (Hw & v & Hv & Hv8 & Hb).
  erewrite bind_ok by (by apply get_bitmap_ok). cbn [bm_bits]. rewrite Hw, element_mask by done.
  unfold load8, bm_byte_memory. erewrite bind_ok by (by apply load_some).
  rewrite land_pow2_zero, negb_involutive by (apply Z.mod_pos_bound; lia). by rewrite Hb.
Qed.

(** ** Properties *)

(** A sequence of calls of [bitmap_set] on one bit map. *)
Fixpoint bitmap_sets (bitmap : Z) (calls : list (Z * Z)) : KM bm_state unit :=
  match calls with
  | [] => mret ()
  | (element, value) :: calls => bitmap_set bitmap element value ;; bitmap_sets bitmap calls
  end.

(** The value of an element after the calls: that of the last call for it. *)
Fixpoint last_value (e : Z) (calls : list (Z * Z)) (before : bool) : bool :=
  match calls with
  | [] => before
  | (e', v) :: calls => last_value e calls (if bool_decide (e' = e) then negb (bool_decide (v = 0)) else before)
  end.

Lemma bitmap_sets_exec p n bits calls : Forall (λ c, u32 c.1) calls → ∀ s X, bitmap_rep s p n bits X →
  ∃ s' X', bitmap_sets p calls s = Ok (tt, s') ∧ bitmap_rep s' p n bits X' ∧
    (∀ e, bool_decide (e ∈ X') = if bool_decide (0 ≤ e < n) then last_value e calls (bool_decide (e ∈ X)) else false) ∧
    (∀ a k, 0 ≤ k < 8 → (∀ e, 0 ≤ e < n → (a, k) ≠ (bits + e / 8, e mod 8)) → bit_at s' a k = bit_at s a k).
Proof.
  induction 1 as [|[e v] calls He _ IH]; intros s X Hr; cbn [bitmap_sets last_value].
  - exists s, X. split_and!; [done|done| |done]. intros e. destruct (bool_decide_reflect (0 ≤ e < n)) as [|He]; [done|].
    apply bool_decide_eq_false_2. by intros ?%(br_bound _ _ _ _ _ Hr).
  - destruct (bitmap_set_exec s p n bits X e v Hr He) as (s1 & Hx & Hr1 & _ & Hf1). erewrite bind_ok by exact Hx.
    destruct (IH s1 _ Hr1) as (s' & X' & Hx' & Hr' & Hv & Hf). exists s', X'. split_and!; [done|done| |].
    + intros e'. rewrite Hv. case_bool_decide as He'; [|done]. f_equal. cbn in He. unfold set_element, u32 in *.
      repeat case_bool_decide; try lia; try done; set_solver.
    + intros a k Hk Hne. rewrite Hf by done. apply Hf1; [done|]. intros. apply Hne. destruct He; cbn in *; lia.
Qed.

(** C38. After any sequence of [bitmap_set] on a bit map, [bitmap_get] returns for an
    element the value of the last call for it, what it had been when there was none,
    and 0 when it is out of range; every call returns, and no bit outside the elements
    of the bit map changes. *)
Theorem bitmap_is_a_set s p n bits X calls e :
  bitmap_rep s p n bits X → Forall (λ c, u32 c.1) calls → u32 e →
  ∃ s', bitmap_sets p calls s = Ok (tt, s') ∧
    bitmap_get p e s' =
      Ok (Z.b2z (bool_decide (e < n) && last_value e calls (bool_decide (e ∈ X))), s') ∧
    (∀ a k, 0 ≤ k < 8 → (∀ e, 0 ≤ e < n → (a, k) ≠ (bits + e / 8, e mod 8)) → bit_at s' a k = bit_at s a k).
Proof.
  intros Hr Hc He. destruct (bitmap_sets_exec p n bits calls Hc s X Hr) as (s' & X' & Hx & Hr' & Hv & Hf).
  exists s'. split_and!; [done| |done]. rewrite (bitmap_get_exec s' p n bits X' e Hr' He), Hv.
  destruct He. rewrite (bool_decide_ext (0 ≤ e < n) (e < n)) by lia. by destruct (bool_decide (e < n)).
Qed.

Definition sample_bitmap : bm_state :=
  BmState {[ 0x100 := Bitmap 11 0x200 ]} (list_to_map [(0x200, 0); (0x201, 248)]).

Lemma sample_bitmap_rep : bitmap_rep sample_bitmap 0x100 11 0x200 ∅.
Proof.
  split; [done|done|by vm_compute| | |set_solver].
  - intros a v Ha. change ((11 + 7) / 8) with 2 in Ha.
    assert (a = 0x200 ∨ a = 0x201) as [-> | ->] by lia; intros Hv; vm_compute in Hv; injection Hv as <-; lia.
  - intros e He. assert (e ∈ seqZ 0 11) as Hin by (apply elem_of_seqZ; lia). clear He. revert e Hin. apply Forall_forall.
    apply (bool_decide_unpack _). by vm_compute.
Qed.

Lemma bitmap_is_a_set_witness :
  ∃ s', bitmap_sets 0x100 [(9, 1); (10, 1); (9, 0); (11, 1)] sample_bitmap = Ok (tt, s') ∧
    bitmap_get 0x100 10 s' = Ok (1, s').
Proof.
  destruct (bitmap_is_a_set sample_bitmap 0x100 11 0x200 ∅ [(9, 1); (10, 1); (9, 0); (11, 1)] 10) as (s' & H1 & H2 & _).
  - exact sample_bitmap_rep.
  - repeat constructor; by vm_compute.
  - split; by vm_compute.
  - by exists s'.
Defined.
