(* ===== verification/Print.v ===== *)
(** * Console output ([kernel/lib/print.c], [drivers/printer.h])

    The kernel's formatted output over a memory of bytes: strings and the number
    buffer are addressed as in the code, the console is the list of bytes printed. *)
From Stdlib Require Import Ascii String.
From S2P Require Import Prelude Bytes.
Local Open Scope Z_scope.

(** Memory of bytes and the characters sent to the printer so far. *)
Record console := Console { k_mem : gmap Z Z; k_out : list Z }.

Definition chr (c : ascii) : Z := Z.of_N (N_of_ascii c).
Definition chars (s : string) : list Z := chr <$> list_ascii_of_string s.

Definition rd8 (a : Z) : KM console Z := kload (λ s, k_mem s !! a).
Definition wr8 (a v : Z) : KM console unit :=
  rd8 a ;; kmodify (λ s, Console (<[a := v]> (k_mem s)) (k_out s)).

(** The result of arithmetic on [int], which must not overflow. *)
Definition int (x : Z) : KM console Z :=
  kload (λ _, if bool_decide (- 2 ^ 31 ≤ x < 2 ^ 31) then Some x else None).

#[export] Instance console_bytes : ByteMemory console := { load8 := rd8; store8 := wr8 }.

(** ** Characters and strings *)
Definition printer_putchar (c : Z) : KM console unit :=
  kmodify (λ s, Console (k_mem s) (k_out s ++ [c])).

Definition putc (c : Z) : KM console Z := printer_putchar c ;; mret 1.

Fixpoint puts_loop (fuel : nat) (text cnt : Z) : KM console Z :=
  match fuel with
  | O => knofuel
  | S fuel =>
      c ← rd8 text;
      if c =? 0 then mret cnt
      else putc c ;; puts_loop fuel (wrap (text + 1)) (wrap (cnt + 1))
  end.
Definition puts (fuel : nat) (text : Z) : KM console Z := puts_loop fuel text 0.

(** ** Numbers *)
Definition NF_ZEROPAD : Z := 1.
Definition NF_SIGNED : Z := 2.
Definition NF_PLUS : Z := 4.
Definition NF_SPACE : Z := 8.
Definition NF_LEFT : Z := 16.
Definition NF_SPECIAL : Z := 32.
Definition NF_UPCASE : Z := 64.

Definition nf (format flag : Z) : bool := negb (Z.land format flag =? 0).

Definition digits_locase : list Z := chars "0123456789abcdef".
Definition digits_upcase : list Z := chars "0123456789ABCDEF".

(** [if (buf <= end) *buf = c; ++buf;] *)
Definition store_char (last buf c : Z) : KM console Z :=
  (if buf <=? last then wr8 buf c else mret ()) ;; mret (wrap (buf + 1)).

(** The digits of [num], least significant first, into [tmp[32]]; [tmp] holds the
    characters stored so far. *)
Fixpoint number_digits (fuel : nat) (digits : list Z) (base num : Z) (tmp : list Z) : KM console (list Z) :=
  match fuel with
  | O => knofuel
  | S fuel =>
      d ← kload (λ _, digits !! Z.to_nat (num mod base));
      tmp ← kload (λ _, if bool_decide (length tmp < 32)%nat then Some (tmp ++ [d]) else None);
      let num := num / base in
      if negb (num =? 0) then number_digits fuel digits base num tmp else mret tmp
  end.

(** [while (size-- > 0) ...]: the new [size] and [buf]. *)
Fixpoint pad_loop (fuel : nat) (last c size buf : Z) : KM console (Z * Z) :=
  match fuel with
  | O => knofuel
  | S fuel =>
      size' ← int (size - 1);
      if 0 <? size then buf ← store_char last buf c; pad_loop fuel last c size' buf
      else mret (size', buf)
  end.
Definition pad_while (last c size buf : Z) : KM console (Z * Z) := pad_loop (S (Z.to_nat size)) last c size buf.

(** [while (i < precision--) ...]. *)
Fixpoint precision_loop (fuel : nat) (last i precision buf : Z) : KM console Z :=
  match fuel with
  | O => knofuel
  | S fuel =>
      precision' ← int (precision - 1);
      if i <? precision then buf ← store_char last buf (chr "0"); precision_loop fuel last i precision' buf
      else mret buf
  end.

(** [while (i-- > 0) ...]. *)
Fixpoint output_loop (last : Z) (tmp : list Z) (i : nat) (buf : Z) : KM console Z :=
  match i with
  | O => mret buf
  | S i => c ← kload (λ _, tmp !! i); buf ← store_char last buf c; output_loop last tmp i buf
  end.

(** The sign character (0: none), the absolute value and the remaining size. *)
Definition number_sign (num size format : Z) : KM console (Z * Z * Z) :=
  if nf format NF_SIGNED then
    if 2 ^ 31 <=? num then size ← int (size - 1); mret (chr "-", wrap (- num), size)
    else if nf format NF_PLUS then size ← int (size - 1); mret (chr "+", num, size)
    else if nf format NF_SPACE then size ← int (size - 1); mret (chr " ", num, size)
    else mret (0, num, size)
  else mret (0, num, size).

Definition number_special (base size format : Z) : KM console Z :=
  if nf format NF_SPECIAL then
    if base =? 16 then int (size - 2) else if base =? 8 then int (size - 1) else mret size
  else mret size.

Definition number_prefix (last base format buf : Z) : KM console Z :=
  if nf format NF_SPECIAL then
    if base =? 8 then store_char last buf (chr "0")
    else if base =? 16 then buf ← store_char last buf (chr "0"); store_char last buf (chr "x")
    else mret buf
  else mret buf.

(** The second half of [number], which writes to the buffer. *)
Definition number_write (last sign base format pad size i precision : Z) (tmp : list Z) (buf : Z) : KM console Z :=
  '(size, buf) ← (if negb (nf format (NF_ZEROPAD + NF_LEFT)) then pad_while last (chr " ") size buf
                  else mret (size, buf));
  buf ← (if negb (sign =? 0) then store_char last buf sign else mret buf);
  buf ← number_prefix last base format buf;
  '(size, buf) ← (if negb (nf format NF_LEFT) then pad_while last pad size buf else mret (size, buf));
  buf ← precision_loop (S (Z.to_nat (precision - i))) last i precision buf;
  buf ← output_loop last tmp (length tmp) buf;
  '(_, buf) ← pad_while last (chr " ") size buf;
  mret buf.

Definition number (buf last num base size precision format : Z) : KM console Z :=
  (if (base <? 2) || (16 <? base) then kpanic else mret ()) ;;
  let digits := if nf format NF_UPCASE then digits_upcase else digits_locase in
  let format := if nf format NF_LEFT then Z.land format (Z.lnot NF_ZEROPAD) else format in
  let pad := if nf format NF_ZEROPAD then chr "0" else chr " " in
  '(sign, num, size) ← number_sign num size format;
  size ← number_special base size format;
  tmp ← number_digits 33 digits base num [];
  let i := Z.of_nat (length tmp) in
  let precision := if precision <? i then i else precision in
  size ← int (size - precision);
  buf ← number_write last sign base format pad size i precision tmp buf;
  (if buf <=? last then wr8 buf 0 else mret ()) ;;
  mret buf.

(** ** Formatted output *)
Definition va_arg (args : list Z) : KM console (Z * list Z) :=
  kload (λ _, match args with a :: args => Some (a, args) | [] => None end).

Section vprintk.
  (** The address of the local [buf[32]] and of the literal ["<NULL>"]; the bound on
      the loops. *)
  Context (buf null_text : Z) (fuel : nat).

Definition vprintk_number (args : list Z) (base width flags : Z) : KM console (list Z * Z) :=
  '(num, args) ← va_arg args;
  number buf (buf + 32 - 1) num base width (-1) flags ;;
  n ← puts fuel buf;
  mret (args, n).

(** The directive [c] after a ['%']. *)
Definition vprintk_directive (c : Z) (args : list Z) : KM console (list Z * Z) :=
  if c =? chr "%" then n ← putc (chr "%"); mret (args, n)
  else if c =? chr "c" then '(a, args) ← va_arg args; n ← putc (a mod 2 ^ 8); mret (args, n)
  else if c =? chr "s" then
    '(str, args) ← va_arg args;
    n ← puts fuel (if negb (str =? 0) then str else null_text); mret (args, n)
  else if c =? chr "p" then vprintk_number args 16 (2 + 2 * 4) (Z.lor NF_ZEROPAD NF_SPECIAL)
  else if (c =? chr "d") || (c =? chr "i") then vprintk_number args 10 (-1) NF_SIGNED
  else if c =? chr "o" then vprintk_number args 8 (-1) NF_SPECIAL
  else if c =? chr "u" then vprintk_number args 10 (-1) 0
  else if c =? chr "x" then vprintk_number args 16 (2 + 2 * 4) (Z.lor NF_ZEROPAD NF_SPECIAL)
  else n ← putc (chr "%"); n' ← putc c; mret (args, wrap (n + n')).

Fixpoint vprintk_loop (n : nat) (format : Z) (args : list Z) (printed : Z) : KM console Z :=
  match n with
  | O => knofuel
  | S n =>
      c ← rd8 format;
      if c =? 0 then mret printed
      else if negb (c =? chr "%") then
        k ← putc c; vprintk_loop n (wrap (format + 1)) args (wrap (printed + k))
      else
        let format := wrap (format + 1) in
        c ← rd8 format;
        '(args, k) ← vprintk_directive c args;
        vprintk_loop n (wrap (format + 1)) args (wrap (printed + k))
  end.

Definition vprintk (format : Z) (args : list Z) : KM console Z := vprintk_loop fuel format args 0.
Definition printk (format : Z) (args : list Z) : KM console Z := vprintk format args.

(** The dump of the registers goes to the simulator, which then stops. *)
Definition panic (format : Z) (args : list Z) : KM console unit := vprintk format args ;; kpanic.

End vprintk.
