(* ===== verification/PrintTheorems.v ===== *)
(** * Formatted output is correct

    [number] writes the reference rendering of its argument, cut off at the end of the
    buffer. *)
From Stdlib Require Import Ascii String.
From S2P Require Import Prelude Print.
Local Open Scope Z_scope.

(** ** Digits *)
Fixpoint digits_rev (n : nat) (base v : Z) : list Z :=
  match n with
  | O => []
  | S n => v mod base :: if v / base =? 0 then [] else digits_rev n base (v / base)
  end.

(** The digits of [v], most significant first. *)
Definition digits (base v : Z) : list Z := reverse (digits_rev 32 base v).

(** The number that digits stand for. *)
Definition value (base : Z) (ds : list Z) : Z := foldl (λ n d, n * base + d) 0 ds.

Definition value_rev (base : Z) (ds : list Z) : Z := foldr (λ d n, n * base + d) 0 ds.

Lemma value_reverse base ds : value base (reverse ds) = value_rev base ds.
Proof.
  unfold value, value_rev. induction ds as [|d ds IH]; [done|].
  rewrite reverse_cons, foldl_app, IH. done.
Qed.

Section digits.
Context (base : Z) (Hbase : 2 ≤ base ≤ 16).

Lemma digits_rev_value n v : (0 < n)%nat → 0 ≤ v < base ^ Z.of_nat n → value_rev base (digits_rev n base v) = v.
Proof.
  revert v. induction n as [|n IH]; intros v Hn Hv; [lia|]. cbn [digits_rev].
  assert (Hdm : v = base * (v / base) + v mod base) by (apply Z.div_mod; lia).
  destruct (Z.eqb_spec (v / base) 0) as [E|E]; [unfold value_rev; cbn; lia|].
  rewrite Nat2Z.inj_succ, Z.pow_succ_r in Hv by lia.
  assert (Hq : 0 ≤ v / base < base ^ Z.of_nat n) by (split; [apply Z.div_pos; lia|apply Z.div_lt_upper_bound; lia]).
  unfold value_rev in *. cbn [foldr]. rewrite IH; [lia| |done].
  destruct n; [cbn in Hq; lia|lia].
Qed.

Lemma digits_rev_range n v : 0 ≤ v → Forall (λ d, 0 ≤ d < base) (digits_rev n base v).
Proof.
  revert v. induction n as [|n IH]; intros v Hv; cbn [digits_rev]; [by constructor|].
  constructor; [apply Z.mod_pos_bound; lia|]. case_match; [by constructor|]. apply IH, Z.div_pos; lia.
Qed.

Lemma digits_rev_length n v : (length (digits_rev n base v) ≤ n)%nat.
Proof. revert v. induction n as [|n IH]; intros v; cbn [digits_rev length]; [lia|]. case_match; cbn; [lia|]. specialize (IH (v / base)). lia. Qed.

Lemma digits_rev_nonempty n v : (0 < n)%nat → (1 ≤ length (digits_rev n base v))%nat.
Proof. destruct n; cbn; lia. Qed.

(** The most significant digit is not 0, unless the number is 0. *)
Lemma digits_rev_last n v : 0 < v < base ^ Z.of_nat n → last (digits_rev n base v) ≠ Some 0.
Proof.
  revert v. induction n as [|n IH]; intros v Hv; [cbn in Hv; lia|]. cbn [digits_rev].
  destruct (Z.eqb_spec (v / base) 0) as [E|E].
  - cbn. intros [= Hm]. pose proof (Z.div_mod v base ltac:(lia)). lia.
  - rewrite Nat2Z.inj_succ, Z.pow_succ_r in Hv by lia.
    assert (Hq : 0 < v / base < base ^ Z.of_nat n).
    { split; [|apply Z.div_lt_upper_bound; lia]. assert (0 ≤ v / base) by (apply Z.div_pos; lia). lia. }
    specialize (IH _ Hq). rewrite last_cons. by destruct (last (digits_rev n base (v / base))) as [d|] eqn:El;
      [|apply last_None in El; pose proof (digits_rev_nonempty n (v / base)); rewrite El in *; destruct n; cbn in *; lia].
Qed.

Lemma pow32 v : u32 v → 0 ≤ v < base ^ 32.
Proof.
  unfold u32, word_max. intros ?. split; [lia|]. apply Z.lt_le_trans with (2 ^ 32); [lia|]. apply Z.pow_le_mono_l. lia.
Qed.

(** [digits] is the numeral: it has the value, digits in range and no leading zero. *)
Lemma digits_correct v :
  u32 v → value base (digits base v) = v ∧ Forall (λ d, 0 ≤ d < base) (digits base v) ∧
    (1 ≤ length (digits base v) ≤ 32)%nat ∧ (v ≠ 0 → head (digits base v) ≠ Some 0).
Proof.
  intros Hv. unfold digits. pose proof (pow32 v Hv) as Hp. split; [|split; [|split]].
  - rewrite value_reverse. apply digits_rev_value; [lia|done].
  - rewrite Forall_reverse. apply digits_rev_range. lia.
  - rewrite length_reverse. pose proof (digits_rev_length 32 v). pose proof (digits_rev_nonempty 32 v). lia.
  - intros H0. rewrite head_reverse. apply digits_rev_last. change (Z.of_nat 32) with 32. lia.
Qed.
End digits.

(** The characters of digits. *)
Definition digit_char (upcase : bool) (d : Z) : Z :=
  default 0 ((if upcase then digits_upcase else digits_locase) !! Z.to_nat d).

(** ** Writing with truncation *)

(** [l] is stored at [buf], up to the address [last]. *)
Fixpoint write (last buf : Z) (l : list Z) (m : gmap Z Z) : gmap Z Z :=
  match l with
  | [] => m
  | c :: l => write last (buf + 1) l (if buf <=? last then <[buf := c]> m else m)
  end.

Definition emit (last buf : Z) (l : list Z) (s : console) : console :=
  Console (write last buf l (k_mem s)) (k_out s).

Definition mapped (buf last : Z) (s : console) : Prop := ∀ a, buf ≤ a ≤ last → is_Some (k_mem s !! a).

Lemma write_app last buf l1 l2 m :
  write last (buf + Z.of_nat (length l1)) l2 (write last buf l1 m) = write last buf (l1 ++ l2) m.
Proof.
  revert buf m. induction l1 as [|c l1 IH]; intros buf m; cbn [write length app].
  - by rewrite Z.add_0_r.
  - rewrite <- IH. f_equal. lia.
Qed.

Lemma emit_app last buf l1 l2 s :
  emit last (buf + Z.of_nat (length l1)) l2 (emit last buf l1 s) = emit last buf (l1 ++ l2) s.
Proof. unfold emit. cbn. by rewrite write_app. Qed.

Lemma emit_nil last buf s : emit last buf [] s = s.
Proof. by destruct s. Qed.

Lemma write_mapped last buf l m a : is_Some (m !! a) → is_Some (write last buf l m !! a).
Proof.
  revert buf m. induction l as [|c l IH]; intros buf m Ha; cbn [write]; [done|]. apply IH.
  case_match; [|done]. destruct (decide (a = buf)) as [->|]; [rewrite lookup_insert_eq; eauto|].
  by rewrite lookup_insert_ne.
Qed.

Lemma emit_mapped last buf l s b e : mapped b e s → mapped b e (emit last buf l s).
Proof. intros H a Ha. apply write_mapped, H, Ha. Qed.

Lemma mapped_sub b b' e s : b ≤ b' → mapped b e s → mapped b' e s.
Proof. intros Hb H a Ha. apply H. lia. Qed.

(** ** The loops of [number] *)

(** [p] is a position from which [n] more characters fit into the address space. *)
Definition room (last p n : Z) (s : console) : Prop := 0 ≤ p ∧ p + n < word_max ∧ mapped p last s.

Lemma room_emit last p n n' l s :
  room last p n s → Z.of_nat (length l) + n' ≤ n → 0 ≤ n' →
  room last (p + Z.of_nat (length l)) n' (emit last p l s).
Proof.
  intros (H0 & Hn & Hm) Hl Hn'. split; [lia|split; [lia|]]. apply emit_mapped. by eapply mapped_sub; [|done]; lia.
Qed.

Lemma room_le last p n n' s : room last p n s → n' ≤ n → room last p n' s.
Proof. intros (? & ? & ?) ?. split; [done|split; [lia|done]]. Qed.

Lemma store_char_spec last p c s :
  room last p 1 s → store_char last p c s = Ok (p + 1, emit last p [c] s).
Proof.
  intros (H0 & Hn & Hm). unfold store_char, emit. cbn [write].
  destruct (Z.leb_spec p last).
  - unfold wr8, rd8. rewrite bind_assoc. destruct (Hm p) as [x Hx]; [lia|].
    erewrite bind_ok by (apply load_some; exact Hx). cbn. by rewrite wrap_small by word_lia.
  - rewrite bind_ret. cbn. rewrite wrap_small by word_lia. by destruct s.
Qed.

Lemma int_ok x s : - 2 ^ 31 ≤ x < 2 ^ 31 → int x s = Ok (x, s).
Proof. intros H. unfold int. apply load_some. by rewrite bool_decide_eq_true_2. Qed.

Lemma pad_loop_spec last c n size p s :
  Z.to_nat size = n → - 2 ^ 31 < size < 2 ^ 31 → room last p (Z.of_nat n) s →
  pad_loop (S n) last c size p s =
    Ok ((Z.min size 0 - 1, p + Z.of_nat n), emit last p (replicate n c) s).
Proof.
  revert size p s. induction n as [|n IH]; intros size p s Hn Hs Hr; cbn [pad_loop].
  - erewrite bind_ok by (apply int_ok; lia). rewrite (proj2 (Z.ltb_ge 0 size)) by lia.
    rewrite emit_nil. unfold mret, KM_ret. do 3 f_equal; lia.
  - erewrite bind_ok by (apply int_ok; lia). rewrite (proj2 (Z.ltb_lt 0 size)) by lia.
    erewrite bind_ok by (apply store_char_spec; eapply room_le; [done|lia]).
    cbn [pad_loop] in IH. rewrite (IH (size - 1)); [|lia|lia|].
    + rewrite <- (emit_app last p [c] (replicate n c)). cbn [length]. change (Z.of_nat 1) with 1.
      do 3 f_equal; lia.
    + change 1 with (Z.of_nat (length [c])) at 1. eapply room_emit; [done|cbn; lia|lia].
Qed.

Lemma pad_while_spec last c size p s :
  - 2 ^ 31 < size < 2 ^ 31 → room last p (Z.max size 0) s →
  pad_while last c size p s =
    Ok ((Z.min size 0 - 1, p + Z.max size 0), emit last p (replicate (Z.to_nat size) c) s).
Proof.
  intros Hs Hr. unfold pad_while. rewrite (pad_loop_spec last c (Z.to_nat size)); [|done|done|].
  - do 3 f_equal. lia.
  - by replace (Z.of_nat (Z.to_nat size)) with (Z.max size 0) by lia.
Qed.

Lemma precision_loop_spec last n i precision p s :
  precision - i = Z.of_nat n → 0 ≤ i → - 2 ^ 31 < precision < 2 ^ 31 → room last p (Z.of_nat n) s →
  precision_loop (S n) last i precision p s = Ok (p + Z.of_nat n, emit last p (replicate n (chr "0")) s).
Proof.
  revert precision p s. induction n as [|n IH]; intros precision p s Hn Hi Hs Hr; cbn [precision_loop].
  - erewrite bind_ok by (apply int_ok; lia). rewrite (proj2 (Z.ltb_ge i precision)) by lia.
    rewrite emit_nil. unfold mret, KM_ret. do 2 f_equal; lia.
  - erewrite bind_ok by (apply int_ok; lia). rewrite (proj2 (Z.ltb_lt i precision)) by lia.
    erewrite bind_ok by (apply store_char_spec; eapply room_le; [done|lia]).
    cbn [precision_loop] in IH. rewrite (IH (precision - 1)); [|lia|lia|lia|].
    + rewrite <- (emit_app last p [chr "0"] (replicate n (chr "0"))). cbn [length]. change (Z.of_nat 1) with 1.
      do 2 f_equal; lia.
    + change 1 with (Z.of_nat (length [chr "0"])) at 1. eapply room_emit; [done|cbn; lia|lia].
Qed.

Lemma output_loop_spec last tmp i p s :
  (i ≤ length tmp)%nat → room last p (Z.of_nat i) s →
  output_loop last tmp i p s = Ok (p + Z.of_nat i, emit last p (reverse (take i tmp)) s).
Proof.
  revert p s. induction i as [|i IH]; intros p s Hi Hr; cbn [output_loop].
  - rewrite emit_nil. unfold mret, KM_ret. do 2 f_equal; lia.
  - destruct (lookup_lt_is_Some_2 tmp i) as [c Hc]; [lia|].
    erewrite bind_ok by (apply load_some; exact Hc).
    erewrite bind_ok by (apply store_char_spec; eapply room_le; [done|lia]).
    rewrite IH; [|lia|].
    + rewrite (take_S_r _ _ _ Hc), reverse_snoc. change (c :: reverse (take i tmp)) with ([c] ++ reverse (take i tmp)). rewrite <- emit_app. cbn [length].
      change (Z.of_nat 1) with 1. do 2 f_equal; lia.
    + change 1 with (Z.of_nat (length [c])) at 1. eapply room_emit; [done|cbn; lia|lia].
Qed.

Lemma digit_some (up : bool) d :
  0 ≤ d < 16 → (if up then digits_upcase else digits_locase) !! Z.to_nat d = Some (digit_char up d).
Proof.
  intros Hd. unfold digit_char.
  destruct (lookup_lt_is_Some_2 (if up then digits_upcase else digits_locase) (Z.to_nat d)) as [c Hc].
  - destruct up; cbn; lia.
  - by rewrite Hc.
Qed.

Lemma number_digits_spec (up : bool) base n fuel v tmp s :
  2 ≤ base ≤ 16 → 0 ≤ v → (0 < n < fuel)%nat → v < base ^ Z.of_nat n → (length tmp + n ≤ 32)%nat →
  number_digits fuel (if up then digits_upcase else digits_locase) base v tmp s =
    Ok (tmp ++ (digit_char up <$> digits_rev n base v), s).
Proof.
  intros Hb. revert n v tmp. induction fuel as [|fuel IH]; intros n v tmp Hv Hn Hp Ht; [lia|].
  destruct n as [|n]; [lia|]. cbn [number_digits digits_rev].
  assert (Hmod : 0 ≤ v mod base < base) by (apply Z.mod_pos_bound; lia).
  erewrite bind_ok by (apply load_some, (digit_some up (v mod base)); lia).
  erewrite bind_ok by (apply load_some; rewrite bool_decide_eq_true_2 by lia; done).
  destruct (Z.eqb_spec (v / base) 0) as [E|E]; cbn [negb fmap list_fmap]; [done|].
  rewrite Nat2Z.inj_succ, Z.pow_succ_r in Hp by lia.
  assert (Hq : 0 ≤ v / base < base ^ Z.of_nat n) by (split; [apply Z.div_pos; lia|apply Z.div_lt_upper_bound; lia]).
  destruct n as [|n]; [cbn in Hq; lia|].
  rewrite (IH (S n)); [by rewrite <- app_assoc|lia|lia|lia|]. rewrite length_app. cbn. lia.
Qed.

(** ** The reference rendering *)
Definition negative (num format : Z) : bool := nf format NF_SIGNED && (2 ^ 31 <=? num).
Definition magnitude (num format : Z) : Z := if negative num format then word_max - num else num.

Definition sign_chars (num format : Z) : list Z :=
  if nf format NF_SIGNED then
    if 2 ^ 31 <=? num then chars "-" else if nf format NF_PLUS then chars "+"
    else if nf format NF_SPACE then chars " " else []
  else [].

Definition prefix_chars (base format : Z) : list Z :=
  if nf format NF_SPECIAL then
    if base =? 16 then chars "0x" else if base =? 8 then chars "0" else []
  else [].

(** The rendering of a number with the digits [ds]: sign, prefix, leading zeros up to
    the precision, digits; filled up to the size with spaces on the left, spaces on
    the right or zeros after the prefix. *)
Definition render (num base size precision format : Z) (ds : list Z) : list Z :=
  let head := sign_chars num format ++ prefix_chars base format in
  let body := replicate (Z.to_nat (precision - Z.of_nat (length ds))) (chr "0") ++
              (digit_char (nf format NF_UPCASE) <$> ds) in
  let fill := Z.to_nat (size - Z.of_nat (length head) - Z.of_nat (length body)) in
  if nf format NF_LEFT then head ++ body ++ replicate fill (chr " ")
  else if nf format NF_ZEROPAD then head ++ replicate fill (chr "0") ++ body
  else replicate fill (chr " ") ++ head ++ body.

Lemma nf_bit f k : 0 ≤ k → nf f (2 ^ k) = Z.testbit f k.
Proof.
  intros Hk. unfold nf. destruct (Z.testbit f k) eqn:E.
  - rewrite negb_true_iff. apply Z.eqb_neq. intros H.
    assert (Hb : Z.testbit (Z.land f (2 ^ k)) k = false) by (rewrite H; apply Z.bits_0).
    rewrite Z.land_spec, E, Z.pow2_bits_true in Hb by done. done.
  - rewrite negb_false_iff. apply Z.eqb_eq, Z.bits_inj'. intros n Hn.
    rewrite Z.land_spec, Z.bits_0. destruct (decide (k = n)) as [->|].
    + by rewrite E.
    + rewrite Z.pow2_bits_false by done. by rewrite andb_false_r.
Qed.

Lemma nf_pad f : nf f (NF_ZEROPAD + NF_LEFT) = nf f NF_ZEROPAD || nf f NF_LEFT.
Proof.
  unfold nf. change (NF_ZEROPAD + NF_LEFT) with (Z.lor NF_ZEROPAD NF_LEFT).
  rewrite Z.land_lor_distr_r. rewrite <- negb_andb. f_equal. apply Bool.eq_iff_eq_true.
  rewrite andb_true_iff, !Z.eqb_eq. apply Z.lor_eq_0_iff.
Qed.

(** The flags after [NF_LEFT] has cleared [NF_ZEROPAD]. *)
Definition cleared (f : Z) : Z := if nf f NF_LEFT then Z.land f (Z.lnot NF_ZEROPAD) else f.

Lemma cleared_bit f k : 0 < k → nf (cleared f) (2 ^ k) = nf f (2 ^ k).
Proof.
  intros Hk. unfold cleared. case_match; [|done]. rewrite !nf_bit by lia.
  rewrite Z.land_spec, Z.lnot_spec by lia. change NF_ZEROPAD with (2 ^ 0).
  rewrite Z.pow2_bits_false by lia. apply andb_true_r.
Qed.

Lemma cleared_zeropad f : nf (cleared f) NF_ZEROPAD = nf f NF_ZEROPAD && negb (nf f NF_LEFT).
Proof.
  unfold cleared. destruct (nf f NF_LEFT) eqn:E; [|by rewrite andb_true_r].
  change NF_ZEROPAD with (2 ^ 0). rewrite nf_bit by done. rewrite Z.land_spec, Z.lnot_spec by done. by rewrite !andb_false_r.
Qed.

Lemma number_sign_spec num size format s :
  u32 num → - 2 ^ 30 < size < 2 ^ 31 →
  number_sign num size (cleared format) s =
    Ok ((default 0 (head (sign_chars num format)), magnitude num format,
         size - Z.of_nat (length (sign_chars num format))), s).
Proof.
  intros Hn Hs. unfold number_sign, sign_chars, magnitude, negative.
  change NF_SIGNED with (2 ^ 1). change NF_PLUS with (2 ^ 2). change NF_SPACE with (2 ^ 3).
  rewrite !cleared_bit by done.
  destruct (nf format (2 ^ 1)); [|by rewrite Z.sub_0_r]. cbn [andb].
  destruct (Z.leb_spec (2 ^ 31) num).
  - erewrite bind_ok by (apply int_ok; lia). rewrite wrap_sub_underflow by word_lia. unfold mret, KM_ret. cbn [head chars]. do 3 f_equal. f_equal. lia.
  - destruct (nf format (2 ^ 2)); [by erewrite bind_ok by (apply int_ok; lia)|].
    destruct (nf format (2 ^ 3)); [by erewrite bind_ok by (apply int_ok; lia)|]. by rewrite Z.sub_0_r.
Qed.

Lemma number_special_spec base size format s :
  - 2 ^ 30 < size < 2 ^ 31 →
  number_special base size (cleared format) s = Ok (size - Z.of_nat (length (prefix_chars base format)), s).
Proof.
  intros Hs. unfold number_special, prefix_chars. change NF_SPECIAL with (2 ^ 5). rewrite cleared_bit by done.
  destruct (nf format (2 ^ 5)); [|by rewrite Z.sub_0_r].
  destruct (base =? 16); [by rewrite int_ok by lia|].
  destruct (base =? 8); [by rewrite int_ok by lia|]. by rewrite Z.sub_0_r.
Qed.

Lemma store_sign_spec last num format p s :
  room last p 1 s →
  (if negb (default 0 (head (sign_chars num format)) =? 0)
   then store_char last p (default 0 (head (sign_chars num format))) else mret p) s =
    Ok (p + Z.of_nat (length (sign_chars num format)), emit last p (sign_chars num format) s).
Proof.
  intros Hr. unfold sign_chars.
  destruct (nf format NF_SIGNED); [|by rewrite emit_nil, Z.add_0_r].
  destruct (2 ^ 31 <=? num); [exact (store_char_spec _ _ _ _ Hr)|].
  destruct (nf format NF_PLUS); [exact (store_char_spec _ _ _ _ Hr)|].
  destruct (nf format NF_SPACE); [exact (store_char_spec _ _ _ _ Hr)|]. by rewrite emit_nil, Z.add_0_r.
Qed.

Lemma number_prefix_spec last base format p s :
  room last p 2 s →
  number_prefix last base (cleared format) p s =
    Ok (p + Z.of_nat (length (prefix_chars base format)), emit last p (prefix_chars base format) s).
Proof.
  intros Hr. unfold number_prefix, prefix_chars. change NF_SPECIAL with (2 ^ 5). rewrite cleared_bit by done.
  destruct (nf format (2 ^ 5)); [|by rewrite emit_nil, Z.add_0_r].
  destruct (Z.eqb_spec base 8) as [->|]; [cbn [Z.eqb Pos.eqb]; apply store_char_spec; by eapply room_le|].
  destruct (base =? 16); [|by rewrite emit_nil, Z.add_0_r].
  erewrite bind_ok by (apply store_char_spec; by eapply room_le).
  change (p + 1) with (p + Z.of_nat (length [chr "0"])).
  rewrite store_char_spec by (eapply room_emit; [done|cbn; lia|lia]).
  rewrite emit_app. cbn [length]. do 2 f_equal. cbn. lia.
Qed.

(** ** Composition *)

(** [m] prints [l] at its argument and returns the position behind it ([prints_to]:
    together with [x]). *)
Definition prints (last : Z) (m : Z → KM console Z) (l : list Z) : Prop := ∀ p s,
  room last p (Z.of_nat (length l)) s → m p s = Ok (p + Z.of_nat (length l), emit last p l s).
Definition prints_to (last : Z) (m : Z → KM console (Z * Z)) (x : Z) (l : list Z) : Prop := ∀ p s,
  room last p (Z.of_nat (length l)) s → m p s = Ok ((x, p + Z.of_nat (length l)), emit last p l s).

Lemma room_app last p (l1 l2 : list Z) s :
  room last p (Z.of_nat (length (l1 ++ l2))) s →
  room last p (Z.of_nat (length l1)) s ∧
  room last (p + Z.of_nat (length l1)) (Z.of_nat (length l2)) (emit last p l1 s).
Proof.
  rewrite length_app. intros Hr. split; [eapply room_le; [done|lia]|]. eapply room_emit; [done|lia|lia].
Qed.

Lemma prints_bind last m1 m2 l1 l2 :
  prints last m1 l1 → prints last m2 l2 → prints last (λ p, m1 p ≫= m2) (l1 ++ l2).
Proof.
  intros H1 H2 p s [Hr1 Hr2]%room_app. erewrite bind_ok by exact (H1 p s Hr1).
  rewrite (H2 _ _ Hr2), emit_app, length_app. do 2 f_equal. lia.
Qed.

Lemma prints_bind_to last m1 m2 x l1 l2 :
  prints_to last m1 x l1 → prints last (m2 x) l2 →
  prints last (λ p, m1 p ≫= λ '(size, p), m2 size p) (l1 ++ l2).
Proof.
  intros H1 H2 p s [Hr1 Hr2]%room_app. erewrite bind_ok by exact (H1 p s Hr1). cbn.
  rewrite (H2 _ _ Hr2), emit_app, length_app. do 2 f_equal. lia.
Qed.

Lemma prints_pad last c size :
  - 2 ^ 31 < size < 2 ^ 31 →
  prints_to last (pad_while last c size) (Z.min size 0 - 1) (replicate (Z.to_nat size) c).
Proof.
  intros Hs p s Hr. rewrite length_replicate in *. rewrite pad_while_spec; [do 3 f_equal; lia|done|].
  eapply room_le; [done|lia].
Qed.

Lemma prints_pad_if last (b : bool) c size :
  - 2 ^ 31 < size < 2 ^ 31 →
  prints_to last (λ p, if b then pad_while last c size p else mret (size, p))
    (if b then Z.min size 0 - 1 else size) (if b then replicate (Z.to_nat size) c else []).
Proof.
  intros Hs. destruct b; [by apply prints_pad|]. intros p s Hr. by rewrite emit_nil, Z.add_0_r.
Qed.

Lemma prints_sign last num format :
  prints last (λ p, if negb (default 0 (head (sign_chars num format)) =? 0)
     then store_char last p (default 0 (head (sign_chars num format))) else mret p) (sign_chars num format).
Proof.
  intros p s Hr. destruct (sign_chars num format) as [|c l] eqn:E.
  - by rewrite emit_nil, Z.add_0_r.
  - rewrite <- E in *. apply store_sign_spec. eapply room_le; [done|]. rewrite E. cbn. lia.
Qed.

Lemma prints_prefix last base format :
  prints last (number_prefix last base (cleared format)) (prefix_chars base format).
Proof.
  intros p s Hr. unfold number_prefix, prefix_chars in *. change NF_SPECIAL with (2 ^ 5) in *. rewrite cleared_bit by done.
  destruct (nf format (2 ^ 5)); [|by rewrite emit_nil, Z.add_0_r].
  destruct (Z.eqb_spec base 8) as [->|]; [cbn [Z.eqb Pos.eqb]; by apply store_char_spec|].
  destruct (base =? 16); [|by rewrite emit_nil, Z.add_0_r].
  exact (prints_bind last (λ p, store_char last p (chr "0")) (λ p, store_char last p (chr "x")) [chr "0"] [chr "x"]
    (λ p s, store_char_spec last p _ s) (λ p s, store_char_spec last p _ s) p s Hr).
Qed.

Lemma prints_precision last i precision :
  0 ≤ i ≤ precision → precision < 2 ^ 31 →
  prints last (precision_loop (S (Z.to_nat (precision - i))) last i precision)
    (replicate (Z.to_nat (precision - i)) (chr "0")).
Proof. intros Hi Hp p s Hr. rewrite length_replicate in *. apply precision_loop_spec; [lia|lia|lia|done]. Qed.

Lemma prints_output last tmp : prints last (output_loop last tmp (length tmp)) (reverse tmp).
Proof.
  intros p s Hr. rewrite length_reverse in *. rewrite output_loop_spec by done. by rewrite take_ge by lia.
Qed.

Lemma terminate_spec last p s :
  room last p 1 s →
  ((if p <=? last then wr8 p 0 else mret ()) ;; mret p) s = Ok (p, emit last p [0] s).
Proof.
  intros Hr. pose proof (store_char_spec last p 0 s Hr) as E. unfold store_char in E.
  apply bind_inv in E as ([] & s' & E1 & E2). erewrite bind_ok by exact E1. by injection E2 as _ <-.
Qed.

Lemma number_write_spec last num base format size precision tmp :
  - 2 ^ 30 - 2 ^ 28 < size < 2 ^ 30 → Z.of_nat (length tmp) ≤ precision < 2 ^ 30 →
  let left := nf format NF_LEFT in let zero := nf format NF_ZEROPAD in
  let body := replicate (Z.to_nat (precision - Z.of_nat (length tmp))) (chr "0") ++ reverse tmp in
  let fill := Z.to_nat size in
  prints last (number_write last (default 0 (head (sign_chars num format))) base (cleared format)
      (if nf (cleared format) NF_ZEROPAD then chr "0" else chr " ") size (Z.of_nat (length tmp)) precision tmp)
    ((if left || zero then [] else replicate fill (chr " ")) ++ sign_chars num format ++ prefix_chars base format ++
     (if negb left && zero then replicate fill (chr "0") else []) ++ body ++
     (if left then replicate fill (chr " ") else [])).
Proof.
  intros Hs Hp left zero body fill.
  assert (Hleft : nf (cleared format) NF_LEFT = left) by (exact (cleared_bit format 4 eq_refl)).
  unfold number_write. rewrite nf_pad, cleared_zeropad, Hleft. fold left zero. unfold body. rewrite <- !app_assoc.
  assert (Hneg : ∀ (b : bool), (if b then replicate (Z.to_nat (Z.min size 0 - 1)) (chr " ") else []) = []).
  { intros []; [|done]. by replace (Z.to_nat (Z.min size 0 - 1)) with O by lia. }
  assert (E1 : (if left || zero then [] else replicate fill (chr " ")) =
    (if negb (zero && negb left || left) then replicate fill (chr " ") else [])) by (by destruct left, zero).
  rewrite E1. eapply (prints_bind_to last (λ p, if negb (zero && negb left || left) then _ else _)).
  { apply prints_pad_if. lia. }
  apply prints_bind; [apply prints_sign|]. apply prints_bind; [apply prints_prefix|].
  set (size1 := if negb (zero && negb left || left) then Z.min size 0 - 1 else size).
  assert (Hs1 : - 2 ^ 31 + 4 < size1 < 2 ^ 31) by (unfold size1; destruct (negb (zero && negb left || left)); lia).
  assert (E2 : (if negb left && zero then replicate fill (chr "0") else []) =
    (if negb left then replicate (Z.to_nat size1) (if zero && negb left then chr "0" else chr " ") else [])).
  { unfold size1. destruct left, zero; cbn; try done. by replace (Z.to_nat (Z.min size 0 - 1)) with O by lia. }
  rewrite E2. eapply (prints_bind_to last (λ p, if negb left then _ else _)).
  { apply prints_pad_if. lia. }
  apply prints_bind; [apply prints_precision; lia|]. apply prints_bind; [apply prints_output|].
  assert (E3 : (if left then replicate fill (chr " ") else []) =
    replicate (Z.to_nat (if negb left then Z.min size1 0 - 1 else size1)) (chr " ") ++ []).
  { rewrite app_nil_r. unfold size1. destruct left; cbn; [by rewrite orb_true_r|].
    by replace (Z.to_nat (Z.min _ 0 - 1)) with O by lia. }
  rewrite E3. eapply (prints_bind_to last (pad_while last (chr " ") _) (λ _ buf, mret buf)).
  { apply prints_pad. destruct (negb left); lia. }
  intros p s _. by rewrite emit_nil, Z.add_0_r.
Qed.

Lemma magnitude_range num format : u32 num → u32 (magnitude num format).
Proof. unfold magnitude, negative. intros Hn. destruct (nf format NF_SIGNED); cbn; [|done]. destruct (Z.leb_spec (2 ^ 31) num); word_lia. Qed.

Lemma render_shape num base size precision format ds :
  let left := nf format NF_LEFT in let zero := nf format NF_ZEROPAD in
  let P := Z.max precision (Z.of_nat (length ds)) in
  let fill := Z.to_nat (size - Z.of_nat (length (sign_chars num format)) - Z.of_nat (length (prefix_chars base format)) - P) in
  render num base size precision format ds =
    (if left || zero then [] else replicate fill (chr " ")) ++ sign_chars num format ++ prefix_chars base format ++
     (if negb left && zero then replicate fill (chr "0") else []) ++
     (replicate (Z.to_nat (P - Z.of_nat (length ds))) (chr "0") ++ (digit_char (nf format NF_UPCASE) <$> ds)) ++
     (if left then replicate fill (chr " ") else []).
Proof.
  intros left zero P fill. unfold render. rewrite !length_app, length_replicate, length_fmap.
  replace (Z.to_nat (P - Z.of_nat (length ds))) with (Z.to_nat (precision - Z.of_nat (length ds))) by lia.
  set (k := Z.to_nat (size - _ - _)). assert (k = fill) as -> by (unfold k, fill, P; lia).
  unfold left, zero. destruct (nf format NF_LEFT), (nf format NF_ZEROPAD); cbn; rewrite ?app_nil_r, <- ?app_assoc; done.
Qed.

Lemma render_length num base size precision format ds :
  Z.of_nat (length (render num base size precision format ds)) ≤
    Z.max size 0 + 3 + Z.max precision (Z.of_nat (length ds)).
Proof.
  unfold render.
  assert (Hs : (length (sign_chars num format) ≤ 1)%nat)
    by (unfold sign_chars; repeat case_match; cbn; lia).
  assert (Hp : (length (prefix_chars base format) ≤ 2)%nat) by (unfold prefix_chars; repeat case_match; cbn; lia).
  destruct (nf format NF_LEFT), (nf format NF_ZEROPAD);
    rewrite !length_app, !length_replicate, length_fmap; lia.
Qed.

Lemma number_exec buf last num base size precision format s :
  u32 num → 2 ≤ base ≤ 16 → - 2 ^ 28 < size < 2 ^ 28 → precision < 2 ^ 28 →
  0 ≤ buf → buf + Z.max size 0 + Z.max precision 32 + 4 < word_max → mapped buf last s →
  let out := render num base size precision format (digits base (magnitude num format)) in
  number buf last num base size precision format s =
    Ok (buf + Z.of_nat (length out), emit last buf (out ++ [0]) s).
Proof.
  intros Hn Hb Hs Hp H0 Hroom Hm.
  destruct (digits_correct base Hb (magnitude num format) (magnitude_range num format Hn)) as (Hv & Hf & Hl & Hh).
  set (ds := digits base (magnitude num format)) in *. intros out.
  pose proof (render_length num base size precision format ds) as Hlen. fold out in Hlen.
  pose proof (render_shape num base size precision format ds) as Hshape. cbn zeta in Hshape. fold out in Hshape.
  assert (Hi : (length (sign_chars num format) ≤ 1)%nat) by (unfold sign_chars; repeat case_match; cbn; lia).
  assert (Hi' : (length (prefix_chars base format) ≤ 2)%nat) by (unfold prefix_chars; repeat case_match; cbn; lia).
  unfold number. rewrite (proj2 (orb_false_iff _ _)) by (split; apply Z.ltb_ge; lia). rewrite bind_ret.
  fold (cleared format). cbn zeta.
  erewrite bind_ok by (apply number_sign_spec; [done|lia]). cbn beta iota.
  erewrite bind_ok by (apply number_special_spec; lia).
  erewrite bind_ok.
  2:{ apply (number_digits_spec _ base 32); [done|apply magnitude_range, Hn|lia|apply pow32; [done|by apply magnitude_range]|cbn; lia]. }
  set (tmp := [] ++ (digit_char _ <$> _)).
  assert (Htmp : reverse tmp = digit_char (nf format NF_UPCASE) <$> ds)
    by (unfold tmp, ds, digits; by rewrite app_nil_l, fmap_reverse).
  assert (Hlt : length tmp = length ds) by (by rewrite <- (length_reverse tmp), Htmp, length_fmap).
  set (P := Z.max precision (Z.of_nat (length ds))) in *.
  assert (HP : (if precision <? Z.of_nat (length tmp) then Z.of_nat (length tmp) else precision) = P)
    by (rewrite Hlt; unfold P; destruct (Z.ltb_spec precision (Z.of_nat (length ds))); lia).
  rewrite HP. erewrite bind_ok by (apply int_ok; lia).
  pose proof (number_write_spec last num base format
    (size - Z.of_nat (length (sign_chars num format)) - Z.of_nat (length (prefix_chars base format)) - P) P tmp
    ltac:(lia) ltac:(lia)) as Hw. cbn zeta in Hw. rewrite Htmp, Hlt, <- Hshape in Hw. rewrite Hlt.
  assert (Hr : room last buf (Z.of_nat (length out) + 1) s) by (split; [done|split; [lia|done]]).
  erewrite bind_ok by (apply Hw; eapply room_le; [exact Hr|lia]).
  rewrite terminate_spec by (eapply room_emit; [exact Hr|lia|lia]).
  by rewrite emit_app.
Qed.

(** C23. [number] writes the numeral of its argument: [ds] are the digits of its
    absolute value, none out of the range of the base and without a leading zero; the
    characters of sign, prefix, padding and digits are stored in the buffer, followed
    by a zero byte, up to the end of the buffer, nothing else is written, and the
    position of the zero byte is returned, whether or not the buffer was long enough. *)
Theorem number_correct buf last num base size precision format s :
  u32 num → 2 ≤ base ≤ 16 → - 2 ^ 28 < size < 2 ^ 28 → precision < 2 ^ 28 →
  0 ≤ buf → buf + Z.max size 0 + Z.max precision 32 + 4 < word_max → mapped buf last s →
  ∃ ds, value base ds = magnitude num format ∧ Forall (λ d, 0 ≤ d < base) ds ∧
    (magnitude num format ≠ 0 → head ds ≠ Some 0) ∧ (1 ≤ length ds)%nat ∧
    let out := render num base size precision format ds in
    number buf last num base size precision format s =
      Ok (buf + Z.of_nat (length out), emit last buf (out ++ [0]) s).
Proof.
  intros Hn Hb Hs Hp H0 Hroom Hm. exists (digits base (magnitude num format)).
  destruct (digits_correct base Hb (magnitude num format) (magnitude_range num format Hn)) as (Hv & Hf & Hl & Hh).
  split; [done|]. split; [done|]. split; [done|]. split; [lia|]. by apply number_exec.
Qed.

Lemma number_correct_witness : ∃ ds, value 10 ds = 2 ^ 31 ∧
  number 0x80000000 0x8000001f (2 ^ 31) 10 (-1) (-1) NF_SIGNED
    (Console (list_to_map ((λ i, (0x80000000 + i, 0xff)) <$> seqZ 0 32)) []) =
    Ok (0x80000000 + 11, emit 0x8000001f 0x80000000 (chars "-2147483648" ++ [0])
      (Console (list_to_map ((λ i, (0x80000000 + i, 0xff)) <$> seqZ 0 32)) [])).
Proof.
  destruct (number_correct 0x80000000 0x8000001f (2 ^ 31) 10 (-1) (-1) NF_SIGNED
    (Console (list_to_map ((λ i, (0x80000000 + i, 0xff)) <$> seqZ 0 32)) [])) as (ds & Hv & _).
  - split; done.
  - done.
  - done.
  - done.
  - done.
  - done.
  - intros a Ha. cbn [k_mem]. exists 0xff. apply elem_of_list_to_map_1.
    + rewrite <- list_fmap_compose. apply NoDup_fmap_2; [intros x y; cbn; lia|apply NoDup_seqZ].
    + apply list_elem_of_fmap. exists (a - 0x80000000). split; [f_equal; lia|]. apply elem_of_seqZ. lia.
  - exists ds. split; [exact Hv|]. vm_compute. reflexivity.
Defined.
