(* ===== verification/Printk.v ===== *)
(** * [printk] prints the expansion of its format

    An abstract meaning of format strings, and the theorem that [printk] implements it
    and touches nothing but its buffer. *)
From Stdlib Require Import Ascii String.
From S2P Require Import Prelude Print PrintTheorems.
Local Open Scope Z_scope.

(** ** Strings in memory *)
Definition string_at (m : gmap Z Z) (a : Z) (l : list Z) : Prop :=
  0 ≤ a ∧ a + Z.of_nat (length l) < word_max ∧
  (∀ i c, l !! i = Some c → m !! (a + Z.of_nat i) = Some c ∧ c ≠ 0) ∧ m !! (a + Z.of_nat (length l)) = Some 0.

Definition print_out (l : list Z) (s : console) : console := Console (k_mem s) (k_out s ++ l).

Lemma string_at_cons m a c l :
  string_at m a (c :: l) → m !! a = Some c ∧ c ≠ 0 ∧ string_at m (a + 1) l.
Proof.
  intros (H0 & Hn & Hl & Hz). destruct (Hl 0%nat c eq_refl) as [Hc Hc0].
  rewrite Z.add_0_r in Hc. split; [done|split; [done|]]. cbn [length] in *. split; [lia|split; [lia|split]].
  - intros i x Hi. replace (a + 1 + Z.of_nat i) with (a + Z.of_nat (Datatypes.S i)) by lia. by apply Hl.
  - by replace (a + 1 + Z.of_nat (length l)) with (a + Z.of_nat (Datatypes.S (length l))) by lia.
Qed.

Lemma putc_spec c s : putc c s = Ok (1, print_out [c] s).
Proof. done. Qed.

Lemma print_out_app l1 l2 s : print_out l2 (print_out l1 s) = print_out (l1 ++ l2) s.
Proof. unfold print_out. cbn. by rewrite app_assoc. Qed.

Lemma puts_loop_spec fuel l a cnt s :
  string_at (k_mem s) a l → (length l < fuel)%nat → 0 ≤ cnt → cnt + Z.of_nat (length l) < word_max →
  puts_loop fuel a cnt s = Ok (cnt + Z.of_nat (length l), print_out l s).
Proof.
  revert l a cnt s. induction fuel as [|fuel IH]; intros l a cnt s Hs Hf H0 Hn; [lia|]. cbn [puts_loop].
  destruct l as [|c l].
  - destruct Hs as (_ & _ & _ & Hz). cbn in Hz. rewrite Z.add_0_r in Hz.
    erewrite bind_ok by (by apply load_some). cbn. rewrite Z.add_0_r. unfold print_out. rewrite app_nil_r. by destruct s.
  - pose proof Hs as (Ha0 & Han & _). apply string_at_cons in Hs as (Hc & Hc0 & Hs).
    erewrite bind_ok by (by apply load_some). rewrite (proj2 (Z.eqb_neq c 0)) by done.
    erewrite bind_ok by apply putc_spec. cbn [length] in *. rewrite !wrap_small by word_lia.
    rewrite (IH l); [|exact Hs|lia|lia|lia]. rewrite print_out_app. cbn. do 2 f_equal. lia.
Qed.

Lemma puts_spec fuel l a s :
  string_at (k_mem s) a l → (length l < fuel)%nat →
  puts fuel a s = Ok (Z.of_nat (length l), print_out l s).
Proof. intros Hs Hf. unfold puts. rewrite (puts_loop_spec fuel l); [done|done|done|lia|]. destruct Hs as (? & ? & _). lia. Qed.

(** ** What [write] leaves *)
Lemma write_outside last buf l m a : a < buf ∨ last < a → write last buf l m !! a = m !! a.
Proof.
  revert buf m. induction l as [|c l IH]; intros buf m Ha; cbn [write]; [done|]. rewrite IH by lia.
  destruct (Z.leb_spec buf last); [|done]. rewrite lookup_insert_ne by lia. done.
Qed.

Lemma write_lookup last buf l m i c :
  l !! i = Some c → buf + Z.of_nat i ≤ last → write last buf l m !! (buf + Z.of_nat i) = Some c.
Proof.
  revert buf m i. induction l as [|d l IH]; intros buf m i Hi Hl; [done|]. cbn [write]. destruct i as [|i].
  - injection Hi as ->. rewrite Z.add_0_r in *. rewrite write_outside by lia.
    rewrite (proj2 (Z.leb_le _ _)) by lia. apply lookup_insert_eq.
  - replace (buf + Z.of_nat (Datatypes.S i)) with (buf + 1 + Z.of_nat i) in * by lia. by apply IH.
Qed.

(** ** The meaning of formats *)
Section format.
  (** The memory; the address of the number buffer, where no string may lie. *)
  Context (m : gmap Z Z) (buf : Z).

Definition in_buffer (a : Z) : Prop := buf ≤ a ≤ buf + 31.
Definition apart (a : Z) (l : list Z) : Prop := a + Z.of_nat (length l) < buf ∨ buf + 31 < a.

(** The numeral of [a]. *)
Definition numeral (base a : Z) : list Z := digit_char false <$> digits base a.

(** [directive c args out args']: ['%c'] takes arguments from [args], prints [out] and
    leaves [args']. *)
Inductive directive : Z → list Z → list Z → list Z → Prop :=
  | D_percent args : directive (chr "%") args (chars "%") args
  | D_char a args : directive (chr "c") (a :: args) [a mod 2 ^ 8] args
  | D_string a l args : a ≠ 0 → string_at m a l → apart a l → directive (chr "s") (a :: args) l args
  | D_null args : directive (chr "s") (0 :: args) (chars "<NULL>") args
  | D_hex c a args : c = chr "p" ∨ c = chr "x" → u32 a →
      directive c (a :: args)
        (chars "0x" ++ replicate (8 - length (numeral 16 a)) (chr "0") ++ numeral 16 a) args
  | D_dec c a args : c = chr "d" ∨ c = chr "i" → 0 ≤ a < 2 ^ 31 → directive c (a :: args) (numeral 10 a) args
  | D_negative c a args : c = chr "d" ∨ c = chr "i" → 2 ^ 31 ≤ a < word_max →
      directive c (a :: args) (chars "-" ++ numeral 10 (word_max - a)) args
  | D_octal a args : u32 a → directive (chr "o") (a :: args) (chars "0" ++ numeral 8 a) args
  | D_unsigned a args : u32 a → directive (chr "u") (a :: args) (numeral 10 a) args
  | D_other c args : c ∉ chars "%cspdioux" → directive c args [chr "%"; c] args.

(** [expands f args out args']: the same for a format. *)
Inductive expands : list Z → list Z → list Z → list Z → Prop :=
  | E_nil args : expands [] args [] args
  | E_char c f args out args' : c ≠ chr "%" → expands f args out args' → expands (c :: f) args (c :: out) args'
  | E_directive c f args o1 args1 o2 args2 :
      directive c args o1 args1 → expands f args1 o2 args2 →
      expands (chr "%" :: c :: f) args (o1 ++ o2) args2.
End format.

(** ** Numbers fit into the buffer *)
Lemma digits_rev_bound base k n v :
  2 ≤ base → 0 ≤ v < base ^ Z.of_nat n → (0 < n)%nat → (length (digits_rev k base v) ≤ n)%nat.
Proof.
  intros Hb. revert n v. induction k as [|k IH]; intros n v Hv Hn; cbn [digits_rev]; [cbn; lia|].
  destruct (Z.eqb_spec (v / base) 0) as [|E]; [cbn; lia|]. cbn [length].
  destruct n as [|n]; [lia|]. rewrite Nat2Z.inj_succ, Z.pow_succ_r in Hv by lia.
  assert (Hq : 0 ≤ v / base < base ^ Z.of_nat n) by (split; [apply Z.div_pos; lia|apply Z.div_lt_upper_bound; lia]).
  destruct n as [|n]; [cbn in Hq; lia|]. specialize (IH _ _ Hq). lia.
Qed.

Lemma numeral_bound base n a : 2 ≤ base → (0 < n)%nat → 0 ≤ a < base ^ Z.of_nat n → (length (numeral base a) ≤ n)%nat.
Proof. intros. unfold numeral, digits. rewrite length_fmap, length_reverse. by apply digits_rev_bound. Qed.

Lemma digit_char_nonzero up d : 0 ≤ d < 16 → digit_char up d ≠ 0.
Proof.
  intros Hd. pose proof (digit_some up d Hd) as H. apply list_elem_of_lookup_2 in H. intros E. rewrite E in H.
  revert H. apply (bool_decide_unpack (¬ (0 ∈ _))). by destruct up.
Qed.

Lemma numeral_nonzero base a : 2 ≤ base ≤ 16 → u32 a → 0 ∉ numeral base a.
Proof.
  intros Hb Ha (d & E & Hd)%list_elem_of_fmap. destruct (digits_correct base Hb a Ha) as (_ & Hf & _).
  rewrite Forall_forall in Hf. specialize (Hf d Hd). by apply (digit_char_nonzero false d); [lia|].
Qed.

(** What [vprintk_number] prints. *)
Definition number_out (num base width flags : Z) : list Z :=
  render num base width (-1) flags (digits base (magnitude num flags)).

(** Evaluates the flags of a rendering. *)
Ltac render_flags F :=
  unfold number_out, render, magnitude, negative, sign_chars, prefix_chars, numeral;
  let z := eval vm_compute in (nf F NF_SIGNED) in change (nf F NF_SIGNED) with z; change (nf F NF_LEFT) with false;
  change (nf F NF_PLUS) with false; change (nf F NF_SPACE) with false; change (nf F NF_UPCASE) with false;
  let z := eval vm_compute in (nf F NF_ZEROPAD) in change (nf F NF_ZEROPAD) with z;
  let z := eval vm_compute in (nf F NF_SPECIAL) in change (nf F NF_SPECIAL) with z;
  cbn [andb negb]; cbv iota;
  rewrite !length_app, length_replicate, length_fmap, ?app_nil_r;
  replace (Z.to_nat (-1 - _)) with O by lia.

Lemma number_out_dec num :
  number_out num 10 (-1) NF_SIGNED = (if 2 ^ 31 <=? num then chars "-" else []) ++
    numeral 10 (if 2 ^ 31 <=? num then word_max - num else num).
Proof. render_flags NF_SIGNED. replace (Z.to_nat _) with O by lia. done. Qed.

Lemma number_out_unsigned num : number_out num 10 (-1) 0 = numeral 10 num.
Proof. render_flags 0. replace (Z.to_nat _) with O by (cbn; lia). done. Qed.

Lemma number_out_octal num : number_out num 8 (-1) NF_SPECIAL = chars "0" ++ numeral 8 num.
Proof. render_flags NF_SPECIAL. replace (Z.to_nat _) with O by (cbn; lia). done. Qed.

Lemma number_out_hex num :
  number_out num 16 (2 + 2 * 4) (Z.lor NF_ZEROPAD NF_SPECIAL) =
    chars "0x" ++ replicate (8 - length (numeral 16 num)) (chr "0") ++ numeral 16 num.
Proof.
  render_flags (Z.lor NF_ZEROPAD NF_SPECIAL). cbn [app replicate].
  replace (Z.to_nat _) with (8 - length (digits 16 num))%nat by (cbn; lia). done.
Qed.

(** ** The implementation *)
Section implementation.
  Context (m : gmap Z Z) (buf null_text : Z) (fuel : nat).
  (** The buffer lies in the address space and the literal is in memory, elsewhere. *)
  Context (Hbuf : 0 ≤ buf) (Hroom : buf + 64 < word_max).
  Context (Hnull : string_at m null_text (chars "<NULL>")).
  Context (Hnulla : apart buf null_text (chars "<NULL>")).

(** The memory is [m] outside the buffer, which is mapped. *)
Definition like (s : console) : Prop :=
  (∀ a, ¬ in_buffer buf a → k_mem s !! a = m !! a) ∧ mapped buf (buf + 31) s.

Lemma like_string s a l : like s → string_at m a l → apart buf a l → string_at (k_mem s) a l.
Proof.
  intros [Hm _] (H0 & Hn & Hl & Hz) Ha. unfold apart in Ha.
  assert (Hlen : ∀ i c, l !! i = Some c → (i < length l)%nat) by (intros i c Hi; by eapply lookup_lt_Some).
  split; [done|split; [done|split]].
  - intros i c Hi. specialize (Hlen i c Hi). rewrite Hm; [by apply Hl|]. unfold in_buffer. lia.
  - rewrite Hm; [done|]. unfold in_buffer. lia.
Qed.

Lemma like_out s l : like s → like (print_out l s).
Proof. done. Qed.

Lemma like_emit s l : like s → like (emit (buf + 31) buf l s).
Proof.
  intros [Hm Hp]. split; [|by apply emit_mapped]. intros a Ha. cbn. rewrite write_outside; [by apply Hm|].
  unfold in_buffer in Ha. lia.
Qed.

(** After [number] the buffer holds the string, if it is shorter than the buffer. *)
Lemma emitted_string s l :
  0 ∉ l → (length l ≤ 31)%nat → string_at (k_mem (emit (buf + 31) buf (l ++ [0]) s)) buf l.
Proof.
  intros H0 Hl. split; [done|split; [lia|split]].
  - intros i c Hi. pose proof (lookup_lt_Some _ _ _ Hi). split.
    + cbn. apply write_lookup; [by apply lookup_app_l_Some|lia].
    + intros ->. apply H0. by eapply list_elem_of_lookup_2.
  - cbn. apply write_lookup; [by apply list_lookup_middle|lia].
Qed.

Lemma vprintk_number_spec num args base width flags s :
  like s → u32 num → 2 ≤ base ≤ 16 → -1 ≤ width ≤ 10 →
  let out := number_out num base width flags in
  0 ∉ out → (length out ≤ 31)%nat → (length out < fuel)%nat →
  ∃ s', vprintk_number buf fuel (num :: args) base width flags s = Ok ((args, Z.of_nat (length out)), s') ∧
    like s' ∧ k_out s' = k_out s ++ out.
Proof.
  intros Hs Hn Hb Hw out H0 Hl Hf. unfold vprintk_number, va_arg.
  erewrite bind_ok by (by apply load_some). cbn beta iota.
  replace (buf + 32 - 1) with (buf + 31) by lia.
  erewrite bind_ok by (apply number_exec; [done|done|lia|lia|done|lia|apply Hs]).
  fold (number_out num base width flags). fold out.
  erewrite bind_ok by (apply (puts_spec fuel out); [by apply emitted_string|done]).
  eexists. split; [done|]. split; [by apply like_out, like_emit|done].
Qed.

Lemma u32_pow a b n : u32 a → word_max ≤ b ^ n → 0 ≤ a < b ^ n.
Proof. word_lia. Qed.

(** A numeral of at most [n] digits behind at most two other characters. *)
Lemma numeral_fits pre base a n :
  2 ≤ base ≤ 16 → u32 a → word_max ≤ base ^ Z.of_nat n → (0 < n)%nat → (length pre + n ≤ 31)%nat → 0 ∉ pre →
  0 ∉ pre ++ numeral base a ∧ (length (pre ++ numeral base a) ≤ 31)%nat.
Proof.
  intros Hb Ha Hn H0 Hl Hp. split.
  - rewrite elem_of_app. intros [?|H]; [done|]. by eapply numeral_nonzero in H.
  - rewrite length_app. pose proof (numeral_bound base n a ltac:(lia) H0 (u32_pow _ _ _ Ha Hn)). lia.
Qed.

Lemma directive_number num args base width flags out s :
  number_out num base width flags = out → u32 num → 2 ≤ base ≤ 16 → -1 ≤ width ≤ 10 →
  0 ∉ out ∧ (length out ≤ 31)%nat → (length out < fuel)%nat → like s →
  ∃ s', vprintk_number buf fuel (num :: args) base width flags s = Ok ((args, Z.of_nat (length out)), s') ∧
    like s' ∧ k_out s' = k_out s ++ out.
Proof. intros <- Hn Hb Hw [H0 Hl] Hf Hs. by apply vprintk_number_spec. Qed.

Lemma hex_fits a :
  u32 a → 0 ∉ chars "0x" ++ replicate (8 - length (numeral 16 a)) (chr "0") ++ numeral 16 a ∧
    (length (chars "0x" ++ replicate (8 - length (numeral 16 a)) (chr "0") ++ numeral 16 a) ≤ 31)%nat.
Proof.
  intros Ha. rewrite app_assoc. pose proof (numeral_bound 16 8 a ltac:(lia) ltac:(lia) (u32_pow a 16 (Z.of_nat 8) Ha ltac:(by vm_compute))).
  apply numeral_fits with (n := 8%nat); [lia|done|by vm_compute|lia|rewrite length_app, length_replicate; cbn; lia|].
  rewrite elem_of_app. intros [H'|H'].
  - revert H'. by apply (bool_decide_unpack _).
  - apply elem_of_replicate in H' as [E _]. done.
Qed.

(** Selects the branch of a directive. *)
Ltac pick := repeat match goal with |- context [chr ?x =? chr ?y] =>
  let b := eval vm_compute in (chr x =? chr y) in change (chr x =? chr y) with b end; cbn [orb]; cbv iota.

Lemma directive_spec c args out args' s :
  directive m buf c args out args' → like s → (length out < fuel)%nat →
  ∃ s', vprintk_directive buf null_text fuel c args s = Ok ((args', Z.of_nat (length out)), s') ∧
    like s' ∧ k_out s' = k_out s ++ out.
Proof.
  intros Hd Hs Hf. unfold vprintk_directive, va_arg.
  destruct Hd as [args|a args|a l args Ha Hl Hap|args|c a args [-> | ->] Ha|c a args [-> | ->] Ha|c a args [-> | ->] Ha|a args Ha|a args Ha|c args Hc];
    pick; try (by eexists).
  - erewrite bind_ok by (by apply load_some). cbn beta iota. rewrite (proj2 (Z.eqb_neq a 0)) by done.
    erewrite bind_ok by (apply (puts_spec fuel l); [by apply like_string|done]). by eexists.
  - erewrite bind_ok by (by apply load_some). cbn beta iota.
    erewrite bind_ok by (apply (puts_spec fuel (chars "<NULL>")); [by apply like_string|done]). by eexists.
  - apply directive_number; [apply number_out_hex|done|lia|lia|by apply hex_fits|done|done].
  - apply directive_number; [apply number_out_hex|done|lia|lia|by apply hex_fits|done|done].
  - apply directive_number; [|word_lia|lia|lia| |done|done].
    + rewrite number_out_dec, (proj2 (Z.leb_gt (2 ^ 31) a)) by lia. done.
    + apply (numeral_fits [] 10 a 10); [lia|word_lia|by vm_compute|lia|cbn; lia|apply not_elem_of_nil].
  - apply directive_number; [|word_lia|lia|lia| |done|done].
    + rewrite number_out_dec, (proj2 (Z.leb_gt (2 ^ 31) a)) by lia. done.
    + apply (numeral_fits [] 10 a 10); [lia|word_lia|by vm_compute|lia|cbn; lia|apply not_elem_of_nil].
  - apply directive_number; [|word_lia|lia|lia| |done|done].
    + by rewrite number_out_dec, (proj2 (Z.leb_le (2 ^ 31) a)) by lia.
    + apply (numeral_fits (chars "-") 10 _ 10); [lia|word_lia|by vm_compute|lia|cbn; lia|by apply (bool_decide_unpack _)].
  - apply directive_number; [|word_lia|lia|lia| |done|done].
    + by rewrite number_out_dec, (proj2 (Z.leb_le (2 ^ 31) a)) by lia.
    + apply (numeral_fits (chars "-") 10 _ 10); [lia|word_lia|by vm_compute|lia|cbn; lia|by apply (bool_decide_unpack _)].
  - apply directive_number; [apply number_out_octal|done|lia|lia| |done|done].
    apply (numeral_fits (chars "0") 8 a 11); [lia|done|by vm_compute|lia|cbn; lia|by apply (bool_decide_unpack _)].
  - apply directive_number; [apply number_out_unsigned|done|lia|lia| |done|done].
    apply (numeral_fits [] 10 a 10); [lia|done|by vm_compute|lia|cbn; lia|apply not_elem_of_nil].
  - rewrite !(proj2 (Z.eqb_neq c _)) by (intros ->; apply Hc; by apply (bool_decide_unpack _)). cbn [orb].
    eexists. split; [done|]. split; [by apply like_out, like_out|]. cbn. by rewrite <- app_assoc.
Qed.

Lemma apart_tail a c l : apart buf a (c :: l) → apart buf (a + 1) l.
Proof. unfold apart. cbn [length]. lia. Qed.

Lemma string_like_head s a c l :
  like s → string_at m a (c :: l) → apart buf a (c :: l) → rd8 a s = Ok (c, s) ∧ c ≠ 0.
Proof.
  intros Hs Hf Hap. destruct (string_at_cons _ _ _ _ (like_string _ _ _ Hs Hf Hap)) as (Hc & H0 & _).
  split; [by apply load_some|done].
Qed.

Lemma string_next a c l : string_at m a (c :: l) → wrap (a + 1) = a + 1 ∧ string_at m (a + 1) l.
Proof.
  intros Hf. pose proof Hf as (H0 & Hn & _). split; [|by apply string_at_cons in Hf as (_ & _ & ?)].
  cbn [length] in Hn. apply wrap_small. word_lia.
Qed.

Lemma vprintk_loop_spec n f args out args' format printed s :
  expands m buf f args out args' → string_at m format f → apart buf format f → like s →
  (length f < n)%nat → (length out < fuel)%nat → u32 printed →
  ∃ s', vprintk_loop buf null_text fuel n format args printed s = Ok (wrap (printed + Z.of_nat (length out)), s') ∧
    like s' ∧ k_out s' = k_out s ++ out.
Proof.
  intros He. revert n format printed s. induction He as [args|c f args out args' Hc He IH|c f args o1 args1 o2 args2 Hd He IH];
    intros n format printed s Hf Hap Hs Hn Hfu Hp; (destruct n as [|n]; [lia|]); cbn [vprintk_loop].
  - pose proof (like_string _ _ _ Hs Hf Hap) as (_ & _ & _ & Hz). cbn in Hz. rewrite Z.add_0_r in Hz.
    erewrite bind_ok by (by apply load_some). cbn. exists s. rewrite Z.add_0_r, app_nil_r, wrap_small by done. done.
  - destruct (string_like_head _ _ _ _ Hs Hf Hap) as [Hrd Hc0]. destruct (string_next _ _ _ Hf) as [-> Hf'].
    erewrite bind_ok by exact Hrd. rewrite (proj2 (Z.eqb_neq c 0)), (proj2 (Z.eqb_neq c _)) by done. cbn [negb].
    erewrite bind_ok by apply putc_spec. cbn [length] in *.
    destruct (IH n (format + 1) (wrap (printed + 1)) (print_out [c] s)) as (s' & E & Hs' & Ho);
      [done|by eapply apart_tail|by apply like_out|lia|lia|apply wrap_range|].
    exists s'. split; [|split; [done|by rewrite Ho; cbn; rewrite <- app_assoc]].
    rewrite E, wrap_add_l. do 3 f_equal. lia.
  - destruct (string_like_head _ _ _ _ Hs Hf Hap) as [Hrd _]. destruct (string_next _ _ _ Hf) as [-> Hf'].
    erewrite bind_ok by exact Hrd. change (chr "%" =? 0) with false. change (chr "%" =? chr "%") with true. cbn [negb].
    destruct (string_like_head _ _ _ _ Hs Hf' (apart_tail _ _ _ Hap)) as [Hrd' _].
    destruct (string_next _ _ _ Hf') as [-> Hf'']. erewrite bind_ok by exact Hrd'.
    rewrite length_app in Hfu. cbn [length] in Hn.
    destruct (directive_spec _ _ _ _ s Hd Hs ltac:(lia)) as (s1 & E1 & Hs1 & Ho1).
    erewrite bind_ok by exact E1. cbn beta iota.
    destruct (IH n (format + 1 + 1) (wrap (printed + Z.of_nat (length o1))) s1) as (s' & E & Hs' & Ho);
      [done|by eapply apart_tail, apart_tail|done|lia|lia|apply wrap_range|].
    exists s'. split; [|split; [done|by rewrite Ho, Ho1, <- app_assoc]].
    rewrite E, wrap_add_l, length_app. do 3 f_equal. lia.
Qed.
End implementation.

(** C36. [printk] implements the meaning of its format: if the strings lie outside the
    stack buffer and there are enough arguments, exactly the expansion of the format is
    sent to the printer, its length is returned (modulo 2^32), and no memory but the
    buffer is written; [fuel] only has to exceed the lengths of the format and of the
    output. *)
Theorem printk_correct buf null_text fuel format f args out args' s :
  0 ≤ buf → buf + 64 < word_max → mapped buf (buf + 31) s →
  string_at (k_mem s) null_text (chars "<NULL>") → apart buf null_text (chars "<NULL>") →
  string_at (k_mem s) format f → apart buf format f → expands (k_mem s) buf f args out args' →
  (length f < fuel)%nat → (length out < fuel)%nat →
  ∃ s', printk buf null_text fuel format args s = Ok (wrap (Z.of_nat (length out)), s') ∧
    k_out s' = k_out s ++ out ∧ ∀ a, ¬ in_buffer buf a → k_mem s' !! a = k_mem s !! a.
Proof.
  intros H0 Hr Hm Hn Hna Hf Hap He Hl Ho.
  destruct (vprintk_loop_spec (k_mem s) buf null_text fuel H0 Hr Hn Hna fuel f args out args' format 0 s)
    as (s' & E & Hs & Hout); try done.
  exists s'. split; [exact E|]. split; [done|]. apply Hs.
Qed.

(** A format that ends in a lone ['%'] is read beyond its terminating zero byte. *)
Lemma printk_dangling_percent buf null_text fuel format args s :
  k_mem s !! format = Some (chr "%") → k_mem s !! (format + 1) = Some 0 → k_mem s !! (format + 2) = None →
  0 ≤ format → format + 2 < word_max → (2 ≤ fuel)%nat →
  printk buf null_text fuel format args s = Fault.
Proof.
  intros H1 H2 H3 H0 Hr Hf. destruct fuel as [|[|n]]; [lia|lia|].
  unfold printk, vprintk. cbn [vprintk_loop].
  erewrite bind_ok by (by apply load_some). change (chr "%" =? 0) with false. change (chr "%" =? chr "%") with true.
  cbn [negb]. rewrite (wrap_small (format + 1)) by word_lia. erewrite bind_ok by (by apply load_some).
  erewrite bind_ok by reflexivity. cbn beta iota.
  rewrite (wrap_small (format + 1 + 1)) by word_lia. replace (format + 1 + 1) with (format + 2) by lia.
  unfold mbind, KM_bind, rd8, kload. cbn. by rewrite H3.
Qed.

(** ** A concrete run *)
Definition string_bytes (a : Z) (l : list Z) : gmap Z Z := list_to_map (imap (λ i c, (a + Z.of_nat i, c)) (l ++ [0])).

Lemma string_at_compute m a l :
  0 ≤ a → a + Z.of_nat (length l) < word_max →
  (λ i, m !! (a + Z.of_nat i)) <$> seq 0 (length l) = Some <$> l → 0 ∉ l →
  m !! (a + Z.of_nat (length l)) = Some 0 → string_at m a l.
Proof.
  intros H0 Hn Hl Hz He. split; [done|split; [done|split; [|done]]]. intros i c Hi. split.
  - assert (E : (Some <$> l) !! i = Some (Some c)) by (by rewrite list_lookup_fmap, Hi).
    rewrite <- Hl, list_lookup_fmap, lookup_seq_lt in E by (by eapply lookup_lt_Some). by injection E.
  - intros ->. apply Hz. by eapply list_elem_of_lookup_2.
Qed.

Definition sample_format : list Z := chars "%s: %d of 100%% at %x".
Definition sample_console : console :=
  Console (string_bytes 0x80001000 sample_format ∪ string_bytes 0x80002000 (chars "<NULL>") ∪
           string_bytes 0x80003000 (chars "disk") ∪ string_bytes 0x80700000 (replicate 31 1)) [].

Lemma expands_eq m buf f args out out' args' : expands m buf f args out' args' → out' = out → expands m buf f args out args'.
Proof. by intros ? <-. Qed.

Lemma printk_correct_witness :
  ∃ s', printk 0x80700000 0x80002000 100 0x80001000 [0x80003000; word_max - 5; 48879] sample_console = Ok (30, s') ∧
    k_out s' = chars "disk: -5 of 100% at 0x0000beef".
Proof.
  destruct (printk_correct 0x80700000 0x80002000 100 0x80001000 sample_format
    [0x80003000; word_max - 5; 48879] (chars "disk: -5 of 100% at 0x0000beef") [] sample_console)
    as (s' & E & Ho & _).
  - done.
  - done.
  - intros a Ha. assert (Hall : Forall (λ i, is_Some (k_mem sample_console !! (0x80700000 + i))) (seqZ 0 32))
      by (apply (bool_decide_unpack _); vm_compute; exact I).
    rewrite Forall_forall in Hall. replace a with (0x80700000 + (a - 0x80700000)) by lia. apply Hall, elem_of_seqZ. lia.
  - apply string_at_compute; try done; vm_compute; try reflexivity. by apply (bool_decide_unpack (0 ∉ _)).
  - left. done.
  - apply string_at_compute; try done; try (vm_compute; reflexivity). by apply (bool_decide_unpack _).
  - left. done.
  - let z := eval vm_compute in sample_format in change sample_format with z.
    eapply expands_eq.
    + eapply (E_directive _ _ (chr "s")).
      { apply (D_string _ _ 0x80003000 (chars "disk")); [done| |left; done].
        apply string_at_compute; try done; try (vm_compute; reflexivity). by apply (bool_decide_unpack _). }
      do 2 (apply E_char; [done|]).
      eapply (E_directive _ _ (chr "d")); [apply D_negative; [by left|done]|].
      do 7 (apply E_char; [done|]).
      eapply (E_directive _ _ (chr "%")); [apply D_percent|].
      do 4 (apply E_char; [done|]).
      eapply (E_directive _ _ (chr "x")); [apply D_hex; [by right|done]|]. apply E_nil.
    + vm_compute. reflexivity.
  - vm_compute. lia.
  - vm_compute. lia.
  - exists s'. split; [exact E|exact Ho].
Defined.
