(* ===== verification/ExampleProgram.v ===== *)
(** * The example program ([kernel/example.c])

    The thread that the kernel starts with, when it is not built for the tests: two more
    threads print along with it, then a process runs.  This is [activity], what the three
    threads do, over the console, the Status register and the random seed.  [example] itself
    is a sequence of calls of [thread_create], [thread_join], [process_create] and
    [process_join], which other files are about. *)
From Stdlib Require Import Ascii String.
From S2P Require Import Prelude Bytes Cpu Print Printk.
Local Open Scope Z_scope.

(** ** The activity of a thread *)
Record example_state := ExampleState {
  ex_console : console;
  ex_status : Z;
  ex_seed : Z;
}.

#[export] Instance example_cpu : CpuState example_state := {
  cp0_status := ex_status;
  set_cp0_status v s := ExampleState (ex_console s) v (ex_seed s);
}.
#[export] Instance example_cpu_laws : CpuStateLaws example_state.
Proof. split; try done. by intros []. Qed.

Definition on_console {A} (m : KM console A) : KM example_state A := λ s,
  match m (ex_console s) with
  | Ok (a, c) => Ok (a, ExampleState c (ex_status s) (ex_seed s))
  | Panic => Panic
  | Fault => Fault
  | NoFuel => NoFuel
  end.

Definition random_seed : KM example_state Z := λ s,
  let '(seed, r) := random (ex_seed s) in Ok (r, ExampleState (ex_console s) (ex_status s) seed).

(** [for (i = 0; i < 10 + random (&seed) % 10; i++) putc (activity);] *)
Fixpoint activity_chars (fuel : nat) (i activity : Z) : KM example_state unit :=
  match fuel with
  | O => knofuel
  | S fuel =>
    r ← random_seed;
    if i <? wrap (10 + r mod 10) then on_console (putc activity) ;; activity_chars fuel (wrap (i + 1)) activity
    else mret ()
  end.

(** The rounds that are left. *)
Fixpoint activity_rounds (fuel rounds : nat) (signature activity : Z) : KM example_state unit :=
  match rounds with
  | O => mret ()
  | S rounds =>
    state ← query_and_disable_interrupts;
    on_console (puts fuel signature) ;;
    conditionally_enable_interrupts state ;;
    activity_chars 20 0 activity ;;
    activity_rounds fuel rounds signature activity
  end.

Definition activity (fuel : nat) (signature activity : Z) : KM example_state unit :=
  activity_rounds fuel 100 signature activity.

(** ** What is printed *)
Definition emitted (s s' : example_state) (out : list Z) : Prop :=
  k_out (ex_console s') = k_out (ex_console s) ++ out ∧ k_mem (ex_console s') = k_mem (ex_console s) ∧
  ex_status s' = ex_status s.

Lemma emitted_trans s1 s2 s3 o1 o2 : emitted s1 s2 o1 → emitted s2 s3 o2 → emitted s1 s3 (o1 ++ o2).
Proof. intros (E1 & M1 & S1) (E2 & M2 & S2). split; [by rewrite E2, E1, app_assoc|]. split; congruence. Qed.

(** Each round asks for a new random bound; the loop ends by the 20th character at the latest. *)
Lemma activity_chars_exec c fuel i s : 0 ≤ i ≤ 19 → 19 - i < Z.of_nat fuel →
  ∃ n s', activity_chars fuel i c s = Ok (tt, s') ∧ emitted s s' (replicate n c) ∧ 10 ≤ i + Z.of_nat n ≤ 19.
Proof.
  revert i s. induction fuel as [|fuel IH]; intros i s Hi Hf; [lia|]. cbn [activity_chars].
  unfold random_seed, mbind, KM_bind. destruct (random (ex_seed s)) as [seed r]. set (s1 := ExampleState _ _ seed).
  pose proof (Z.mod_pos_bound r 10 ltac:(lia)). rewrite wrap_small by word_lia. destruct (Z.ltb_spec i (10 + r mod 10)).
  - rewrite wrap_small by word_lia. set (s2 := ExampleState (print_out [c] (ex_console s1)) (ex_status s1) seed).
    destruct (IH (i + 1) s2) as (n & s' & E & Hs & Hn); [lia..|]. exists (S n), s'. split; [exact E|]. split; [|lia].
    apply (emitted_trans s s2 s' [c]); [done|exact Hs].
  - exists 0%nat, s1. split; [done|]. split; [|lia]. split; [by rewrite app_nil_r|done].
Qed.

(** The signature, with interrupts disabled. *)
Lemma signature_exec fuel a l s : string_at (k_mem (ex_console s)) a l → (length l < fuel)%nat →
  ∃ s', (state ← query_and_disable_interrupts; on_console (puts fuel a) ;; conditionally_enable_interrupts state) s =
    Ok (tt, s') ∧ emitted s s' l.
Proof.
  intros Hl Hf. erewrite bind_ok by apply ints_query_exec. set (s1 := ints_masked s).
  set (s2 := ExampleState (print_out l (ex_console s1)) (ex_status s1) (ex_seed s1)).
  erewrite (bind_ok _ _ _ _ s2) by (unfold on_console; by rewrite (puts_spec fuel l) by done).
  exists (set_cp0_status (cp0_status s) s2). split; [by apply ints_restore|done].
Qed.

Lemma activity_rounds_exec fuel a l c rounds s : string_at (k_mem (ex_console s)) a l → (length l < fuel)%nat →
  ∃ ns s', activity_rounds fuel rounds a c s = Ok (tt, s') ∧ length ns = rounds ∧
    Forall (λ n, 10 ≤ n ≤ 19)%nat ns ∧ emitted s s' (concat ((λ n, l ++ replicate n c) <$> ns)).
Proof.
  intros Hl Hf. revert s Hl. induction rounds as [|rounds IH]; intros s Hl; cbn [activity_rounds].
  { exists [], s. split_and!; [done..|constructor|]. split; [by rewrite app_nil_r|done]. }
  destruct (signature_exec fuel a l s Hl Hf) as (s1 & E1 & O1).
  destruct (activity_chars_exec c 20 0 s1) as (n & s2 & E2 & O2 & Hn); [lia..|].
  pose proof (emitted_trans s s1 s2 _ _ O1 O2) as O12.
  destruct (IH s2) as (ns & s' & E & Hlen & Hns & O); [destruct O12 as (_ & -> & _); done|].
  exists (n :: ns), s'. split; [|split; [cbn; by f_equal|split; [constructor; [lia|done]|]]].
  - erewrite bind_ok in E1 by apply ints_query_exec. erewrite bind_ok by apply ints_query_exec.
    apply bind_inv in E1 as (x & s0 & Ep & Ec). erewrite bind_ok by exact Ep. erewrite bind_ok by exact Ec.
    by erewrite bind_ok by exact E2.
  - cbn. by apply (emitted_trans s s2 s').
Qed.

(** [activity] always ends: it prints its signature a hundred times, each time followed by
    10 to 19 of its characters, and leaves interrupts as they were. *)
Theorem activity_prints fuel a l c s : string_at (k_mem (ex_console s)) a l → (length l < fuel)%nat →
  ∃ ns s', activity fuel a c s = Ok (tt, s') ∧ length ns = 100%nat ∧ Forall (λ n, 10 ≤ n ≤ 19)%nat ns ∧
    emitted s s' (concat ((λ n, l ++ replicate n c) <$> ns)).
Proof. apply activity_rounds_exec. Qed.
