(* ===== verification/Malloc.v ===== *)
(** * The kernel heap: the code ([kernel/mm/malloc.c])

    Memory is a store of cells indexed by their address: a cell is one scalar
    object ([size_t], pointer, [bool], magic) of the heap structures, each of
    which the code always accesses with the same width.  The frame allocator is
    outside the sources (a binary), hence the interface [FrameAllocator] with
    the behaviour [falloc.h] documents. *)
From S2P Require Import Prelude CList Cpu.

(** ** The frame allocator ([mm/falloc.h]) *)
Definition FRAME_WIDTH : Z := 12.
Definition FRAME_SIZE : Z := 4096.

Definition VF_VA_AUTO : Z := 1.
Definition VF_VA_USER : Z := 2.
Definition VF_AT_KUSEG : Z := 4.
Definition VF_AT_KSEG0 : Z := 8.
Definition VF_AT_KSEG1 : Z := 16.

(** [frame_alloc cnt flags] answers a return code and a physical address. *)
Class FrameAllocator (F : Type) := {
  frame_alloc : Z → Z → F → Z * Z * F;
  frame_free : Z → Z → F → Z * F;
  (** the physical address lies in a frame that is not allocated *)
  frame_is_free : F → Z → Prop;
}.

(** [cnt] continuous frames at [phys]. *)
Definition in_frames (phys cnt a : Z) : Prop := phys ≤ a < phys + cnt * FRAME_SIZE.

Class FrameAllocatorLaws (F : Type) `{FrameAllocator F} := {
  frame_alloc_ok cnt f phys f' :
    0 < cnt → frame_alloc cnt (Z.lor VF_VA_AUTO VF_AT_KSEG0) f = (EOK, phys, f') →
    (FRAME_SIZE | phys) ∧ 0 ≤ phys ∧ phys + cnt * FRAME_SIZE ≤ 2 ^ 29 ∧
    (∀ a, in_frames phys cnt a → frame_is_free f a) ∧
    (∀ a, frame_is_free f' a ↔ frame_is_free f a ∧ ¬ in_frames phys cnt a);
  frame_alloc_fail cnt flags f rc phys f' :
    frame_alloc cnt flags f = (rc, phys, f') → rc ≠ EOK →
    ∀ a, frame_is_free f' a ↔ frame_is_free f a;
  frame_free_ok phys cnt f :
    0 < cnt → (FRAME_SIZE | phys) → 0 ≤ phys → phys + cnt * FRAME_SIZE ≤ 2 ^ 29 →
    (∀ a, in_frames phys cnt a → ¬ frame_is_free f a) →
    ∃ f', frame_free phys cnt f = (EOK, f') ∧
      ∀ a, frame_is_free f' a ↔ frame_is_free f a ∨ in_frames phys cnt a;
}.

(** ** The state *)
Record mm_state (F : Type) := MM {
  mm_mem : words;
  mm_frames : F;
  mm_status : Z;
}.
Arguments MM {F} _ _ _.
Arguments mm_mem {F} _.
Arguments mm_frames {F} _.
Arguments mm_status {F} _.

Definition set_mem {F} (f : words → words) (s : mm_state F) : mm_state F :=
  MM (f (mm_mem s)) (mm_frames s) (mm_status s).

#[export] Instance mm_cpu F : CpuState (mm_state F) := {
  cp0_status := mm_status;
  set_cp0_status v s := MM (mm_mem s) (mm_frames s) v;
}.

#[export] Instance mm_cpu_laws F : CpuStateLaws (mm_state F).
Proof. split; [done|done|]. by intros []. Qed.

(** Links in memory are those of [words]. *)
#[export] Instance mm_links F : LinkMem (mm_state F) := {
  ld_prev s p := ld_prev (mm_mem s) p;
  ld_next s p := ld_next (mm_mem s) p;
  st_prev p v := set_mem (st_prev p v);
  st_next p v := set_mem (st_next p v);
  lsep p q := lsep (M := words) p q
}.

#[export] Instance mm_links_laws F : LinkMemLaws (mm_state F).
Proof.
  split; intros; cbn [ld_prev ld_next st_prev st_next lsep mm_links set_mem mm_mem] in *.
  - by apply lsep_sym.
  - by apply lsep_ne.
  - by apply ld_prev_st_prev.
  - by apply ld_next_st_next.
  - apply ld_next_st_prev.
  - apply ld_prev_st_next.
  - by apply ld_prev_st_prev_sep.
  - by apply ld_next_st_prev_sep.
  - by apply ld_prev_st_next_sep.
  - by apply ld_next_st_next_sep.
Qed.

(** ** The structures *)
Definition HEAP_BLOCK_HEAD_MAGIC : Z := 0xBEEF0001.
Definition HEAP_BLOCK_FOOT_MAGIC : Z := 0xBEEF0002.
Definition HEAP_BLOCK_SIZE_MAX : Z := 0x10000000.
Definition ALIGNMENT : Z := 4.
Definition HEAP_FRAMES : Z := 16.

(** [heap_t]: the link is at offset 0. *)
Definition heap_start_of (heap : Z) : Z := heap + 8.
Definition heap_end_of (heap : Z) : Z := heap + 12.
Definition heap_frames_of (heap : Z) : Z := heap + 16.
Definition sizeof_heap : Z := 20.

(** [heap_block_head_t] *)
Definition head_size (head : Z) : Z := head.
Definition head_free (head : Z) : Z := head + 4.
Definition head_heap (head : Z) : Z := head + 8.
Definition head_magic (head : Z) : Z := head + 12.
Definition sizeof_head : Z := 16.

(** [heap_block_foot_t] *)
Definition foot_magic (foot : Z) : Z := foot.
Definition foot_size (foot : Z) : Z := foot + 4.
Definition sizeof_foot : Z := 8.

Section code.
  Context {F : Type} `{FrameAllocator F}.
  (** The address of the static variable [heap_list]. *)
  Context (heap_list : Z).

Definition ld (a : Z) : KM (mm_state F) Z := kload (λ s, (mm_mem s : gmap Z Z) !! a).

Definition st (a v : Z) : KM (mm_state F) unit := λ s,
  match (mm_mem s : gmap Z Z) !! a with
  | Some _ => Ok (tt, set_mem <[a := v]> s)
  | None => Fault
  end.

Definition call_frame_alloc (cnt flags : Z) : KM (mm_state F) (Z * Z) := λ s,
  let '(rc, phys, f) := frame_alloc cnt flags (mm_frames s) in
  Ok ((rc, phys), MM (mm_mem s) f (mm_status s)).

Definition call_frame_free (phys cnt : Z) : KM (mm_state F) Z := λ s,
  let '(rc, f) := frame_free phys cnt (mm_frames s) in
  Ok (rc, MM (mm_mem s) f (mm_status s)).

Definition block_check (addr : Z) : KM (mm_state F) unit :=
  let head := addr in
  heap ← ld (head_heap head);
  heap_start ← ld (heap_start_of heap);
  kassert (heap_start <=? head) ;;
  heap ← ld (head_heap head);
  heap_end ← ld (heap_end_of heap);
  kassert (head <? heap_end) ;;
  magic ← ld (head_magic head);
  kassert (magic =? HEAP_BLOCK_HEAD_MAGIC) ;;
  size ← ld (head_size head);
  let foot := wrap (addr + size - sizeof_foot) in
  fmagic ← ld (foot_magic foot);
  kassert (fmagic =? HEAP_BLOCK_FOOT_MAGIC) ;;
  size ← ld (head_size head);
  fsize ← ld (foot_size foot);
  kassert (size =? fsize).

Definition block_init (addr size : Z) (free : bool) (heap : Z) : KM (mm_state F) unit :=
  let head := addr in
  let foot := wrap (addr + size - sizeof_foot) in
  st (head_size head) size ;;
  st (head_free head) (Z.b2z free) ;;
  st (head_heap head) heap ;;
  st (head_magic head) HEAP_BLOCK_HEAD_MAGIC ;;
  st (foot_magic foot) HEAP_BLOCK_FOOT_MAGIC ;;
  st (foot_size foot) size.

Definition heap_init : KM (mm_state F) unit := list_init heap_list.

(** Formatting the area: everything [malloc_heap] does between the frame
    allocator and [list_append]. *)
Definition malloc_heap_format (real_size heap_size frames heap : Z) : KM (mm_state F) unit :=
  link_init heap ;;
  st (heap_start_of heap) (wrap (heap + sizeof_heap)) ;;
  st (heap_end_of heap) (wrap (heap + heap_size)) ;;
  st (heap_frames_of heap) frames ;;
  cur ← ld (heap_start_of heap);
  let split_limit := wrap (real_size + sizeof_head + sizeof_foot) in
  let payload_heap_size := wrap (heap_size - sizeof_heap) in
  if split_limit <? payload_heap_size then
    let next := wrap (cur + real_size) in
    block_init next (wrap (payload_heap_size - real_size)) true heap ;;
    block_init cur real_size false heap
  else block_init cur payload_heap_size false heap.

Definition malloc_heap (size : Z) : KM (mm_state F) Z :=
  let real_size := wrap (ALIGN_UP size ALIGNMENT + sizeof_head + sizeof_foot) in
  let heap_size := ALIGN_UP (wrap (real_size + sizeof_heap)) FRAME_SIZE in
  let frames := Z.shiftr heap_size FRAME_WIDTH in
  let '(frames, heap_size) :=
    if frames <? HEAP_FRAMES then (HEAP_FRAMES, wrap (Z.shiftl HEAP_FRAMES FRAME_WIDTH))
    else (frames, heap_size) in
  '(rc, phys) ← call_frame_alloc frames (Z.lor VF_VA_AUTO VF_AT_KSEG0);
  if bool_decide (rc ≠ EOK) then mret NULL
  else
    let heap := ADDR_IN_KSEG0 phys in
    malloc_heap_format real_size heap_size frames heap ;;
    list_append heap_list heap ;;
    heap_start ← ld (heap_start_of heap);
    mret (wrap (heap_start + sizeof_head)).

(** Taking the block at [pos], split when the rest can hold a block. *)
Definition malloc_take (real_size heap pos : Z) : KM (mm_state F) Z :=
  let split_limit := wrap (real_size + sizeof_head + sizeof_foot) in
  size ← ld (head_size pos);
  (if split_limit <? size then
     let next := wrap (pos + real_size) in
     size ← ld (head_size pos);
     block_init next (wrap (size - real_size)) true heap ;;
     block_init pos real_size false heap
   else st (head_free pos) (Z.b2z false)) ;;
  mret (wrap (pos + sizeof_head)).

(** The [while] loop over the blocks of a heap. *)
Fixpoint malloc_scan (fuel : nat) (real_size heap pos result : Z) : KM (mm_state F) Z :=
  match fuel with
  | O => knofuel
  | S fuel =>
    in_range ← (if bool_decide (result = NULL)
                then heap_end ← ld (heap_end_of heap); mret (pos <? heap_end)
                else mret false);
    if (in_range : bool) then
      block_check pos ;;
      free ← ld (head_free pos);
      fits ← (if bool_decide (free ≠ 0)
              then size ← ld (head_size pos); mret (real_size <=? size)
              else mret false);
      result ← (if (fits : bool) then malloc_take real_size heap pos else mret result);
      size ← ld (head_size pos);
      malloc_scan fuel real_size heap (wrap (pos + size)) result
    else mret result
  end.

Definition malloc (fuel : nat) (size : Z) : KM (mm_state F) Z :=
  kassert (size <=? HEAP_BLOCK_SIZE_MAX) ;;
  state ← query_and_disable_interrupts;
  let real_size := wrap (ALIGN_UP size ALIGNMENT + sizeof_head + sizeof_foot) in
  found ← list_foreach fuel heap_list (λ heap,
    pos ← ld (heap_start_of heap);
    result ← malloc_scan fuel real_size heap pos NULL;
    mret (if bool_decide (result ≠ NULL) then Some result else None));
  result ← (match found with
            | Some result => mret result
            | None => malloc_heap size
            end);
  conditionally_enable_interrupts state ;;
  mret result.

Definition safe_malloc (fuel : nat) (size : Z) : KM (mm_state F) Z :=
  result ← malloc fuel size;
  kassert (bool_decide (result ≠ NULL)) ;;
  mret result.

(** Merging the block at [head] with a free right neighbour. *)
Definition free_merge_next (heap head : Z) : KM (mm_state F) unit :=
  size ← ld (head_size head);
  let next_head := wrap (head + size) in
  heap_end ← ld (heap_end_of heap);
  if next_head <? heap_end then
    block_check next_head ;;
    nfree ← ld (head_free next_head);
    if bool_decide (nfree ≠ 0) then
      size ← ld (head_size head);
      nsize ← ld (head_size next_head);
      block_init head (wrap (size + nsize)) true heap
    else mret ()
  else mret ().

(** Merging it with a free left neighbour. *)
Definition free_merge_prev (heap head : Z) : KM (mm_state F) unit :=
  heap_start ← ld (heap_start_of heap);
  if heap_start <? head then
    let prev_foot := wrap (head - sizeof_foot) in
    psize ← ld (foot_size prev_foot);
    let prev_head := wrap (head - psize) in
    block_check prev_head ;;
    pfree ← ld (head_free prev_head);
    if bool_decide (pfree ≠ 0) then
      psize ← ld (head_size prev_head);
      size ← ld (head_size head);
      block_init prev_head (wrap (psize + size)) true heap
    else mret ()
  else mret ().

(** Releasing the heap when it is one free block. *)
Definition free_release (heap : Z) : KM (mm_state F) unit :=
  head ← ld (heap_start_of heap);
  hfree ← ld (head_free head);
  whole ← (if bool_decide (hfree ≠ 0) then
             heap_start ← ld (heap_start_of heap);
             size ← ld (head_size head);
             heap_end ← ld (heap_end_of heap);
             mret (bool_decide (wrap (heap_start + size) = heap_end))
           else mret false);
  if (whole : bool) then
    list_remove heap ;;
    let phys := ADDR_FROM_KSEG0 heap in
    frames ← ld (heap_frames_of heap);
    rc ← call_frame_free phys frames;
    if bool_decide (rc ≠ EOK) then kpanic else mret ()
  else mret ().

Definition free (addr : Z) : KM (mm_state F) unit :=
  state ← query_and_disable_interrupts;
  let head := wrap (addr - sizeof_head) in
  block_check head ;;
  hfree ← ld (head_free head);
  kassert (bool_decide (hfree = 0)) ;;
  heap ← ld (head_heap head);
  st (head_free head) (Z.b2z true) ;;
  free_merge_next heap head ;;
  free_merge_prev heap head ;;
  free_release heap ;;
  conditionally_enable_interrupts state.

End code.
