(* ===== verification/MallocRep.v ===== *)
(** * The kernel heap: representation

    A heap is a sequence of blocks that tile the area behind its [heap_t]
    ([heap_rep]); the abstract state of the allocator is the list of heaps in the
    order of [heap_list]. *)
From S2P Require Import Prelude CList Cpu Malloc.

Record block := Blk { b_size : Z; b_free : bool }.
Record heap := Heap { h_addr : Z; h_frames : Z; h_blocks : list block }.

#[export] Instance block_eq_dec : EqDecision block.
Proof. solve_decision. Defined.

(** Header and footer of a block at [p] of the heap at [hp]. *)
Definition block_rep (m : gmap Z Z) (hp p : Z) (b : block) : Prop :=
  m !! p = Some (b_size b) ∧ m !! (p + 4) = Some (Z.b2z (b_free b)) ∧
  m !! (p + 8) = Some hp ∧ m !! (p + 12) = Some HEAP_BLOCK_HEAD_MAGIC ∧
  m !! (p + b_size b - 8) = Some HEAP_BLOCK_FOOT_MAGIC ∧
  m !! (p + b_size b - 4) = Some (b_size b).

Fixpoint blocks_rep (m : gmap Z Z) (hp p : Z) (bs : list block) : Prop :=
  match bs with
  | [] => True
  | b :: bs => block_rep m hp p b ∧ blocks_rep m hp (p + b_size b) bs
  end.

Fixpoint total (bs : list block) : Z :=
  match bs with [] => 0 | b :: bs => b_size b + total bs end.

(** Room for header and footer; sizes are multiples of the alignment. *)
Definition block_ok (b : block) : Prop := 24 ≤ b_size b ∧ (4 | b_size b).

Fixpoint coalesced (bs : list block) : Prop :=
  match bs with
  | b1 :: (b2 :: _) as rest => ¬ (b_free b1 = true ∧ b_free b2 = true) ∧ coalesced rest
  | _ => True
  end.

Definition region_mapped (m : gmap Z Z) (lo hi : Z) : Prop :=
  ∀ a, lo ≤ a < hi → (4 | a) → is_Some (m !! a).

(** [m'] differs from [m] only in [lo, hi), and no cell is lost. *)
Definition changed (lo hi : Z) (m m' : gmap Z Z) : Prop :=
  (∀ a, a < lo ∨ hi ≤ a → m' !! a = m !! a) ∧ (∀ a, is_Some (m !! a) → is_Some (m' !! a)).

Definition heap_start (h : heap) : Z := h_addr h + sizeof_heap.
Definition heap_end (h : heap) : Z := h_addr h + h_frames h * FRAME_SIZE.

(** The part of the invariant that does not depend on memory. *)
Definition heap_ok (h : heap) : Prop :=
  ADDR_PREFIX_KSEG0 ≤ h_addr h ∧ heap_end h ≤ ADDR_PREFIX_KSEG0 + 2 ^ 29 ∧
  (FRAME_SIZE | h_addr h) ∧ 0 < h_frames h ∧ h_blocks h ≠ [] ∧
  Forall block_ok (h_blocks h) ∧ total (h_blocks h) = heap_end h - heap_start h ∧
  coalesced (h_blocks h).

Definition heap_rep (m : gmap Z Z) (h : heap) : Prop :=
  m !! (h_addr h + 8) = Some (heap_start h) ∧
  m !! (h_addr h + 12) = Some (heap_end h) ∧
  m !! (h_addr h + 16) = Some (h_frames h) ∧
  blocks_rep m (h_addr h) (heap_start h) (h_blocks h) ∧
  region_mapped m (h_addr h) (heap_end h).

(** ** Memory changes *)
Lemma changed_refl lo hi m : changed lo hi m m.
Proof. done. Qed.

Lemma changed_trans lo hi m1 m2 m3 :
  changed lo hi m1 m2 → changed lo hi m2 m3 → changed lo hi m1 m3.
Proof. intros [H1 D1] [H2 D2]. split; [|auto]. intros a Ha. rewrite H2, H1; done. Qed.

Lemma changed_mono lo hi lo' hi' m m' :
  changed lo hi m m' → lo' ≤ lo → hi ≤ hi' → changed lo' hi' m m'.
Proof. intros [H1 D1] ??. split; [|done]. intros a Ha. apply H1. lia. Qed.

Lemma changed_insert lo hi m a v : lo ≤ a < hi → changed lo hi m (<[a := v]> m).
Proof.
  intros Ha. split.
  - intros b Hb. apply lookup_insert_ne. lia.
  - intros b Hb. destruct (decide (a = b)) as [->|].
    + rewrite lookup_insert_eq. eauto.
    + by rewrite lookup_insert_ne.
Qed.

Lemma region_changed lo hi m m' l h :
  changed lo hi m m' → region_mapped m l h → region_mapped m' l h.
Proof. intros [_ D] Hr a Ha H4. apply D. by apply Hr. Qed.

Lemma block_rep_frame m m' hp p b :
  24 ≤ b_size b → (∀ a, p ≤ a < p + b_size b → m' !! a = m !! a) →
  block_rep m hp p b → block_rep m' hp p b.
Proof. intros Hb Hfr (?&?&?&?&?&?). by split_and!; rewrite Hfr by lia. Qed.

Lemma total_nonneg bs : Forall block_ok bs → 0 ≤ total bs.
Proof. induction 1 as [|b bs [? _] _ IH]; cbn; lia. Qed.

Lemma total_app bs1 bs2 : total (bs1 ++ bs2) = total bs1 + total bs2.
Proof. induction bs1; cbn; lia. Qed.

Lemma total_div bs : Forall block_ok bs → (4 | total bs).
Proof.
  induction 1 as [|b bs [_ ?] _ IH]; cbn; [by exists 0|]. by apply Z.divide_add_r.
Qed.

Lemma blocks_rep_frame m m' hp p bs :
  Forall block_ok bs → (∀ a, p ≤ a < p + total bs → m' !! a = m !! a) →
  blocks_rep m hp p bs → blocks_rep m' hp p bs.
Proof.
  intros Hok. revert p. induction Hok as [|b bs [Hb _] Hbs IH]; intros p Hfr; [done|].
  cbn in *. pose proof (total_nonneg bs Hbs). intros [Hb' Hbs']. split.
  - eapply block_rep_frame; [done| |done]. intros a Ha. apply Hfr. lia.
  - apply IH; [|done]. intros a Ha. apply Hfr. lia.
Qed.

Lemma blocks_rep_app m hp p bs1 bs2 :
  blocks_rep m hp p (bs1 ++ bs2) ↔ blocks_rep m hp p bs1 ∧ blocks_rep m hp (p + total bs1) bs2.
Proof.
  revert p. induction bs1 as [|b bs1 IH]; intros p; cbn.
  - rewrite Z.add_0_r. tauto.
  - rewrite IH, Z.add_assoc. tauto.
Qed.

(** ** Symbolic execution *)
Section exec.
  Context {F : Type} `{FrameAllocator F}.
  Implicit Types (s : mm_state F).

Lemma ld_ok s a v : (mm_mem s : gmap Z Z) !! a = Some v → ld a s = Ok (v, s).
Proof. intros Ha. unfold ld. by apply load_some. Qed.

Lemma st_ok s a v : is_Some ((mm_mem s : gmap Z Z) !! a) → st a v s = Ok (tt, set_mem <[a := v]> s).
Proof. intros [w Hw]. unfold st. by rewrite Hw. Qed.

Lemma st_region s lo hi a v :
  region_mapped (mm_mem s) lo hi → lo ≤ a < hi → (4 | a) →
  st a v s = Ok (tt, set_mem <[a := v]> s).
Proof. intros Hr Ha H4. by apply st_ok, Hr. Qed.

Lemma region_insert (s : mm_state F) lo hi a v :
  region_mapped (mm_mem s) lo hi → region_mapped (mm_mem (set_mem <[a := v]> s)) lo hi.
Proof.
  intros Hr b Hb H4. cbn. destruct (decide (a = b)) as [->|].
  - rewrite lookup_insert_eq. eauto.
  - rewrite lookup_insert_ne by done. by apply Hr.
Qed.

End exec.

Ltac addr_lia_core := rewrite ?word_max_eq in *; lia.

Lemma insert_eq_core (m : gmap Z Z) a b v : a = b → (<[a := v]> m) !! b = Some v.
Proof. intros ->. apply lookup_insert_eq. Qed.

(** Divisibility by 4, by arithmetic modulo 4. *)
Ltac div4 :=
  repeat match goal with H : (4 | _) |- _ => apply Z.mod_divide in H; [|lia] end;
  apply Z.mod_divide; [lia|]; Z.to_euclidean_division_equations; lia.
(** Lookups after insertions at other addresses. *)
Ltac mlookup :=
  repeat first [ rewrite lookup_insert_ne by addr_lia_core | rewrite insert_eq_core by addr_lia_core ];
  try reflexivity.

(** Address arithmetic: unfolds the constants of the code. *)
Ltac addr_unfold :=
  unfold head_size, head_free, head_heap, head_magic, foot_magic, foot_size,
    heap_start_of, heap_end_of, heap_frames_of, sizeof_head, sizeof_foot, sizeof_heap in *.
Ltac addr_lia :=
  unfold heap_start, heap_end, head_size, head_free, head_heap, head_magic, foot_magic, foot_size,
    heap_start_of, heap_end_of, heap_frames_of, sizeof_head, sizeof_foot, sizeof_heap,
    FRAME_SIZE, ADDR_PREFIX_KSEG0, u32, HEAP_BLOCK_SIZE_MAX in *;
  rewrite ?word_max_eq in *; lia.

(** A lookup at an address equal to a known one up to arithmetic. *)
Ltac cell H :=
  match type of H with
  | _ !! ?a = _ => match goal with |- _ !! ?b = _ => replace b with a by addr_lia; exact H end
  end.

Section exec2.
  Context {F : Type} `{FrameAllocator F}.
  Implicit Types (s : mm_state F).

(** [block_check] passes on a block of a heap. *)
Lemma block_check_exec s hp p b lo hi :
  block_rep (mm_mem s) hp p b → (mm_mem s : gmap Z Z) !! (hp + 8) = Some lo →
  (mm_mem s : gmap Z Z) !! (hp + 12) = Some hi →
  lo ≤ p < hi → 0 ≤ p → 24 ≤ b_size b → p + b_size b ≤ word_max →
  block_check p s = Ok (tt, s).
Proof.
  intros (H1 & H2 & H3 & H4 & H5 & H6) Hlo Hhi Hp Hp0 Hb Hmax. unfold block_check. addr_unfold.
  erewrite bind_ok by (by apply ld_ok). erewrite bind_ok by (by apply ld_ok).
  erewrite bind_ok by (apply assert_true; lia).
  erewrite bind_ok by (by apply ld_ok). erewrite bind_ok by (by apply ld_ok).
  erewrite bind_ok by (apply assert_true; lia).
  erewrite bind_ok by (by apply ld_ok). erewrite bind_ok by (by apply assert_true).
  erewrite bind_ok by (by apply ld_ok). rewrite wrap_small by addr_lia.
  erewrite bind_ok by (by apply ld_ok). erewrite bind_ok by (by apply assert_true).
  erewrite bind_ok by (by apply ld_ok).
  erewrite bind_ok by (apply ld_ok; cell H6).
  apply assert_true. lia.
Qed.

(** [block_init] makes a block of any mapped area. *)
Lemma block_init_exec s hp p size free :
  0 ≤ p → (4 | p) → 24 ≤ size → (4 | size) → p + size ≤ word_max →
  region_mapped (mm_mem s) p (p + size) →
  ∃ m', block_init p size free hp s = Ok (tt, set_mem (λ _, m') s) ∧
    block_rep m' hp p (Blk size free) ∧ changed p (p + size) (mm_mem s) m'.
Proof.
  intros Hp Hp4 Hs Hs4 Hmax Hr. unfold block_init. addr_unfold. rewrite wrap_small by addr_lia.
  destruct s as [m f x]. cbn [mm_mem] in *.
  do 5 (erewrite bind_ok by (eapply st_region; [by repeat apply region_insert|lia|div4])).
  erewrite st_region by (by repeat apply region_insert || lia || div4).
  eexists. split; [reflexivity|]. cbn [set_mem mm_mem b_size b_free].
  split; [|repeat (eapply changed_trans; [|apply changed_insert; lia]); apply changed_refl].
  split_and!; cbn [b_size]; mlookup.
Qed.

End exec2.
