(* ===== verification/MallocScan.v ===== *)
(** * The kernel heap: first fit inside a heap

    [find_fit] and [carve] specify which block [malloc] takes and what remains of
    it; the [while] loop of [malloc] is proved to implement them. *)
From S2P Require Import Prelude CList Cpu Malloc MallocRep.

(** The first free block of at least [need] bytes. *)
Fixpoint find_fit (need : Z) (bs : list block) : option (list block * block * list block) :=
  match bs with
  | [] => None
  | b :: bs =>
    if b_free b && (need <=? b_size b) then Some ([], b, bs)
    else '(pre, b', post) ← find_fit need bs; Some (b :: pre, b', post)
  end.

(** What becomes of the block. *)
Definition carve (need : Z) (b : block) : list block :=
  if need + 24 <? b_size b then [Blk need false; Blk (b_size b - need) true]
  else [Blk (b_size b) false].

Lemma find_fit_some need bs pre b post :
  find_fit need bs = Some (pre, b, post) →
  bs = pre ++ b :: post ∧ b_free b = true ∧ need ≤ b_size b ∧ find_fit need pre = None.
Proof.
  revert pre. induction bs as [|b' bs IH]; intros pre; cbn; [done|].
  destruct (b_free b' && (need <=? b_size b')) eqn:E.
  - intros [= <- <- <-]. apply andb_true_iff in E as [? ?]. split_and!; [done..|lia|done].
  - destruct (find_fit need bs) as [[[pre' b''] post']|]; [|done].
    intros [= <- <- <-]. destruct (IH pre' eq_refl) as (-> & ? & ? & Hn).
    split_and!; [done..|]. cbn. by rewrite E, Hn.
Qed.

Lemma total_carve need b : total (carve need b) = b_size b.
Proof. unfold carve. case_match; cbn; lia. Qed.

Lemma carve_ok need b :
  block_ok b → 24 ≤ need → (4 | need) → Forall block_ok (carve need b).
Proof.
  intros [Hb Hb4] Hn Hn4. unfold carve. destruct (Z.ltb_spec (need + 24) (b_size b)).
  - repeat constructor; cbn; [done|done|lia|]. by apply Z.divide_sub_r.
  - repeat constructor; done.
Qed.

(** Coalescing is kept: the remainder of a split follows an allocated block, and
    the neighbours of a free block are not free. *)
Lemma coalesced_cons b bs :
  coalesced (b :: bs) ↔
  (∀ b', head bs = Some b' → ¬ (b_free b = true ∧ b_free b' = true)) ∧ coalesced bs.
Proof.
  destruct bs as [|b' bs]; cbn; [split; [intros _; split; [by intros ?|done]|done]|].
  split; intros [H ?]; split; [by intros ? [= <-]|done|by apply H|done].
Qed.

Lemma coalesced_app bs1 bs2 :
  coalesced (bs1 ++ bs2) ↔
  coalesced bs1 ∧ coalesced bs2 ∧
  (∀ b1 b2, last bs1 = Some b1 → head bs2 = Some b2 → ¬ (b_free b1 = true ∧ b_free b2 = true)).
Proof.
  induction bs1 as [|b bs1 IH]; [cbn; naive_solver|].
  rewrite <- app_comm_cons, !coalesced_cons, IH. destruct bs1 as [|b' bs1]; cbn [app head last].
  - split; [intros (? & ? & ? & ?)|intros ((? & ?) & ? & ?)]; split_and!; try done; naive_solver.
  - tauto.
Qed.

Lemma coalesced_carve need pre b post :
  coalesced (pre ++ b :: post) → b_free b = true →
  coalesced (pre ++ carve need b ++ post).
Proof.
  intros Hc Hb. apply coalesced_app in Hc as (Hpre & Hbp & Hj).
  apply coalesced_cons in Hbp as [Hbn Hpost]. apply coalesced_app. split; [done|].
  unfold carve. case_match; cbn [app]; rewrite !coalesced_cons; cbn [head b_free].
  - split_and!; [by intros ? [= <-] []|by intros b' Hb' []; apply (Hbn b')|done|].
    by intros b1 b2 ? [= <-] [].
  - split_and!; [by intros ? ? []|done|]. by intros b1 b2 ? [= <-] [].
Qed.

Section scan.
  Context {F : Type} `{FrameAllocator F}.
  Implicit Types (s : mm_state F).

(** The request: a block size with room for header and footer. *)
Definition need_ok (need : Z) : Prop :=
  24 ≤ need ∧ (4 | need) ∧ need ≤ HEAP_BLOCK_SIZE_MAX + 28.

(** The loop stands at the block at [pos], with [bs] still to visit. *)
Definition scan_ok s (hp lo hi pos : Z) (bs : list block) : Prop :=
  (mm_mem s : gmap Z Z) !! (hp + 8) = Some lo ∧ (mm_mem s : gmap Z Z) !! (hp + 12) = Some hi ∧
  0 < lo ≤ pos ∧ pos + total bs = hi ∧ hi < word_max ∧ (4 | pos) ∧
  Forall block_ok bs ∧ blocks_rep (mm_mem s) hp pos bs ∧ region_mapped (mm_mem s) pos hi.

Lemma scan_ok_next s hp lo hi pos b bs :
  scan_ok s hp lo hi pos (b :: bs) → scan_ok s hp lo hi (pos + b_size b) bs.
Proof.
  intros (Hlo & Hhi & Hpos & Htot & Hmax & H4 & Hok & Hrep & Hr). inversion_clear Hok as [|?? Hb Hbs].
  destruct Hb as [Hb Hb4]. cbn in Htot, Hrep. destruct Hrep as [_ Hrep].
  split_and!; try done; try lia.
  - by apply Z.divide_add_r.
  - intros a Ha. apply Hr. lia.
Qed.

Lemma scan_block s hp lo hi pos b bs :
  scan_ok s hp lo hi pos (b :: bs) →
  block_rep (mm_mem s) hp pos b ∧ block_ok b ∧ pos + b_size b ≤ hi ∧ lo ≤ pos < hi ∧
  block_check pos s = Ok (tt, s).
Proof.
  intros (Hlo & Hhi & Hpos & Htot & Hmax & H4 & Hok & Hrep & Hr). inversion_clear Hok as [|?? Hb Hbs].
  pose proof (total_nonneg bs Hbs). cbn in Htot, Hrep. destruct Hrep as [Hrep _].
  pose proof Hb as [Hb24 _]. split_and!; try done; try lia.
  eapply block_check_exec; try done; lia.
Qed.

(** The end of the loop. *)
Lemma scan_found fuel need hp pos result s :
  result ≠ NULL → malloc_scan (S fuel) need hp pos result s = Ok (result, s).
Proof. intros Hr. cbn. by rewrite (bool_decide_eq_false_2 (result = NULL)). Qed.

Lemma take_exec s hp pos need b :
  block_rep (mm_mem s) hp pos b → block_ok b → need_ok need → need ≤ b_size b →
  0 < pos → (4 | pos) → pos + b_size b < word_max →
  region_mapped (mm_mem s) pos (pos + b_size b) →
  ∃ m', malloc_take need hp pos s = Ok (pos + 16, set_mem (λ _, m') s) ∧
    blocks_rep m' hp pos (carve need b) ∧ changed pos (pos + b_size b) (mm_mem s) m'.
Proof.
  intros Hrep [Hb Hb4] (Hn & Hn4 & Hnmax) Hfit Hpos H4 Hmax Hr.
  unfold malloc_take, carve. cbv zeta. addr_unfold. pose proof Hrep as (Hsize & Hfree & Hrest).
  rewrite (wrap_small (need + 16 + 8)) by addr_lia. rewrite (wrap_small (pos + 16)) by addr_lia.
  erewrite bind_ok by (by apply ld_ok). replace (need + 16 + 8) with (need + 24) by lia.
  destruct (Z.ltb_spec (need + 24) (b_size b)).
  - rewrite !bind_assoc. erewrite bind_ok by (by apply ld_ok).
    rewrite (wrap_small (pos + need)), (wrap_small (b_size b - need)) by addr_lia.
    destruct (block_init_exec s hp (pos + need) (b_size b - need) true) as (m1 & He1 & Hr1 & Hc1).
    { lia. } { div4. } { lia. } { div4. } { lia. }
    { intros a Ha. apply Hr. lia. }
    rewrite !bind_assoc. erewrite bind_ok by exact He1.
    destruct (block_init_exec (set_mem (λ _, m1) s) hp pos need false) as (m2 & He2 & Hr2 & Hc2).
    { lia. } { done. } { lia. } { done. } { lia. }
    { eapply region_changed; [exact Hc1|]. intros a Ha. apply Hr. lia. }
    erewrite bind_ok by exact He2. exists m2. split; [done|]. cbn [set_mem mm_mem] in *. split.
    + split; [done|]. split; [|done]. cbn [b_size].
      eapply block_rep_frame; [| |exact Hr1]; cbn [b_size]; [lia|]. intros a Ha. apply Hc2. lia.
    + eapply changed_trans; eapply changed_mono; [exact Hc1|lia|lia|exact Hc2|lia|lia].
  - erewrite bind_ok by (apply st_ok; eauto). eexists. split; [done|]. split.
    + split; [|done]. destruct Hrest as (Hhp & Hm & Hfm & Hfs). split_and!; cbn [b_size b_free].
      * by rewrite lookup_insert_ne by lia.
      * by rewrite lookup_insert_eq.
      * by rewrite lookup_insert_ne by lia.
      * by rewrite lookup_insert_ne by lia.
      * by rewrite lookup_insert_ne by lia.
      * by rewrite lookup_insert_ne by lia.
    + apply changed_insert. lia.
Qed.

(** The head of the loop on a block that does not fit. *)
Lemma scan_skip fuel need s hp lo hi pos b bs :
  scan_ok s hp lo hi pos (b :: bs) → b_free b && (need <=? b_size b) = false →
  malloc_scan (S fuel) need hp pos NULL s = malloc_scan fuel need hp (pos + b_size b) NULL s.
Proof.
  intros Hs Hfit. destruct (scan_block _ _ _ _ _ _ _ Hs) as (Hrep & [Hb Hb4] & Hend & Hp & Hchk).
  pose proof Hs as (Hlo & Hhi & Hpos & Htot & Hmax & H4 & _).
  destruct Hrep as (Hsize & Hfree & _). cbn [malloc_scan]. addr_unfold.
  rewrite bool_decide_eq_true_2 by done. rewrite bind_assoc.
  erewrite bind_ok by (by apply ld_ok). rewrite bind_ret.
  replace (pos <? hi) with true by lia.
  erewrite bind_ok by exact Hchk. erewrite bind_ok by (by apply ld_ok).
  rewrite (bind_ok _ _ s (b_free b && (need <=? b_size b)) s).
  2: { destruct (b_free b); [|done]. rewrite bool_decide_eq_true_2 by done.
       by erewrite bind_ok by (by apply ld_ok). }
  rewrite Hfit, bind_ret. erewrite bind_ok by (by apply ld_ok).
  by rewrite wrap_small by addr_lia.
Qed.

(** No block fits: nothing is changed. *)
Lemma scan_none fuel need s hp lo hi pos bs :
  scan_ok s hp lo hi pos bs → find_fit need bs = None → (length bs < fuel)%nat →
  malloc_scan fuel need hp pos NULL s = Ok (NULL, s).
Proof.
  revert fuel pos. induction bs as [|b bs IH]; intros fuel pos Hs Hfit Hf;
    (destruct fuel as [|fuel]; [cbn in Hf; lia|]).
  - destruct Hs as (Hlo & Hhi & Hpos & Htot & _). cbn [malloc_scan]. addr_unfold.
    rewrite bool_decide_eq_true_2 by done. rewrite bind_assoc.
    erewrite bind_ok by (by apply ld_ok). rewrite bind_ret. cbn in Htot.
    by replace (pos <? hi) with false by lia.
  - cbn in Hfit. destruct (b_free b && (need <=? b_size b)) eqn:E; [done|].
    rewrite (scan_skip _ _ _ _ _ _ _ _ _ Hs E). apply IH.
    + by eapply scan_ok_next.
    + by destruct (find_fit need bs) as [[[? ?] ?]|].
    + cbn in Hf. lia.
Qed.

(** The first block that fits is taken. *)
Lemma scan_some fuel need s hp lo hi pos bs pre b post :
  scan_ok s hp lo hi pos bs → find_fit need bs = Some (pre, b, post) → need_ok need →
  (S (length bs) < fuel)%nat →
  ∃ m', malloc_scan fuel need hp pos NULL s = Ok (pos + total pre + 16, set_mem (λ _, m') s) ∧
    blocks_rep m' hp (pos + total pre) (carve need b) ∧
    changed (pos + total pre) (pos + total pre + b_size b) (mm_mem s) m'.
Proof.
  intros Hs Hfit Hneed. revert fuel pos pre Hs Hfit.
  induction bs as [|b' bs IH]; intros fuel pos pre Hs Hfit Hf; [done|].
  destruct fuel as [|fuel]; [cbn in Hf; lia|]. cbn in Hfit, Hf.
  destruct (b_free b' && (need <=? b_size b')) eqn:E.
  - injection Hfit as <- <- <-. cbn [total]. rewrite Z.add_0_r.
    destruct (scan_block _ _ _ _ _ _ _ Hs) as (Hrep & Hok & Hend & Hp & Hchk).
    pose proof Hs as (Hlo & Hhi & Hpos & Htot & Hmax & H4 & _ & _ & Hr).
    apply andb_true_iff in E as [Hbf Hbs]. pose proof Hrep as (Hsize & Hfree & _).
    destruct (take_exec s hp pos need b' Hrep Hok Hneed) as (m' & He & Hr' & Hc).
    { lia. } { lia. } { done. } { lia. } { intros a Ha. apply Hr. lia. }
    cbn [malloc_scan]. addr_unfold.
    rewrite bool_decide_eq_true_2 by done. rewrite bind_assoc.
    erewrite bind_ok by (by apply ld_ok). rewrite bind_ret.
    replace (pos <? hi) with true by lia.
    erewrite bind_ok by exact Hchk. erewrite bind_ok by (by apply ld_ok).
    rewrite Hbf. rewrite bool_decide_eq_true_2 by done.
    erewrite bind_ok by (erewrite bind_ok by (by apply ld_ok); reflexivity).
    rewrite Hbs. erewrite bind_ok by exact He.
    assert (∃ v, (m' : gmap Z Z) !! pos = Some v) as [v Hv].
    { unfold carve in Hr'. case_match; destruct Hr' as [[Hv _] _]; eauto. }
    erewrite bind_ok by (by apply ld_ok). exists m'. split; [|done].
    destruct fuel as [|fuel]; [lia|]. apply scan_found. unfold NULL. lia.
  - rewrite (scan_skip _ _ _ _ _ _ _ _ _ Hs E).
    destruct (find_fit need bs) as [[[pre' b''] post']|] eqn:Ef; [|done].
    injection Hfit as <- <- <-. cbn [total]. rewrite Z.add_assoc.
    apply IH; [by eapply scan_ok_next|done|lia].
Qed.

End scan.
