(* ===== verification/MallocInv.v ===== *)
(** * The kernel heap: the invariant of the allocator

    [mm_inv s hs]: the list [heap_list] links exactly the heaps [hs], each of
    them is a well-formed tiling of its frames, and heaps, the static list head
    and the free frames do not overlap. *)
From S2P Require Import Prelude CList Cpu Malloc MallocRep MallocScan.

Definition heaps_disjoint (hs : list heap) : Prop :=
  ∀ h1 h2, h1 ∈ hs → h2 ∈ hs → h_addr h1 ≠ h_addr h2 →
    heap_end h1 ≤ h_addr h2 ∨ heap_end h2 ≤ h_addr h1.

(** An area that avoids the list head. *)
Definition off_list (hl lo hi : Z) : Prop := hl + 8 ≤ lo ∨ hi ≤ hl.

Section inv.
  Context {F : Type} `{FrameAllocatorLaws F} (hl : Z).
  Implicit Types (s : mm_state F) (hs : list heap).

(** No frame of the heap is free. *)
Definition frames_used (f : F) (h : heap) : Prop :=
  ∀ a, h_addr h ≤ a < heap_end h → ¬ frame_is_free f (a - ADDR_PREFIX_KSEG0).

(** Free frames are backed by memory that nothing else uses. *)
Definition free_mapped s : Prop :=
  ∀ a, phys_ok a → frame_is_free (mm_frames s) a →
    ((4 | a) → is_Some ((mm_mem s : gmap Z Z) !! (a + ADDR_PREFIX_KSEG0))) ∧
    off_list hl (a + ADDR_PREFIX_KSEG0) (a + ADDR_PREFIX_KSEG0 + 1).

Definition mm_inv s hs : Prop :=
  is_list s hl (h_addr <$> hs) ∧ Forall heap_ok hs ∧ Forall (heap_rep (mm_mem s)) hs ∧
  heaps_disjoint hs ∧ Forall (λ h, off_list hl (h_addr h) (heap_end h)) hs ∧
  Forall (frames_used (mm_frames s)) hs ∧ free_mapped s.

(** The payload [[p, p + n)] of an allocated block. *)
Definition allocated hs (p n : Z) : Prop :=
  ∃ h pre b post, h ∈ hs ∧ h_blocks h = pre ++ b :: post ∧ b_free b = false ∧
    p = heap_start h + total pre + sizeof_head ∧ n = b_size b - sizeof_head - sizeof_foot.

End inv.

(** ** Frames *)
Definition dom_grows (m m' : gmap Z Z) : Prop := ∀ a, is_Some (m !! a) → is_Some (m' !! a).

Lemma heap_rep_frame m m' h :
  heap_ok h → dom_grows m m' →
  (∀ a, h_addr h + 8 ≤ a < heap_end h → m' !! a = m !! a) →
  heap_rep m h → heap_rep m' h.
Proof.
  intros (Hlo & Hhi & Hdiv & Hfr & Hne & Hok & Htot & _) Hd Heq (H8 & H12 & H16 & Hbs & Hr).
  pose proof (total_nonneg _ Hok).
  assert (Hpos : heap_start h ≤ heap_end h) by lia.
  split_and!.
  - rewrite Heq; [done|addr_lia].
  - rewrite Heq; [done|addr_lia].
  - rewrite Heq; [done|addr_lia].
  - eapply blocks_rep_frame; [done| |done]. intros a Ha. apply Heq. addr_lia.
  - intros a Ha H4. by apply Hd, Hr.
Qed.

(** The links of the list are not touched by changes elsewhere. *)
Lemma is_list_cells {F} (s s' : mm_state F) h xs :
  (∀ x, x ∈ h :: xs → (mm_mem s' : gmap Z Z) !! x = (mm_mem s : gmap Z Z) !! x ∧
    (mm_mem s' : gmap Z Z) !! (x + 4) = (mm_mem s : gmap Z Z) !! (x + 4)) →
  is_list s h xs → is_list s' h xs.
Proof.
  intros Hfr [Hp Hs]. split; [|done]. eapply path_frame; [..|exact Hp].
  - intros p Hin. apply Hfr. rewrite app_comm_cons, removelast_last in Hin. done.
  - intros p Hin. apply Hfr. cbn [tail] in Hin.
    apply elem_of_app in Hin as [?| ->%list_elem_of_singleton]; [by right|by left].
Qed.

Lemma writes_mm {F} (P : Z → Prop) (s s' : mm_state F) :
  writes P s s' →
  writes P (mm_mem s) (mm_mem s') ∧ mm_frames s' = mm_frames s ∧ mm_status s' = mm_status s ∧
  dom_grows (mm_mem s) (mm_mem s').
Proof.
  assert (Hins : ∀ (m : gmap Z Z) (a v : Z), dom_grows m (<[a:=v]> m)).
  { intros m a v b Hb. destruct (decide (a = b)) as [->|].
    - rewrite lookup_insert_eq. eauto.
    - by rewrite lookup_insert_ne. }
  induction 1 as [s|s s' p v Hw (IH1 & IH2 & IH3 & IH4) Hp|s s' p v Hw (IH1 & IH2 & IH3 & IH4) Hp].
  - split_and!; [apply writes_refl|done|done|by intros a ?].
  - split_and!; [by apply writes_prev|done|done|]. intros a Ha. by apply Hins, IH4.
  - split_and!; [by apply writes_next|done|done|]. intros a Ha. by apply Hins, IH4.
Qed.

Section facts.
  Context {F : Type} `{FrameAllocatorLaws F} (hl : Z).
  Implicit Types (s : mm_state F) (hs : list heap).

Lemma mm_inv_ok s hs h : mm_inv hl s hs → h ∈ hs → heap_ok h ∧ heap_rep (mm_mem s) h ∧
  off_list hl (h_addr h) (heap_end h) ∧ frames_used (mm_frames s) h.
Proof.
  intros (_ & Hok & Hrep & _ & Hoff & Hused & _) Hin. rewrite Forall_forall in *. auto.
Qed.

(** Changing the contents of one heap, its links and frames apart. *)
Lemma mm_inv_update s m' hs1 h h' hs2 lo hi :
  mm_inv hl s (hs1 ++ h :: hs2) → changed lo hi (mm_mem s) m' →
  h_addr h + 8 ≤ lo → hi ≤ heap_end h →
  h_addr h' = h_addr h → h_frames h' = h_frames h →
  heap_ok h' → heap_rep m' h' →
  mm_inv hl (set_mem (λ _, m') s) (hs1 ++ h' :: hs2).
Proof.
  intros Hinv [Hc Hd] Hlo Hhi Ha Hf Hok' Hrep'.
  pose proof Hinv as (Hl & Hok & Hrep & Hdis & Hoff & Hused & Hmap).
  assert (Hend : heap_end h' = heap_end h) by (unfold heap_end; congruence).
  assert (Hin : h ∈ hs1 ++ h :: hs2) by set_solver.
  assert (Hnodup : NoDup (h_addr <$> hs1 ++ h :: hs2)).
  { destruct Hl as [_ [Hnd _]]. by apply NoDup_cons in Hnd as [_ ?]. }
  assert (Hoth : ∀ g, g ∈ hs1 ++ hs2 → g ∈ hs1 ++ h :: hs2 ∧ h_addr g ≠ h_addr h).
  { intros g Hg. split; [set_solver|]. intros Heq.
    rewrite fmap_app, fmap_cons in Hnodup. apply NoDup_app in Hnodup as (_ & Hd1 & Hd2).
    apply NoDup_cons in Hd2 as [Hd2 _]. apply elem_of_app in Hg as [Hg|Hg].
    - apply (Hd1 (h_addr g)); [by apply list_elem_of_fmap_2|rewrite Heq; left].
    - apply Hd2. rewrite <- Heq. by apply list_elem_of_fmap_2. }
  assert (Hsep : ∀ g, g ∈ hs1 ++ hs2 → ∀ a, h_addr g ≤ a < heap_end g → m' !! a = (mm_mem s : gmap Z Z) !! a).
  { intros g Hg a Hag. apply Hc. destruct (Hoth g Hg) as [Hg1 Hg2].
    destruct (Hdis g h Hg1 Hin Hg2); lia. }
  assert (Hall : ∀ (P : heap → Prop), (∀ g, g ∈ hs1 ++ hs2 → P g) → P h' → Forall P (hs1 ++ h' :: hs2)).
  { intros P HP Hh. apply Forall_forall. intros g Hg.
    apply elem_of_app in Hg as [?|[->|?]%elem_of_cons]; [apply HP; set_solver|done|apply HP; set_solver]. }
  destruct (mm_inv_ok _ _ _ Hinv Hin) as (Hok_h & _ & Hoff_h & Hused_h).
  split_and!.
  - rewrite fmap_app, fmap_cons, Ha, <- fmap_cons, <- fmap_app. eapply is_list_cells; [|exact Hl].
    intros x Hx. cbn [set_mem mm_mem].
    assert (x = hl ∨ x = h_addr h ∨ ∃ g, g ∈ hs1 ++ hs2 ∧ x = h_addr g) as [->|[->|(g & Hg & ->)]].
    { apply elem_of_cons in Hx as [->|(g & -> & Hg)%list_elem_of_fmap]; [auto|right].
      apply elem_of_app in Hg as [?|[->|?]%elem_of_cons]; [right|auto|right]; exists g; set_solver. }
    + unfold off_list in Hoff_h. split; apply Hc; lia.
    + split; apply Hc; lia.
    + destruct (Hoth g Hg) as [Hg1 _]. destruct (mm_inv_ok _ _ _ Hinv Hg1) as ((_ & _ & _ & ? & _) & _).
      split; apply (Hsep g Hg); unfold heap_end, FRAME_SIZE; lia.
  - apply Hall; [|done]. intros g Hg. by apply (mm_inv_ok s _ g Hinv), Hoth.
  - apply Hall; [|done]. intros g Hg. destruct (Hoth g Hg) as [Hg1 _].
    destruct (mm_inv_ok _ _ _ Hinv Hg1) as (Hg_ok & Hg_rep & _).
    eapply heap_rep_frame; [done|done| |done]. intros a Hag. apply (Hsep g Hg). lia.
  - assert (Hto : ∀ g, g ∈ hs1 ++ h' :: hs2 → ∃ g0, g0 ∈ hs1 ++ h :: hs2 ∧ h_addr g0 = h_addr g ∧ heap_end g0 = heap_end g).
    { intros g [Hg|[->|Hg]%elem_of_cons]%elem_of_app; [exists g|exists h|exists g]; split_and!; congruence || set_solver. }
    intros g1 g2 (k1 & Hk1 & <- & <-)%Hto (k2 & Hk2 & <- & <-)%Hto. by apply Hdis.
  - apply Hall; [|by rewrite Ha, Hend]. intros g Hg. by apply (mm_inv_ok s _ g Hinv), Hoth.
  - apply Hall; [|unfold frames_used; by rewrite Ha, Hend]. intros g Hg. by apply (mm_inv_ok s _ g Hinv), Hoth.
  - intros a Hp Hfree. destruct (Hmap a Hp Hfree) as [Hm Ho]. split; [|done]. intros H4. by apply Hd, Hm.
Qed.

End facts.
