(* ===== verification/MallocAlloc.v ===== *)
(** * The kernel heap: allocation

    [malloc] takes the first block that fits in the first heap that has one, or
    creates a heap ([malloc_heap]). *)
From S2P Require Import Prelude CList Cpu Malloc MallocRep MallocScan MallocInv.

(** The first heap with a block that fits, and the split of its blocks. *)
Fixpoint find_heap (need : Z) (hs : list heap) :
    option (list heap * heap * list block * block * list block * list heap) :=
  match hs with
  | [] => None
  | h :: hs =>
    match find_fit need (h_blocks h) with
    | Some (pre, b, post) => Some ([], h, pre, b, post, hs)
    | None => '(hs1, h', pre, b, post, hs2) ← find_heap need hs;
              Some (h :: hs1, h', pre, b, post, hs2)
    end
  end.

Lemma find_heap_some need hs hs1 h pre b post hs2 :
  find_heap need hs = Some (hs1, h, pre, b, post, hs2) →
  hs = hs1 ++ h :: hs2 ∧ find_fit need (h_blocks h) = Some (pre, b, post) ∧
  Forall (λ h, find_fit need (h_blocks h) = None) hs1.
Proof.
  revert hs1. induction hs as [|g hs IH]; intros hs1; cbn; [done|].
  destruct (find_fit need (h_blocks g)) as [[[pre' b'] post']|] eqn:E.
  - intros [= <- <- <- <- <- <-]. auto.
  - destruct (find_heap need hs) as [[[[[[hs1' g'] pre'] b'] post'] hs2']|]; [|done].
    cbn. intros [= <- <- <- <- <- <-]. destruct (IH hs1' eq_refl) as (-> & ? & ?). auto.
Qed.

Lemma find_heap_none need hs :
  find_heap need hs = None → Forall (λ h, find_fit need (h_blocks h) = None) hs.
Proof.
  induction hs as [|g hs IH]; cbn; [done|].
  destruct (find_fit need (h_blocks g)) as [[[? ?] ?]|] eqn:E; [done|].
  destruct (find_heap need hs) as [[[[[[? ?] ?] ?] ?] ?]|]; [done|]. auto.
Qed.

(** The size of the block that holds a request. *)
Definition real_size (size : Z) : Z := ALIGN_UP size 4 + 24.

Lemma real_size_ok size : 0 ≤ size ≤ HEAP_BLOCK_SIZE_MAX →
  need_ok (real_size size) ∧ size + 24 ≤ real_size size ∧
  wrap (ALIGN_UP size ALIGNMENT + sizeof_head + sizeof_foot) = real_size size.
Proof.
  intros Hs. destruct (ALIGN_UP_spec size 2) as [Hr H4]; [addr_lia..|].
  change (2 ^ 2) with 4 in *. unfold real_size, need_ok, ALIGNMENT. split_and!; try addr_lia.
  - apply Z.divide_add_r; [done|by exists 6].
  - rewrite wrap_small by addr_lia. addr_lia.
Qed.

(** Fuel: more than the number of heaps, and of the blocks of any heap. *)
Definition fuel_ok (fuel : nat) (hs : list heap) : Prop :=
  (length hs < fuel)%nat ∧ Forall (λ h, S (length (h_blocks h)) < fuel)%nat hs.

Section alloc.
  Context {F : Type} `{FrameAllocatorLaws F} (hl : Z).
  Implicit Types (s : mm_state F) (hs : list heap).

(** The body of the loop over the heaps. *)
Definition malloc_body (fuel : nat) (need heap : Z) : KM (mm_state F) (option Z) :=
  pos ← ld (heap_start_of heap);
  result ← malloc_scan fuel need heap pos NULL;
  mret (if bool_decide (result ≠ NULL) then Some result else None).

Lemma heap_scan_ok s h :
  heap_ok h → heap_rep (mm_mem s) h →
  scan_ok s (h_addr h) (heap_start h) (heap_end h) (heap_start h) (h_blocks h).
Proof.
  intros (Hlo & Hhi & Hdiv & Hfr & Hne & Hok & Htot & _) (H8 & H12 & H16 & Hbs & Hr).
  split_and!; try done; try addr_lia.
  - destruct Hdiv as [k Hk]. exists (k * 1024 + 5). addr_lia.
  - intros a Ha. apply Hr. addr_lia.
Qed.

Lemma body_none fuel need s h :
  heap_ok h → heap_rep (mm_mem s) h → find_fit need (h_blocks h) = None →
  (length (h_blocks h) < fuel)%nat → malloc_body fuel need (h_addr h) s = Ok (None, s).
Proof.
  intros Hok Hrep Hfit Hf. unfold malloc_body. pose proof Hrep as (H8 & _).
  erewrite bind_ok by (by apply ld_ok).
  erewrite bind_ok by (eapply scan_none; [by apply heap_scan_ok|done|done]). done.
Qed.

Lemma body_some fuel need s h pre b post :
  heap_ok h → heap_rep (mm_mem s) h → need_ok need →
  find_fit need (h_blocks h) = Some (pre, b, post) → (S (length (h_blocks h)) < fuel)%nat →
  ∃ m', malloc_body fuel need (h_addr h) s =
          Ok (Some (heap_start h + total pre + 16), set_mem (λ _, m') s) ∧
    blocks_rep m' (h_addr h) (heap_start h + total pre) (carve need b) ∧
    changed (heap_start h + total pre) (heap_start h + total pre + b_size b) (mm_mem s) m'.
Proof.
  intros Hok Hrep Hneed Hfit Hf. unfold malloc_body. pose proof Hrep as (H8 & _).
  erewrite bind_ok by (by apply ld_ok).
  destruct (scan_some fuel need s (h_addr h) (heap_start h) (heap_end h) (heap_start h)
    (h_blocks h) pre b post) as (m' & He & Hr & Hc); [by apply heap_scan_ok|done..|].
  erewrite bind_ok by exact He. exists m'. split; [|done].
  rewrite bool_decide_eq_true_2; [done|].
  destruct (find_fit_some _ _ _ _ _ Hfit) as (Hbs & _).
  destruct Hok as (Hlo & _ & _ & _ & _ & Hok & _). rewrite Hbs in Hok.
  apply Forall_app in Hok as [Hok _]. apply total_nonneg in Hok. unfold NULL. addr_lia.
Qed.

(** Carving a block out of a heap. *)
Lemma carve_heap s hs1 h pre b post hs2 need m' :
  mm_inv hl s (hs1 ++ h :: hs2) → need_ok need →
  h_blocks h = pre ++ b :: post → b_free b = true → need ≤ b_size b →
  blocks_rep m' (h_addr h) (heap_start h + total pre) (carve need b) →
  changed (heap_start h + total pre) (heap_start h + total pre + b_size b) (mm_mem s) m' →
  mm_inv hl (set_mem (λ _, m') s)
    (hs1 ++ Heap (h_addr h) (h_frames h) (pre ++ carve need b ++ post) :: hs2).
Proof.
  intros Hinv (Hn & Hn4 & _) Hbs Hb Hfit Hrep' Hc.
  destruct (mm_inv_ok _ _ _ h Hinv ltac:(set_solver)) as (Hok & Hrep & _).
  pose proof Hok as (Hlo & Hhi & Hdiv & Hfr & Hne & Hbok & Htot & Hco).
  pose proof Hrep as (H8 & H12 & H16 & Hbr & Hreg).
  rewrite Hbs in Hbok, Htot, Hco, Hbr. apply Forall_app in Hbok as [Hpre Hbp].
  inversion_clear Hbp as [|?? Hbb Hpost]. pose proof (total_nonneg _ Hpre). pose proof (total_nonneg _ Hpost).
  rewrite total_app in Htot. cbn [total] in Htot.
  apply blocks_rep_app in Hbr as [Hr1 [_ Hr2]]. destruct Hc as [Hsame Hdom].
  eapply mm_inv_update; [exact Hinv|split; [exact Hsame|exact Hdom]|..];
    cbn [h_addr h_frames h_blocks]; [addr_lia|addr_lia|done|done|..].
  - unfold heap_ok, heap_end, heap_start in *. cbn [h_addr h_frames h_blocks]. split_and!; try done.
    + by destruct pre; [unfold carve; case_match|].
    + apply Forall_app. split; [done|]. apply Forall_app. split; [by apply carve_ok|done].
    + rewrite !total_app, total_carve. lia.
    + by apply coalesced_carve.
  - unfold heap_rep, heap_end, heap_start in *. cbn [h_addr h_frames h_blocks].
    split_and!; [rewrite Hsame; [done|addr_lia]..| |].
    + apply blocks_rep_app. split; [|apply blocks_rep_app; split; [done|]].
      * eapply blocks_rep_frame; [done| |exact Hr1]. intros a Ha. apply Hsame. lia.
      * rewrite total_carve. eapply blocks_rep_frame; [done| |exact Hr2].
        intros a Ha. apply Hsame. lia.
    + intros a Ha H4. by apply Hdom, Hreg.
Qed.

End alloc.
