(* ===== verification/MallocTop.v ===== *)
(** * The kernel heap: growing, and all of [malloc]

    [malloc_heap] asks the frame allocator for frames, formats them as one heap and links it
    at the end of [heap_list].  With it [malloc] refines the first-fit specification. *)
From S2P Require Import Prelude CList Cpu Malloc MallocRep MallocScan MallocInv MallocAlloc.

(** The frames requested for a block of [need] bytes, at least [HEAP_FRAMES]. *)
Definition frames_for (need : Z) : Z :=
  Z.max HEAP_FRAMES (Z.shiftr (ALIGN_UP (need + sizeof_heap) FRAME_SIZE) FRAME_WIDTH).

Lemma frames_for_spec need : need_ok need →
  HEAP_FRAMES ≤ frames_for need ∧ need + sizeof_heap ≤ frames_for need * FRAME_SIZE ∧
  frames_for need * FRAME_SIZE < word_max ∧
  (let heap_size := ALIGN_UP (wrap (need + sizeof_heap)) FRAME_SIZE in
   if Z.shiftr heap_size FRAME_WIDTH <? HEAP_FRAMES
   then (HEAP_FRAMES, wrap (Z.shiftl HEAP_FRAMES FRAME_WIDTH))
   else (Z.shiftr heap_size FRAME_WIDTH, heap_size))
  = (frames_for need, frames_for need * FRAME_SIZE).
Proof.
  intros (Hn & _ & Hmax). unfold frames_for. rewrite wrap_small by addr_lia. cbv zeta.
  destruct (ALIGN_UP_spec (need + sizeof_heap) 12) as [Hr [k Hk]]; [addr_lia..|].
  change (2 ^ 12) with FRAME_SIZE in *. rewrite Hk in *.
  rewrite Z.shiftr_div_pow2 by done. change (2 ^ FRAME_WIDTH) with FRAME_SIZE.
  rewrite Z.div_mul by done. unfold HEAP_FRAMES. split_and!; [lia|addr_lia|addr_lia|].
  destruct (Z.ltb_spec k 16).
  - by rewrite Z.max_l by lia.
  - by rewrite Z.max_r by lia.
Qed.

(** The heap made of fresh frames for a block of [need] bytes. *)
Definition new_heap (base need : Z) : heap :=
  let frames := frames_for need in
  Heap base frames (carve need (Blk (frames * FRAME_SIZE - sizeof_heap) true)).

Lemma new_heap_ok base need :
  need_ok need → (FRAME_SIZE | base) → ADDR_PREFIX_KSEG0 ≤ base →
  base + frames_for need * FRAME_SIZE ≤ ADDR_PREFIX_KSEG0 + 2 ^ 29 →
  heap_ok (new_heap base need).
Proof.
  intros Hneed Hdiv Hlo Hhi. destruct (frames_for_spec need Hneed) as (Hf & Hroom & _).
  destruct Hneed as (Hn & Hn4 & Hmax). unfold heap_ok, new_heap, heap_end, heap_start.
  cbn [h_addr h_frames h_blocks]. unfold HEAP_FRAMES in *. split_and!; try done; try lia.
  - unfold carve. by case_match.
  - apply carve_ok; [|done|done]. split; cbn [b_size]; [addr_lia|].
    exists (frames_for need * 1024 - 5). addr_lia.
  - rewrite total_carve. cbn [b_size]. lia.
  - unfold carve. case_match; cbn; [|done]. by split; [intros []|].
Qed.

Section grow.
  Context {F : Type} `{FrameAllocatorLaws F} (hl : Z).
  Implicit Types (s : mm_state F) (hs : list heap).

(** The blocks of a fresh heap. *)
Lemma format_blocks s hp p size need :
  need_ok need → need ≤ size → (4 | size) → (4 | p) → 0 ≤ p → p + size < word_max →
  region_mapped (mm_mem s) p (p + size) →
  ∃ m', (if wrap (need + sizeof_head + sizeof_foot) <? size then
           block_init (wrap (p + need)) (wrap (size - need)) true hp ;;
           block_init p need false hp
         else block_init p size false hp) s = Ok (tt, set_mem (λ _, m') s) ∧
    blocks_rep m' hp p (carve need (Blk size true)) ∧ changed p (p + size) (mm_mem s) m'.
Proof.
  intros (Hn & Hn4 & Hmax) Hfit Hs4 Hp4 Hp Hend Hr. unfold carve. cbn [b_size].
  rewrite wrap_small by addr_lia. addr_unfold. replace (need + 16 + 8) with (need + 24) by lia.
  destruct (Z.ltb_spec (need + 24) size).
  - rewrite (wrap_small (p + need)), (wrap_small (size - need)) by addr_lia.
    destruct (block_init_exec s hp (p + need) (size - need) true) as (m1 & He1 & Hr1 & Hc1).
    { lia. } { div4. } { lia. } { div4. } { lia. }
    { intros a Ha. apply Hr. lia. }
    erewrite bind_ok by exact He1.
    destruct (block_init_exec (set_mem (λ _, m1) s) hp p need false) as (m2 & He2 & Hr2 & Hc2).
    { lia. } { done. } { lia. } { done. } { lia. }
    { eapply region_changed; [exact Hc1|]. intros a Ha. apply Hr. lia. }
    exists m2. split; [exact He2|]. cbn [set_mem mm_mem] in *. split.
    + split; [done|]. split; [|done]. cbn [b_size].
      eapply block_rep_frame; [| |exact Hr1]; cbn [b_size]; [lia|]. intros a Ha. apply Hc2. lia.
    + eapply changed_trans; eapply changed_mono; [exact Hc1|lia|lia|exact Hc2|lia|lia].
  - destruct (block_init_exec s hp p size false) as (m1 & He1 & Hr1 & Hc1); [lia|done|lia|done|lia|done|].
    exists m1. by split_and!.
Qed.

Lemma format_exec s need base :
  need_ok need → (FRAME_SIZE | base) → ADDR_PREFIX_KSEG0 ≤ base →
  base + frames_for need * FRAME_SIZE ≤ ADDR_PREFIX_KSEG0 + 2 ^ 29 →
  region_mapped (mm_mem s) base (base + frames_for need * FRAME_SIZE) →
  ∃ m', malloc_heap_format need (frames_for need * FRAME_SIZE) (frames_for need) base s =
          Ok (tt, set_mem (λ _, m') s) ∧
    heap_rep m' (new_heap base need) ∧
    changed base (base + frames_for need * FRAME_SIZE) (mm_mem s) m'.
Proof.
  intros Hneed [k Hk] Hlo Hhi Hr. destruct (frames_for_spec need Hneed) as (Hf & Hroom & Hmaxf & _).
  pose proof Hneed as (Hn & Hn4 & Hmax). unfold HEAP_FRAMES in *.
  set (size := frames_for need * FRAME_SIZE) in *.
  assert (Hb4 : (4 | base)) by (exists (k * 1024); addr_lia).
  assert (Hs4 : (4 | size)) by (exists (frames_for need * 1024); unfold size; addr_lia).
  assert (Hsz : 65536 ≤ size) by (unfold size; addr_lia).
  unfold malloc_heap_format. cbv zeta. addr_unfold.
  assert (Hmapped : mapped s base).
  { split; apply Hr; try done; try addr_lia. cbn. div4. }
  erewrite bind_ok by (apply link_init_exec; [unfold NULL; addr_lia|exact Hmapped]).
  set (s1 := st_next _ _ _).
  assert (Hc1 : changed base (base + size) (mm_mem s) (mm_mem s1)).
  { eapply changed_trans; apply changed_insert; lia. }
  assert (Hr1 : region_mapped (mm_mem s1) base (base + size)) by (by eapply region_changed).
  do 3 (erewrite bind_ok by (eapply st_region; [by repeat apply region_insert|lia|div4])).
  set (s2 := set_mem _ (set_mem _ (set_mem _ s1))).
  assert (Hc2 : changed base (base + size) (mm_mem s) (mm_mem s2)).
  { eapply changed_trans; [exact Hc1|].
    eapply changed_trans; [eapply changed_trans|]; apply changed_insert; lia. }
  assert (Hl8 : (mm_mem s2 : gmap Z Z) !! (base + 8) = Some (base + 20)).
  { cbn. rewrite (wrap_small (base + 20)) by addr_lia. mlookup. }
  assert (Hl12 : (mm_mem s2 : gmap Z Z) !! (base + 12) = Some (base + size)).
  { cbn. rewrite (wrap_small (base + size)) by addr_lia. mlookup. }
  assert (Hl16 : (mm_mem s2 : gmap Z Z) !! (base + 16) = Some (frames_for need)) by (cbn; mlookup).
  assert (Hst : mm_frames s2 = mm_frames s ∧ mm_status s2 = mm_status s) by done.
  clearbody s2. clear s1 Hc1 Hr1. erewrite bind_ok by (by apply ld_ok).
  rewrite (wrap_small (size - 20)) by addr_lia.
  destruct (format_blocks s2 base (base + 20) (size - 20) need) as (m3 & He3 & Hr3 & Hc3);
    [done|addr_lia|div4|div4|addr_lia|addr_lia| |].
  { eapply region_changed; [exact Hc2|]. intros a Ha. apply Hr. lia. }
  addr_unfold. exists m3. destruct s as [m f x], s2 as [m2 f2 x2]; cbn [set_mem mm_mem mm_frames mm_status] in *.
  destruct Hst as [-> ->]. split; [exact He3|]. destruct Hc3 as [Hsame Hdom].
  unfold heap_rep, heap_start, heap_end. addr_unfold. cbn [new_heap h_addr h_frames h_blocks].
  fold size. split; [split_and!|].
  - rewrite Hsame; [done|lia].
  - rewrite Hsame; [done|lia].
  - rewrite Hsame; [done|lia].
  - exact Hr3.
  - intros a Ha H4. apply Hdom, Hc2. by apply Hr.
  - eapply changed_trans; [exact Hc2|]. eapply changed_mono; [split; [exact Hsame|exact Hdom]|lia|lia].
Qed.

(** The state of the frame allocator may change without any frame changing hands. *)
Definition with_frames (f : F) s : mm_state F := MM (mm_mem s) f (mm_status s).

Lemma mm_inv_same_frames s hs f :
  (∀ a, frame_is_free f a ↔ frame_is_free (mm_frames s) a) →
  mm_inv hl s hs → mm_inv hl (with_frames f s) hs.
Proof.
  intros Hf (Hl & Hok & Hrep & Hdis & Hoff & Hused & Hmap). split_and!; try done.
  - eapply is_list_cells; [|exact Hl]. done.
  - eapply Forall_impl; [exact Hused|]. intros h Hh a Ha. cbn. rewrite Hf. by apply Hh.
  - intros a Hp Ha. apply Hf in Ha. by apply Hmap.
Qed.

(** An area of free frames is apart from everything the allocator uses. *)
Lemma fresh_area s hs phys cnt :
  mm_inv hl s hs → 0 < cnt → 0 ≤ phys → phys + cnt * FRAME_SIZE ≤ 2 ^ 29 →
  (∀ a, in_frames phys cnt a → frame_is_free (mm_frames s) a) →
  let base := phys + ADDR_PREFIX_KSEG0 in
  region_mapped (mm_mem s) base (base + cnt * FRAME_SIZE) ∧
  off_list hl base (base + cnt * FRAME_SIZE) ∧
  (∀ h, h ∈ hs → heap_end h ≤ base ∨ base + cnt * FRAME_SIZE ≤ h_addr h).
Proof.
  intros Hinv Hcnt Hp0 Hmax Hfree base. pose proof Hinv as (_ & _ & _ & _ & _ & _ & Hmap).
  unfold base, in_frames, phys_ok, off_list, FRAME_SIZE in *. clear base. split_and!.
  - intros a Ha H4. replace a with ((a - ADDR_PREFIX_KSEG0) + ADDR_PREFIX_KSEG0) by lia.
    apply Hmap; [split; lia|apply Hfree; lia|].
    apply Z.divide_sub_r; [done|by exists 0x20000000].
  - destruct (decide (hl + 8 ≤ phys + ADDR_PREFIX_KSEG0)) as [|Hn1]; [by left|right].
    destruct (decide (phys + ADDR_PREFIX_KSEG0 + cnt * 4096 ≤ hl)) as [|Hn2]; [done|exfalso].
    destruct (Hmap (Z.max phys (hl - ADDR_PREFIX_KSEG0))) as [_ [?|?]]; [split; lia|apply Hfree; lia|lia|lia].
  - intros h Hh. destruct (mm_inv_ok _ _ _ _ Hinv Hh) as (Hok & _ & _ & Hused).
    destruct Hok as (_ & _ & _ & Hf & _). unfold heap_end, FRAME_SIZE in *.
    destruct (decide (h_addr h + h_frames h * 4096 ≤ phys + ADDR_PREFIX_KSEG0)) as [|Hn1]; [by left|right].
    destruct (decide (phys + ADDR_PREFIX_KSEG0 + cnt * 4096 ≤ h_addr h)) as [|Hn2]; [done|exfalso].
    apply (Hused (Z.max (phys + ADDR_PREFIX_KSEG0) (h_addr h))); [unfold heap_end, FRAME_SIZE; lia|].
    apply Hfree. lia.
Qed.

(** Adding a heap at the end of the list. *)
Lemma mm_inv_grow s s' f hs h :
  mm_inv hl s hs → heap_ok h → heap_rep (mm_mem s') h → mm_frames s' = f →
  off_list hl (h_addr h) (heap_end h) →
  (∀ g, g ∈ hs → heap_end g ≤ h_addr h ∨ heap_end h ≤ h_addr g) →
  (∀ a, frame_is_free f a ↔ frame_is_free (mm_frames s) a ∧
     ¬ h_addr h ≤ a + ADDR_PREFIX_KSEG0 < heap_end h) →
  dom_grows (mm_mem s) (mm_mem s') →
  (∀ g a, g ∈ hs → h_addr g + 8 ≤ a < heap_end g →
     (mm_mem s' : gmap Z Z) !! a = (mm_mem s : gmap Z Z) !! a) →
  is_list s' hl ((h_addr <$> hs) ++ [h_addr h]) →
  mm_inv hl s' (hs ++ [h]).
Proof.
  intros Hinv Hok Hrep <- Hoff Hdis' Hf Hd Hsame Hl'.
  pose proof Hinv as (Hl & Hok' & Hrep' & Hdis & Hoff' & Hused & Hmap).
  split_and!; try (apply Forall_app; split; [|by constructor]).
  - by rewrite fmap_app.
  - done.
  - apply Forall_forall. intros g Hg. destruct (mm_inv_ok _ _ _ _ Hinv Hg) as (Hg1 & Hg2 & _).
    eapply heap_rep_frame; [done|done| |done]. intros a Ha. by apply (Hsame g).
  - intros h1 h2 Hh1 Hh2 Hne.
    apply elem_of_app in Hh1 as [Hh1| ->%list_elem_of_singleton];
      apply elem_of_app in Hh2 as [Hh2| ->%list_elem_of_singleton]; try done.
    + by apply Hdis.
    + by apply Hdis'.
    + destruct (Hdis' h2 Hh2); auto.
  - done.
  - apply Forall_app. split.
    + eapply Forall_impl; [exact Hused|]. intros g Hg a Ha. rewrite Hf. intros [? _]. by apply (Hg a).
    + constructor; [|done]. intros a Ha. rewrite Hf. intros [_ Hn]. apply Hn. lia.
  - intros a Hp Ha. apply Hf in Ha as [Ha _]. destruct (Hmap a Hp Ha) as [Hm Ho].
    split; [|done]. intros H4. by apply Hd, Hm.
Qed.

Lemma malloc_heap_fail s hs size rc phys f :
  mm_inv hl s hs → 0 ≤ size ≤ HEAP_BLOCK_SIZE_MAX →
  frame_alloc (frames_for (real_size size)) (Z.lor VF_VA_AUTO VF_AT_KSEG0) (mm_frames s) = (rc, phys, f) →
  rc ≠ EOK →
  malloc_heap hl size s = Ok (NULL, with_frames f s) ∧ mm_inv hl (with_frames f s) hs.
Proof.
  intros Hinv Hsize Hfa Hrc. destruct (real_size_ok size Hsize) as (Hneed & _ & Hreal).
  destruct (frames_for_spec _ Hneed) as (_ & _ & _ & Hfr). unfold malloc_heap. rewrite Hreal.
  cbv zeta in *. rewrite Hfr. cbn beta iota.
  rewrite (bind_ok _ _ s (rc, phys) (with_frames f s)) by (unfold call_frame_alloc; by rewrite Hfa).
  cbn beta iota. rewrite bool_decide_eq_true_2 by done. split; [done|].
  apply mm_inv_same_frames; [|done]. by eapply frame_alloc_fail.
Qed.

(** The link cells of the list lie outside an area that avoids it. *)
Lemma link_cells_off s hs lo hi x :
  mm_inv hl s hs → off_list hl lo hi → (∀ g, g ∈ hs → heap_end g ≤ lo ∨ hi ≤ h_addr g) →
  x ∈ hl :: (h_addr <$> hs) → x + 8 ≤ lo ∨ hi ≤ x.
Proof.
  intros Hinv Hoff Hdis [->|(g & -> & Hg)%list_elem_of_fmap]%elem_of_cons; [exact Hoff|].
  destruct (mm_inv_ok _ _ _ _ Hinv Hg) as ((? & ? & ? & ? & _) & _).
  destruct (Hdis g Hg); addr_lia.
Qed.

Lemma links_apart s hs g a x :
  mm_inv hl s hs → g ∈ hs → h_addr g + 8 ≤ a < heap_end g →
  x ∈ hl :: (h_addr <$> hs) → a ≠ x ∧ a ≠ x + 4.
Proof.
  intros Hinv Hg Ha [->|(k & -> & Hk)%list_elem_of_fmap]%elem_of_cons.
  - destruct (mm_inv_ok _ _ _ _ Hinv Hg) as (_ & _ & [?|?] & _); lia.
  - destruct (mm_inv_ok _ _ _ _ Hinv Hk) as ((? & ? & ? & ? & _) & _).
    destruct (decide (h_addr g = h_addr k)) as [Heq|Hne]; [lia|].
    destruct Hinv as (_ & _ & _ & Hd & _).
    destruct (Hd g k Hg Hk Hne); unfold heap_end, FRAME_SIZE in *; lia.
Qed.

(** The new heap enters the list: the contents of all heaps stay. *)
Lemma append_heap_exec s m1 f hs h :
  mm_inv hl s hs → off_list hl (h_addr h) (heap_end h) →
  (∀ g, g ∈ hs → heap_end g ≤ h_addr h ∨ heap_end h ≤ h_addr g) →
  ADDR_PREFIX_KSEG0 ≤ h_addr h → (FRAME_SIZE | h_addr h) → h_addr h + 20 ≤ heap_end h →
  changed (h_addr h) (heap_end h) (mm_mem s) m1 → region_mapped m1 (h_addr h) (heap_end h) →
  ∃ s2, list_append hl (h_addr h) (set_mem (λ _, m1) (with_frames f s)) = Ok (tt, s2) ∧
    is_list s2 hl ((h_addr <$> hs) ++ [h_addr h]) ∧ dom_grows m1 (mm_mem s2) ∧
    s2 = set_mem (λ _, mm_mem s2) (with_frames f s) ∧
    (∀ a, h_addr h + 8 ≤ a < heap_end h → (mm_mem s2 : gmap Z Z) !! a = m1 !! a) ∧
    (∀ g a, g ∈ hs → h_addr g + 8 ≤ a < heap_end g → (mm_mem s2 : gmap Z Z) !! a = (mm_mem s : gmap Z Z) !! a).
Proof.
  intros Hinv Hoff Hdis Hbase Hdivb Hroom [Hc1 _] Hr. set (s1 := set_mem (λ _, m1) (with_frames f s)).
  assert (Hcells : ∀ x, x ∈ hl :: (h_addr <$> hs) → x + 8 ≤ h_addr h ∨ heap_end h ≤ x)
    by (intros x; by eapply link_cells_off).
  assert (Hl1 : is_list s1 hl (h_addr <$> hs)).
  { destruct Hinv as [Hl _]. eapply is_list_cells; [|exact Hl]. intros x Hx.
    destruct (Hcells x Hx); split; apply Hc1; lia. }
  destruct (list_append_spec s1 hl (h_addr <$> hs) (h_addr h) Hl1) as (s2 & He2 & Hl2 & Hw2).
  { unfold NULL. addr_lia. }
  { destruct Hdivb as [k Hk]. split; apply Hr; try (unfold heap_end in *; addr_lia).
    - exists (k * 1024). addr_lia.
    - exists (k * 1024 + 1). addr_lia. }
  { apply Forall_forall. intros x Hx. destruct (Hcells x Hx); cbn; addr_lia. }
  apply writes_mm in Hw2 as (Hw2 & Hf2 & Hst2 & Hd2). exists s2. split; [done|split; [done|split; [exact Hd2|split; [|split]]]].
  - destruct s2 as [m2 f2 x2]. cbn in *. by subst.
  - intros a Ha. apply (writes_words _ _ _ _ Hw2). intros p [->|Hp]%elem_of_cons; [lia|].
    destruct (Hcells p Hp); lia.
  - intros g a Hg Ha. transitivity (m1 !! a).
    + apply (writes_words _ _ _ _ Hw2). intros p [->|Hp]%elem_of_cons.
      * destruct (Hdis g Hg); unfold heap_end in *; addr_lia.
      * by eapply links_apart.
    + apply Hc1. destruct (Hdis g Hg); lia.
Qed.

Lemma malloc_heap_ok s hs size phys f :
  mm_inv hl s hs → 0 ≤ size ≤ HEAP_BLOCK_SIZE_MAX →
  frame_alloc (frames_for (real_size size)) (Z.lor VF_VA_AUTO VF_AT_KSEG0) (mm_frames s) = (EOK, phys, f) →
  let h := new_heap (phys + ADDR_PREFIX_KSEG0) (real_size size) in
  ∃ m', malloc_heap hl size s = Ok (heap_start h + 16, set_mem (λ _, m') (with_frames f s)) ∧
    mm_inv hl (set_mem (λ _, m') (with_frames f s)) (hs ++ [h]) ∧
    (∀ g a, g ∈ hs → h_addr g + 8 ≤ a < heap_end g → m' !! a = (mm_mem s : gmap Z Z) !! a) ∧
    (∀ g, g ∈ hs → heap_end g ≤ h_addr h ∨ heap_end h ≤ h_addr g).
Proof.
  intros Hinv Hsize Hfa h. destruct (real_size_ok size Hsize) as (Hneed & _ & Hreal).
  destruct (frames_for_spec _ Hneed) as (Hf16 & Hroom & Hmaxf & Hfr). unfold HEAP_FRAMES in Hf16.
  assert (Hcnt : 0 < frames_for (real_size size)) by lia.
  destruct (frame_alloc_ok _ _ _ _ Hcnt Hfa) as (Hdiv & Hp0 & Hpmax & Hfree & Hf').
  destruct (fresh_area s hs phys _ Hinv Hcnt Hp0 Hpmax Hfree) as (Hreg & Hoff & Hdis).
  set (base := phys + ADDR_PREFIX_KSEG0) in *.
  assert (Hbase : ADDR_PREFIX_KSEG0 ≤ base) by (unfold base; lia).
  assert (Hdivb : (FRAME_SIZE | base)).
  { apply Z.divide_add_r; [done|]. exists 0x80000. reflexivity. }
  destruct (format_exec (with_frames f s) (real_size size) base Hneed Hdivb Hbase) as (m1 & He1 & Hrep1 & Hc1);
    [unfold base; lia|exact Hreg|].
  assert (Hh_ok : heap_ok h) by (apply new_heap_ok; [done|done|done|unfold base; lia]).
  change (new_heap base (real_size size)) with h in Hrep1.
  assert (Hend : heap_end h = base + frames_for (real_size size) * FRAME_SIZE) by done.
  assert (Haddr : h_addr h = base) by done.
  assert (Hphys : phys = h_addr h - ADDR_PREFIX_KSEG0) by (rewrite Haddr; unfold base; lia).
  clearbody h base. subst base. rewrite <- Hend in *.
  destruct (append_heap_exec s m1 f hs h Hinv Hoff Hdis Hbase Hdivb) as (s2 & He2 & Hl2 & Hd2 & Hs2 & Hnew & Hold);
    [rewrite Hend; unfold FRAME_SIZE; lia|exact Hc1|apply Hrep1|].
  exists (mm_mem s2). split; [|rewrite <- Hs2; split; [|done]].
  - unfold malloc_heap. rewrite Hreal. cbv zeta in *. rewrite Hfr. cbn beta iota.
    rewrite (bind_ok _ _ s (EOK, phys) (with_frames f s)) by (unfold call_frame_alloc; by rewrite Hfa).
    cbn beta iota. rewrite bool_decide_eq_false_2 by (by intros []).
    rewrite ADDR_IN_KSEG0_add by (unfold phys_ok, FRAME_SIZE in *; lia).
    replace (phys + ADDR_PREFIX_KSEG0) with (h_addr h) by lia.
    erewrite bind_ok by exact He1. erewrite bind_ok by exact He2.
    rewrite (bind_ok _ _ s2 (heap_start h) s2).
    + rewrite wrap_small by addr_lia. unfold mret, KM_ret. by rewrite <- Hs2.
    + apply ld_ok. destruct Hrep1 as (H8 & _). rewrite <- H8. apply Hnew. rewrite Hend. unfold heap_start_of, FRAME_SIZE. lia.
  - eapply (mm_inv_grow s s2 f); try done.
    + eapply heap_rep_frame; [done|exact Hd2|exact Hnew|exact Hrep1].
    + by rewrite Hs2.
    + intros a. rewrite Hf'. unfold in_frames. rewrite Hend. split; intros [? Hn]; split; try done; lia.
    + intros a Ha. apply Hd2, Hc1, Ha.
Qed.

End grow.

(** ** The kernel heap: [malloc] refines the first-fit specification *)

Section top.
  Context {F : Type} `{FrameAllocatorLaws F} (hl : Z).
  Implicit Types (s : mm_state F) (hs : list heap).

Lemma mm_inv_status s hs v : mm_inv hl s hs → mm_inv hl (set_cp0_status v s) hs.
Proof.
  intros (Hl & Hrest). split; [|done]. eapply is_list_cells; [|exact Hl]. done.
Qed.

(** The abstract [malloc]: what it returns and what becomes of the heaps. *)
Definition malloc_spec (size : Z) s hs (p : Z) s' (hs' : list heap) : Prop :=
  mm_inv hl s' hs' ∧
  match find_heap (real_size size) hs with
  | Some (hs1, h, pre, b, post, hs2) =>
    p = heap_start h + total pre + sizeof_head ∧
    hs' = hs1 ++ Heap (h_addr h) (h_frames h) (pre ++ carve (real_size size) b ++ post) :: hs2 ∧
    mm_frames s' = mm_frames s ∧
    changed (heap_start h + total pre) (heap_start h + total pre + b_size b) (mm_mem s) (mm_mem s')
  | None =>
    let '(rc, phys, f) := frame_alloc (frames_for (real_size size))
      (Z.lor VF_VA_AUTO VF_AT_KSEG0) (mm_frames s) in
    mm_frames s' = f ∧
    if bool_decide (rc = EOK) then
      let h := new_heap (phys + ADDR_PREFIX_KSEG0) (real_size size) in
      p = heap_start h + sizeof_head ∧ hs' = hs ++ [h] ∧
      (∀ g a, g ∈ hs → h_addr g + 8 ≤ a < heap_end g →
         (mm_mem s' : gmap Z Z) !! a = (mm_mem s : gmap Z Z) !! a) ∧
      (∀ g, g ∈ hs → heap_end g ≤ h_addr h ∨ heap_end h ≤ h_addr g)
    else p = NULL ∧ hs' = hs ∧ mm_mem s' = mm_mem s
  end.

(** The search over the heaps. *)
Lemma search_none fuel need s hs :
  mm_inv hl s hs → fuel_ok fuel hs → Forall (λ h, find_fit need (h_blocks h) = None) hs →
  list_foreach fuel hl (malloc_body fuel need) s = Ok (None, s).
Proof.
  intros Hinv [Hf1 Hf2] Hn. pose proof Hinv as (Hl & _).
  eapply list_foreach_none; [exact Hl|by rewrite length_fmap|].
  intros x (h & -> & Hh)%list_elem_of_fmap.
  destruct (mm_inv_ok _ _ _ _ Hinv Hh) as (Hok & Hrep & _).
  rewrite Forall_forall in Hn, Hf2. apply body_none; auto. specialize (Hf2 h Hh). cbn in Hf2. lia.
Qed.

Lemma search_some fuel need s hs hs1 h pre b post hs2 :
  mm_inv hl s hs → fuel_ok fuel hs → need_ok need →
  find_heap need hs = Some (hs1, h, pre, b, post, hs2) →
  ∃ m', list_foreach fuel hl (malloc_body fuel need) s =
      Ok (Some (heap_start h + total pre + 16), set_mem (λ _, m') s) ∧
    mm_inv hl (set_mem (λ _, m') s)
      (hs1 ++ Heap (h_addr h) (h_frames h) (pre ++ carve need b ++ post) :: hs2) ∧
    changed (heap_start h + total pre) (heap_start h + total pre + b_size b) (mm_mem s) m'.
Proof.
  intros Hinv [Hf1 Hf2] Hneed Hfind. destruct (find_heap_some _ _ _ _ _ _ _ _ Hfind) as (-> & Hfit & Hn).
  rewrite Forall_forall in Hf2, Hn.
  destruct (mm_inv_ok _ _ _ h Hinv ltac:(set_solver)) as (Hok & Hrep & _).
  destruct (find_fit_some _ _ _ _ _ Hfit) as (Hbs & Hb & Hsz & _).
  destruct (body_some fuel need s h pre b post Hok Hrep Hneed Hfit) as (m' & He & Hr & Hc).
  { apply Hf2. set_solver. }
  exists m'. split; [|split; [by eapply carve_heap|done]].
  pose proof Hinv as (Hl & _). rewrite fmap_app, fmap_cons in Hl.
  eapply list_foreach_some; [exact Hl|rewrite length_fmap; rewrite length_app in Hf1; lia| |exact He].
  intros x (g & -> & Hg)%list_elem_of_fmap.
  destruct (mm_inv_ok _ _ _ g Hinv ltac:(set_solver)) as (Hgok & Hgrep & _).
  apply body_none; [done..|by apply Hn|]. specialize (Hf2 g ltac:(set_solver)). cbn in Hf2. lia.
Qed.

Lemma malloc_exec fuel s hs size :
  mm_inv hl s hs → 0 ≤ size ≤ HEAP_BLOCK_SIZE_MAX → fuel_ok fuel hs →
  ∃ p s' hs', malloc hl fuel size s = Ok (p, s') ∧ malloc_spec size s hs p s' hs' ∧
    mm_status s' = mm_status s.
Proof.
  intros Hinv Hsize Hfuel. destruct (real_size_ok size Hsize) as (Hneed & _ & Hreal).
  unfold malloc, malloc_spec. rewrite Hreal.
  erewrite bind_ok by (apply assert_true; lia).
  erewrite bind_ok by apply ints_query_exec. cbv zeta.
  set (s0 := ints_masked s).
  assert (Hinv0 : mm_inv hl s0 hs) by (by apply mm_inv_status).
  match goal with |- context [list_foreach fuel hl ?b] =>
    change b with (malloc_body (F := F) fuel (real_size size)) end.
  destruct (find_heap (real_size size) hs) as [[[[[[hs1 h] pre] b] post] hs2]|] eqn:Hfind.
  - destruct (search_some _ _ _ _ _ _ _ _ _ _ Hinv0 Hfuel Hneed Hfind) as (m' & He & Hi & Hc).
    erewrite bind_ok by exact He. cbn beta iota. rewrite bind_ret.
    erewrite bind_ok by (by apply (ints_restore s)).
    do 3 eexists. split; [reflexivity|]. split; [|done]. split; [by apply mm_inv_status|].
    split_and!; done.
  - apply find_heap_none in Hfind as Hn.
    erewrite bind_ok by (by apply (search_none _ _ _ hs)). cbn beta iota.
    destruct (frame_alloc (frames_for (real_size size)) (Z.lor VF_VA_AUTO VF_AT_KSEG0) (mm_frames s))
      as [[rc phys] f] eqn:Hfa.
    case_bool_decide as Hrc.
    + subst rc. destruct (malloc_heap_ok hl s0 hs size phys f Hinv0 Hsize Hfa) as (m' & He & Hi & Hold & Hdis).
      erewrite bind_ok by exact He. erewrite bind_ok by (by apply (ints_restore s)).
      do 3 eexists. split; [reflexivity|]. split; [|done]. split; [by apply mm_inv_status|].
      split_and!; done.
    + destruct (malloc_heap_fail hl s0 hs size rc phys f Hinv0 Hsize Hfa Hrc) as (He & Hi).
      erewrite bind_ok by exact He. erewrite bind_ok by (by apply (ints_restore s)).
      do 3 eexists. split; [reflexivity|]. split; [|done]. split; [by apply mm_inv_status|].
      split_and!; done.
Qed.

End top.
