(* ===== verification/MallocFree.v ===== *)
(** * The kernel heap: [free] refines the coalescing specification

    Freeing a block merges it with its free neighbours ([free_blocks]); a heap that
    has become one free block is returned to the frame allocator. *)
From S2P Require Import Prelude CList Cpu Malloc MallocRep MallocScan MallocInv MallocAlloc MallocTop.

(** The size of the block merged to the right, and the blocks behind it. *)
Definition join_next (size : Z) (post : list block) : Z * list block :=
  match post with
  | n :: post' => if b_free n then (size + b_size n, post') else (size, post)
  | [] => (size, [])
  end.

(** The blocks before the block merged to the left, and its size. *)
Definition join_prev (pre : list block) (size : Z) : list block * Z :=
  match last pre with
  | Some q => if b_free q then (removelast pre, b_size q + size) else (pre, size)
  | None => (pre, size)
  end.

(** The blocks after freeing [b]: [pre'], one free block of the size returned,
    [post']. *)
Definition free_blocks (pre : list block) (b : block) (post : list block) :
    list block * Z * list block :=
  let '(size, post') := join_next (b_size b) post in
  let '(pre', size') := join_prev pre size in
  (pre', size', post').

Lemma join_next_ok size post size' post' :
  join_next size post = (size', post') → block_ok (Blk size true) → Forall block_ok post →
  block_ok (Blk size' true) ∧ Forall block_ok post' ∧ size' + total post' = size + total post ∧
  size ≤ size'.
Proof.
  unfold join_next, block_ok. intros Hj [Hs Hs4] Hpost. cbn [b_size] in *.
  destruct post as [|n post]; simplify_eq; [by split_and!|].
  inversion_clear Hpost as [|?? [Hn Hn4] Hp]. destruct (b_free n); simplify_eq; cbn [total].
  - split_and!; [lia|by apply Z.divide_add_r|done|lia|lia].
  - split_and!; [lia|done|by repeat constructor|lia|lia].
Qed.

Lemma join_prev_ok pre size pre' size' :
  join_prev pre size = (pre', size') → block_ok (Blk size true) → Forall block_ok pre →
  block_ok (Blk size' true) ∧ Forall block_ok pre' ∧ total pre' + size' = total pre + size ∧
  size ≤ size'.
Proof.
  unfold join_prev, block_ok. intros Hj [Hs Hs4] Hpre. cbn [b_size] in *.
  destruct pre as [|q pre _] using rev_ind; cbn in Hj; simplify_eq; [by split_and!|].
  rewrite last_snoc, removelast_last in Hj. pose proof Hpre as [Hp [[Hq Hq4] _]%Forall_cons]%Forall_app.
  destruct (b_free q); simplify_eq; rewrite ?total_app; cbn [total].
  - split_and!; [lia|by apply Z.divide_add_r|done|lia|lia].
  - split_and!; [lia|done|done|lia|lia].
Qed.

(** No free neighbour is left. *)
Lemma join_coalesced pre b post size1 post' pre' size' :
  coalesced (pre ++ b :: post) → join_next (b_size b) post = (size1, post') →
  join_prev pre size1 = (pre', size') → coalesced (pre' ++ Blk size' true :: post').
Proof.
  intros (Hpre & [Hbn Hpost]%coalesced_cons & Hj)%coalesced_app Hn Hp.
  assert (Hpost' : coalesced post' ∧ ∀ n, head post' = Some n → b_free n = false).
  { unfold join_next in Hn. destruct post as [|n post]; simplify_eq; [done|].
    pose proof Hpost as [Hn1 Hn2]%coalesced_cons. destruct (b_free n) eqn:En; simplify_eq.
    - split; [done|]. intros m Hm. specialize (Hn1 m Hm). destruct (b_free m); naive_solver.
    - split; [done|]. by intros ? [= <-]. }
  assert (Hpre' : coalesced pre' ∧ ∀ q, last pre' = Some q → b_free q = false).
  { unfold join_prev in Hp. destruct pre as [|q pre _] using rev_ind; cbn in Hp; simplify_eq; [done|].
    rewrite last_snoc, removelast_last in Hp. pose proof Hpre as (Hp1 & _ & Hp2)%coalesced_app.
    destruct (b_free q) eqn:Eq; simplify_eq.
    - split; [done|]. intros m Hm. specialize (Hp2 m q Hm eq_refl). destruct (b_free m); naive_solver.
    - split; [done|]. rewrite last_snoc. by intros ? [= <-]. }
  destruct Hpost' as [? Hh], Hpre' as [? Hl]. apply coalesced_app. split_and!; [done| |].
  - apply coalesced_cons. split; [|done]. intros m Hm [_ ?]. specialize (Hh m Hm). congruence.
  - intros m b' Hm [= <-] [? _]. specialize (Hl m Hm). congruence.
Qed.

Section free.
  Context {F : Type} `{FrameAllocatorLaws F} (hl : Z).
  Implicit Types (s : mm_state F) (hs : list heap).

(** A heap during [free]: coalescing is suspended. *)
Definition tiles s (hp : Z) (hi : Z) (bs : list block) : Prop :=
  scan_ok s hp (hp + sizeof_heap) hi (hp + sizeof_heap) bs.

Lemma tiles_at s hp hi pre b post :
  tiles s hp hi (pre ++ b :: post) →
  let p := hp + sizeof_heap + total pre in
  scan_ok s hp (hp + sizeof_heap) hi p (b :: post) ∧ 0 < p ∧ p + b_size b ≤ hi ∧ hi < word_max ∧
  (4 | p) ∧ block_ok b ∧ block_rep (mm_mem s) hp p b ∧ block_check p s = Ok (tt, s).
Proof.
  intros Ht p. assert (Hs : scan_ok s hp (hp + sizeof_heap) hi p (b :: post)).
  { unfold p. revert Ht. unfold tiles. generalize (hp + sizeof_heap) at 2 4 as q.
    induction pre as [|c pre IH]; intros q Ht; cbn [total app] in *.
    - by rewrite Z.add_0_r.
    - apply scan_ok_next in Ht. rewrite Z.add_assoc. by apply IH. }
  split; [done|]. destruct (scan_block _ _ _ _ _ _ _ Hs) as (Hrep & Hok & Hend & Hp & Hchk).
  destruct Hs as (_ & _ & Hpos & _ & Hmax & H4 & _). split_and!; try done; lia.
Qed.

(** Replacing consecutive blocks [bs] by one block of the same total size. *)
Lemma tiles_merge s hp hi pre bs size fr post :
  tiles s hp hi (pre ++ bs ++ post) → bs ≠ [] → total bs = size → block_ok (Blk size fr) →
  ∃ m', block_init (hp + sizeof_heap + total pre) size fr hp s = Ok (tt, set_mem (λ _, m') s) ∧
    tiles (set_mem (λ _, m') s) hp hi (pre ++ Blk size fr :: post) ∧
    changed (hp + sizeof_heap + total pre) (hp + sizeof_heap + total pre + size) (mm_mem s) m'.
Proof.
  intros (Hlo & Hhi & Hpos & Htot & Hmax & H4 & Hok & Hrep & Hr) Hne Hsize Hb.
  apply Forall_app in Hok as [Hpre Hok]. apply Forall_app in Hok as [Hbs Hpost].
  rewrite !total_app in Htot. pose proof (total_nonneg _ Hpre). pose proof (total_nonneg _ Hpost).
  pose proof (total_div _ Hpre) as Hp4. destruct Hb as [Hb Hb4]. cbn [b_size] in *.
  apply blocks_rep_app in Hrep as [Hrep1 Hrep]. apply blocks_rep_app in Hrep as [_ Hrep2].
  set (p := hp + sizeof_heap + total pre) in *. rewrite Hsize in *.
  destruct (block_init_exec s hp p size fr) as (m' & He & Hr' & Hsame & Hdom).
  { lia. } { by apply Z.divide_add_r. } { done. } { done. } { lia. } { intros a Ha. apply Hr. lia. }
  exists m'. split; [exact He|]. split; [|done]. unfold tiles, scan_ok, sizeof_heap in *.
  split_and!; cbn [set_mem mm_mem] in *; try done; try lia.
  - rewrite Hsame; [done|lia].
  - rewrite Hsame; [done|lia].
  - rewrite total_app. cbn [total b_size]. lia.
  - apply Forall_app. split; [done|]. by repeat constructor.
  - apply blocks_rep_app. split; [|split; [done|]].
    + eapply blocks_rep_frame; [done| |exact Hrep1]. intros a Ha. apply Hsame. lia.
    + cbn [b_size]. eapply blocks_rep_frame; [done| |exact Hrep2]. intros a Ha. apply Hsame. lia.
  - intros a Ha Ha4. by apply Hdom, Hr.
Qed.

Lemma merge_next_exec s hp hi pre b post size post' :
  tiles s hp hi (pre ++ b :: post) → b_free b = true → join_next (b_size b) post = (size, post') →
  let p := hp + sizeof_heap + total pre in
  ∃ m', free_merge_next hp p s = Ok (tt, set_mem (λ _, m') s) ∧
    tiles (set_mem (λ _, m') s) hp hi (pre ++ Blk size true :: post') ∧
    changed p (p + size) (mm_mem s) m'.
Proof.
  intros Ht Hbf Hj p. destruct (tiles_at _ _ _ _ _ _ Ht) as (Hs & Hp & Hend & Hmax & Hp4 & Hbok & Hrep & _).
  fold p in Hs, Hp, Hend, Hp4, Hrep. pose proof Hbok as [Hb24 _].
  pose proof Hs as (_ & Hhi & _ & Htot & _ & _ & Hok & _). cbn [total] in Htot.
  pose proof Hrep as (Hsize & _). unfold free_merge_next. addr_unfold.
  assert (Hstop : ∀ m, size = b_size b → post' = post → Ok (tt, s) = Ok (tt, set_mem (λ _, m) s) → m = mm_mem s →
    tiles (set_mem (λ _, m) s) hp hi (pre ++ Blk size true :: post')).
  { intros m -> -> _ ->. destruct s, b; cbn in *. by subst. }
  erewrite bind_ok by (by apply ld_ok). rewrite wrap_small by addr_lia. cbv zeta.
  erewrite bind_ok by (by apply ld_ok).
  destruct post as [|n post]; cbn [join_next total] in *.
  - simplify_eq. replace (p + b_size b <? p + (b_size b + 0)) with false by lia.
    exists (mm_mem s). split; [by destruct s|]. split; [by apply Hstop; try destruct s|done].
  - apply Forall_cons in Hok as [_ [[Hn24 Hn4] Hpost]%Forall_cons]. pose proof (total_nonneg _ Hpost).
    replace (p + b_size b <? hi) with true by lia.
    assert (Hts : tiles s hp hi ((pre ++ [b]) ++ n :: post)) by (by rewrite <- app_assoc).
    destruct (tiles_at _ _ _ _ _ _ Hts) as (_ & _ & Hnend & _ & _ & _ & (Hnsize & Hnfree & _) & Hnchk).
    rewrite total_app in *. cbn [total] in *.
    assert (Hpn : hp + sizeof_heap + (total pre + (b_size b + 0)) = p + b_size b) by (unfold p, sizeof_heap; lia).
    rewrite Hpn in *. erewrite bind_ok by exact Hnchk. erewrite bind_ok by (by apply ld_ok).
    destruct (b_free n) eqn:En; injection Hj as <- <-.
    + rewrite bool_decide_eq_true_2 by done. erewrite bind_ok by (by apply ld_ok).
      erewrite bind_ok by (by apply ld_ok). rewrite wrap_small by addr_lia.
      apply (tiles_merge s hp hi pre [b; n]); [by rewrite <- ?app_assoc|done|cbn; lia|].
      destruct Hbok. split; cbn; [lia|by apply Z.divide_add_r].
    + rewrite bool_decide_eq_false_2 by (by intros []).
      exists (mm_mem s). split; [by destruct s|]. split; [by apply Hstop; try destruct s|done].
Qed.

Lemma merge_prev_exec s hp hi pre size post pre' size' :
  tiles s hp hi (pre ++ Blk size true :: post) → join_prev pre size = (pre', size') →
  ∃ m', free_merge_prev hp (hp + sizeof_heap + total pre) s = Ok (tt, set_mem (λ _, m') s) ∧
    tiles (set_mem (λ _, m') s) hp hi (pre' ++ Blk size' true :: post) ∧
    changed (hp + sizeof_heap + total pre') (hp + sizeof_heap + total pre' + size') (mm_mem s) m'.
Proof.
  intros Ht Hj. destruct (tiles_at _ _ _ _ _ _ Ht) as (Hs & Hp & Hend & Hmax & Hp4 & Hbok & Hrep & _).
  set (p := hp + sizeof_heap + total pre) in *. pose proof Hs as (Hlo & Hhi & _).
  pose proof Hrep as (Hsize & _). pose proof Hbok as [Hb24 _]. cbn [b_size] in *.
  unfold free_merge_prev. addr_unfold. erewrite bind_ok by (by apply ld_ok).
  assert (Hstop : pre' = pre → size' = size →
    ∃ m', Ok (tt, s) = Ok (tt, set_mem (λ _, m') s) ∧
      tiles (set_mem (λ _, m') s) hp hi (pre' ++ Blk size' true :: post) ∧
      changed (hp + 20 + total pre') (hp + 20 + total pre' + size') (mm_mem s) m').
  { intros -> ->. exists (mm_mem s). by destruct s. }
  unfold join_prev in Hj. destruct pre as [|q pre _] using rev_ind.
  { injection Hj as <- <-. replace (hp + 20 <? p) with false by (unfold p; cbn [total]; lia).
    by apply Hstop. }
  rewrite last_snoc, removelast_last in Hj. rewrite <- app_assoc in Ht. cbn [app] in Ht.
  destruct (tiles_at _ _ _ _ _ _ Ht) as (Hsq & Hq & Hqend & _ & Hq4 & [Hq24 Hqd4] & Hqrep & Hqchk).
  pose proof Ht as (_ & _ & _ & _ & _ & _ & [Hpre _]%Forall_app & _). pose proof (total_nonneg _ Hpre).
  set (pq := hp + sizeof_heap + total pre) in *.
  assert (Hpq : p = pq + b_size q).
  { unfold p, pq. rewrite total_app. cbn [total]. unfold sizeof_heap. lia. }
  clearbody p. subst p. pose proof Hqrep as (Hqsize & Hqfree & _ & _ & _ & Hqfoot).
  replace (hp + 20 <? pq + b_size q) with true by (unfold pq, sizeof_heap in *; lia).
  rewrite (wrap_small (pq + b_size q - 8)) by addr_lia. cbv zeta.
  erewrite bind_ok by (apply ld_ok; cell Hqfoot). rewrite wrap_small by addr_lia.
  replace (pq + b_size q - b_size q) with pq by lia.
  erewrite bind_ok by exact Hqchk. erewrite bind_ok by (by apply ld_ok).
  destruct (b_free q) eqn:Eq; injection Hj as <- <-.
  - rewrite bool_decide_eq_true_2 by done. erewrite bind_ok by (by apply ld_ok).
    erewrite bind_ok by (by apply ld_ok). rewrite wrap_small by addr_lia.
    apply (tiles_merge s hp hi pre [q; Blk size true]); [done|done|cbn; lia|].
    destruct Hbok as [_ Hb4]. split; cbn [b_size] in *; [lia|by apply Z.divide_add_r].
  - rewrite bool_decide_eq_false_2 by (by intros []). by apply Hstop.
Qed.

(** Storing the free flag of the block. *)
Lemma mark_free_exec s hp hi pre b post :
  tiles s hp hi (pre ++ b :: post) →
  let p := hp + sizeof_heap + total pre in
  ∃ m', st (head_free p) (Z.b2z true) s = Ok (tt, set_mem (λ _, m') s) ∧
    tiles (set_mem (λ _, m') s) hp hi (pre ++ Blk (b_size b) true :: post) ∧
    changed p (p + b_size b) (mm_mem s) m'.
Proof.
  intros Ht p. destruct (tiles_at _ _ _ _ _ _ Ht) as (Hs & Hp & Hend & Hmax & Hp4 & [Hb24 Hb4] & Hrep & _).
  fold p in Hs, Hp, Hend, Hp4, Hrep. destruct Hrep as (R1 & R2 & R3 & R4 & R5 & R6).
  destruct Ht as (Hlo & Hhi & Hpos & Htot & _ & H4 & Hok & Hbr & Hr).
  apply Forall_app in Hok as [Hpre Hok]. apply Forall_cons in Hok as [_ Hpost].
  pose proof (total_nonneg _ Hpre). pose proof (total_nonneg _ Hpost).
  apply blocks_rep_app in Hbr as [Hbr1 [_ Hbr2]]. fold p in Hbr2.
  rewrite st_ok by (unfold head_free; eauto). eexists. split; [reflexivity|].
  assert (Hc : changed p (p + b_size b) (mm_mem s) (<[head_free p:=Z.b2z true]> (mm_mem s : gmap Z Z)))
    by (apply changed_insert; unfold head_free; lia).
  split; [|exact Hc]. unfold tiles, scan_ok, head_free, sizeof_heap in *.
  rewrite total_app in *. cbn [total b_size] in *. destruct Hc as [Hsame Hdom].
  split_and!; cbn [set_mem mm_mem] in *; try done; try lia.
  - rewrite Hsame; [done|lia].
  - rewrite Hsame; [done|lia].
  - apply Forall_app. split; [done|]. repeat constructor; done.
  - apply blocks_rep_app. split; [|split].
    + eapply blocks_rep_frame; [done| |exact Hbr1]. intros a Ha. apply Hsame. lia.
    + fold p. split_and!; cbn [b_size b_free];
        first [apply lookup_insert_eq|rewrite lookup_insert_ne by lia; assumption].
    + cbn [b_size]. eapply blocks_rep_frame; [done| |exact Hbr2]. intros a Ha. apply Hsame. lia.
  - intros a Ha Ha4. by apply Hdom, Hr.
Qed.

Lemma heap_tiles s h :
  heap_ok h → heap_rep (mm_mem s) h → tiles s (h_addr h) (heap_end h) (h_blocks h).
Proof. apply heap_scan_ok. Qed.

(** A tiling with no free neighbours is a heap again. *)
Lemma tiles_heap s m0 h bs :
  heap_ok h → heap_rep m0 h → dom_grows m0 (mm_mem s) →
  (mm_mem s : gmap Z Z) !! (h_addr h + 16) = Some (h_frames h) →
  tiles s (h_addr h) (heap_end h) bs → coalesced bs → bs ≠ [] →
  heap_ok (Heap (h_addr h) (h_frames h) bs) ∧ heap_rep (mm_mem s) (Heap (h_addr h) (h_frames h) bs).
Proof.
  intros (? & ? & ? & ? & _) (_ & _ & _ & _ & Hreg) Hd H16 (Hlo & Hhi & Hpos & Htot & Hmax & Hp4 & Hok & Hbr & Hr) Hc Hne.
  unfold heap_ok, heap_rep, heap_start, heap_end in *. cbn [h_addr h_frames h_blocks].
  split; split_and!; try done; try lia. intros a Ha Ha4. by apply Hd, Hreg.
Qed.

(** The heap is kept unless it is one free block. *)
Lemma release_keep s hp hi bs :
  tiles s hp hi bs → (∀ size, bs ≠ [Blk size true]) → bs ≠ [] → free_release hp s = Ok (tt, s).
Proof.
  intros Ht Hnot Hne. destruct bs as [|b bs]; [done|].
  pose proof Ht as (Hlo & Hhi & _ & Htot & Hmax & _ & Hok & _).
  destruct (tiles_at _ _ _ [] b bs Ht) as (Hs & Hp & Hend & _ & _ & [Hb24 _] & (R1 & R2 & _) & _).
  cbn [total] in *. rewrite Z.add_0_r in *. apply Forall_cons in Hok as [_ Hok].
  pose proof (total_nonneg _ Hok). unfold free_release. addr_unfold.
  erewrite bind_ok by (by apply ld_ok). erewrite bind_ok by (by apply ld_ok).
  rewrite (bind_ok _ _ s false s); [done|].
  destruct (b_free b) eqn:Eb; [|done]. rewrite bool_decide_eq_true_2 by done.
  erewrite bind_ok by (by apply ld_ok). erewrite bind_ok by (by apply ld_ok).
  erewrite bind_ok by (by apply ld_ok). rewrite wrap_small by addr_lia.
  rewrite bool_decide_eq_false_2; [done|]. destruct bs as [|c bs].
  - exfalso. apply (Hnot (b_size b)). destruct b; cbn in *. by subst.
  - apply Forall_cons in Hok as [[Hc _] Hok]. pose proof (total_nonneg _ Hok). cbn [total] in *. lia.
Qed.

Lemma heap_apart s hs1 h hs2 g :
  mm_inv hl s (hs1 ++ h :: hs2) → g ∈ hs1 ++ hs2 →
  g ∈ hs1 ++ h :: hs2 ∧ (heap_end g ≤ h_addr h ∨ heap_end h ≤ h_addr g).
Proof.
  intros (Hl & _ & _ & Hdis & _) Hg. assert (Hg' : g ∈ hs1 ++ h :: hs2) by set_solver.
  split; [done|]. apply Hdis; [done|set_solver|]. intros Heq.
  destruct Hl as [_ [Hnd _]]. apply NoDup_cons in Hnd as [_ Hnd].
  rewrite fmap_app, fmap_cons in Hnd. apply NoDup_app in Hnd as (_ & Hd1 & Hd2).
  apply NoDup_cons in Hd2 as [Hd2 _]. apply elem_of_app in Hg as [Hg|Hg].
  - apply (Hd1 (h_addr g)); [by apply list_elem_of_fmap_2|rewrite Heq; left].
  - apply Hd2. rewrite <- Heq. by apply list_elem_of_fmap_2.
Qed.

(** Taking a heap out of the state. *)
Lemma mm_inv_shrink s s' hs1 h hs2 :
  mm_inv hl s (hs1 ++ h :: hs2) →
  is_list s' hl (h_addr <$> hs1 ++ hs2) →
  dom_grows (mm_mem s) (mm_mem s') →
  (∀ g a, g ∈ hs1 ++ hs2 → h_addr g + 8 ≤ a < heap_end g →
     (mm_mem s' : gmap Z Z) !! a = (mm_mem s : gmap Z Z) !! a) →
  (∀ a, frame_is_free (mm_frames s') a ↔ frame_is_free (mm_frames s) a ∨
     h_addr h ≤ a + ADDR_PREFIX_KSEG0 < heap_end h) →
  mm_inv hl s' (hs1 ++ hs2).
Proof.
  intros Hinv Hl Hd Hsame Hf. pose proof Hinv as (_ & _ & _ & Hdis & _ & _ & Hmap).
  destruct (mm_inv_ok _ _ _ h Hinv ltac:(set_solver)) as (Hok & Hrep & Hoff & _).
  split_and!; [done|..]; try apply Forall_forall.
  - intros g Hg. by apply (mm_inv_ok _ _ _ g Hinv), (heap_apart _ _ _ _ _ Hinv).
  - intros g Hg. destruct (heap_apart _ _ _ _ _ Hinv Hg) as [Hg' _].
    destruct (mm_inv_ok _ _ _ g Hinv Hg') as (Hg1 & Hg2 & _).
    eapply heap_rep_frame; [done|done| |done]. intros a Ha. by apply (Hsame g).
  - intros g1 g2 Hg1 Hg2. apply Hdis; set_solver.
  - intros g Hg. by apply (mm_inv_ok _ _ _ g Hinv), (heap_apart _ _ _ _ _ Hinv).
  - intros g Hg a Ha. rewrite Hf. destruct (heap_apart _ _ _ _ _ Hinv Hg) as [Hg' Hap].
    destruct (mm_inv_ok _ _ _ g Hinv Hg') as (_ & _ & _ & Hg4).
    intros [Hfr|Hfr]; [by apply (Hg4 a)|lia].
  - intros a Hp [Hfr|Hfr]%Hf.
    + destruct (Hmap a Hp Hfr) as [Hm Ho]. split; [|done]. intros H4. by apply Hd, Hm.
    + destruct Hrep as (_ & _ & _ & _ & Hreg). split.
      * intros H4. apply Hd, Hreg; [lia|]. apply Z.divide_add_r; [done|by exists 0x20000000].
      * unfold off_list in *. lia.
Qed.

Lemma release_exec s hp frames size s1 f' :
  tiles s hp (hp + frames * FRAME_SIZE) [Blk size true] →
  (mm_mem s1 : gmap Z Z) !! (hp + 16) = Some frames →
  ADDR_PREFIX_KSEG0 ≤ hp → hp + frames * FRAME_SIZE ≤ ADDR_PREFIX_KSEG0 + 2 ^ 29 →
  list_remove hp s = Ok (tt, s1) →
  frame_free (hp - ADDR_PREFIX_KSEG0) frames (mm_frames s1) = (EOK, f') →
  free_release hp s = Ok (tt, with_frames f' s1).
Proof.
  intros Ht H16 Hb1 Hb2 He1 He2. pose proof Ht as (Hlo & Hhi & _ & Htot & Hmax & _).
  destruct (tiles_at _ _ _ [] _ [] Ht) as (_ & Hp & Hend & _ & _ & [Hb24 _] & (R1 & R2 & _) & _).
  cbn [total b_size b_free] in *. rewrite Z.add_0_r in *. unfold free_release. addr_unfold.
  erewrite bind_ok by (by apply ld_ok). erewrite bind_ok by (by apply ld_ok).
  rewrite bool_decide_eq_true_2 by done. rewrite (bind_ok _ _ s true s).
  2: { erewrite bind_ok by (by apply ld_ok). erewrite bind_ok by (by apply ld_ok).
       erewrite bind_ok by (by apply ld_ok). rewrite wrap_small by addr_lia.
       by rewrite bool_decide_eq_true_2 by lia. }
  erewrite bind_ok by exact He1.
  replace (ADDR_FROM_KSEG0 hp) with (hp - ADDR_PREFIX_KSEG0).
  2: { rewrite <- (ADDR_FROM_IN_KSEG0 (hp - ADDR_PREFIX_KSEG0)) at 1; [by rewrite Z.sub_add|].
       unfold phys_ok, FRAME_SIZE in *. lia. }
  rewrite (bind_ok _ _ s1 frames s1) by (by apply ld_ok).
  rewrite (bind_ok _ _ s1 EOK (with_frames f' s1)).
  - by rewrite bool_decide_eq_false_2 by (intros []; done).
  - unfold call_frame_free. by rewrite He2.
Qed.

Lemma release_heap s hs1 h hs2 size :
  mm_inv hl s (hs1 ++ h :: hs2) → h_blocks h = [Blk size true] →
  ∃ s', free_release (h_addr h) s = Ok (tt, s') ∧ mm_inv hl s' (hs1 ++ hs2) ∧
    mm_status s' = mm_status s ∧
    (∀ a, frame_is_free (mm_frames s') a ↔ frame_is_free (mm_frames s) a ∨
       h_addr h ≤ a + ADDR_PREFIX_KSEG0 < heap_end h) ∧
    (∀ g a, g ∈ hs1 ++ hs2 → h_addr g + 8 ≤ a < heap_end g →
       (mm_mem s' : gmap Z Z) !! a = (mm_mem s : gmap Z Z) !! a).
Proof.
  intros Hinv Hbs.
  destruct (mm_inv_ok _ _ _ h Hinv ltac:(set_solver)) as (Hok & Hrep & Hoff & Hused).
  pose proof (heap_tiles s h Hok Hrep) as Ht. rewrite Hbs in Ht.
  pose proof Hinv as (Hl & _). rewrite fmap_app, fmap_cons in Hl.
  destruct (list_remove_spec _ _ _ _ _ Hl) as (s1 & He1 & Hl1 & _ & Hw1).
  apply writes_mm in Hw1 as (Hw1 & Hf1 & Hst1 & Hd1).
  assert (Hsame : ∀ g a, g ∈ hs1 ++ h :: hs2 → h_addr g + 8 ≤ a < heap_end g →
    (mm_mem s1 : gmap Z Z) !! a = (mm_mem s : gmap Z Z) !! a).
  { intros g a Hg Ha. apply (writes_words _ _ _ _ Hw1). intros q Hq.
    eapply links_apart; [exact Hinv|exact Hg|exact Ha|]. by rewrite fmap_app, fmap_cons. }
  pose proof Hok as (Hb1 & Hb2 & Hb3 & Hb4 & _).
  pose proof Hrep as (_ & _ & H16 & _). set (phys := h_addr h - ADDR_PREFIX_KSEG0).
  assert (Hphys : (FRAME_SIZE | phys) ∧ 0 ≤ phys ∧ phys + h_frames h * FRAME_SIZE ≤ 2 ^ 29).
  { unfold phys, heap_end in *. split_and!; [|lia|lia].
    apply Z.divide_sub_r; [done|by exists 0x80000]. }
  destruct Hphys as (Hdiv & Hphys & Hphysmax).
  destruct (frame_free_ok phys (h_frames h) (mm_frames s1) Hb4 Hdiv Hphys Hphysmax) as (f' & He2 & Hf').
  { rewrite Hf1. intros a Ha. replace a with (a + ADDR_PREFIX_KSEG0 - ADDR_PREFIX_KSEG0) by lia.
    apply Hused. unfold in_frames, phys, heap_end in *. lia. }
  assert (Hfree : ∀ a, frame_is_free f' a ↔ frame_is_free (mm_frames s) a ∨
       h_addr h ≤ a + ADDR_PREFIX_KSEG0 < heap_end h).
  { intros a. rewrite Hf', Hf1. unfold in_frames, phys, heap_end. split; intros [?|?]; try (by left); right; lia. }
  assert (Hold : ∀ g a, g ∈ hs1 ++ hs2 → h_addr g + 8 ≤ a < heap_end g →
    (mm_mem s1 : gmap Z Z) !! a = (mm_mem s : gmap Z Z) !! a)
    by (intros g a Hg; apply Hsame; set_solver).
  exists (with_frames f' s1). split; [|split; [|done]].
  - eapply release_exec; try done. rewrite (Hsame h); [done|set_solver|].
    unfold heap_end, FRAME_SIZE. lia.
  - eapply mm_inv_shrink; [exact Hinv| |exact Hd1|exact Hold|exact Hfree].
    rewrite fmap_app. eapply is_list_cells; [|exact Hl1]. done.
Qed.

(** The abstract [free] of block [b] of heap [h]. *)
Definition free_spec s hs1 h pre b post hs2 s' (hs' : list heap) : Prop :=
  mm_inv hl s' hs' ∧
  let '(pre', size, post') := free_blocks pre b post in
  (∀ g a, g ∈ hs1 ++ hs2 → h_addr g + 8 ≤ a < heap_end g →
     (mm_mem s' : gmap Z Z) !! a = (mm_mem s : gmap Z Z) !! a) ∧
  if bool_decide (pre' = [] ∧ post' = []) then
    hs' = hs1 ++ hs2 ∧
    ∀ a, frame_is_free (mm_frames s') a ↔ frame_is_free (mm_frames s) a ∨
      h_addr h ≤ a + ADDR_PREFIX_KSEG0 < heap_end h
  else
    hs' = hs1 ++ Heap (h_addr h) (h_frames h) (pre' ++ Blk size true :: post') :: hs2 ∧
    mm_frames s' = mm_frames s ∧
    changed (heap_start h + total pre') (heap_start h + total pre' + size) (mm_mem s) (mm_mem s').

(** The merging part of [free], on one heap. *)
Lemma free_merge_exec {A} (rest : KM (mm_state F) A) s hp hi pre b post pre' size post' :
  tiles s hp hi (pre ++ b :: post) → free_blocks pre b post = (pre', size, post') →
  let p := hp + sizeof_heap + total pre in
  ∃ m', (st (head_free p) (Z.b2z true) ;; free_merge_next hp p ;; free_merge_prev hp p ;; rest) s
      = rest (set_mem (λ _, m') s) ∧
    tiles (set_mem (λ _, m') s) hp hi (pre' ++ Blk size true :: post') ∧
    changed (hp + sizeof_heap + total pre') (hp + sizeof_heap + total pre' + size) (mm_mem s) m'.
Proof.
  intros Ht Hfb p. unfold free_blocks in Hfb.
  destruct (join_next (b_size b) post) as [size1 post1] eqn:Hn.
  destruct (join_prev pre size1) as [pre1 size2] eqn:Hp. injection Hfb as <- <- <-.
  pose proof Ht as (_ & _ & _ & _ & _ & _ & [Hpre [Hb Hpost]%Forall_cons]%Forall_app & _).
  destruct (join_next_ok _ _ _ _ Hn ltac:(by destruct b) Hpost) as (Hok1 & _ & _ & Hle1).
  destruct (join_prev_ok _ _ _ _ Hp Hok1 Hpre) as (Hok2 & _ & Hsum & Hle2).
  destruct (mark_free_exec s hp hi pre b post Ht) as (m1 & He1 & Ht1 & Hc1).
  destruct (merge_next_exec _ hp hi pre (Blk (b_size b) true) post size1 post1 Ht1 eq_refl Hn)
    as (m2 & He2 & Ht2 & Hc2).
  destruct (merge_prev_exec _ hp hi pre size1 post1 pre1 size2 Ht2 Hp) as (m3 & He3 & Ht3 & Hc3).
  exists m3. unfold p. erewrite bind_ok by exact He1. erewrite bind_ok by exact He2.
  erewrite bind_ok by exact He3. split; [done|]. split; [exact Ht3|]. cbn [set_mem mm_mem] in *.
  eapply changed_trans; [eapply changed_mono; [exact Hc1|lia|lia]|].
  eapply changed_trans; [eapply changed_mono; [exact Hc2|lia|lia]|exact Hc3].
Qed.

(** The invariant after merging; coalescing holds again. *)
Lemma free_merge_inv s hs1 h pre b post hs2 pre' size post' m' :
  mm_inv hl s (hs1 ++ h :: hs2) → h_blocks h = pre ++ b :: post →
  free_blocks pre b post = (pre', size, post') →
  tiles (set_mem (λ _, m') s) (h_addr h) (heap_end h) (pre' ++ Blk size true :: post') →
  changed (heap_start h + total pre') (heap_start h + total pre' + size) (mm_mem s) m' →
  mm_inv hl (set_mem (λ _, m') s)
    (hs1 ++ Heap (h_addr h) (h_frames h) (pre' ++ Blk size true :: post') :: hs2).
Proof.
  intros Hinv Hbs Hfb Ht' Hc.
  destruct (mm_inv_ok _ _ _ h Hinv ltac:(set_solver)) as (Hok & Hrep & _).
  assert (Hpre' : 0 ≤ total pre' ∧ heap_start h + total pre' + size ≤ heap_end h).
  { pose proof Ht' as (_ & _ & _ & _ & _ & _ & [Hpre' _]%Forall_app & _).
    destruct (tiles_at _ _ _ _ _ _ Ht') as (_ & _ & He' & _).
    apply total_nonneg in Hpre'. unfold heap_start. cbn in *. lia. }
  assert (H16 : m' !! (h_addr h + 16) = Some (h_frames h)).
  { destruct Hrep as (_ & _ & H16 & _). destruct Hc as [Hc _]. rewrite Hc; [done|]. left. addr_lia. }
  destruct (tiles_heap (set_mem (λ _, m') s) (mm_mem s) h (pre' ++ Blk size true :: post'))
    as [Hok' Hrep']; [done|done|exact (proj2 Hc)|done|done| |by destruct pre'|].
  - pose proof Hok as (_ & _ & _ & _ & _ & _ & _ & Hco). rewrite Hbs in Hco. unfold free_blocks in Hfb.
    destruct (join_next (b_size b) post) as [size1 post1] eqn:Hn.
    destruct (join_prev pre size1) as [pre1 size2] eqn:Hpv. injection Hfb as <- <- <-.
    by eapply join_coalesced.
  - eapply mm_inv_update; [exact Hinv|exact Hc|addr_lia|lia|done..].
Qed.

(** The test of [free_release], on the abstract blocks. *)
Lemma single_block (pre' post' : list block) size :
  (∀ size', pre' ++ Blk size true :: post' ≠ [Blk size' true]) ∨ (pre' = [] ∧ post' = []).
Proof.
  destruct pre' as [|b pre']; [|left; intros ? [= _ H']; by destruct pre'].
  destruct post' as [|b post']; [by right|]. left. by intros ? [=].
Qed.

Lemma free_exec s hs1 h pre b post hs2 :
  mm_inv hl s (hs1 ++ h :: hs2) → h_blocks h = pre ++ b :: post → b_free b = false →
  ∃ s' hs', free (heap_start h + total pre + sizeof_head) s = Ok (tt, s') ∧
    free_spec s hs1 h pre b post hs2 s' hs' ∧ mm_status s' = mm_status s.
Proof.
  intros Hinv Hbs Hbf. set (s0 := ints_masked s).
  assert (Hinv0 : mm_inv hl s0 (hs1 ++ h :: hs2)) by (by apply mm_inv_status).
  destruct (mm_inv_ok _ _ _ h Hinv0 ltac:(set_solver)) as (Hok & Hrep & _).
  pose proof (heap_tiles s0 h Hok Hrep) as Ht. rewrite Hbs in Ht.
  destruct (tiles_at _ _ _ _ _ _ Ht) as (_ & Hp & Hend & Hmax & _ & [Hb24 _] & (R1 & R2 & R3 & _) & Hchk).
  destruct (free_blocks pre b post) as [[pre' size] post'] eqn:Hfb.
  destruct (free_merge_exec (free_release (h_addr h) ;;
    conditionally_enable_interrupts (Z.land (cp0_status s) CP0_STATUS_IE_MASK))
    _ _ _ _ _ _ _ _ _ Ht Hfb) as (m' & He & Ht' & Hc).
  change (h_addr h + sizeof_heap) with (heap_start h) in *.
  pose proof (free_merge_inv s0 _ _ _ _ _ _ _ _ _ m' Hinv0 Hbs Hfb Ht' Hc) as Hinv'.
  set (s1 := set_mem (λ _, m') s0) in *.
  set (h' := Heap (h_addr h) (h_frames h) (pre' ++ Blk size true :: post')) in *.
  assert (Hother : ∀ g a, g ∈ hs1 ++ hs2 → h_addr g + 8 ≤ a < heap_end g →
    m' !! a = (mm_mem s : gmap Z Z) !! a).
  { intros g a Hg Ha. destruct (heap_apart _ _ _ _ _ Hinv Hg) as [_ Hap].
    pose proof Ht' as (_ & _ & _ & _ & _ & _ & [Hpre' _]%Forall_app & _).
    destruct (tiles_at _ _ _ _ _ _ Ht') as (_ & _ & He' & _).
    apply total_nonneg in Hpre'. apply Hc. cbn in He'. addr_lia. }
  assert (Hprefix : ∀ r, (free_release (h_addr h) ;;
      conditionally_enable_interrupts (Z.land (cp0_status s) CP0_STATUS_IE_MASK)) s1 = r →
    free (heap_start h + total pre + sizeof_head) s = r).
  { intros r <-. unfold free. erewrite bind_ok by apply ints_query_exec. cbv zeta.
    rewrite wrap_small by addr_lia.
    replace (heap_start h + total pre + sizeof_head - sizeof_head) with (heap_start h + total pre) by lia.
    fold s0. erewrite bind_ok by exact Hchk. erewrite bind_ok by (by apply ld_ok).
    rewrite Hbf. erewrite bind_ok by (by apply assert_true).
    erewrite bind_ok by (by apply ld_ok). exact He. }
  unfold free_spec. rewrite Hfb. destruct (single_block pre' post' size) as [Hkeep|[-> ->]].
  - do 2 eexists. split; [apply Hprefix|].
    { erewrite bind_ok by (eapply (release_keep s1); [exact Ht'|exact Hkeep|by destruct pre']).
      by apply (ints_restore s). }
    split; [|done]. split; [by apply mm_inv_status|]. split; [exact Hother|].
    rewrite bool_decide_eq_false_2 by (intros [-> ->]; by eapply Hkeep). by split_and!.
  - destruct (release_heap s1 hs1 h' hs2 size Hinv' eq_refl) as (s2 & He2 & Hinv2 & Hst2 & Hf2 & Hold2).
    do 2 eexists. split; [apply Hprefix|].
    { erewrite bind_ok by exact He2. by apply (ints_restore s). }
    split; [|done]. split; [by apply mm_inv_status|]. split.
    + intros g a Hg Ha. cbn. rewrite (Hold2 g) by done. by apply (Hother g).
    + by rewrite bool_decide_eq_true_2.
Qed.

End free.
