(* ===== verification/MallocSafe.v ===== *)
(** * The kernel heap: what clients observe

    The set of allocated payloads ([allocated]) before and after [malloc] and
    [free], derived from the refinement theorems. *)
From S2P Require Import Prelude CList Cpu Malloc MallocRep MallocScan MallocInv MallocAlloc MallocTop MallocFree.

(** The payloads of the allocated blocks of a tiling that starts at [p]. *)
Fixpoint allocs (p : Z) (bs : list block) : list (Z * Z) :=
  match bs with
  | [] => []
  | b :: bs =>
    (if b_free b then [] else [(p + sizeof_head, b_size b - sizeof_head - sizeof_foot)]) ++
    allocs (p + b_size b) bs
  end.

Lemma allocs_app p bs1 bs2 : allocs p (bs1 ++ bs2) = allocs p bs1 ++ allocs (p + total bs1) bs2.
Proof.
  revert p. induction bs1 as [|b bs1 IH]; intros p; cbn.
  - by rewrite Z.add_0_r.
  - by rewrite IH, Z.add_assoc, app_assoc.
Qed.

Lemma allocs_range p bs q k :
  Forall block_ok bs → (q, k) ∈ allocs p bs →
  p + sizeof_head ≤ q ∧ 0 ≤ k ∧ q + k + sizeof_foot ≤ p + total bs.
Proof.
  intros Hok. revert p. induction Hok as [|b bs [Hb _] Hok IH]; intros p Hin; cbn in *.
  { by apply elem_of_nil in Hin. }
  pose proof (total_nonneg _ Hok). unfold sizeof_head, sizeof_foot in *.
  apply elem_of_app in Hin as [Hin|Hin].
  - destruct (b_free b); [by apply elem_of_nil in Hin|].
    apply list_elem_of_singleton in Hin as [= -> ->]. lia.
  - apply IH in Hin. lia.
Qed.

Lemma allocated_allocs hs q k :
  allocated hs q k ↔ ∃ h, h ∈ hs ∧ (q, k) ∈ allocs (heap_start h) (h_blocks h).
Proof.
  split.
  - intros (h & pre & b & post & Hh & Hbs & Hb & -> & ->). exists h. split; [done|].
    rewrite Hbs, allocs_app. cbn. rewrite Hb. set_solver.
  - intros (h & Hh & Hin). unfold allocated.
    enough (Hgen : ∀ p bs, (q, k) ∈ allocs p bs → ∃ pre b post, bs = pre ++ b :: post ∧
      b_free b = false ∧ q = p + total pre + sizeof_head ∧ k = b_size b - sizeof_head - sizeof_foot).
    { destruct (Hgen _ _ Hin) as (pre & b & post & ?). by exists h, pre, b, post. }
    clear. intros p bs. revert p. induction bs as [|b bs IH]; intros p Hin; cbn in Hin.
    { by apply elem_of_nil in Hin. }
    apply elem_of_app in Hin as [Hin|Hin].
    + destruct (b_free b) eqn:Eb; [by apply elem_of_nil in Hin|].
      apply list_elem_of_singleton in Hin as [= -> ->].
      exists [], b, bs. cbn. rewrite Z.add_0_r. done.
    + destruct (IH _ Hin) as (pre & b' & post & -> & ? & -> & ->).
      exists (b :: pre), b', post. cbn. split_and!; try done. lia.
Qed.

Lemma allocated_cons hs1 h hs2 q k :
  allocated (hs1 ++ h :: hs2) q k ↔
  (q, k) ∈ allocs (heap_start h) (h_blocks h) ∨ allocated (hs1 ++ hs2) q k.
Proof.
  rewrite !allocated_allocs. split.
  - intros (g & [Hg|[->|Hg]%elem_of_cons]%elem_of_app & ?); [right|by left|right]; exists g; set_solver.
  - intros [?|(g & ? & ?)]; [exists h|exists g]; set_solver.
Qed.

(** Carving allocates exactly one payload. *)
Lemma allocs_carve need b p :
  b_free b = true → allocs p (carve need b) =
  [(p + sizeof_head, (if need + 24 <? b_size b then need else b_size b) - sizeof_head - sizeof_foot)].
Proof. intros Hb. unfold carve. by case_match. Qed.

(** Merging does not touch other allocated payloads. *)
Lemma allocs_join_next size post size1 post1 x :
  join_next size post = (size1, post1) → allocs (x + size1) post1 = allocs (x + size) post.
Proof.
  unfold join_next. destruct post as [|n post]; [by intros [= <- <-]|].
  destruct (b_free n) eqn:En; intros [= <- <-]; [|done]. cbn. rewrite En, Z.add_assoc. done.
Qed.

Lemma allocs_join_prev p pre size pre1 size1 post :
  join_prev pre size = (pre1, size1) →
  allocs p (pre1 ++ Blk size1 true :: post) = allocs p (pre ++ Blk size true :: post).
Proof.
  unfold join_prev. destruct pre as [|q pre _] using rev_ind; [by intros [= <- <-]|].
  rewrite last_snoc, removelast_last. destruct (b_free q) eqn:Eq; intros [= <- <-]; [|done].
  rewrite <- app_assoc, !allocs_app. cbn. rewrite Eq, Z.add_0_r, !Z.add_assoc. reflexivity.
Qed.

Lemma allocs_free p pre b post pre' size post' :
  free_blocks pre b post = (pre', size, post') →
  allocs p (pre' ++ Blk size true :: post') = allocs p pre ++ allocs (p + total pre + b_size b) post.
Proof.
  unfold free_blocks. destruct (join_next (b_size b) post) as [size1 post1] eqn:Hn.
  destruct (join_prev pre size1) as [pre1 size2] eqn:Hp. intros [= <- <- <-].
  rewrite (allocs_join_prev _ _ _ _ _ _ Hp), allocs_app. cbn. by rewrite (allocs_join_next _ _ _ _ _ Hn).
Qed.

Section safe.
  Context {F : Type} `{FrameAllocatorLaws F} (hl : Z).
  Implicit Types (s : mm_state F) (hs : list heap).

(** Payloads lie in their heap, behind the [heap_t]. *)
Lemma allocated_range s hs h q k :
  mm_inv hl s hs → h ∈ hs → (q, k) ∈ allocs (heap_start h) (h_blocks h) →
  h_addr h + 8 ≤ q ∧ q + k ≤ heap_end h ∧ 0 ≤ k.
Proof.
  intros Hinv Hh Hin. destruct (mm_inv_ok _ _ _ _ Hinv Hh) as ((_ & _ & _ & _ & _ & Hok & Htot & _) & _).
  apply allocs_range in Hin; [|done]. addr_lia.
Qed.

(** A payload outside the changed area, in the same heap or another. *)
Definition keeps hs (m m' : gmap Z Z) : Prop :=
  ∀ q k a, allocated hs q k → q ≤ a < q + k → m' !! a = m !! a.

Lemma allocs_disjoint p bs q k r j :
  Forall block_ok bs → (q, k) ∈ allocs p bs → (r, j) ∈ allocs p bs → q ≠ r →
  q + k ≤ r ∨ r + j ≤ q.
Proof.
  intros Hok. revert p. induction Hok as [|b bs [Hb _] Hok IH]; intros p Hq Hr Hne; cbn in *.
  { by apply elem_of_nil in Hq. }
  assert (Hhead : ∀ x y, (x, y) ∈ (if b_free b then [] else
    [(p + sizeof_head, b_size b - sizeof_head - sizeof_foot)]) → x = p + 16 ∧ y = b_size b - 24).
  { intros x y Hin. destruct (b_free b); [by apply elem_of_nil in Hin|].
    apply list_elem_of_singleton in Hin as [= -> ->]. unfold sizeof_head, sizeof_foot. lia. }
  apply elem_of_app in Hq as [Hq|Hq]; apply elem_of_app in Hr as [Hr|Hr].
  - apply Hhead in Hq, Hr. lia.
  - apply Hhead in Hq as [-> ->]. apply allocs_range in Hr; [|done].
    unfold sizeof_head, sizeof_foot in *. lia.
  - apply Hhead in Hr as [-> ->]. apply allocs_range in Hq; [|done].
    unfold sizeof_head, sizeof_foot in *. lia.
  - by apply (IH (p + b_size b)).
Qed.

(** Payloads at different addresses never overlap. *)
Lemma allocated_disjoint s hs q k r j :
  mm_inv hl s hs → allocated hs q k → allocated hs r j → q ≠ r → q + k ≤ r ∨ r + j ≤ q.
Proof.
  intros Hinv (g & Hg & Hq)%allocated_allocs (h & Hh & Hr)%allocated_allocs Hne.
  destruct (allocated_range _ _ _ _ _ Hinv Hg Hq) as (? & ? & ?).
  destruct (allocated_range _ _ _ _ _ Hinv Hh Hr) as (? & ? & ?).
  destruct (decide (h_addr g = h_addr h)) as [Heq|Hgh].
  - assert (g = h) as ->.
    { destruct Hinv as ([_ [Hnd _]] & _). apply NoDup_cons in Hnd as [_ Hnd].
      apply list_elem_of_lookup in Hg as [i Hi], Hh as [i' Hi'].
      assert (i = i') as ->; [|congruence].
      eapply (NoDup_lookup (h_addr <$> hs)); [done|by rewrite list_lookup_fmap, Hi|].
      rewrite list_lookup_fmap, Hi'. cbn. by rewrite Heq. }
    destruct (mm_inv_ok _ _ _ h Hinv Hh) as ((_ & _ & _ & _ & _ & Hok & _) & _).
    by eapply allocs_disjoint.
  - pose proof Hinv as (_ & _ & _ & Hdis & _). destruct (Hdis g h Hg Hh Hgh); lia.
Qed.

(** The observable effect of an allocation of [n] bytes at [p]. *)
Definition alloc_effect hs (m : gmap Z Z) (p n : Z) (m' : gmap Z Z) hs' : Prop :=
  keeps hs m m' ∧
  (∀ q k, allocated hs' q k ↔ (q, k) = (p, n) ∨ allocated hs q k) ∧
  (∀ q k, allocated hs q k → q ≠ p ∧ (q + k ≤ p ∨ p + n ≤ q)).

(** Carving a block of an existing heap. *)
Lemma carve_effect s hs1 h pre b post hs2 need m' :
  mm_inv hl s (hs1 ++ h :: hs2) → h_blocks h = pre ++ b :: post → b_free b = true →
  24 ≤ need ≤ b_size b →
  let p := heap_start h + total pre in
  changed p (p + b_size b) (mm_mem s) m' →
  ∃ n, need - 24 ≤ n ∧ alloc_effect (hs1 ++ h :: hs2) (mm_mem s) (p + sizeof_head) n m'
    (hs1 ++ Heap (h_addr h) (h_frames h) (pre ++ carve need b ++ post) :: hs2).
Proof.
  intros Hinv Hbs Hb Hneed p Hc.
  destruct (mm_inv_ok _ _ _ h Hinv ltac:(set_solver)) as ((_ & _ & _ & _ & _ & Hok & Htot & _) & _).
  rewrite Hbs in Hok, Htot. apply Forall_app in Hok as [Hpre Hok]. apply Forall_cons in Hok as [[Hb24 _] Hpost].
  rewrite total_app in Htot. cbn [total] in Htot.
  pose proof (total_nonneg _ Hpre). pose proof (total_nonneg _ Hpost).
  exists ((if need + 24 <? b_size b then need else b_size b) - sizeof_head - sizeof_foot).
  assert (Hn : need - 24 ≤ (if need + 24 <? b_size b then need else b_size b) - sizeof_head - sizeof_foot
    ≤ b_size b - 24) by (unfold sizeof_head, sizeof_foot; case_match; lia).
  set (n := _ - sizeof_foot) in *. split; [lia|].
  assert (Hsep : ∀ q k, allocated (hs1 ++ h :: hs2) q k → 0 ≤ k ∧ (q + k ≤ p ∨ p + b_size b ≤ q)).
  { intros q k [Hin|Hin]%allocated_cons.
    - rewrite Hbs, allocs_app in Hin. cbn in Hin. rewrite Hb in Hin. cbn in Hin.
      fold p in Hin. apply elem_of_app in Hin as [Hin|Hin]; apply allocs_range in Hin; [addr_lia|done|addr_lia|done].
    - apply allocated_allocs in Hin as (g & Hg & Hin).
      destruct (heap_apart hl _ _ _ _ _ Hinv Hg) as [Hg' Hap].
      destruct (allocated_range _ _ _ _ _ Hinv Hg' Hin) as (? & ? & ?). unfold p. addr_lia. }
  split_and!.
  - intros q k a Hq Ha. apply Hc. destruct (Hsep q k Hq) as [? [?|?]]; lia.
  - intros q k. rewrite !allocated_cons. cbn [h_addr h_frames h_blocks].
    change (heap_start (Heap _ _ _)) with (heap_start h).
    rewrite Hbs, !allocs_app, allocs_carve, total_carve by done. cbn [allocs]. rewrite Hb. fold p n.
    rewrite !elem_of_app, list_elem_of_singleton. rewrite elem_of_nil. tauto.
  - intros q k Hq. destruct (Hsep q k Hq) as [? [?|?]]; unfold sizeof_head in *; lia.
Qed.

(** Adding a heap with one allocated block. *)
Lemma grow_effect s hs need base m' :
  mm_inv hl s hs → need_ok need → heap_ok (new_heap base need) →
  (∀ g a, g ∈ hs → h_addr g + 8 ≤ a < heap_end g → m' !! a = (mm_mem s : gmap Z Z) !! a) →
  (∀ g, g ∈ hs → heap_end g ≤ base ∨ heap_end (new_heap base need) ≤ h_addr g) →
  ∃ n, need - 24 ≤ n ∧ alloc_effect hs (mm_mem s) (heap_start (new_heap base need) + sizeof_head) n m'
    (hs ++ [new_heap base need]).
Proof.
  intros Hinv Hneed Hok Hsame Hdis. destruct (frames_for_spec _ Hneed) as (_ & Hroom & _).
  assert (Ha : allocs (heap_start (new_heap base need)) (h_blocks (new_heap base need)) =
    [(heap_start (new_heap base need) + sizeof_head,
      (if need + 24 <? frames_for need * FRAME_SIZE - sizeof_heap then need
       else frames_for need * FRAME_SIZE - sizeof_heap) - sizeof_head - sizeof_foot)])
    by (by apply allocs_carve).
  eexists. split; [|split_and!].
  2: { intros q k a (g & Hg & Hin)%allocated_allocs Hr.
       destruct (allocated_range _ _ _ _ _ Hinv Hg Hin) as (? & ? & ?). apply (Hsame g); [done|lia]. }
  2: { intros q k. rewrite allocated_cons, Ha, app_nil_r, list_elem_of_singleton. reflexivity. }
  - unfold sizeof_head, sizeof_foot. case_match; unfold sizeof_heap in *; lia.
  - intros q k (g & Hg & Hin)%allocated_allocs.
    destruct (allocated_range _ _ _ _ _ Hinv Hg Hin) as (? & ? & ?).
    destruct Hok as (_ & _ & _ & _ & _ & Hbok & Htot & _).
    destruct (allocs_range _ _ _ _ Hbok ltac:(rewrite Ha; left)) as (? & ? & Hlast).
    cbn [new_heap h_addr] in *. rewrite Htot in Hlast.
    unfold heap_start, sizeof_heap, sizeof_head, sizeof_foot in *. cbn [new_heap h_addr] in *.
    destruct (Hdis g Hg); lia.
Qed.

(** A payload is not at [NULL], and aligned. *)
Lemma payload_pointer h pre b post :
  heap_ok h → h_blocks h = pre ++ b :: post →
  heap_start h + total pre + sizeof_head ≠ NULL ∧ (4 | heap_start h + total pre + sizeof_head).
Proof.
  intros (Hlo & _ & [k Hk] & _ & _ & Hok & _) Hbs. rewrite Hbs in Hok.
  apply Forall_app in Hok as [Hpre _]. pose proof (total_nonneg _ Hpre).
  destruct (total_div _ Hpre) as [k2 Hk2]. split; [unfold NULL; addr_lia|].
  exists (k * 1024 + k2 + 9). addr_lia.
Qed.

Lemma malloc_safe_exec fuel s hs size :
  mm_inv hl s hs → 0 ≤ size ≤ HEAP_BLOCK_SIZE_MAX → fuel_ok fuel hs →
  ∃ p s' hs', malloc hl fuel size s = Ok (p, s') ∧ mm_inv hl s' hs' ∧
    mm_status s' = mm_status s ∧
    ((p = NULL ∧ hs' = hs ∧ mm_mem s' = mm_mem s) ∨
     (p ≠ NULL ∧ (4 | p) ∧ ∃ n, size ≤ n ∧ alloc_effect hs (mm_mem s) p n (mm_mem s') hs')).
Proof.
  intros Hinv Hsize Hfuel.
  destruct (malloc_exec hl fuel s hs size Hinv Hsize Hfuel) as (p & s' & hs' & He & (Hinv' & Hspec) & Hst).
  destruct (real_size_ok size Hsize) as (Hneed & Hroom & _). pose proof Hneed as (Hn & Hn4 & Hnmax).
  exists p, s', hs'. do 3 (split; [done|]).
  pose proof payload_pointer as Hptr.
  destruct (find_heap (real_size size) hs) as [[[[[[hs1 h] pre] b] post] hs2]|] eqn:Hfind.
  - destruct Hspec as (-> & -> & Hfr & Hc). right.
    destruct (find_heap_some _ _ _ _ _ _ _ _ Hfind) as (-> & Hfit & _).
    destruct (find_fit_some _ _ _ _ _ Hfit) as (Hbs & Hb & Hle & _).
    destruct (mm_inv_ok _ _ _ h Hinv ltac:(set_solver)) as (Hok & _).
    destruct (Hptr h pre b post Hok Hbs) as [? ?]. split; [done|]. split; [done|].
    destruct (carve_effect s hs1 h pre b post hs2 (real_size size) (mm_mem s') Hinv Hbs Hb ltac:(lia) Hc)
      as (n & ? & ?). exists n. split; [lia|done].
  - destruct (frame_alloc _ _ _) as [[rc phys] f] eqn:Hfa. destruct Hspec as (Hfr & Hspec).
    case_bool_decide as Hrc; [|by left]. right. destruct Hspec as (-> & -> & Hsame & Hdis).
    assert (Hok : heap_ok (new_heap (phys + ADDR_PREFIX_KSEG0) (real_size size)))
      by (apply (mm_inv_ok _ _ _ _ Hinv'); set_solver).
    assert (Hne : ∃ b post, h_blocks (new_heap (phys + ADDR_PREFIX_KSEG0) (real_size size)) = [] ++ b :: post).
    { destruct Hok as (_ & _ & _ & _ & Hne & _). destruct (h_blocks _); [done|eauto]. }
    destruct Hne as (b & post & Hbs). destruct (Hptr _ _ _ _ Hok Hbs) as [? ?].
    cbn [total] in *. rewrite Z.add_0_r in *. split; [done|]. split; [done|].
    destruct (grow_effect s hs (real_size size) _ (mm_mem s') Hinv Hneed Hok Hsame Hdis) as (n & ? & ?).
    exists n. split; [lia|done].
Qed.

(** No other payload starts where the payload of [b] does. *)
Lemma alloc_unique s hs1 h pre b post hs2 :
  mm_inv hl s (hs1 ++ h :: hs2) → h_blocks h = pre ++ b :: post →
  let p := heap_start h + total pre + sizeof_head in
  (∀ q k, (q, k) ∈ allocs (heap_start h) pre → q ≠ p) ∧
  (∀ q k, (q, k) ∈ allocs (heap_start h + total pre + b_size b) post → q ≠ p) ∧
  (∀ q k, allocated (hs1 ++ hs2) q k → q ≠ p).
Proof.
  intros Hinv Hbs p.
  destruct (mm_inv_ok _ _ _ h Hinv ltac:(set_solver)) as ((_ & _ & _ & _ & _ & Hok & Htot & _) & _).
  rewrite Hbs in Hok, Htot. apply Forall_app in Hok as [Hpre Hok]. apply Forall_cons in Hok as [[Hb24 _] Hpost].
  rewrite total_app in Htot. cbn [total] in Htot. unfold p.
  pose proof (total_nonneg _ Hpre). pose proof (total_nonneg _ Hpost). split_and!.
  - intros q k Hin. apply allocs_range in Hin; [|done]. addr_lia.
  - intros q k Hin. apply allocs_range in Hin; [|done]. addr_lia.
  - intros q k (g & Hg & Hin)%allocated_allocs.
    destruct (heap_apart hl _ _ _ _ _ Hinv Hg) as [Hg' Hap].
    destruct (mm_inv_ok _ _ _ g Hinv Hg') as ((_ & _ & _ & _ & _ & Hgok & Hgtot & _) & _).
    apply allocs_range in Hin; [|done]. addr_lia.
Qed.

Lemma free_safe_exec s hs p n :
  mm_inv hl s hs → allocated hs p n →
  ∃ s' hs', free p s = Ok (tt, s') ∧ mm_inv hl s' hs' ∧ mm_status s' = mm_status s ∧
    (∀ q k, allocated hs' q k ↔ allocated hs q k ∧ q ≠ p) ∧ keeps hs' (mm_mem s) (mm_mem s').
Proof.
  intros Hinv (h & pre & b & post & Hh & Hbs & Hb & -> & ->).
  apply list_elem_of_split in Hh as (hs1 & hs2 & ->).
  destruct (free_exec hl s hs1 h pre b post hs2 Hinv Hbs Hb) as (s' & hs' & He & (Hinv' & Hspec) & Hst).
  exists s', hs'. do 3 (split; [done|]).
  destruct (free_blocks pre b post) as [[pre' size] post'] eqn:Hfb. destruct Hspec as (Hsame & Hspec).
  assert (Hallocs : ∀ q k, allocated hs' q k ↔
    (q, k) ∈ allocs (heap_start h) (pre' ++ Blk size true :: post') ∨ allocated (hs1 ++ hs2) q k).
  { intros q k. case_bool_decide as Hw; destruct Hspec as [-> Hspec].
    - destruct Hw as [-> ->]. cbn. rewrite elem_of_nil. tauto.
    - by rewrite allocated_cons. }
  split.
  - intros q k. rewrite Hallocs, (allocs_free _ _ _ _ _ _ _ Hfb), allocated_cons, Hbs, allocs_app.
    cbn [allocs]. rewrite Hb. cbn [app]. rewrite !elem_of_app, elem_of_cons.
    destruct (alloc_unique s hs1 h pre b post hs2 Hinv Hbs) as (U1 & U2 & U3).
    specialize (U1 q k). specialize (U2 q k). specialize (U3 q k). naive_solver.
  - intros q k a [Hin|Hin]%Hallocs Ha.
    + case_bool_decide as Hw; destruct Hspec as [-> Hspec].
      { destruct Hw as [-> ->]. cbn in Hin. by apply elem_of_nil in Hin. }
      destruct Hspec as [_ Hc]. apply Hc.
      destruct (mm_inv_ok hl s' _ (Heap (h_addr h) (h_frames h) (pre' ++ Blk size true :: post')) Hinv'
        ltac:(set_solver)) as ((_ & _ & _ & _ & _ & Hok & _) & _).
      cbn [h_blocks] in Hok. apply Forall_app in Hok as [Hpre Hok]. apply Forall_cons in Hok as [_ Hpost].
      rewrite allocs_app in Hin. cbn in Hin.
      apply elem_of_app in Hin as [Hin|Hin]; apply allocs_range in Hin; try done; addr_lia.
    + apply allocated_allocs in Hin as (g & Hg & Hin). destruct (heap_apart hl _ _ _ _ _ Hinv Hg) as [Hg' _].
      destruct (allocated_range _ _ _ _ _ Hinv Hg' Hin) as (? & ? & ?). apply (Hsame g); [done|lia].
Qed.

End safe.
