(* ===== verification/MallocTheorems.v ===== *)
(** * The kernel heap: the theorems of the component

    The last section instantiates the frame allocator by a set of free frames,
    for the witnesses. *)
From S2P Require Import Prelude CList Cpu Malloc MallocRep MallocScan MallocInv MallocAlloc MallocTop MallocFree MallocSafe.

Section theorems.
  Context {F : Type} `{FrameAllocatorLaws F} (hl : Z).
  Implicit Types (s : mm_state F) (hs : list heap).

(** [heap_init] on a memory whose free frames are mapped. *)
Lemma heap_init_inv s :
  hl ≠ NULL → mapped s hl → free_mapped hl s →
  ∃ s', heap_init hl s = Ok (tt, s') ∧ mm_inv hl s' [] ∧ mm_frames s' = mm_frames s.
Proof.
  intros Hhl Hm Hmap. destruct (list_init_spec s hl Hhl Hm) as (s' & He & Hl & Hw).
  apply writes_mm in Hw as (Hw & Hf & Hst & Hd).
  exists s'. split; [exact He|]. split; [|done]. split_and!; try done; try by constructor.
  - by intros ?? ?%elem_of_nil.
  - intros a Hp Ha. rewrite Hf in Ha. destruct (Hmap a Hp Ha) as [Hs Ho]. split; [|done].
    intros H4. by apply Hd, Hs.
Qed.

(** C3. [malloc] returns for every request up to [HEAP_BLOCK_SIZE_MAX] and
    implements first fit: it carves the first free block that is large enough out
    of the first heap that has one, splitting it only when the rest can hold a
    block, and touches no other memory; when there is none it creates a heap of
    at least [HEAP_FRAMES] frames at the end of the list, or returns [NULL] with
    the heap unchanged when the frame allocator fails.  The tiling invariant and
    the interrupt state are preserved. *)
Theorem malloc_refines_first_fit fuel s hs size :
  mm_inv hl s hs → 0 ≤ size ≤ HEAP_BLOCK_SIZE_MAX → fuel_ok fuel hs →
  ∃ p s' hs', malloc hl fuel size s = Ok (p, s') ∧ malloc_spec hl size s hs p s' hs' ∧
    mm_status s' = mm_status s.
Proof. apply malloc_exec. Qed.

(** C31. Memory safety of [malloc]: a non-[NULL] result is 4-byte aligned and starts
    a payload of at least the requested size that overlaps no payload handed out
    before; all of those stay allocated with their contents unchanged. *)
Theorem malloc_safe fuel s hs size :
  mm_inv hl s hs → 0 ≤ size ≤ HEAP_BLOCK_SIZE_MAX → fuel_ok fuel hs →
  ∃ p s' hs', malloc hl fuel size s = Ok (p, s') ∧ mm_inv hl s' hs' ∧
    mm_status s' = mm_status s ∧
    ((p = NULL ∧ hs' = hs ∧ mm_mem s' = mm_mem s) ∨
     (p ≠ NULL ∧ (4 | p) ∧ ∃ n, size ≤ n ∧ alloc_effect hs (mm_mem s) p n (mm_mem s') hs')).
Proof. apply malloc_safe_exec. Qed.

(** C4. [free] of an allocated block trips no assert and implements coalescing: the
    block is merged with a free right and a free left neighbour, only the merged
    area is written, and a heap that has become a single free block is unlinked
    and its frames are returned to the frame allocator; no two adjacent blocks
    are free afterwards, and the interrupt state is restored. *)
Theorem free_refines_coalescing s hs1 h pre b post hs2 :
  mm_inv hl s (hs1 ++ h :: hs2) → h_blocks h = pre ++ b :: post → b_free b = false →
  ∃ s' hs', free (heap_start h + total pre + sizeof_head) s = Ok (tt, s') ∧
    free_spec hl s hs1 h pre b post hs2 s' hs' ∧ mm_status s' = mm_status s.
Proof. apply free_exec. Qed.

(** Memory safety of [free]: exactly the payload at the given address stops
    being allocated, every other payload stays allocated and keeps its contents. *)
Theorem free_safe s hs p n :
  mm_inv hl s hs → allocated hs p n →
  ∃ s' hs', free p s = Ok (tt, s') ∧ mm_inv hl s' hs' ∧ mm_status s' = mm_status s ∧
    (∀ q k, allocated hs' q k ↔ allocated hs q k ∧ q ≠ p) ∧ keeps hs' (mm_mem s) (mm_mem s').
Proof. apply free_safe_exec. Qed.

(** A block whose structures are intact except possibly for the magic numbers. *)
Definition damaged (m : gmap Z Z) (hp p size : Z) : Prop :=
  m !! p = Some size ∧ m !! (p + 8) = Some hp ∧
  ∃ hm fm, m !! (p + 12) = Some hm ∧ m !! (p + size - 8) = Some fm ∧
    (hm ≠ HEAP_BLOCK_HEAD_MAGIC ∨ fm ≠ HEAP_BLOCK_FOOT_MAGIC).

(** The checks of the debug kernel: requests above the maximum, freeing a block
    that is free already, and freeing a block whose header or footer magic was
    overwritten stop the machine instead of corrupting the heap. *)
Theorem malloc_free_checks fuel s hs h pre b post size :
  mm_inv hl s hs → h ∈ hs → h_blocks h = pre ++ b :: post →
  let p := heap_start h + total pre in
  (HEAP_BLOCK_SIZE_MAX < size → malloc hl fuel size s = Panic) ∧
  (b_free b = true → free (p + sizeof_head) s = Panic) ∧
  (∀ m', m' !! (h_addr h + 8) = Some (heap_start h) → m' !! (h_addr h + 12) = Some (heap_end h) →
     damaged m' (h_addr h) p (b_size b) → free (p + sizeof_head) (set_mem (λ _, m') s) = Panic).
Proof.
  intros Hinv Hh Hbs p. destruct (mm_inv_ok _ _ _ h Hinv Hh) as (Hok & Hrep & _).
  pose proof (heap_tiles s h Hok Hrep) as Ht. rewrite Hbs in Ht.
  destruct (tiles_at _ _ _ _ _ _ Ht) as (Hscan & Hp & Hend & Hmax & _ & [Hb24 _] & (R1 & R2 & R3 & _) & Hchk).
  change (h_addr h + sizeof_heap) with (heap_start h) in *. subst p.
  set (p := heap_start h + total pre) in *.
  destruct Hscan as (_ & _ & Hpos & _). split_and!.
  - intros Hs. unfold malloc. apply bind_panic. unfold kassert.
    by replace (size <=? HEAP_BLOCK_SIZE_MAX) with false by lia.
  - intros Hb. unfold free. erewrite bind_ok by apply ints_query_exec. cbv zeta.
    rewrite wrap_small by addr_lia. replace (p + sizeof_head - sizeof_head) with p by lia.
    assert (Hchk' : block_check p (ints_masked s) = Ok (tt, ints_masked s)).
    { destruct (mm_inv_ok hl (ints_masked s) hs h (mm_inv_status hl s hs _ Hinv) Hh) as (Hok' & Hrep' & _).
      pose proof (heap_tiles (ints_masked s) h Hok' Hrep') as Ht'. rewrite Hbs in Ht'.
      by destruct (tiles_at _ _ _ _ _ _ Ht') as (_ & _ & _ & _ & _ & _ & _ & ?). }
    erewrite bind_ok by exact Hchk'. erewrite bind_ok by (by apply ld_ok). rewrite Hb.
    by apply bind_panic.
  - intros m' H8 H12 (D1 & D2 & hm & fm & D3 & D4 & Hmagic).
    unfold free. erewrite bind_ok by apply ints_query_exec. cbv zeta.
    rewrite wrap_small by addr_lia. replace (p + sizeof_head - sizeof_head) with p by lia.
    apply bind_panic. unfold block_check. cbv zeta. addr_unfold.
    do 2 (erewrite bind_ok by (by apply ld_ok)). erewrite bind_ok by (apply assert_true; addr_lia).
    do 2 (erewrite bind_ok by (by apply ld_ok)). erewrite bind_ok by (apply assert_true; addr_lia).
    erewrite bind_ok by (by apply ld_ok).
    destruct (Z.eqb_spec hm HEAP_BLOCK_HEAD_MAGIC); [|by apply bind_panic].
    erewrite bind_ok by (by apply assert_true). erewrite bind_ok by (by apply ld_ok).
    rewrite wrap_small by addr_lia. erewrite bind_ok by (by apply ld_ok).
    destruct Hmagic as [?|Hfm]; [done|]. destruct (Z.eqb_spec fm HEAP_BLOCK_FOOT_MAGIC); [done|].
    by apply bind_panic.
Qed.

(** ** Sequences of calls

    [mm_run s live]: the state [s] is reached from [heap_init] by calls of [malloc]
    and [free]; [live] are the addresses and requested sizes of the results not
    yet freed. *)
Inductive mm_run : mm_state F → list (Z * Z) → Prop :=
  | run_init s s' :
      hl ≠ NULL → mapped s hl → free_mapped hl s → heap_init hl s = Ok (tt, s') → mm_run s' []
  | run_malloc fuel s live size p s' :
      mm_run s live → 0 ≤ size ≤ HEAP_BLOCK_SIZE_MAX → malloc hl fuel size s = Ok (p, s') →
      mm_run s' (if bool_decide (p = NULL) then live else (p, size) :: live)
  | run_free s l1 p n l2 s' :
      mm_run s (l1 ++ (p, n) :: l2) → free p s = Ok (tt, s') → mm_run s' (l1 ++ l2).

Definition live_ok hs (live : list (Z * Z)) : Prop :=
  NoDup live.*1 ∧ ∀ p n, (p, n) ∈ live → ∃ k, n ≤ k ∧ allocated hs p k.

Definition fuel_for hs : nat :=
  S (S (length hs + list_max ((λ h, length (h_blocks h)) <$> hs))).

Lemma fuel_for_ok hs fuel : (fuel_for hs ≤ fuel)%nat → fuel_ok fuel hs.
Proof.
  unfold fuel_for. intros Hf. split; [lia|]. apply Forall_forall. intros h Hh.
  pose proof (proj1 (list_max_le ((λ h, length (h_blocks h)) <$> hs) _) (le_n _)) as Hall.
  rewrite List.Forall_forall in Hall.
  specialize (Hall (length (h_blocks h))). rewrite <- list_elem_of_In in Hall.
  specialize (Hall ltac:(by apply (list_elem_of_fmap_2 (λ h, length (h_blocks h))))). lia.
Qed.

Lemma malloc_scan_mono n n' need hp pos result :
  (n ≤ n')%nat → ok_le (malloc_scan (F := F) n need hp pos result) (malloc_scan n' need hp pos result).
Proof.
  revert n' pos result. induction n as [|n IH]; intros n' pos result Hn; [auto with fuel|].
  destruct n' as [|n']; [lia|]. cbn [malloc_scan].
  apply ok_le_bind; [auto with fuel|]. intros []; [|auto with fuel].
  do 4 (apply ok_le_bind; [auto with fuel|]; intros ?).
  apply ok_le_bind; [auto with fuel|]. intros ?. apply IH. lia.
Qed.

Lemma malloc_mono n n' size : (n ≤ n')%nat → ok_le (malloc (F := F) hl n size) (malloc hl n' size).
Proof.
  intros Hn. unfold malloc. do 2 (apply ok_le_bind; [auto with fuel|]; intros ?).
  apply ok_le_bind; [|auto with fuel]. unfold list_foreach.
  apply ok_le_bind; [auto with fuel|]. intros first. apply list_foreach_from_mono; [done|].
  intros heap. apply ok_le_bind; [auto with fuel|]. intros pos.
  apply ok_le_bind; [by apply malloc_scan_mono|auto with fuel].
Qed.

Lemma malloc_exec_any fuel s hs size p s' :
  mm_inv hl s hs → 0 ≤ size ≤ HEAP_BLOCK_SIZE_MAX → malloc hl fuel size s = Ok (p, s') →
  ∃ hs', mm_inv hl s' hs' ∧
    ((p = NULL ∧ hs' = hs) ∨
     (p ≠ NULL ∧ ∃ n, size ≤ n ∧ alloc_effect hs (mm_mem s) p n (mm_mem s') hs')).
Proof.
  intros Hinv Hs He. set (big := (fuel `max` fuel_for hs)%nat).
  destruct (malloc_safe_exec hl big s hs size Hinv Hs) as (p1 & s1 & hs1 & He1 & Hinv1 & _ & Hcase).
  { apply fuel_for_ok. lia. }
  assert (He' : malloc hl big size s = Ok (p, s')) by (by apply (malloc_mono fuel big); [lia|]).
  rewrite He' in He1. injection He1 as <- <-. exists hs1. split; [done|].
  destruct Hcase as [(-> & -> & _)|(? & _ & ?)]; auto.
Qed.

Lemma mm_run_inv s live : mm_run s live → ∃ hs, mm_inv hl s hs ∧ live_ok hs live.
Proof.
  induction 1 as [s s' Hhl Hm Hmap He|fuel s live size p s' Hrun (hs & Hinv & Hnd & Hlive) Hs He
                 |s l1 p n l2 s' Hrun (hs & Hinv & Hnd & Hlive) He].
  - destruct (heap_init_inv s Hhl Hm Hmap) as (s1 & He1 & Hinv & _). exists []. split; [congruence|].
    split; [constructor|]. by intros ?? ?%elem_of_nil.
  - destruct (malloc_exec_any fuel s hs size p s' Hinv Hs He) as (hs' & Hinv' & Hcase).
    exists hs'. split; [done|]. destruct Hcase as [[-> ->]|(Hp & n & Hn & Hkeep & Hiff & Hsep)].
    { by rewrite bool_decide_eq_true_2. }
    rewrite bool_decide_eq_false_2 by done. split.
    + cbn. constructor; [|done]. intros ((q & m) & -> & Hin)%list_elem_of_fmap.
      destruct (Hlive _ _ Hin) as (k & _ & Hk). by destruct (Hsep _ _ Hk) as [? _].
    + intros q m [[= -> ->]|Hin]%elem_of_cons.
      * exists n. split; [done|]. apply Hiff. by left.
      * destruct (Hlive _ _ Hin) as (k & ? & Hk). exists k. split; [done|]. apply Hiff. by right.
  - destruct (Hlive p n ltac:(set_solver)) as (k & _ & Hk).
    destruct (free_safe_exec hl s hs p k Hinv Hk) as (s1 & hs' & He1 & Hinv' & _ & Hiff & _).
    rewrite He in He1. injection He1 as <-. exists hs'. split; [done|].
    rewrite fmap_app, fmap_cons in Hnd. cbn in Hnd. split.
    + rewrite fmap_app. apply NoDup_app in Hnd as (? & Hd & [? ?]%NoDup_cons).
      apply NoDup_app. split_and!; [done| |done]. intros x Hx1 Hx2. apply (Hd x Hx1). by right.
    + intros q m Hin. destruct (Hlive q m ltac:(set_solver)) as (j & ? & Hj).
      exists j. split; [done|]. apply Hiff. split; [done|]. intros ->.
      apply NoDup_app in Hnd as (? & Hd & [Hd2 ?]%NoDup_cons).
      apply elem_of_app in Hin as [Hin|Hin]; apply (list_elem_of_fmap_2 fst) in Hin; cbn in Hin.
      * apply (Hd p Hin). by left.
      * by apply Hd2.
Qed.

(** C32. Any sequence of [malloc] and [free] calls that starts from [heap_init] and
    frees only live results (in any order, with any sizes) keeps the live
    payloads pairwise disjoint; every live result can be freed, and every further
    request up to the maximum returns for enough fuel. *)
Theorem mm_run_sound s live :
  mm_run s live →
  (∀ p n q m, (p, n) ∈ live → (q, m) ∈ live → p ≠ q → p + n ≤ q ∨ q + m ≤ p) ∧
  NoDup live.*1 ∧
  (∀ p n, (p, n) ∈ live → ∃ s', free p s = Ok (tt, s')) ∧
  (∀ size, 0 ≤ size ≤ HEAP_BLOCK_SIZE_MAX → ∃ fuel p s', malloc hl fuel size s = Ok (p, s')).
Proof.
  intros (hs & Hinv & Hnd & Hlive)%mm_run_inv. split_and!; [|done|..].
  - intros p n q m Hp Hq Hne. destruct (Hlive p n Hp) as (k & ? & Hk).
    destruct (Hlive q m Hq) as (j & ? & Hj).
    destruct (allocated_disjoint hl s hs p k q j Hinv Hk Hj Hne); lia.
  - intros p n Hp. destruct (Hlive p n Hp) as (k & _ & Hk).
    destruct (free_safe_exec hl s hs p k Hinv Hk) as (s' & _ & He & _). eauto.
  - intros size Hs.
    destruct (malloc_exec hl (fuel_for hs) s hs size Hinv Hs (fuel_for_ok _ _ (le_n _)))
      as (p & s' & _ & He & _). eauto.
Qed.

End theorems.

(** ** A concrete frame allocator: the set of free frame numbers *)
Definition frame_total : Z := 131072.
Definition frame_run (n cnt : Z) : gset Z := list_to_set (seqZ n cnt).
Definition run_fits (f : gset Z) (cnt n : Z) : bool :=
  bool_decide (frame_run n cnt ⊆ f) && (0 <=? n) && (n + cnt <=? frame_total).

#[export] Instance set_frames : FrameAllocator (gset Z) := {
  frame_alloc cnt flags f :=
    match List.find (run_fits f cnt) (elements f) with
    | Some n => (EOK, n * FRAME_SIZE, f ∖ frame_run n cnt)
    | None => (ENOMEM, 0, f)
    end;
  frame_free phys cnt f := (EOK, f ∪ frame_run (phys / FRAME_SIZE) cnt);
  frame_is_free f a := a / FRAME_SIZE ∈ f;
}.

Lemma frame_run_spec n cnt a : a / FRAME_SIZE ∈ frame_run n cnt ↔ in_frames (n * FRAME_SIZE) cnt a.
Proof.
  unfold frame_run, in_frames, FRAME_SIZE. rewrite elem_of_list_to_set, elem_of_seqZ.
  pose proof (Z.div_mod a 4096 ltac:(lia)). pose proof (Z.mod_pos_bound a 4096 ltac:(lia)). lia.
Qed.

#[export] Instance set_frames_laws : FrameAllocatorLaws (gset Z).
Proof.
  split; cbn [frame_alloc frame_free frame_is_free set_frames].
  - intros cnt f phys f' Hcnt Ha. destruct (List.find _ _) as [n|] eqn:Hfind; [|done].
    apply List.find_some in Hfind as [_ Hfits]. injection Ha as <- <-.
    apply andb_true_iff in Hfits as [[Hsub%bool_decide_eq_true Hn0]%andb_true_iff Hmax].
    unfold frame_total in Hmax. split_and!; [by exists n|unfold FRAME_SIZE; lia|unfold FRAME_SIZE; lia| |].
    + intros a Hin. by apply Hsub, frame_run_spec.
    + intros a. rewrite elem_of_difference, frame_run_spec. done.
  - intros cnt flags f rc phys f' Ha Hrc. destruct (List.find _ _); by simplify_eq.
  - intros phys cnt f Hcnt [n ->] _ _ _. eexists. split; [done|]. intros a.
    rewrite Z.div_mul by done. rewrite elem_of_union, frame_run_spec. done.
Qed.

(** [n] zero words from [lo]. *)
Definition zero_words (lo n : Z) : words := list_to_map ((λ i, (lo + 4 * i, 0)) <$> seqZ 0 n).

Lemma zero_words_mapped lo n i : 0 ≤ i < n → is_Some (zero_words lo n !! (lo + 4 * i)).
Proof.
  intros Hi. unfold zero_words. destruct (list_to_map _ !! _) eqn:E; [eauto|exfalso].
  apply not_elem_of_list_to_map in E. apply E.
  apply list_elem_of_fmap. exists (lo + 4 * i, 0). split; [done|].
  apply list_elem_of_fmap. exists i. split; [done|]. apply elem_of_seqZ. lia.
Qed.

(** [n] frames from frame 16 on are free, and their memory is mapped; the list head is at
    [0x80000100]. *)
Definition sample_hl : Z := 0x80000100.
Definition frames_mm (n : Z) : mm_state (gset Z) :=
  MM (<[sample_hl := 0]> (<[sample_hl + 4 := 0]> (zero_words 0x80010000 (1024 * n)))) (frame_run 16 n) 1.

Lemma frames_mm_mapped n : mapped (frames_mm n) sample_hl.
Proof.
  split; cbn -[zero_words].
  - rewrite lookup_insert_eq. eauto.
  - rewrite lookup_insert_ne, lookup_insert_eq by done. eauto.
Qed.

Lemma frames_mm_free_mapped n : free_mapped sample_hl (frames_mm n).
Proof.
  intros a Ha. cbn -[zero_words frame_run]. rewrite frame_run_spec. unfold in_frames, FRAME_SIZE.
  intros Hin. split; [|left; unfold sample_hl, ADDR_PREFIX_KSEG0; lia].
  intros [k ->]. rewrite !lookup_insert_ne by (unfold sample_hl, ADDR_PREFIX_KSEG0; lia).
  replace (k * 4 + ADDR_PREFIX_KSEG0) with (0x80010000 + 4 * (k - 16384))
    by (unfold ADDR_PREFIX_KSEG0; lia).
  apply zero_words_mapped. lia.
Qed.

(** The empty allocator. *)
Lemma frames_mm_init n : ∃ s, heap_init sample_hl (frames_mm n) = Ok (tt, s) ∧ mm_inv sample_hl s [] ∧
  mm_frames s = frame_run 16 n.
Proof. apply heap_init_inv; [done|apply frames_mm_mapped|apply frames_mm_free_mapped]. Qed.

(** Frames 16 to 31. *)
Definition sample_frames : gset Z := frame_run 16 16.
Definition sample_mm : mm_state (gset Z) := frames_mm 16.

Lemma sample_mapped : mapped sample_mm sample_hl.
Proof. exact (frames_mm_mapped 16). Qed.

Lemma sample_free_mapped : free_mapped sample_hl sample_mm.
Proof. exact (frames_mm_free_mapped 16). Qed.

Lemma sample_init : ∃ s, heap_init sample_hl sample_mm = Ok (tt, s) ∧ mm_inv sample_hl s [] ∧
  mm_frames s = sample_frames.
Proof. exact (frames_mm_init 16). Qed.

(** The allocator with one heap for a 100-byte block. *)
Definition sample_heap : heap := new_heap 0x80010000 (real_size 100).

Lemma sample_alloc : ∃ f, frame_alloc (frames_for (real_size 100))
  (Z.lor VF_VA_AUTO VF_AT_KSEG0) sample_frames = (EOK, 16 * FRAME_SIZE, f).
Proof. eexists. vm_compute. reflexivity. Qed.

Lemma sample_grown : ∃ s, mm_inv sample_hl s [sample_heap].
Proof.
  destruct sample_init as (s & _ & Hinv & Hf).
  destruct (malloc_exec sample_hl 4 s [] 100 Hinv) as (p & s' & hs' & _ & [Hinv' Hspec] & _).
  { unfold HEAP_BLOCK_SIZE_MAX. lia. }
  { split; [cbn; lia|constructor]. }
  exists s'. cbn [find_heap] in Hspec. rewrite Hf in Hspec.
  destruct sample_alloc as [f Hfa].
  rewrite Hfa in Hspec. destruct Hspec as (_ & _ & -> & _). exact Hinv'.
Qed.

(** Its first block is allocated. *)
Lemma sample_blocks : h_blocks sample_heap = [] ++ Blk 124 false :: [Blk 65392 true].
Proof. by vm_compute. Qed.

Lemma sample_allocated : allocated [sample_heap] 0x80010024 100.
Proof.
  exists sample_heap, [], (Blk 124 false), [Blk 65392 true].
  split_and!; [left|exact sample_blocks|done|by vm_compute|done].
Qed.

(** ** Witnesses *)
Lemma malloc_refines_first_fit_witness :
  ∃ s hs, mm_inv sample_hl s hs ∧ fuel_ok 4 hs ∧
    ∃ p s' hs', malloc sample_hl 4 200 s = Ok (p, s') ∧ malloc_spec sample_hl 200 s hs p s' hs' ∧
      mm_status s' = mm_status s.
Proof.
  destruct sample_grown as [s Hs]. exists s, [sample_heap].
  assert (Hf : fuel_ok 4 [sample_heap]) by (split; [cbn; lia|repeat constructor; vm_compute; lia]).
  split; [exact Hs|]. split; [exact Hf|].
  apply (malloc_refines_first_fit sample_hl 4 s [sample_heap] 200 Hs); [|exact Hf].
  unfold HEAP_BLOCK_SIZE_MAX. lia.
Defined.

Lemma malloc_safe_witness :
  ∃ s hs, mm_inv sample_hl s hs ∧
    ∃ p s' hs', malloc sample_hl 4 200 s = Ok (p, s') ∧ mm_inv sample_hl s' hs' ∧
    mm_status s' = mm_status s ∧
    ((p = NULL ∧ hs' = hs ∧ mm_mem s' = mm_mem s) ∨
     (p ≠ NULL ∧ (4 | p) ∧ ∃ n, 200 ≤ n ∧ alloc_effect hs (mm_mem s) p n (mm_mem s') hs')).
Proof.
  destruct sample_grown as [s Hs]. exists s, [sample_heap]. split; [exact Hs|].
  apply (malloc_safe sample_hl 4 s [sample_heap] 200 Hs).
  - unfold HEAP_BLOCK_SIZE_MAX. lia.
  - split; [cbn; lia|repeat constructor; vm_compute; lia].
Defined.

Lemma free_refines_coalescing_witness :
  ∃ s, mm_inv sample_hl s [sample_heap] ∧
    ∃ s' hs', free 0x80010024 s = Ok (tt, s') ∧
      free_spec sample_hl s [] sample_heap [] (Blk 124 false) [Blk 65392 true] [] s' hs' ∧
      mm_status s' = mm_status s.
Proof.
  destruct sample_grown as [s Hs]. exists s. split; [exact Hs|].
  exact (free_refines_coalescing sample_hl s [] sample_heap [] (Blk 124 false) [Blk 65392 true] []
    Hs sample_blocks eq_refl).
Defined.

Lemma free_safe_witness :
  ∃ s, mm_inv sample_hl s [sample_heap] ∧
    ∃ s' hs', free 0x80010024 s = Ok (tt, s') ∧ mm_inv sample_hl s' hs' ∧
      mm_status s' = mm_status s ∧
      (∀ q k, allocated hs' q k ↔ allocated [sample_heap] q k ∧ q ≠ 0x80010024) ∧
      keeps hs' (mm_mem s) (mm_mem s').
Proof.
  destruct sample_grown as [s Hs]. exists s. split; [exact Hs|].
  exact (free_safe sample_hl s [sample_heap] 0x80010024 100 Hs sample_allocated).
Defined.

Lemma malloc_free_checks_witness :
  ∃ s, mm_inv sample_hl s [sample_heap] ∧
    malloc sample_hl 4 0x10000001 s = Panic ∧ free 0x800100a0 s = Panic.
Proof.
  destruct sample_grown as [s Hs]. exists s. split; [exact Hs|].
  destruct (malloc_free_checks sample_hl 4 s [sample_heap] sample_heap [Blk 124 false]
    (Blk 65392 true) [] 0x10000001 Hs ltac:(left) sample_blocks) as (H1 & H2 & _).
  split; [by apply H1|by apply H2].
Defined.

Lemma mm_run_sound_witness :
  ∃ s, mm_run sample_hl s [] ∧
    ∀ size, 0 ≤ size ≤ HEAP_BLOCK_SIZE_MAX → ∃ fuel p s', malloc sample_hl fuel size s = Ok (p, s').
Proof.
  destruct sample_init as (s & He & _). exists s.
  assert (Hrun : mm_run sample_hl s [])
    by (eapply run_init; [|exact sample_mapped|exact sample_free_mapped|exact He]; done).
  split; [exact Hrun|]. apply (mm_run_sound sample_hl s [] Hrun).
Defined.
