(* ===== verification/KHeap.v ===== *)
(** * The interface of the memory management

    What [malloc.c] and [falloc.h] promise to the rest of the kernel
    ([KernelHeap] with its laws), and the proof that the modelled allocator keeps
    the promise ([mm_kernel_heap_laws]).  Clients keep their objects in stores
    of their own and use the heap for addresses only.  What a client asks for is a list of
    [request]s, [granted] or [refused]; [serve_all] computes which. *)
From S2P Require Import Prelude CList Cpu Malloc MallocRep MallocScan MallocInv MallocAlloc MallocTop MallocFree MallocSafe MallocTheorems.

(** [kh_rep h live owned]: [h] is a consistent heap whose allocated payloads are
    [live] (address and size), and the physical addresses [owned] belong to
    frames the kernel took from the frame allocator.  [kh_static] are the
    addresses of the kernel image, which no allocation ever overlaps. *)
Class KernelHeap (H : Type) := {
  kh_cpu :: CpuState H;
  km_malloc : Z → KM H Z;
  km_free : Z → KM H unit;
  km_frame_alloc : Z → Z → KM H (Z * Z);
  km_frame_free : Z → Z → KM H Z;
  kh_static : Z → Prop;
  kh_rep : H → gmap Z Z → (Z → Prop) → Prop;
}.

(** An area of [n] bytes at [p] that no live payload and no static object uses. *)
Definition fresh_payload {H} `{KernelHeap H} (live : gmap Z Z) (p n : Z) : Prop :=
  0 < p ∧ p + n ≤ word_max ∧ (4 | p) ∧
  (∀ q k, live !! q = Some k → q ≠ p ∧ (q + k ≤ p ∨ p + n ≤ q)) ∧
  (∀ a, p ≤ a < p + n → ¬ kh_static a).

Class KernelHeapLaws (H : Type) `{KernelHeap H} := {
  kh_cpu_laws :: CpuStateLaws H;
  km_malloc_law h live owned size :
    kh_rep h live owned → 0 ≤ size ≤ HEAP_BLOCK_SIZE_MAX →
    ∃ p h', km_malloc size h = Ok (p, h') ∧ cp0_status h' = cp0_status h ∧
      ((p = NULL ∧ kh_rep h' live owned) ∨
       (p ≠ NULL ∧ ∃ n, size ≤ n ∧ fresh_payload live p n ∧ kh_rep h' (<[p := n]> live) owned));
  km_free_law h live owned p n :
    kh_rep h live owned → live !! p = Some n →
    ∃ h', km_free p h = Ok (tt, h') ∧ cp0_status h' = cp0_status h ∧ kh_rep h' (delete p live) owned;
  km_frame_alloc_law h live owned cnt :
    kh_rep h live owned → 0 < cnt →
    ∃ rc phys h', km_frame_alloc cnt (Z.lor VF_VA_AUTO VF_AT_KSEG0) h = Ok ((rc, phys), h') ∧
      cp0_status h' = cp0_status h ∧
      ((rc ≠ EOK ∧ kh_rep h' live owned) ∨
       (rc = EOK ∧ (FRAME_SIZE | phys) ∧ 0 ≤ phys ∧ phys + cnt * FRAME_SIZE ≤ 2 ^ 29 ∧
        (∀ a, in_frames phys cnt a → ¬ owned a) ∧
        kh_rep h' live (λ a, owned a ∨ in_frames phys cnt a)));
  km_frame_free_law h live owned phys cnt :
    kh_rep h live owned → 0 < cnt → (FRAME_SIZE | phys) → 0 ≤ phys →
    phys + cnt * FRAME_SIZE ≤ 2 ^ 29 → (∀ a, in_frames phys cnt a → owned a) →
    ∃ h', km_frame_free phys cnt h = Ok (EOK, h') ∧ cp0_status h' = cp0_status h ∧
      kh_rep h' live (λ a, owned a ∧ ¬ in_frames phys cnt a);
  kh_rep_status h live owned v : kh_rep h live owned → kh_rep (set_cp0_status v h) live owned;
  kh_rep_owned h live owned owned' :
    (∀ a, owned' a → owned a) → kh_rep h live owned → kh_rep h live owned';
  kh_rep_apart h live owned p n :
    kh_rep h live owned → live !! p = Some n →
    0 < p ∧ (∀ a, p ≤ a < p + n → ¬ kh_static a) ∧
    ∀ q k, live !! q = Some k → p ≠ q → p + n ≤ q ∨ q + k ≤ p;
}.

(** ** Requests for memory

    What a function asks of the memory management, in order.  [refused rs h]: one of the
    requests [rs], made one after the other from the heap [h] on, is turned down, the ones
    before it having been [granted].  The Status register may change in between. *)
Inductive request := Block (size : Z) | Frames (count : Z).

Definition request_ok (r : request) : Prop :=
  match r with Block size => 0 ≤ size ≤ HEAP_BLOCK_SIZE_MAX | Frames count => 0 < count end.

Section requests.
  Context {H : Type} `{KernelHeapLaws H}.

(** The answer to one request, and the heap after it. *)
Definition asked (r : request) (h : H) (ok : bool) (h' : H) : Prop :=
  ∃ v, match r with
       | Block size => ∃ p, km_malloc size (set_cp0_status v h) = Ok (p, h') ∧ ok = bool_decide (p ≠ NULL)
       | Frames count => ∃ rc phys, km_frame_alloc count (Z.lor VF_VA_AUTO VF_AT_KSEG0) (set_cp0_status v h) =
           Ok ((rc, phys), h') ∧ ok = bool_decide (rc = EOK)
       end.

Fixpoint granted (rs : list request) (h h' : H) : Prop :=
  match rs with
  | [] => ∃ v, h' = set_cp0_status v h
  | r :: rs => ∃ h1, asked r h true h1 ∧ granted rs h1 h'
  end.

Fixpoint refused (rs : list request) (h : H) : Prop :=
  match rs with
  | [] => False
  | r :: rs => ∃ ok h1, asked r h ok h1 ∧ (ok = true → refused rs h1)
  end.

Lemma asked_status r h ok h' v : asked r (set_cp0_status v h) ok h' → asked r h ok h'.
Proof. intros [w Hr]. exists w. by destruct r; setoid_rewrite set_cp0_status_set in Hr. Qed.

Lemma refused_status rs h v : refused rs (set_cp0_status v h) → refused rs h.
Proof. destruct rs; [done|]. intros (ok & h1 & Ha & Hr). exists ok, h1. split; [by eapply asked_status|done]. Qed.

Lemma granted_status rs h h' v : granted rs h h' → granted rs h (set_cp0_status v h').
Proof.
  revert h. induction rs as [|r rs IH]; intros h; cbn.
  - intros [w ->]. exists v. by rewrite set_cp0_status_set.
  - intros (h1 & Ha & Hg). eauto.
Qed.

Lemma granted_from rs h h' v : granted rs (set_cp0_status v h) h' → granted rs h h'.
Proof.
  destruct rs; cbn; [intros [w ->]; exists w; by rewrite set_cp0_status_set|].
  intros (h1 & Ha & Hg). exists h1. split; [by eapply asked_status|done].
Qed.

Lemma granted_nil h : granted [] h h.
Proof. exists (cp0_status h). by rewrite set_cp0_status_same. Qed.

Lemma granted_app rs rs' h h1 h2 : granted rs h h1 → granted rs' h1 h2 → granted (rs ++ rs') h h2.
Proof.
  revert h. induction rs as [|r rs IH]; intros h; cbn; [intros [v ->]; by apply granted_from|].
  intros (h' & Ha & Hg) Hg'. eauto.
Qed.

Lemma refused_app_l rs rs' h : refused rs h → refused (rs ++ rs') h.
Proof.
  revert h. induction rs as [|r rs IH]; intros h; cbn; [done|]. intros (ok & h' & Ha & Hr). exists ok, h'. auto.
Qed.

Lemma refused_app_r rs rs' h h1 : granted rs h h1 → refused rs' h1 → refused (rs ++ rs') h.
Proof.
  revert h. induction rs as [|r rs IH]; intros h; cbn; [intros [v ->]; by apply refused_status|].
  intros (h' & Ha & Hg) Hr. exists true, h'. auto.
Qed.

Lemma asked_block size h p h' :
  km_malloc size h = Ok (p, h') → asked (Block size) h (bool_decide (p ≠ NULL)) h'.
Proof. intros He. exists (cp0_status h), p. by rewrite set_cp0_status_same. Qed.

Lemma granted_block size h p h' : km_malloc size h = Ok (p, h') → p ≠ NULL → granted [Block size] h h'.
Proof.
  intros He Hp. exists h'. split; [|apply granted_nil]. rewrite <- (bool_decide_eq_true_2 (p ≠ NULL)) by done.
  by apply asked_block.
Qed.

Lemma refused_block size h h' : km_malloc size h = Ok (NULL, h') → refused [Block size] h.
Proof. intros He. eexists _, h'. split; [by apply asked_block|]. by rewrite bool_decide_eq_false_2 by tauto. Qed.

Lemma granted_frames count h phys h' :
  km_frame_alloc count (Z.lor VF_VA_AUTO VF_AT_KSEG0) h = Ok ((EOK, phys), h') → granted [Frames count] h h'.
Proof.
  intros He. exists h'. split; [|apply granted_nil]. exists (cp0_status h), EOK, phys. by rewrite set_cp0_status_same.
Qed.

Lemma refused_frames count h rc phys h' :
  km_frame_alloc count (Z.lor VF_VA_AUTO VF_AT_KSEG0) h = Ok ((rc, phys), h') → rc ≠ EOK → refused [Frames count] h.
Proof.
  intros He Hrc. exists false, h'. split; [|done]. exists (cp0_status h), rc, phys. rewrite set_cp0_status_same.
  by rewrite bool_decide_eq_false_2.
Qed.
End requests.

(** ** The allocator implements the interface *)
Section implementation.
  Context {F : Type} `{FrameAllocatorLaws F} (hl : Z) (static : Z → Prop).
  Implicit Types (s : mm_state F) (hs : list heap).

(** No more heaps and no more blocks than mapped words. *)
Definition mm_fuel s : nat := S (S (2 * size (mm_mem s : gmap Z Z))).

Definition mm_malloc (size : Z) : KM (mm_state F) Z := λ s, malloc hl (mm_fuel s) size s.

Lemma distinct_le_size (m : gmap Z Z) (l : list Z) :
  NoDup l → (∀ x, x ∈ l → is_Some (m !! x)) → (length l ≤ size m)%nat.
Proof.
  intros Hnd Hin. rewrite <- size_dom. rewrite <- (size_list_to_set (C := gset Z)) by done.
  apply subseteq_size. intros x Hx. apply elem_of_dom, Hin.
  by rewrite elem_of_list_to_set in Hx.
Qed.

(** The addresses of the headers of a tiling. *)
Fixpoint heads (p : Z) (bs : list block) : list Z :=
  match bs with [] => [] | b :: bs => p :: heads (p + b_size b) bs end.

Lemma heads_range p bs x : Forall block_ok bs → x ∈ heads p bs → p ≤ x.
Proof.
  intros Hok. revert p. induction Hok as [|b bs [Hb _] Hok IH]; intros p Hin; cbn in *.
  { by apply elem_of_nil in Hin. }
  apply elem_of_cons in Hin as [->|Hin]; [done|]. apply IH in Hin. lia.
Qed.

Lemma heads_spec m hp p bs :
  Forall block_ok bs → blocks_rep m hp p bs →
  NoDup (heads p bs) ∧ (∀ x, x ∈ heads p bs → is_Some (m !! x)) ∧ length (heads p bs) = length bs.
Proof.
  intros Hok. revert p. induction Hok as [|b bs Hb Hok IH]; intros p Hr; cbn in *.
  { split_and!; [constructor|by intros ? ?%elem_of_nil|done]. }
  destruct Hr as [(Hr & _) Hrs]. destruct (IH _ Hrs) as (IH1 & IH2 & IH3). split_and!.
  - apply NoDup_cons. split; [|done]. intros Hin%(heads_range _ _ _ Hok). destruct Hb. lia.
  - intros x [->|Hx]%elem_of_cons; eauto.
  - lia.
Qed.

Lemma list_max_bound (l : list nat) n : (∀ x, x ∈ l → (x ≤ n)%nat) → (list_max l ≤ n)%nat.
Proof. intros Hl. apply list_max_le. apply List.Forall_forall. intros x Hx. by apply Hl, list_elem_of_In. Qed.

Lemma mm_fuel_ok s hs : mm_inv hl s hs → fuel_ok (mm_fuel s) hs.
Proof.
  intros Hinv. apply fuel_for_ok. unfold fuel_for, mm_fuel.
  assert (Hh : (length hs ≤ size (mm_mem s : gmap Z Z))%nat).
  { rewrite <- (length_fmap h_addr). apply distinct_le_size.
    - destruct Hinv as ([_ [Hnd _]] & _). by apply NoDup_cons in Hnd as [_ ?].
    - intros x (h & -> & Hin)%list_elem_of_fmap.
      destruct (mm_inv_ok _ _ _ _ Hinv Hin) as ((_ & _ & [k Hk] & Hf & _) & (_ & _ & _ & _ & Hr) & _).
      apply Hr; [unfold heap_end, FRAME_SIZE; lia|]. exists (k * 1024). unfold FRAME_SIZE in *. lia. }
  assert (Hb : (list_max ((λ h, length (h_blocks h)) <$> hs) ≤ size (mm_mem s : gmap Z Z))%nat).
  { apply list_max_bound. intros x (h & -> & Hin)%list_elem_of_fmap.
    destruct (mm_inv_ok _ _ _ _ Hinv Hin) as ((_ & _ & _ & _ & _ & Hok & _) & (_ & _ & _ & Hr & _) & _).
    destruct (heads_spec _ _ _ _ Hok Hr) as (? & ? & <-). by apply distinct_le_size. }
  lia.
Qed.

(** An address of a heap or of a free frame. *)
Definition managed s hs (a : Z) : Prop :=
  (∃ h, h ∈ hs ∧ h_addr h ≤ a < heap_end h) ∨ frame_is_free (mm_frames s) (a - ADDR_PREFIX_KSEG0).

Definition mm_owned s (owned : Z → Prop) : Prop :=
  ∀ a, owned a → phys_ok a ∧ off_list hl (a + ADDR_PREFIX_KSEG0) (a + ADDR_PREFIX_KSEG0 + 1) ∧
    ¬ static (a + ADDR_PREFIX_KSEG0) ∧
    ((4 | a) → is_Some ((mm_mem s : gmap Z Z) !! (a + ADDR_PREFIX_KSEG0))).

Definition mm_rep s (live : gmap Z Z) (owned : Z → Prop) : Prop :=
  ∃ hs, mm_inv hl s hs ∧ (∀ p n, live !! p = Some n ↔ allocated hs p n) ∧
    mm_owned s owned ∧
    (∀ a, managed s hs a → ¬ static a ∧ ¬ owned (a - ADDR_PREFIX_KSEG0)).

(** The heap area [malloc] takes from the frame allocator was managed before. *)
Lemma malloc_managed size s hs p s' hs' a :
  mm_inv hl s hs → 0 ≤ size ≤ HEAP_BLOCK_SIZE_MAX → malloc_spec hl size s hs p s' hs' →
  managed s' hs' a → managed s hs a.
Proof.
  intros Hinv Hsize (Hinv' & Hspec) Hm. destruct (real_size_ok size Hsize) as (Hneed & _ & _).
  destruct (find_heap (real_size size) hs) as [[[[[[hs1 h] pre] b] post] hs2]|] eqn:Hfind.
  - destruct Hspec as (-> & -> & Hfr & _). destruct (find_heap_some _ _ _ _ _ _ _ _ Hfind) as (-> & _).
    destruct Hm as [(g & Hg & Ha)|Hf]; [left|right; by rewrite Hfr in Hf].
    apply elem_of_app in Hg as [?|[->|?]%elem_of_cons]; [exists g|exists h|exists g];
      (split; [set_solver|exact Ha]).
  - destruct (frame_alloc _ _ _) as [[rc phys] f] eqn:Hfa. destruct Hspec as (Hfr & Hspec).
    case_bool_decide as Hrc.
    + subst rc. destruct (frames_for_spec _ Hneed) as (Hff & _). unfold HEAP_FRAMES in Hff.
      assert (Hpos : 0 < frames_for (real_size size)) by lia.
      destruct (frame_alloc_ok _ _ _ _ Hpos Hfa) as (_ & _ & _ & Hin & Hout).
      destruct Hspec as (-> & -> & _).
      destruct Hm as [(g & [Hg|Hg]%elem_of_app & Ha)|Hf].
      * left. eauto.
      * apply list_elem_of_singleton in Hg as ->. right. apply Hin.
        cbn in Ha. unfold heap_end, in_frames in *. cbn in Ha. lia.
      * right. rewrite Hfr in Hf. by apply Hout in Hf as [? _].
    + destruct Hspec as (-> & -> & _). destruct Hm as [?|Hf]; [by left|right].
      rewrite Hfr in Hf. by apply (frame_alloc_fail _ _ _ _ _ _ Hfa Hrc).
Qed.

Lemma free_managed s hs1 h pre b post hs2 s' hs' a :
  mm_inv hl s (hs1 ++ h :: hs2) → free_spec hl s hs1 h pre b post hs2 s' hs' →
  managed s' hs' a → managed s (hs1 ++ h :: hs2) a.
Proof.
  intros Hinv (Hinv' & Hspec) Hm. destruct (free_blocks pre b post) as [[pre' sz] post'].
  destruct Hspec as (_ & Hspec). case_bool_decide.
  - destruct Hspec as (-> & Hf). destruct Hm as [(g & Hg & Ha)|Hm].
    + left. exists g. set_solver.
    + apply Hf in Hm as [?|?]; [by right|left]. exists h. split; [set_solver|lia].
  - destruct Hspec as (-> & Hf & _). destruct Hm as [(g & Hg & Ha)|Hm]; [left|right; by rewrite Hf in Hm].
    apply elem_of_app in Hg as [?|[->|?]%elem_of_cons]; [exists g|exists h|exists g];
      (split; [set_solver|exact Ha]).
Qed.
(** The heaps are determined by the memory. *)
Lemma blocks_rep_unique m hp p bs1 bs2 :
  Forall block_ok bs1 → Forall block_ok bs2 → total bs1 = total bs2 →
  blocks_rep m hp p bs1 → blocks_rep m hp p bs2 → bs1 = bs2.
Proof.
  intros Hok1. revert p bs2. induction Hok1 as [|[sz1 f1] bs1 [Hb1 _] Hok1 IH]; intros p bs2 Hok2 Ht Hr1 Hr2.
  - destruct Hok2 as [|b2 bs2 [Hb2 _] Hok2]; [done|]. pose proof (total_nonneg _ Hok2). cbn in Ht. lia.
  - destruct Hok2 as [|[sz2 f2] bs2 [Hb2 _] Hok2].
    { pose proof (total_nonneg _ Hok1). cbn in Ht, Hb1. lia. }
    cbn in Hr1, Hr2. destruct Hr1 as [(S1 & F1 & _) Hr1], Hr2 as [(S2 & F2 & _) Hr2].
    cbn in *. assert (sz1 = sz2) as -> by congruence.
    assert (f1 = f2) as ->.
    { assert (Hf : Z.b2z f1 = Z.b2z f2) by congruence. by destruct f1, f2. }
    f_equal. eapply IH; [done| |done|done]. lia.
Qed.

Lemma mm_inv_unique s hs1 hs2 : mm_inv hl s hs1 → mm_inv hl s hs2 → hs1 = hs2.
Proof.
  intros (Hl1 & Hok1 & Hr1 & _) (Hl2 & Hok2 & Hr2 & _).
  pose proof (is_list_unique _ _ _ _ Hl1 Hl2) as Ha. clear Hl1 Hl2.
  revert hs2 Hok2 Hr2 Ha. induction hs1 as [|g hs1 IH]; intros [|h hs2] Hok2 Hr2 Ha; try done.
  rewrite !fmap_cons in Ha. injection Ha as Ha Hrest. rewrite !Forall_cons in *.
  destruct Hok1 as [(_ & _ & _ & _ & _ & Hg & Htg & _) Hok1], Hok2 as [(_ & _ & _ & _ & _ & Hh & Hth & _) Hok2].
  destruct Hr1 as [(_ & _ & Fg & Bg & _) Hr1], Hr2 as [(_ & _ & Fh & Bh & _) Hr2].
  f_equal; [|by apply (IH Hok1 Hr1)].
  destruct g as [ag fg bg], h as [ah fh bh]. cbn in *. subst ah.
  assert (fg = fh) as -> by congruence. f_equal.
  eapply blocks_rep_unique; [done|done| |exact Bg|exact Bh].
  rewrite Htg, Hth. done.
Qed.

(** ** No operation unmaps a word *)
Definition keeps_dom {A} (m : KM (mm_state F) A) : Prop :=
  ∀ s r s', m s = Ok (r, s') → dom_grows (mm_mem s) (mm_mem s').

Lemma dom_grows_insert (m : gmap Z Z) a v : dom_grows m (<[a := v]> m).
Proof.
  intros b Hb. destruct (decide (a = b)) as [->|]; [rewrite lookup_insert_eq; eauto|].
  by rewrite lookup_insert_ne.
Qed.

Lemma keeps_bind {A B} (m : KM (mm_state F) A) (f : A → KM (mm_state F) B) :
  keeps_dom m → (∀ a, keeps_dom (f a)) → keeps_dom (m ≫= f).
Proof.
  intros Hm Hf s r s' He. apply bind_inv in He as (a & s1 & He & Hr).
  intros x Hx. by eapply Hf, Hm.
Qed.

Lemma keeps_same {A} (m : KM (mm_state F) A) :
  (∀ s r s', m s = Ok (r, s') → mm_mem s' = mm_mem s) → keeps_dom m.
Proof. intros Hm s r s' He x Hx. by rewrite (Hm _ _ _ He). Qed.

Lemma keeps_ret {A} (a : A) : keeps_dom (mret a).
Proof. apply keeps_same. by intros s r s' [= <- <-]. Qed.
Lemma keeps_assert c : keeps_dom (kassert c).
Proof. apply keeps_same. unfold kassert. intros s r s' He. case_match; by simplify_eq. Qed.
Lemma keeps_panic {A} : keeps_dom (kpanic (A := A)).
Proof. by intros s r s' [=]. Qed.
Lemma keeps_nofuel {A} : keeps_dom (knofuel (A := A)).
Proof. by intros s r s' [=]. Qed.
Lemma keeps_load {A} (f : mm_state F → option A) : keeps_dom (kload f).
Proof. apply keeps_same. unfold kload. intros s r s' He. case_match; by simplify_eq. Qed.
Lemma keeps_st a v : keeps_dom (st a v).
Proof. intros s r s' He. unfold st in He. case_match; simplify_eq. apply dom_grows_insert. Qed.
Lemma keeps_wr_prev p v : keeps_dom (wr_prev p v).
Proof. apply keeps_bind; [apply keeps_load|]. intros ? s r s' [= <- <-]. apply dom_grows_insert. Qed.
Lemma keeps_wr_next p v : keeps_dom (wr_next p v).
Proof. apply keeps_bind; [apply keeps_load|]. intros ? s r s' [= <- <-]. apply dom_grows_insert. Qed.
Lemma keeps_query : keeps_dom query_and_disable_interrupts.
Proof. apply keeps_same. by intros s r s' [= <- <-]. Qed.
Lemma keeps_cond state : keeps_dom (conditionally_enable_interrupts state).
Proof.
  apply keeps_same. unfold conditionally_enable_interrupts, enable_interrupts, kmodify, mret, KM_ret.
  intros s r s' He. case_bool_decide; by simplify_eq.
Qed.
Lemma keeps_falloc cnt flags : keeps_dom (call_frame_alloc cnt flags).
Proof. apply keeps_same. unfold call_frame_alloc. intros s r s' He. repeat case_match; by simplify_eq. Qed.
Lemma keeps_ffree phys cnt : keeps_dom (call_frame_free phys cnt).
Proof. apply keeps_same. unfold call_frame_free. intros s r s' He. repeat case_match; by simplify_eq. Qed.

Ltac keeps_step :=
  first
    [ apply keeps_ret | apply keeps_assert | apply keeps_panic | apply keeps_nofuel
    | apply keeps_load | apply keeps_st | apply keeps_wr_prev | apply keeps_wr_next
    | apply keeps_query | apply keeps_cond | apply keeps_falloc | apply keeps_ffree
    | apply keeps_bind; [|intros ?]
    | match goal with |- keeps_dom (let '(_, _) := ?x in _) => destruct x end
    | match goal with |- keeps_dom (if ?x then _ else _) => destruct x end
    | match goal with |- keeps_dom (match ?x with Some _ => _ | None => _ end) => destruct x end ].

Lemma keeps_foreach {R} fuel head cur (body : Z → KM (mm_state F) (option R)) :
  (∀ x, keeps_dom (body x)) → keeps_dom (list_foreach_from fuel head cur body).
Proof.
  intros Hb. revert cur. induction fuel as [|fuel IH]; intros cur; cbn [list_foreach_from].
  - apply keeps_nofuel.
  - repeat first [apply Hb | apply IH | keeps_step].
Qed.

Lemma keeps_scan fuel need hp pos result : keeps_dom (malloc_scan fuel need hp pos result).
Proof.
  revert pos result. induction fuel as [|fuel IH]; intros pos result; cbn [malloc_scan].
  - apply keeps_nofuel.
  - unfold block_check, malloc_take, block_init, ld. repeat first [apply IH | keeps_step].
Qed.

Lemma keeps_malloc fuel size : keeps_dom (malloc hl fuel size).
Proof.
  unfold malloc, list_foreach, malloc_heap, malloc_heap_format, block_init, list_append, link_init,
    rd_prev, rd_next, ld.
  repeat first [apply keeps_foreach; intros ? | apply keeps_scan | keeps_step].
Qed.

Lemma keeps_free p : keeps_dom (free p).
Proof.
  unfold free, free_merge_next, free_merge_prev, free_release, block_check, block_init, list_remove,
    link_connected, link_init, rd_prev, rd_next, ld.
  repeat keeps_step.
Qed.

(** ** The instance *)
Definition mm_kernel_heap : KernelHeap (mm_state F) := {|
  kh_cpu := mm_cpu F;
  km_malloc := mm_malloc;
  km_free := free;
  km_frame_alloc := call_frame_alloc;
  km_frame_free := call_frame_free;
  kh_static := static;
  kh_rep := mm_rep;
|}.

Lemma mm_owned_grows s s' owned :
  dom_grows (mm_mem s) (mm_mem s') → mm_owned s owned → mm_owned s' owned.
Proof.
  intros Hd Ho a Ha. destruct (Ho a Ha) as (? & ? & ? & Hm). split_and!; [done..|].
  intros H4. by apply Hd, Hm.
Qed.

Lemma allocated_managed s hs p n a :
  mm_inv hl s hs → allocated hs p n → p ≤ a < p + n → managed s hs a.
Proof.
  intros Hinv (h & Hh & Hin)%allocated_allocs Ha. left. exists h. split; [done|].
  destruct (allocated_range _ _ _ _ _ _ Hinv Hh Hin) as (? & ? & ?). lia.
Qed.

Lemma allocated_bounds s hs p n : mm_inv hl s hs → allocated hs p n → 0 < p ∧ p + n ≤ word_max.
Proof.
  intros Hinv (h & Hh & Hin)%allocated_allocs.
  destruct (allocated_range _ _ _ _ _ _ Hinv Hh Hin) as (? & ? & ?).
  destruct (mm_inv_ok _ _ _ _ Hinv Hh) as ((? & ? & _) & _).
  unfold ADDR_PREFIX_KSEG0 in *. rewrite word_max_eq. lia.
Qed.

Lemma malloc_law s live owned size :
  mm_rep s live owned → 0 ≤ size ≤ HEAP_BLOCK_SIZE_MAX →
  ∃ p s', mm_malloc size s = Ok (p, s') ∧ mm_status s' = mm_status s ∧
    ((p = NULL ∧ mm_rep s' live owned) ∨
     (p ≠ NULL ∧ ∃ n, size ≤ n ∧ fresh_payload (H := mm_state F) (H0 := mm_kernel_heap) live p n ∧
        mm_rep s' (<[p := n]> live) owned)).
Proof.
  intros (hs & Hinv & Hlive & Hown & Hman) Hsize. pose proof (mm_fuel_ok _ _ Hinv) as Hfuel.
  destruct (malloc_safe_exec hl _ s hs size Hinv Hsize Hfuel) as (p & s' & hs' & He & Hinv' & Hst & Hcase).
  destruct (malloc_exec hl _ s hs size Hinv Hsize Hfuel) as (p1 & s1 & hs1 & He1 & Hspec & _).
  pose proof He1 as He2. rewrite He in He2. injection He2 as <- <-.
  assert (Hgrow : dom_grows (mm_mem s) (mm_mem s')) by exact (keeps_malloc _ _ _ _ _ He).
  exists p, s'. split; [done|]. split; [done|].
  assert (hs' = hs1) as ->.
  { destruct Hspec as [Hinv1 _]. by eapply mm_inv_unique. }
  assert (Hman' : ∀ a, managed s' hs1 a → ¬ static a ∧ ¬ owned (a - ADDR_PREFIX_KSEG0)).
  { intros a Ha. by apply Hman, (malloc_managed size s hs p s' hs1). }
  destruct Hcase as [(-> & -> & _)|(Hp & H4 & n & Hn & Hkeep & Hiff & Hsep)].
  - left. split; [done|]. exists hs. split_and!; [done..| |done]. by eapply mm_owned_grows.
  - right. split; [done|]. exists n. split; [done|].
    assert (Hal : allocated hs1 p n) by (apply Hiff; by left).
    split.
    + destruct (allocated_bounds _ _ _ _ Hinv' Hal). split_and!; try done.
      * intros q k Hq. apply Hlive in Hq. by apply Hsep.
      * intros a Ha. by apply Hman', (allocated_managed s' hs1 p n).
    + exists hs1. split_and!; [done| |by eapply mm_owned_grows|done].
      intros q k. rewrite Hiff. split.
      * intros [[-> ->]|[Hne Hq]]%lookup_insert_Some; [by left|right; by apply Hlive].
      * intros [[= -> ->]|Hq]; [apply lookup_insert_eq|]. destruct (Hsep q k Hq) as [? _].
        rewrite lookup_insert_ne by done. by apply Hlive.
Qed.

Lemma free_law s live owned p n :
  mm_rep s live owned → live !! p = Some n →
  ∃ s', free p s = Ok (tt, s') ∧ mm_status s' = mm_status s ∧ mm_rep s' (delete p live) owned.
Proof.
  intros (hs & Hinv & Hlive & Hown & Hman) Hp. apply Hlive in Hp as Hal.
  destruct (free_safe_exec hl s hs p n Hinv Hal) as (s' & hs' & He & Hinv' & Hst & Hiff & _).
  exists s'. split; [done|]. split; [done|]. exists hs'.
  destruct Hal as (h & pre & b & post & Hh & Hbs & Hb & -> & ->).
  apply list_elem_of_split in Hh as (hs1 & hs2 & ->).
  destruct (free_exec hl s hs1 h pre b post hs2 Hinv Hbs Hb) as (s1 & hs1' & He1 & Hspec & _).
  rewrite He in He1. injection He1 as <-.
  assert (hs' = hs1') as ->.
  { destruct Hspec as [Hinv1 _]. by eapply mm_inv_unique. }
  split_and!; [done| | |].
  - intros q k. rewrite lookup_delete_Some, Hlive, Hiff. naive_solver.
  - eapply mm_owned_grows; [exact (keeps_free _ _ _ _ He)|done].
  - intros a Ha. by apply Hman, (free_managed s hs1 h pre b post hs2 s' hs1').
Qed.
(** Frames that are taken directly. *)
Lemma frames_taken s hs cnt phys f :
  mm_inv hl s hs → 0 < cnt → frame_alloc cnt (Z.lor VF_VA_AUTO VF_AT_KSEG0) (mm_frames s) = (EOK, phys, f) →
  mm_inv hl (MM (mm_mem s) f (mm_status s)) hs.
Proof.
  intros (Hl & Hok & Hrep & Hdis & Hoff & Hused & Hmap) Hcnt Hfa.
  destruct (frame_alloc_ok _ _ _ _ Hcnt Hfa) as (_ & _ & _ & _ & Hout). split_and!; try done.
  - eapply is_list_cells; [|exact Hl]. done.
  - eapply Forall_impl; [exact Hused|]. intros h Hh a Ha Hf. apply Hout in Hf as [Hf _]. by eapply Hh.
  - intros a Hp Hf. apply Hout in Hf as [Hf _]. by apply Hmap.
Qed.

Lemma frame_alloc_law s live owned cnt :
  mm_rep s live owned → 0 < cnt →
  ∃ rc phys s', call_frame_alloc cnt (Z.lor VF_VA_AUTO VF_AT_KSEG0) s = Ok ((rc, phys), s') ∧
    mm_status s' = mm_status s ∧
    ((rc ≠ EOK ∧ mm_rep s' live owned) ∨
     (rc = EOK ∧ (FRAME_SIZE | phys) ∧ 0 ≤ phys ∧ phys + cnt * FRAME_SIZE ≤ 2 ^ 29 ∧
      (∀ a, in_frames phys cnt a → ¬ owned a) ∧
      mm_rep s' live (λ a, owned a ∨ in_frames phys cnt a))).
Proof.
  intros (hs & Hinv & Hlive & Hown & Hman) Hcnt. unfold call_frame_alloc.
  destruct (frame_alloc cnt _ (mm_frames s)) as [[rc phys] f] eqn:Hfa.
  do 3 eexists. split; [done|]. split; [done|]. destruct (decide (rc = EOK)) as [->|Hrc].
  - right. destruct (frame_alloc_ok _ _ _ _ Hcnt Hfa) as (Hdiv & Hlo & Hmax & Hin & Hout).
    assert (Hfree : ∀ a, in_frames phys cnt a → managed s hs (a + ADDR_PREFIX_KSEG0)).
    { intros a Ha. right. replace (a + _ - _) with a by lia. by apply Hin. }
    split_and!; [done..| |].
    { intros a Ha Ho. destruct (Hman _ (Hfree a Ha)) as [_ Hn]. apply Hn.
      by replace (a + _ - _) with a by lia. }
    pose proof Hinv as (Hl & Hok & Hrep & Hdis & Hoff & Hused & Hmap).
    exists hs. split_and!; [by eapply frames_taken|done| |].
    + intros a [Ha|Ha]; [by apply Hown|].
      assert (Hp : phys_ok a) by (unfold phys_ok, in_frames in *; lia).
      destruct (Hmap a Hp (Hin a Ha)) as [Hm Ho]. split_and!; [done|done| |done].
      by apply (Hman _ (Hfree a Ha)).
    + intros a Ha.
      assert (Ha' : managed s hs a) by (destruct Ha as [?|Ha]; [by left|right; by apply Hout in Ha as [? _]]).
      split; [by apply (Hman a Ha')|]. intros [Ho|Ho]; [by apply (Hman a Ha')|].
      destruct Ha as [(h & Hh & Hr)|Hf].
      * rewrite Forall_forall in Hused. apply (Hused h Hh a Hr). by apply Hin.
      * cbn in Hf. apply Hout in Hf as [_ Hf]. done.
  - left. split; [done|]. pose proof (frame_alloc_fail _ _ _ _ _ _ Hfa Hrc) as Hsame.
    exists hs. split_and!; [by apply mm_inv_same_frames|done|done|].
    intros a [?|Ha]; apply Hman; [by left|right]. by apply Hsame.
Qed.

Lemma frame_free_law s live owned phys cnt :
  mm_rep s live owned → 0 < cnt → (FRAME_SIZE | phys) → 0 ≤ phys →
  phys + cnt * FRAME_SIZE ≤ 2 ^ 29 → (∀ a, in_frames phys cnt a → owned a) →
  ∃ s', call_frame_free phys cnt s = Ok (EOK, s') ∧ mm_status s' = mm_status s ∧
    mm_rep s' live (λ a, owned a ∧ ¬ in_frames phys cnt a).
Proof.
  intros (hs & Hinv & Hlive & Hown & Hman) Hcnt Hdiv Hlo Hmax Hin.
  assert (Hnot : ∀ a, in_frames phys cnt a → ¬ managed s hs (a + ADDR_PREFIX_KSEG0)).
  { intros a Ha Hm. apply Hman in Hm as [_ Hm]. apply Hm.
    replace (a + _ - _) with a by lia. by apply Hin. }
  destruct (frame_free_ok phys cnt (mm_frames s) Hcnt Hdiv Hlo Hmax) as (f & Hff & Hf).
  { intros a Ha Hfr. apply (Hnot a Ha). right. by replace (a + _ - _) with a by lia. }
  unfold call_frame_free. rewrite Hff. eexists. split; [done|]. split; [done|].
  pose proof Hinv as (Hl & Hok & Hrep & Hdis & Hoff & Hused & Hmap).
  exists hs. split_and!; [|done| |].
  - split_and!; try done.
    + eapply is_list_cells; [|exact Hl]. done.
    + apply Forall_forall. intros h Hh a Ha Hfr. rewrite Forall_forall in Hused.
      apply Hf in Hfr as [Hfr|Hfr]; [by eapply (Hused h Hh)|].
      apply (Hnot _ Hfr). left. exists h. split; [done|]. lia.
    + intros a Hp Hfr. apply Hf in Hfr as [Hfr|Hfr]; [by apply Hmap|].
      destruct (Hown a (Hin a Hfr)) as (_ & ? & _ & ?). done.
  - intros a [Ha _]. by apply Hown.
  - intros a [Ha|Ha].
    + destruct (Hman a (or_introl Ha)) as [? Hn]. split; [done|]. by intros [? _].
    + cbn in Ha. apply Hf in Ha as [Ha|Ha].
      * destruct (Hman a (or_intror Ha)) as [? Hn]. split; [done|]. by intros [? _].
      * destruct (Hown _ (Hin _ Ha)) as (_ & _ & Hs & _).
        replace (a - _ + _) with a in Hs by lia. split; [done|]. by intros [_ ?].
Qed.

Lemma rep_apart s live owned p n :
  mm_rep s live owned → live !! p = Some n →
  0 < p ∧ (∀ a, p ≤ a < p + n → ¬ static a) ∧ ∀ q k, live !! q = Some k → p ≠ q → p + n ≤ q ∨ q + k ≤ p.
Proof.
  intros (hs & Hinv & Hlive & _ & Hman) Hp%Hlive. split; [|split].
  - by destruct (allocated_bounds _ _ _ _ Hinv Hp).
  - intros a Ha. by apply Hman, (allocated_managed s hs p n).
  - intros q k Hq%Hlive Hne. by apply (allocated_disjoint hl s hs).
Qed.

Lemma mm_kernel_heap_laws : @KernelHeapLaws (mm_state F) mm_kernel_heap.
Proof.
  split.
  - apply mm_cpu_laws.
  - exact malloc_law.
  - exact free_law.
  - exact frame_alloc_law.
  - exact frame_free_law.
  - intros s live owned v (hs & Hinv & ?). exists hs. split; [by apply mm_inv_status|done].
  - intros s live owned owned' Hsub (hs & Hinv & Hlive & Hown & Hman). exists hs.
    split_and!; [done|done|by intros a ?%Hsub%Hown|].
    intros a Ha. destruct (Hman a Ha) as [? Hn]. split; [done|]. by intros ?%Hsub.
  - exact rep_apart.
Qed.

(** The allocator of [malloc.c], on top of any frame allocator that behaves as
    [falloc.h] documents, keeps the promises the rest of the kernel relies on:
    [malloc] answers [NULL] or a fresh payload apart from all live ones and from the
    kernel image, [free] takes exactly one payload back, frames taken directly
    from the frame allocator and heap memory never overlap, and none of the calls
    changes the interrupt state. *)
Theorem mm_implements_kernel_heap : @KernelHeapLaws (mm_state F) mm_kernel_heap.
Proof. exact mm_kernel_heap_laws. Qed.

(** ** Requests served by first fit

    The heaps and the free frames determine which requests are turned down. *)
Definition serve (r : request) (c : list heap * F) : option (list heap * F) :=
  match r with
  | Block size =>
    match find_heap (real_size size) c.1 with
    | Some (hs1, h, pre, b, post, hs2) =>
      Some (hs1 ++ Heap (h_addr h) (h_frames h) (pre ++ carve (real_size size) b ++ post) :: hs2, c.2)
    | None =>
      let '(rc, phys, f) := frame_alloc (frames_for (real_size size)) (Z.lor VF_VA_AUTO VF_AT_KSEG0) c.2 in
      if bool_decide (rc = EOK) then Some (c.1 ++ [new_heap (phys + ADDR_PREFIX_KSEG0) (real_size size)], f) else None
    end
  | Frames count =>
    let '(rc, phys, f) := frame_alloc count (Z.lor VF_VA_AUTO VF_AT_KSEG0) c.2 in
    if bool_decide (rc = EOK) then Some (c.1, f) else None
  end.

Fixpoint serve_all (rs : list request) (c : list heap * F) : option (list heap * F) :=
  match rs with [] => Some c | r :: rs => serve r c ≫= serve_all rs end.

Lemma serve_all_app rs rs' c : serve_all (rs ++ rs') c = serve_all rs c ≫= serve_all rs'.
Proof. revert c. induction rs as [|r rs IH]; intros c; cbn; [done|]. destruct (serve r c) as [c'|]; [exact (IH c')|done]. Qed.

Lemma serve_malloc size s hs :
  mm_inv hl s hs → 0 ≤ size ≤ HEAP_BLOCK_SIZE_MAX →
  ∃ p s', mm_malloc size s = Ok (p, s') ∧
    match serve (Block size) (hs, mm_frames s) with
    | Some c => p ≠ NULL ∧ mm_inv hl s' c.1 ∧ mm_frames s' = c.2
    | None => p = NULL
    end.
Proof.
  intros Hinv Hsize. pose proof (mm_fuel_ok _ _ Hinv) as Hfuel.
  destruct (malloc_exec hl _ s hs size Hinv Hsize Hfuel) as (p & s' & hs' & He & (Hinv' & Hspec) & _).
  exists p, s'. split; [exact He|]. cbn.
  destruct (find_heap (real_size size) hs) as [[[[[[hs1 h] pre] b] post] hs2]|] eqn:Hfind.
  - destruct Hspec as (-> & -> & Hfr & _). split; [|done].
    destruct (find_heap_some _ _ _ _ _ _ _ _ Hfind) as (-> & Hfit & _).
    destruct (find_fit_some _ _ _ _ _ Hfit) as (Hbs & _).
    destruct (mm_inv_ok _ _ _ h Hinv ltac:(set_solver)) as (Hok & _). by eapply payload_pointer.
  - destruct (frame_alloc _ _ _) as [[rc phys] f]. destruct Hspec as (Hfr & Hspec).
    case_bool_decide as Hrc; [|by destruct Hspec]. destruct Hspec as (-> & -> & _). split; [|done].
    assert (Hok : heap_ok (new_heap (phys + ADDR_PREFIX_KSEG0) (real_size size)))
      by (apply (mm_inv_ok _ _ _ _ Hinv'); set_solver).
    destruct (h_blocks (new_heap (phys + ADDR_PREFIX_KSEG0) (real_size size))) as [|b post] eqn:Hbs.
    { destruct Hok as (_ & _ & _ & _ & Hne & _). by rewrite Hbs in Hne. }
    destruct (payload_pointer _ [] b post Hok Hbs) as [Hp _]. cbn [total] in Hp. by rewrite Z.add_0_r in Hp.
Qed.

#[local] Instance serving : KernelHeap (mm_state F) := mm_kernel_heap.
#[local] Instance serving_laws : KernelHeapLaws (mm_state F) := mm_kernel_heap_laws.

Lemma serve_asked r s hs ok s' :
  mm_inv hl s hs → request_ok r → asked r s ok s' →
  match serve r (hs, mm_frames s) with
  | Some c => ok = true ∧ mm_inv hl s' c.1 ∧ mm_frames s' = c.2
  | None => ok = false
  end.
Proof.
  intros Hinv Hr [v Ha]. set (s0 := set_cp0_status v s) in Ha. assert (Hinv0 : mm_inv hl s0 hs) by (by apply mm_inv_status).
  destruct r as [size|count].
  - destruct Ha as (p & He & ->). destruct (serve_malloc size s0 hs Hinv0 Hr) as (p' & s1 & He' & Hs).
    change (mm_malloc size s0 = Ok (p, s')) in He. rewrite He in He'. injection He' as <- <-.
    change (mm_frames s0) with (mm_frames s) in Hs. destruct (serve (Block size) _).
    + destruct Hs as [Hp Hs]. by rewrite bool_decide_eq_true_2.
    + rewrite bool_decide_eq_false_2; [done|tauto].
  - destruct Ha as (rc & phys & He & ->). change (call_frame_alloc count (Z.lor VF_VA_AUTO VF_AT_KSEG0) s0 = Ok ((rc, phys), s')) in He.
    unfold call_frame_alloc in He. cbn. change (mm_frames s0) with (mm_frames s) in He.
    destruct (frame_alloc count _ (mm_frames s)) as [[rc' phys'] f] eqn:Hfa. injection He as -> -> <-.
    case_bool_decide as Hrc; [|done]. subst rc. split; [done|split; [|done]].
    by apply (frames_taken s0 hs count phys f).
Qed.

Lemma refused_serve rs s hs :
  mm_inv hl s hs → Forall request_ok rs → refused rs s → serve_all rs (hs, mm_frames s) = None.
Proof.
  intros Hinv Hrs. revert s hs Hinv. induction Hrs as [|r rs Hr Hrs IH]; intros s hs Hinv; cbn; [done|].
  intros (ok & s1 & Ha & Hrest). pose proof (serve_asked r s hs ok s1 Hinv Hr Ha) as Hs.
  destruct (serve r _) as [[hs1 f]|]; [|done]. destruct Hs as (-> & Hinv1 & Hf). cbn in *. rewrite <- Hf. by apply IH; [|apply Hrest].
Qed.

Lemma serve_not_refused rs s hs f :
  mm_inv hl s hs → mm_frames s = f → Forall request_ok rs → is_Some (serve_all rs (hs, f)) → ¬ refused rs s.
Proof. intros Hinv <- Hrs [c Hc] Hr. pose proof (refused_serve rs s hs Hinv Hrs Hr) as Hn. congruence. Qed.

Lemma granted_serve rs s hs s' :
  mm_inv hl s hs → Forall request_ok rs → granted rs s s' →
  ∃ hs', serve_all rs (hs, mm_frames s) = Some (hs', mm_frames s') ∧ mm_inv hl s' hs'.
Proof.
  intros Hinv Hrs. revert s hs Hinv. induction Hrs as [|r rs Hr Hrs IH]; intros s hs Hinv; cbn.
  { intros [v ->]. exists hs. split; [done|by apply mm_inv_status]. }
  intros (s1 & Ha & Hrest). pose proof (serve_asked r s hs true s1 Hinv Hr Ha) as Hs.
  destruct (serve r _) as [[hs1 f]|]; [|done]. destruct Hs as (_ & Hinv1 & Hf). cbn in *. rewrite <- Hf. by apply IH.
Qed.
End implementation.

(** The set of free frames and the list head of the samples; the head is the only
    static object. *)
Lemma mm_implements_kernel_heap_witness :
  @KernelHeapLaws (mm_state (gset Z)) (mm_kernel_heap sample_hl (λ a, a = sample_hl)) ∧
  ∃ s, kh_rep (KernelHeap := mm_kernel_heap sample_hl (λ a, a = sample_hl)) s ∅ (λ _, False).
Proof.
  split; [exact (mm_implements_kernel_heap sample_hl (λ a, a = sample_hl))|].
  destruct sample_init as (s & _ & Hinv & Hf). exists s, []. split_and!; [done| |done|].
  - intros p n. rewrite lookup_empty. split; [done|]. by intros (h & ? & ? & ? & ?%elem_of_nil & _).
  - intros a [(h & ?%elem_of_nil & _)|Ha]; [done|]. split; [|tauto]. rewrite Hf in Ha.
    intros ->. cbn in Ha. unfold sample_frames in Ha. apply frame_run_spec in Ha.
    unfold in_frames, sample_hl, ADDR_PREFIX_KSEG0, FRAME_SIZE in Ha. lia.
Defined.
