(* ===== verification/KTime.v ===== *)
(** * Units of time ([kernel/time/time.h])

    [unsigned int] arithmetic: every operation wraps modulo 2^32. *)
From S2P Require Import Prelude.

Definition TIMER_PERIOD : Z := 1000.

Definition sec_to_jiffies (sec : Z) : Z := wrap (sec * TIMER_PERIOD).

Definition usec_to_jiffies (usec : Z) : Z :=
  wrap (wrap (usec * TIMER_PERIOD) + 999999) / 1000000.

Definition jiffies_to_sec (jiffies : Z) : Z :=
  wrap (wrap (jiffies + TIMER_PERIOD) - 1) / TIMER_PERIOD.

Definition jiffies_to_usec (jiffies : Z) : Z :=
  wrap (wrap (wrap (jiffies * 1000000) + TIMER_PERIOD) - 1) / TIMER_PERIOD.

(** The longest arguments the conversions handle without wrapping. *)
Definition MAX_SEC : Z := 4294966.
Definition MAX_USEC : Z := 4293967.

Ltac fits := unfold u32; rewrite word_max_eq; lia.

Lemma sec_to_jiffies_exact sec : 0 ≤ sec ≤ MAX_SEC → sec_to_jiffies sec = sec * 1000.
Proof. unfold MAX_SEC, sec_to_jiffies, TIMER_PERIOD. intros Hs. apply wrap_small. fits. Qed.

Lemma usec_to_jiffies_exact usec :
  0 ≤ usec ≤ MAX_USEC → usec_to_jiffies usec = (usec * 1000 + 999999) / 1000000.
Proof.
  unfold MAX_USEC, usec_to_jiffies, TIMER_PERIOD. intros Hu.
  rewrite (wrap_small (usec * 1000)) by fits. rewrite wrap_small by fits. done.
Qed.

Lemma jiffies_to_sec_exact j : 0 ≤ j → j + 1000 < word_max → jiffies_to_sec j = (j + 999) / 1000.
Proof.
  unfold jiffies_to_sec, TIMER_PERIOD. rewrite word_max_eq. intros ??.
  rewrite (wrap_small (j + 1000)) by fits. rewrite wrap_small by fits. f_equal. lia.
Qed.

Lemma jiffies_to_usec_exact j : 0 ≤ j ≤ 4294 → jiffies_to_usec j = j * 1000.
Proof.
  unfold jiffies_to_usec, TIMER_PERIOD. intros ?. rewrite (wrap_small (j * 1000000)) by fits.
  rewrite (wrap_small (j * 1000000 + 1000)) by fits. rewrite wrap_small by fits.
  Z.div_mod_to_equations. lia.
Qed.

(** Converting a duration to jiffies and back: seconds come back exactly, and
    microseconds are rounded up by less than one jiffy (1000 microseconds), so
    that a sleep is never converted to a shorter one; this holds below the bounds
    [MAX_SEC] and [MAX_USEC], where no intermediate product wraps. *)
Theorem time_roundtrip sec usec :
  0 ≤ sec ≤ MAX_SEC → 0 ≤ usec ≤ MAX_USEC →
  jiffies_to_sec (sec_to_jiffies sec) = sec ∧
  usec ≤ jiffies_to_usec (usec_to_jiffies usec) < usec + 1000.
Proof.
  intros Hs Hu. rewrite sec_to_jiffies_exact, usec_to_jiffies_exact by done.
  unfold MAX_SEC, MAX_USEC in *. split.
  - rewrite jiffies_to_sec_exact by (rewrite ?word_max_eq; lia). Z.div_mod_to_equations. lia.
  - rewrite jiffies_to_usec_exact by (Z.div_mod_to_equations; lia). Z.div_mod_to_equations. lia.
Qed.

Lemma time_roundtrip_witness :
  jiffies_to_sec (sec_to_jiffies 3600) = 3600 ∧ 1500 ≤ jiffies_to_usec (usec_to_jiffies 1500) < 2500.
Proof. apply (time_roundtrip 3600 1500); unfold MAX_SEC, MAX_USEC; lia. Defined.

(** The product in [usec_to_jiffies] wraps: whatever duration is asked for, the
    result is at most 4294 jiffies (4.3 seconds), and just above the bound a
    sleep of 4.3 seconds is converted to no jiffy at all. *)
Theorem usec_to_jiffies_wraps :
  (∀ usec, 0 ≤ usec_to_jiffies usec ≤ 4294) ∧ usec_to_jiffies MAX_USEC = 4294 ∧
  usec_to_jiffies (MAX_USEC + 1) = 0.
Proof.
  split; [|done]. intros usec. unfold usec_to_jiffies.
  pose proof (wrap_range (wrap (usec * TIMER_PERIOD) + 999999)) as Hr. unfold u32 in Hr.
  rewrite word_max_eq in Hr. Z.div_mod_to_equations. lia.
Qed.
