(* ===== verification/Tlb.v ===== *)
(** * Address translation hardware and its management ([kernel/mm/tlb.c])

    The TLB of the R4000 with the registers that access it, the TLB instructions,
    and the functions of [tlb.c] that only touch the TLB.  The exception handlers,
    which look mappings up and may finish the thread, are in [Exc]. *)
From S2P Require Import Prelude Cpu Malloc.

(** ** Registers *)
Definition CP0_INDEX_INDEX_MASK : Z := 0x3f.
Definition CP0_INDEX_P_MASK : Z := 0x80000000.
Definition CP0_INDEX_P (r : Z) : Z := Z.shiftr (Z.land r CP0_INDEX_P_MASK) 31.
Definition CP0_INDEX_INDEX_COUNT : Z := 48.

Definition CP0_ENTRYHI_ASID_MASK : Z := 0xff.
Definition CP0_ENTRYHI_VPN2_MASK : Z := 0xffffe000.
Definition CP0_ENTRYHI_VPN2_SHIFT : Z := 13.

Definition CP0_ENTRYLO_G_MASK : Z := 1.
Definition CP0_ENTRYLO_V_MASK : Z := 2.
Definition CP0_ENTRYLO_D_MASK : Z := 4.
Definition CP0_ENTRYLO_PFN_MASK : Z := 0x3fffffc0.
Definition CP0_ENTRYLO_PFN_SHIFT : Z := 6.

Definition CP0_PAGEMASK_4K : Z := 0.

(** [PAGE_WIDTH] and [PAGE_SIZE] of [vmm.h]. *)
Definition PAGE_WIDTH : Z := FRAME_WIDTH.
Definition PAGE_SIZE : Z := FRAME_SIZE.

Record tlb_entry := TlbEntry {
  te_pagemask : Z;
  te_hi : Z;
  te_lo0 : Z;
  te_lo1 : Z;
}.

Record tlb := Tlb {
  tlb_entries : list tlb_entry;
  tlb_index : Z;
  tlb_random : Z;
  tlb_lo0 : Z;
  tlb_lo1 : Z;
  tlb_pagemask : Z;
  tlb_wired : Z;
  tlb_hi : Z;
}.

(** Writes to single registers. *)
Definition put_index (v : Z) (t : tlb) : tlb :=
  Tlb (tlb_entries t) v (tlb_random t) (tlb_lo0 t) (tlb_lo1 t)
    (tlb_pagemask t) (tlb_wired t) (tlb_hi t).
Definition put_lo0 (v : Z) (t : tlb) : tlb :=
  Tlb (tlb_entries t) (tlb_index t) (tlb_random t) v (tlb_lo1 t)
    (tlb_pagemask t) (tlb_wired t) (tlb_hi t).
Definition put_lo1 (v : Z) (t : tlb) : tlb :=
  Tlb (tlb_entries t) (tlb_index t) (tlb_random t) (tlb_lo0 t) v
    (tlb_pagemask t) (tlb_wired t) (tlb_hi t).
Definition put_pagemask (v : Z) (t : tlb) : tlb :=
  Tlb (tlb_entries t) (tlb_index t) (tlb_random t) (tlb_lo0 t) (tlb_lo1 t)
    v (tlb_wired t) (tlb_hi t).
Definition put_hi (v : Z) (t : tlb) : tlb :=
  Tlb (tlb_entries t) (tlb_index t) (tlb_random t) (tlb_lo0 t) (tlb_lo1 t)
    (tlb_pagemask t) (tlb_wired t) v.
(** Writing Wired also sets Random to its maximum. *)
Definition put_wired (v : Z) (t : tlb) : tlb :=
  Tlb (tlb_entries t) (tlb_index t) (CP0_INDEX_INDEX_COUNT - 1) (tlb_lo0 t) (tlb_lo1 t)
    (tlb_pagemask t) v (tlb_hi t).

(** A machine with a TLB. *)
Class TlbState (S : Type) := {
  get_tlb : S → tlb;
  set_tlb : tlb → S → S;
}.

Class TlbStateLaws (S : Type) `{TlbState S, CpuState S} := {
  get_set_tlb t s : get_tlb (set_tlb t s) = t;
  set_get_tlb s : set_tlb (get_tlb s) s = s;
  set_set_tlb t t' s : set_tlb t (set_tlb t' s) = set_tlb t s;
  get_tlb_status v s : get_tlb (set_cp0_status v s) = get_tlb s;
  status_set_tlb t s : cp0_status (set_tlb t s) = cp0_status s;
  set_tlb_status t v s : set_tlb t (set_cp0_status v s) = set_cp0_status v (set_tlb t s);
}.

(** ** The instructions *)

(** Entry [e] matches the page pair and the address space of [hi]; entries with
    both global bits set match every address space. *)
Definition te_global (e : tlb_entry) : bool :=
  negb (Z.land (te_lo0 e) CP0_ENTRYLO_G_MASK =? 0) && negb (Z.land (te_lo1 e) CP0_ENTRYLO_G_MASK =? 0).

Definition te_match (hi : Z) (e : tlb_entry) : bool :=
  (Z.land (te_hi e) (Z.land CP0_ENTRYHI_VPN2_MASK (Z.lnot (te_pagemask e))) =?
   Z.land hi (Z.land CP0_ENTRYHI_VPN2_MASK (Z.lnot (te_pagemask e)))) &&
  (te_global e || (Z.land (te_hi e) CP0_ENTRYHI_ASID_MASK =? Z.land hi CP0_ENTRYHI_ASID_MASK)).

(** The index of the first entry that satisfies [P]. *)
Fixpoint first_index {A} (P : A → bool) (l : list A) : option nat :=
  match l with
  | [] => None
  | x :: l => if P x then Some O else S <$> first_index P l
  end.

(** [tlbp] *)
Definition tlbp (t : tlb) : tlb :=
  let index := match first_index (te_match (tlb_hi t)) (tlb_entries t) with
               | Some i => Z.of_nat i
               | None => CP0_INDEX_P_MASK
               end in
  put_index index t.

(** The entry the registers describe. *)
Definition tlb_regs_entry (t : tlb) : tlb_entry :=
  TlbEntry (tlb_pagemask t) (Z.land (tlb_hi t) (Z.lnot (tlb_pagemask t))) (tlb_lo0 t) (tlb_lo1 t).

Definition tlb_put (i : Z) (t : tlb) : tlb :=
  Tlb (<[Z.to_nat (Z.land i CP0_INDEX_INDEX_MASK) := tlb_regs_entry t]> (tlb_entries t)) (tlb_index t)
    (tlb_random t) (tlb_lo0 t) (tlb_lo1 t) (tlb_pagemask t) (tlb_wired t) (tlb_hi t).

(** [tlbwi] and [tlbwr] *)
Definition tlbwi (t : tlb) : tlb := tlb_put (tlb_index t) t.
Definition tlbwr (t : tlb) : tlb := tlb_put (tlb_random t) t.

(** [tlbr] *)
Definition tlbr (t : tlb) : tlb :=
  match tlb_entries t !! Z.to_nat (Z.land (tlb_index t) CP0_INDEX_INDEX_MASK) with
  | Some e => Tlb (tlb_entries t) (tlb_index t) (tlb_random t) (te_lo0 e) (te_lo1 e) (te_pagemask e)
                (tlb_wired t) (te_hi e)
  | None => t
  end.

(** The translation of a virtual address: the frame of the matching entry's half,
    when that is valid. *)
Definition te_lo (virt : Z) (e : tlb_entry) : Z :=
  if Z.testbit virt PAGE_WIDTH then te_lo1 e else te_lo0 e.

Definition tlb_translate (virt asid : Z) (t : tlb) : option Z :=
  let hi := Z.lor (Z.land virt CP0_ENTRYHI_VPN2_MASK) asid in
  i ← first_index (te_match hi) (tlb_entries t);
  e ← tlb_entries t !! i;
  if Z.land (te_lo virt e) CP0_ENTRYLO_V_MASK =? 0 then None
  else Some (Z.shiftr (Z.land (te_lo virt e) CP0_ENTRYLO_PFN_MASK) CP0_ENTRYLO_PFN_SHIFT).

Section code.
  Context {S : Type} `{TlbState S, CpuState S}.

Definition on_tlb (f : tlb → tlb) : KM S unit := kmodify (λ s, set_tlb (f (get_tlb s)) s).

Definition write_cp0_index (v : Z) : KM S unit := on_tlb (put_index v).
Definition write_cp0_entrylo0 (v : Z) : KM S unit := on_tlb (put_lo0 v).
Definition write_cp0_entrylo1 (v : Z) : KM S unit := on_tlb (put_lo1 v).
Definition write_cp0_pagemask (v : Z) : KM S unit := on_tlb (put_pagemask v).
Definition write_cp0_wired (v : Z) : KM S unit := on_tlb (put_wired v).
Definition write_cp0_entryhi (v : Z) : KM S unit := on_tlb (put_hi v).

Definition read_cp0_index : KM S Z := λ s, Ok (tlb_index (get_tlb s), s).
Definition read_cp0_entryhi : KM S Z := λ s, Ok (tlb_hi (get_tlb s), s).

(** ** [tlb.c] *)
Definition TLB_ENTRY_PAIR (vpn : Z) : Z := Z.land vpn 1.

Definition tlb_read : KM S unit := on_tlb tlbr.
Definition tlb_probe : KM S unit := on_tlb tlbp.
Definition tlb_write_indexed : KM S unit := on_tlb tlbwi.
Definition tlb_write_random : KM S unit := on_tlb tlbwr.

(** [for (i = 0; i < CP0_INDEX_INDEX_COUNT; i++)] *)
Fixpoint tlb_init_loop (count : nat) (i : Z) : KM S unit :=
  match count with
  | O => mret ()
  | Datatypes.S count =>
    write_cp0_index i ;; tlb_write_indexed ;; tlb_init_loop count (i + 1)
  end.

Definition tlb_init : KM S unit :=
  write_cp0_wired 0 ;;
  write_cp0_pagemask CP0_PAGEMASK_4K ;;
  write_cp0_entrylo0 0 ;;
  write_cp0_entrylo1 0 ;;
  write_cp0_entryhi CP0_ENTRYHI_ASID_MASK ;;
  tlb_init_loop (Z.to_nat CP0_INDEX_INDEX_COUNT) 0.

(** The EntryLo value of a dirty, valid page. *)
Definition tlb_entrylo (pfn : Z) : Z :=
  Z.lor (Z.lor (wrap (Z.shiftl pfn CP0_ENTRYLO_PFN_SHIFT)) CP0_ENTRYLO_D_MASK) CP0_ENTRYLO_V_MASK.

Definition tlb_store_indexed (vpn pfn : Z) : KM S unit :=
  tlb_read ;;
  write_cp0_pagemask CP0_PAGEMASK_4K ;;
  (if TLB_ENTRY_PAIR vpn =? 0 then write_cp0_entrylo0 (tlb_entrylo pfn)
   else write_cp0_entrylo1 (tlb_entrylo pfn)) ;;
  tlb_write_indexed.

Definition tlb_store_random (vpn pfn : Z) : KM S unit :=
  write_cp0_pagemask CP0_PAGEMASK_4K ;;
  (if TLB_ENTRY_PAIR vpn =? 0 then
     write_cp0_entrylo0 (tlb_entrylo pfn) ;; write_cp0_entrylo1 0
   else
     write_cp0_entrylo0 0 ;; write_cp0_entrylo1 (tlb_entrylo pfn)) ;;
  tlb_write_random.

Definition tlb_flush (addr : Z) : KM S unit :=
  state ← query_and_disable_interrupts;
  entryhi ← read_cp0_entryhi;
  let probe := Z.land entryhi (Z.lnot CP0_ENTRYHI_VPN2_MASK) in
  let probe := Z.lor probe
    (wrap (Z.shiftl (Z.shiftr (Z.shiftr addr PAGE_WIDTH) 1) CP0_ENTRYHI_VPN2_SHIFT)) in
  write_cp0_entryhi probe ;;
  tlb_probe ;;
  index ← read_cp0_index;
  (if CP0_INDEX_P index =? 0 then
     write_cp0_pagemask CP0_PAGEMASK_4K ;;
     write_cp0_entrylo0 0 ;;
     write_cp0_entrylo1 0 ;;
     tlb_write_indexed
   else mret ()) ;;
  write_cp0_entryhi entryhi ;;
  conditionally_enable_interrupts state.

End code.
