(* ===== verification/TlbTheorems.v ===== *)
(** * Address translation: the theorems of the component

    A TLB is well formed when no two of its entries map the same page pair of the
    same address space, and coherent with a mapping when each of its valid halves
    agrees with the mapping. *)
From S2P Require Import Prelude Cpu Malloc Tlb.

(** ** Bit fields as arithmetic *)
Lemma vpn2_field x : u32 x → Z.land x CP0_ENTRYHI_VPN2_MASK = x / 8192 * 8192.
Proof.
  unfold u32. rewrite word_max_eq. intros Hx.
  replace (x / 8192 * 8192) with (Z.shiftl (Z.shiftr x 13) 13)
    by (rewrite Z.shiftl_mul_pow2, Z.shiftr_div_pow2 by lia; reflexivity).
  apply Z.bits_inj'. intros n Hn. rewrite Z.land_spec.
  change CP0_ENTRYHI_VPN2_MASK with (Z.shiftl (Z.ones 19) 13).
  destruct (Z.ltb_spec n 13).
  - rewrite !Z.shiftl_spec_low by lia. by rewrite andb_false_r.
  - rewrite !Z.shiftl_spec, Z.shiftr_spec by lia. replace (n - 13 + 13) with n by lia.
    destruct (Z.ltb_spec n 32).
    + rewrite Z.ones_spec_low by lia. by rewrite andb_true_r.
    + rewrite Z.ones_spec_high by lia. rewrite andb_false_r. symmetry.
      rewrite <- (Z.mod_small x (2 ^ 32)) by lia. apply Z.mod_pow2_bits_high. lia.
Qed.

Lemma asid_field x : Z.land x CP0_ENTRYHI_ASID_MASK = x mod 256.
Proof. change CP0_ENTRYHI_ASID_MASK with (Z.ones 8). by rewrite Z.land_ones. Qed.

Lemma bit_field x n : 0 ≤ n → negb (Z.land x (2 ^ n) =? 0) = Z.testbit x n.
Proof.
  intros Hn. assert (Hx : Z.land x (2 ^ n) = if Z.testbit x n then 2 ^ n else 0).
  { apply Z.bits_inj'. intros m Hm. rewrite Z.land_spec, Z.pow2_bits_eqb by done.
    destruct (Z.eqb_spec n m) as [<-|].
    - rewrite andb_true_r. destruct (Z.testbit x n); [by rewrite Z.pow2_bits_true|by rewrite Z.bits_0].
    - rewrite andb_false_r. destruct (Z.testbit x n); [by rewrite Z.pow2_bits_false|by rewrite Z.bits_0]. }
  rewrite Hx. destruct (Z.testbit x n); [|done].
  destruct (Z.eqb_spec (2 ^ n) 0); [|done]. pose proof (Z.pow_pos_nonneg 2 n ltac:(lia) Hn). lia.
Qed.

(** Disjoint fields are added. *)
Lemma lor_shift_add x k a : 0 ≤ k → 0 ≤ a < 2 ^ k → Z.lor (x * 2 ^ k) a = x * 2 ^ k + a.
Proof.
  intros Hk Ha. apply lor_disjoint_add. rewrite <- Z.shiftl_mul_pow2 by done.
  apply Z.bits_inj'. intros n Hn. rewrite Z.land_spec, Z.bits_0.
  destruct (Z.ltb_spec n k); [by rewrite Z.shiftl_spec_low|].
  rewrite <- (Z.mod_small a (2 ^ k)) by lia. rewrite Z.mod_pow2_bits_high by lia.
  apply andb_false_r.
Qed.

(** ** Well-formed entries *)
Definition te_vpn2 (e : tlb_entry) : Z := te_hi e / 8192.
Definition te_asid (e : tlb_entry) : Z := te_hi e mod 256.
Definition te_half (odd : bool) (e : tlb_entry) : Z := if odd then te_lo1 e else te_lo0 e.
Definition lo_valid (lo : Z) : bool := Z.testbit lo 1.
Definition lo_pfn (lo : Z) : Z := Z.shiftr (Z.land lo CP0_ENTRYLO_PFN_MASK) CP0_ENTRYLO_PFN_SHIFT.

Definition te_wf (e : tlb_entry) : Prop :=
  te_pagemask e = 0 ∧ u32 (te_hi e) ∧ Z.testbit (te_lo0 e) 0 = false ∧ Z.testbit (te_lo1 e) 0 = false.

Definition same_page (e e' : tlb_entry) : Prop := te_vpn2 e = te_vpn2 e' ∧ te_asid e = te_asid e'.

(** The reserved address space of unused entries. *)
Definition ASID_UNUSED : Z := 255.

Definition tlb_wf (t : tlb) : Prop :=
  length (tlb_entries t) = 48%nat ∧ Forall te_wf (tlb_entries t) ∧
  ∀ i j e e', tlb_entries t !! i = Some e → tlb_entries t !! j = Some e' →
    te_asid e ≠ ASID_UNUSED → same_page e e' → i = j.

(** The valid halves agree with [map], a partial function from address space and
    page to frame. *)
Definition te_coherent (map : Z → Z → option Z) (e : tlb_entry) : Prop :=
  ∀ odd, lo_valid (te_half odd e) = true →
    map (te_asid e) (2 * te_vpn2 e + Z.b2z odd) = Some (lo_pfn (te_half odd e)).

Definition tlb_coherent (map : Z → Z → option Z) (t : tlb) : Prop :=
  Forall (te_coherent map) (tlb_entries t).

Lemma te_match_spec hi e :
  te_wf e → u32 hi → te_match hi e = true ↔ te_vpn2 e = hi / 8192 ∧ te_asid e = hi mod 256.
Proof.
  intros (Hp & He & G0 & G1) Hhi. unfold te_match, te_global. rewrite Hp.
  change (Z.lnot 0) with (-1). rewrite Z.land_m1_r, !vpn2_field, !asid_field by done.
  change CP0_ENTRYLO_G_MASK with (2 ^ 0). rewrite !bit_field, G0, G1 by done. cbn [andb orb].
  unfold te_vpn2, te_asid. rewrite andb_true_iff, !Z.eqb_eq. lia.
Qed.

(** ** The first matching entry *)
Lemma first_index_some {A} (P : A → bool) l i :
  first_index P l = Some i → ∃ x, l !! i = Some x ∧ P x = true.
Proof.
  revert i. induction l as [|x l IH]; intros i; cbn; [done|].
  destruct (P x) eqn:E; [intros [= <-]; eauto|].
  destruct (first_index P l) as [j|]; [|done]. intros [= <-]. apply (IH j eq_refl).
Qed.

Lemma first_index_none {A} (P : A → bool) l x : first_index P l = None → x ∈ l → P x = false.
Proof.
  induction l as [|y l IH]; cbn; [by intros _ ?%elem_of_nil|].
  destruct (P y) eqn:E; [done|]. destruct (first_index P l) as [j|]; [done|].
  intros _ [->|?]%elem_of_cons; auto.
Qed.

Lemma first_index_exists {A} (P : A → bool) l i x :
  l !! i = Some x → P x = true → ∃ j, first_index P l = Some j.
Proof.
  intros Hi Hx. destruct (first_index P l) eqn:E; [eauto|].
  apply (first_index_none _ _ x) in E; [congruence|]. by eapply list_elem_of_lookup_2.
Qed.

(** A virtual address as the hardware splits it. *)
Definition virt_hi (virt asid : Z) : Z := Z.lor (Z.land virt CP0_ENTRYHI_VPN2_MASK) asid.

Lemma virt_hi_spec virt asid :
  u32 virt → 0 ≤ asid < 256 →
  u32 (virt_hi virt asid) ∧ virt_hi virt asid / 8192 = virt / 8192 ∧ virt_hi virt asid mod 256 = asid.
Proof.
  intros Hv Ha. unfold virt_hi. rewrite vpn2_field by done.
  pose proof (lor_shift_add (virt / 8192) 13 asid) as Hlor. change (2 ^ 13) with 8192 in Hlor.
  rewrite Hlor by lia.
  unfold u32 in *. rewrite word_max_eq in *. Z.div_mod_to_equations. lia.
Qed.

Lemma page_odd virt : 0 ≤ virt → virt / 4096 = 2 * (virt / 8192) + Z.b2z (Z.testbit virt 12).
Proof.
  intros Hv. rewrite Z.testbit_spec' by lia. change (2 ^ 12) with 4096. Z.div_mod_to_equations. lia.
Qed.

(** Translation, in terms of the unique matching entry. *)
Lemma translate_some t virt asid i e :
  tlb_wf t → u32 virt → 0 ≤ asid < 256 → asid ≠ ASID_UNUSED →
  tlb_entries t !! i = Some e → te_vpn2 e = virt / 8192 → te_asid e = asid →
  tlb_translate virt asid t =
    if lo_valid (te_half (Z.testbit virt 12) e) then Some (lo_pfn (te_half (Z.testbit virt 12) e)) else None.
Proof.
  intros (Hlen & Hwf & Huniq) Hv Ha Hna Hi Hvpn Hasid.
  destruct (virt_hi_spec virt asid Hv Ha) as (Hu & Hd & Hm).
  assert (Hme : te_match (virt_hi virt asid) e = true).
  { rewrite Forall_lookup in Hwf. apply te_match_spec; [by eapply Hwf|done|]. by rewrite Hd, Hm. }
  unfold tlb_translate. cbv zeta. fold (virt_hi virt asid).
  destruct (first_index_exists _ _ _ _ Hi Hme) as [j Hj]. rewrite Hj. cbn [mbind option_bind].
  destruct (first_index_some _ _ _ Hj) as (e' & He' & Hme').
  rewrite Forall_lookup in Hwf. apply te_match_spec in Hme' as [Hv' Ha']; [|by eapply Hwf|done].
  assert (j = i) as ->.
  { eapply Huniq; [exact He'|exact Hi|congruence|]. split; congruence. }
  rewrite Hi. cbn [mbind option_bind]. unfold te_lo, PAGE_WIDTH, FRAME_WIDTH, te_half.
  change CP0_ENTRYLO_V_MASK with (2 ^ 1). set (lo := if Z.testbit virt 12 then _ else _).
  unfold lo_valid. rewrite <- bit_field by lia. by destruct (Z.land lo (2 ^ 1) =? 0).
Qed.

Lemma translate_none t virt asid :
  tlb_wf t → u32 virt → 0 ≤ asid < 256 →
  (∀ e, e ∈ tlb_entries t → te_vpn2 e = virt / 8192 → te_asid e = asid → False) →
  tlb_translate virt asid t = None.
Proof.
  intros (Hlen & Hwf & Huniq) Hv Ha Hno. unfold tlb_translate. cbv zeta. fold (virt_hi virt asid).
  destruct (virt_hi_spec virt asid Hv Ha) as (Hu & Hd & Hm).
  destruct (first_index _ _) as [i|] eqn:E; [|done].
  destruct (first_index_some _ _ _ E) as (e & He & Hme).
  rewrite Forall_lookup in Hwf. apply te_match_spec in Hme as [? ?]; [|by eapply Hwf|done].
  exfalso. apply (Hno e); [by eapply list_elem_of_lookup_2|congruence|congruence].
Qed.

(** A coherent TLB translates as the mapping does. *)
Lemma translate_coherent map t virt asid pfn :
  tlb_wf t → tlb_coherent map t → u32 virt → 0 ≤ asid < 256 →
  tlb_translate virt asid t = Some pfn → map asid (virt / 4096) = Some pfn.
Proof.
  intros Hwf Hco Hv Ha Ht.
  destruct (virt_hi_spec virt asid Hv Ha) as (Hu & Hd & Hm).
  pose proof Hwf as (Hlen & Hall & Huniq).
  unfold tlb_translate in Ht. cbv zeta in Ht. fold (virt_hi virt asid) in Ht.
  destruct (first_index _ _) as [i|] eqn:E; [|done]. cbn [mbind option_bind] in Ht.
  destruct (first_index_some _ _ _ E) as (e & He & Hme). rewrite He in Ht. cbn [mbind option_bind] in Ht.
  rewrite Forall_lookup in Hall. apply te_match_spec in Hme as [Hve Hae]; [|by eapply Hall|done].
  unfold tlb_coherent in Hco. rewrite Forall_lookup in Hco. specialize (Hco i e He (Z.testbit virt 12)).
  unfold te_lo, PAGE_WIDTH, FRAME_WIDTH in Ht. unfold te_half in Hco.
  set (lo := if Z.testbit virt 12 then te_lo1 e else te_lo0 e) in *.
  unfold lo_valid in Hco. rewrite <- bit_field in Hco by lia. change (2 ^ 1) with CP0_ENTRYLO_V_MASK in Hco.
  destruct (Z.land lo CP0_ENTRYLO_V_MASK =? 0); [done|]. injection Ht as <-.
  unfold lo_pfn in Hco. rewrite page_odd by (unfold u32 in Hv; lia).
  rewrite <- Hd, <- Hve, <- Hm, <- Hae. by apply Hco.
Qed.

(** ** Stores *)
Lemma tlb_entrylo_spec pfn :
  0 ≤ pfn < 2 ^ 24 →
  Z.testbit (tlb_entrylo pfn) 0 = false ∧ lo_valid (tlb_entrylo pfn) = true ∧
  lo_pfn (tlb_entrylo pfn) = pfn.
Proof.
  intros Hp. assert (Hlo : tlb_entrylo pfn = pfn * 2 ^ 6 + 6).
  { unfold tlb_entrylo, CP0_ENTRYLO_PFN_SHIFT, CP0_ENTRYLO_D_MASK, CP0_ENTRYLO_V_MASK.
    rewrite Z.shiftl_mul_pow2 by lia. rewrite wrap_small by (unfold u32; rewrite word_max_eq; lia).
    rewrite <- Z.lor_assoc. change (Z.lor 4 2) with 6. by apply lor_shift_add. }
  unfold lo_valid, lo_pfn. rewrite Hlo.
  assert (Hbit : ∀ n, 0 ≤ n < 6 → Z.testbit (pfn * 2 ^ 6 + 6) n = Z.testbit 6 n).
  { intros n Hn. rewrite <- (lor_shift_add pfn 6 6) by lia. rewrite Z.lor_spec.
    rewrite <- Z.shiftl_mul_pow2, Z.shiftl_spec_low by lia. done. }
  rewrite !Hbit by lia. split_and!; [done..|].
  apply Z.bits_inj'. intros n Hn. unfold CP0_ENTRYLO_PFN_SHIFT.
  rewrite Z.shiftr_spec, Z.land_spec by done.
  change CP0_ENTRYLO_PFN_MASK with (Z.shiftl (Z.ones 24) 6). rewrite Z.shiftl_spec by lia.
  replace (n + 6 - 6) with n by lia.
  rewrite <- (lor_shift_add pfn 6 6), Z.lor_spec by lia. rewrite <- Z.shiftl_mul_pow2, Z.shiftl_spec by lia.
  replace (n + 6 - 6) with n by lia.
  assert (H6 : Z.testbit 6 (n + 6) = false).
  { apply (Z.bits_above_log2 6); [lia|]. change (Z.log2 6) with 2. lia. }
  rewrite H6, orb_false_r. destruct (Z.ltb_spec n 24).
  - rewrite Z.ones_spec_low by lia. apply andb_true_r.
  - rewrite Z.ones_spec_high by lia. rewrite andb_false_r.
    rewrite <- (Z.mod_small pfn (2 ^ 24)) by lia. by rewrite Z.mod_pow2_bits_high.
Qed.

(** Replacing an entry by one whose page nobody else maps. *)
Lemma tlb_wf_insert t t' k e :
  tlb_wf t → te_wf e →
  (∀ j e', tlb_entries t !! j = Some e' → j ≠ k → te_asid e ≠ ASID_UNUSED → ¬ same_page e e') →
  tlb_entries t' = <[k := e]> (tlb_entries t) → tlb_wf t'.
Proof.
  intros (Hlen & Hall & Huniq) He Hnew Heq. unfold tlb_wf. rewrite Heq. split_and!.
  - by rewrite length_insert.
  - by apply Forall_insert.
  - intros i j e1 e2 H1 H2 Hna Hsame.
    apply list_lookup_insert_Some in H1 as [(<- & <- & _)|[Hi H1]];
      apply list_lookup_insert_Some in H2 as [(<- & <- & _)|[Hj H2]].
    + done.
    + exfalso. by eapply Hnew; [exact H2|..].
    + exfalso. destruct Hsame as [Hs1 Hs2].
      eapply Hnew; [exact H1|done|congruence|]. split; congruence.
    + by eapply Huniq.
Qed.

(** The registers describe the page of [virt] in address space [asid], and Random
    is in its range. *)
Definition tlb_faulting (virt asid : Z) (t : tlb) : Prop :=
  u32 (tlb_hi t) ∧ tlb_hi t / 8192 = virt / 8192 ∧ tlb_hi t mod 256 = asid ∧
  u32 virt ∧ asid ≠ ASID_UNUSED.

Definition random_ok (t : tlb) : Prop := 0 ≤ tlb_random t < 48.

Lemma index_field i : 0 ≤ i < 48 → Z.to_nat (Z.land i CP0_INDEX_INDEX_MASK) = Z.to_nat i.
Proof.
  intros Hi. change CP0_INDEX_INDEX_MASK with (Z.ones 6). rewrite Z.land_ones by lia.
  by rewrite Z.mod_small by lia.
Qed.

Lemma pair_odd vpn : (TLB_ENTRY_PAIR vpn =? 0) = negb (Z.testbit vpn 0).
Proof.
  unfold TLB_ENTRY_PAIR. change 1 with (2 ^ 0) at 1. rewrite <- bit_field by lia. by rewrite negb_involutive.
Qed.

Lemma page_bit virt : 0 ≤ virt → Z.testbit (virt / 4096) 0 = Z.testbit virt 12.
Proof. intros Hv. change 4096 with (2 ^ 12). rewrite <- Z.shiftr_div_pow2, Z.shiftr_spec by lia. done. Qed.

Section stores.
  Context {S : Type} `{TlbStateLaws S, !CpuStateLaws S}.
  Implicit Types (s : S).

Lemma on_tlb_exec f s t : on_tlb f (set_tlb t s) = Ok (tt, set_tlb (f t) s).
Proof. unfold on_tlb, kmodify. by rewrite get_set_tlb, set_set_tlb. Qed.

Lemma on_tlb_bind {A} f (m : KM S A) s t : (on_tlb f ;; m) (set_tlb t s) = m (set_tlb (f t) s).
Proof. by erewrite bind_ok by apply on_tlb_exec. Qed.

Lemma put_entries i t :
  0 ≤ i < 48 → tlb_pagemask t = 0 →
  tlb_entries (tlb_put i t) = <[Z.to_nat i := TlbEntry 0 (tlb_hi t) (tlb_lo0 t) (tlb_lo1 t)]> (tlb_entries t).
Proof.
  intros Hi Hp. unfold tlb_put, tlb_regs_entry. cbn [tlb_entries]. rewrite index_field, Hp by done.
  change (Z.lnot 0) with (-1). by rewrite Z.land_m1_r.
Qed.

(** What the two stores write. *)
Definition fill_entry (hi : Z) (odd : bool) (lo lo' : Z) : tlb_entry :=
  TlbEntry 0 hi (if odd then lo' else lo) (if odd then lo else lo').

Lemma store_random_exec vpn pfn s :
  random_ok (get_tlb s) →
  ∃ t', tlb_store_random vpn pfn s = Ok (tt, set_tlb t' s) ∧
    tlb_entries t' = <[Z.to_nat (tlb_random (get_tlb s)) :=
      fill_entry (tlb_hi (get_tlb s)) (Z.testbit vpn 0) (tlb_entrylo pfn) 0]> (tlb_entries (get_tlb s)) ∧
    tlb_random t' = tlb_random (get_tlb s) ∧ tlb_hi t' = tlb_hi (get_tlb s).
Proof.
  intros Hr. unfold tlb_store_random, write_cp0_pagemask, write_cp0_entrylo0,
    write_cp0_entrylo1, tlb_write_random. rewrite pair_odd.
  destruct (Z.testbit vpn 0); cbn [negb]; eexists; split.
  1, 3: rewrite <- (set_get_tlb s) at 1; rewrite on_tlb_bind, bind_assoc, !on_tlb_bind; apply on_tlb_exec.
  all: split; [|done]; unfold tlbwr; rewrite put_entries by done; reflexivity.
Qed.

(** The indexed store keeps the other half of the entry that Index selects. *)
Lemma store_indexed_exec vpn pfn s k e :
  0 ≤ tlb_index (get_tlb s) < 48 → k = Z.to_nat (tlb_index (get_tlb s)) →
  tlb_entries (get_tlb s) !! k = Some e →
  ∃ t', tlb_store_indexed vpn pfn s = Ok (tt, set_tlb t' s) ∧
    tlb_entries t' = <[k := fill_entry (te_hi e) (Z.testbit vpn 0) (tlb_entrylo pfn)
      (te_half (negb (Z.testbit vpn 0)) e)]> (tlb_entries (get_tlb s)) ∧
    tlb_random t' = tlb_random (get_tlb s) ∧ tlb_hi t' = te_hi e.
Proof.
  intros Hi -> He. unfold tlb_store_indexed, tlb_read, write_cp0_pagemask, write_cp0_entrylo0,
    write_cp0_entrylo1, tlb_write_indexed. rewrite pair_odd.
  assert (Hr : tlbr (get_tlb s) = Tlb (tlb_entries (get_tlb s)) (tlb_index (get_tlb s))
    (tlb_random (get_tlb s)) (te_lo0 e) (te_lo1 e) (te_pagemask e) (tlb_wired (get_tlb s)) (te_hi e)).
  { unfold tlbr. by rewrite index_field, He. }
  destruct (Z.testbit vpn 0); cbn [negb]; eexists; split.
  1, 3: rewrite <- (set_get_tlb s) at 1; rewrite !on_tlb_bind; apply on_tlb_exec.
  all: rewrite Hr; split; [|done]; unfold tlbwi; rewrite put_entries by done; reflexivity.
Qed.

(** The probe finds the only entry of the page. *)
Lemma probe_found t i e :
  tlb_wf t → u32 (tlb_hi t) → tlb_hi t mod 256 ≠ ASID_UNUSED →
  tlb_entries t !! i = Some e → te_vpn2 e = tlb_hi t / 8192 → te_asid e = tlb_hi t mod 256 →
  tlbp t = put_index (Z.of_nat i) t ∧ 0 ≤ Z.of_nat i < 48.
Proof.
  intros Hwf Hu Hna Hi Hv Ha. pose proof Hwf as (Hlen & Hall & Huniq). unfold tlbp.
  rewrite Forall_lookup in Hall.
  assert (Hm : te_match (tlb_hi t) e = true) by (apply te_match_spec; [by eapply Hall|done..]).
  destruct (first_index_exists _ _ _ _ Hi Hm) as [j Hj]. rewrite Hj.
  destruct (first_index_some _ _ _ Hj) as (e' & He' & [Hv' Ha']%te_match_spec); [|by eapply Hall|done].
  assert (j = i) as ->.
  { eapply Huniq; [exact He'|exact Hi|congruence|]. split; congruence. }
  split; [done|]. apply lookup_lt_Some in Hi. lia.
Qed.

Lemma probe_missing t :
  (∀ e, e ∈ tlb_entries t → te_match (tlb_hi t) e = false) → tlbp t = put_index CP0_INDEX_P_MASK t.
Proof.
  intros Hno. unfold tlbp. destruct (first_index _ _) as [i|] eqn:E; [|done].
  destruct (first_index_some _ _ _ E) as (e & He & Hm).
  rewrite Hno in Hm; [done|]. by eapply list_elem_of_lookup_2.
Qed.

Lemma fill_entry_wf hi odd lo lo' :
  u32 hi → Z.testbit lo 0 = false → Z.testbit lo' 0 = false → te_wf (fill_entry hi odd lo lo').
Proof. by destruct odd. Qed.

Lemma fill_entry_half hi odd lo lo' b :
  te_half b (fill_entry hi odd lo lo') = if eqb b odd then lo else lo'.
Proof. by destruct b, odd. Qed.

(** Both stores put an entry for the faulting page at [k]: any entry of the same
    page was there. *)
Lemma fill_spec map t t' k virt asid pfn hi lo' :
  tlb_wf t → tlb_coherent map t → (k < 48)%nat →
  u32 hi → u32 virt → hi / 8192 = virt / 8192 → hi mod 256 = asid → asid ≠ ASID_UNUSED →
  (∀ j e, tlb_entries t !! j = Some e → te_vpn2 e = virt / 8192 → te_asid e = asid → j = k) →
  map asid (virt / 4096) = Some pfn → 0 ≤ pfn < 2 ^ 24 →
  Z.testbit lo' 0 = false →
  (lo_valid lo' = true → map asid (2 * (virt / 8192) + Z.b2z (negb (Z.testbit virt 12))) = Some (lo_pfn lo')) →
  tlb_entries t' = <[k := fill_entry hi (Z.testbit virt 12) (tlb_entrylo pfn) lo']> (tlb_entries t) →
  tlb_wf t' ∧ tlb_coherent map t' ∧ tlb_translate virt asid t' = Some pfn.
Proof.
  intros Hwf Hco Hk Hhi Hv Hvpn <- Hna Hno Hmap Hpfn Hg Hlo' Heq.
  destruct (tlb_entrylo_spec pfn Hpfn) as (L0 & L1 & L2).
  set (e := fill_entry hi (Z.testbit virt 12) (tlb_entrylo pfn) lo') in *.
  assert (Hpage : te_vpn2 e = virt / 8192 ∧ te_asid e = hi mod 256) by done.
  destruct Hpage as [Hpv Hpa].
  assert (Hwf' : tlb_wf t').
  { eapply (tlb_wf_insert t t' k e); [done|by apply fill_entry_wf| |done].
    intros j e' Hj Hjk _ [Hsv Hsa]. apply Hjk. apply (Hno j e'); congruence. }
  assert (Hlook : tlb_entries t' !! k = Some e).
  { rewrite Heq. apply list_lookup_insert_eq. by destruct Hwf as (-> & _). }
  split; [done|]. split.
  - unfold tlb_coherent. rewrite Heq. apply Forall_insert; [done|].
    intros odd. unfold e. rewrite fill_entry_half. fold e. rewrite Hpv, Hpa.
    destruct (eqb odd (Z.testbit virt 12)) eqn:Eo.
    + apply eqb_prop in Eo as ->. rewrite L2. intros _.
      rewrite <- page_odd by (unfold u32 in Hv; lia). done.
    + assert (odd = negb (Z.testbit virt 12)) as -> by (by destruct odd, (Z.testbit virt 12)).
      exact Hlo'.
  - rewrite (translate_some t' virt (hi mod 256) k e); try done; [|by apply Z.mod_pos_bound].
    unfold e. rewrite fill_entry_half, eqb_reflx, L1, L2. done.
Qed.

(** The refill: no entry of the page existed. *)
Lemma store_random_spec map virt pfn s :
  let t := get_tlb s in
  let asid := tlb_hi t mod 256 in
  tlb_wf t → tlb_coherent map t → tlb_faulting virt asid t → random_ok t →
  (∀ e, e ∈ tlb_entries t → te_match (tlb_hi t) e = false) →
  map asid (virt / 4096) = Some pfn → 0 ≤ pfn < 2 ^ 24 →
  ∃ t', tlb_store_random (virt / 4096) pfn s = Ok (tt, set_tlb t' s) ∧ random_ok t' ∧ tlb_hi t' = tlb_hi t ∧
    tlb_wf t' ∧ tlb_coherent map t' ∧ tlb_translate virt asid t' = Some pfn.
Proof.
  intros t asid Hwf Hco (Hhi & Hvpn & _ & Hv & Hna) Hr Hno Hmap Hpfn.
  destruct (store_random_exec (virt / 4096) pfn s Hr) as (t' & He & Hent & Hr' & Hhi').
  exists t'. split; [done|]. split; [unfold random_ok; by rewrite Hr'|]. split; [done|].
  rewrite page_bit in Hent by (unfold u32 in Hv; lia).
  eapply (fill_spec map t t' _ virt asid pfn (tlb_hi t) 0); try done.
  - unfold random_ok in Hr. fold t in Hr |- *. lia.
  - intros j e Hj Hve Hae. exfalso. pose proof Hwf as (_ & Hall & _). rewrite Forall_lookup in Hall.
    assert (Hm : te_match (tlb_hi t) e = true).
    { apply te_match_spec; [by eapply Hall|done|]. by rewrite Hvpn. }
    rewrite Hno in Hm; [done|]. by eapply list_elem_of_lookup_2.
Qed.

(** The invalid exception: the entry of the page gets its faulting half filled. *)
Lemma store_indexed_spec map virt pfn s i e :
  let t := get_tlb s in
  tlb_wf t → tlb_coherent map t → u32 virt → te_asid e ≠ ASID_UNUSED → random_ok t →
  tlb_index t = Z.of_nat i → tlb_entries t !! i = Some e → te_vpn2 e = virt / 8192 →
  map (te_asid e) (virt / 4096) = Some pfn → 0 ≤ pfn < 2 ^ 24 →
  ∃ t', tlb_store_indexed (virt / 4096) pfn s = Ok (tt, set_tlb t' s) ∧ random_ok t' ∧ tlb_hi t' = te_hi e ∧
    tlb_wf t' ∧ tlb_coherent map t' ∧ tlb_translate virt (te_asid e) t' = Some pfn.
Proof.
  intros t Hwf Hco Hv Hna Hr Hidx Hi Hve Hmap Hpfn. pose proof Hwf as (Hlen & Hall & Huniq).
  assert (Hlt : (i < 48)%nat) by (apply lookup_lt_Some in Hi; by rewrite <- Hlen).
  destruct (store_indexed_exec (virt / 4096) pfn s i e) as (t' & He & Hent & Hr' & Hhi'); [fold t; lia|fold t; lia|done|].
  exists t'. split; [done|]. split; [unfold random_ok; by rewrite Hr'|]. split; [done|].
  rewrite page_bit in Hent by (unfold u32 in Hv; lia).
  rewrite Forall_lookup in Hall. destruct (Hall i e Hi) as (_ & Hu & G0 & G1).
  unfold tlb_coherent in Hco. pose proof Hco as Hco'. rewrite Forall_lookup in Hco'.
  eapply (fill_spec map t t' i virt _ pfn (te_hi e) (te_half (negb (Z.testbit virt 12)) e)); try done.
  - intros j e' Hj Hve' Hae'. eapply Huniq; [exact Hj|exact Hi|by rewrite Hae'|].
    split; [congruence|done].
  - unfold te_half. by destruct (negb _).
  - intros Hval. pose proof (Hco' i e Hi _ Hval) as Hm. by rewrite Hve in Hm.
Qed.

(** [tlb_flush] leaves no translation of the page in the current address space,
    and everything else alone. *)
Definition flush_hi (addr hi : Z) : Z := addr / 8192 * 8192 + hi mod 8192.

Lemma flush_probe addr hi :
  u32 addr → u32 hi →
  Z.lor (Z.land hi (Z.lnot CP0_ENTRYHI_VPN2_MASK))
    (wrap (Z.shiftl (Z.shiftr (Z.shiftr addr PAGE_WIDTH) 1) CP0_ENTRYHI_VPN2_SHIFT)) = flush_hi addr hi.
Proof.
  unfold u32. rewrite word_max_eq. intros Ha Hh.
  assert (Hlow : Z.land hi (Z.lnot CP0_ENTRYHI_VPN2_MASK) = hi mod 2 ^ 13).
  { apply Z.bits_inj'. intros n Hn. rewrite Z.land_spec, Z.lnot_spec by done.
    change CP0_ENTRYHI_VPN2_MASK with (Z.shiftl (Z.ones 19) 13). destruct (Z.ltb_spec n 13).
    - rewrite Z.shiftl_spec_low, Z.mod_pow2_bits_low by lia. apply andb_true_r.
    - rewrite Z.shiftl_spec, Z.mod_pow2_bits_high by lia. destruct (Z.ltb_spec n 32).
      + rewrite Z.ones_spec_low by lia. apply andb_false_r.
      + rewrite <- (Z.mod_small hi (2 ^ 32)) by lia. by rewrite Z.mod_pow2_bits_high by lia. }
  rewrite Hlow, Z.lor_comm. unfold PAGE_WIDTH, FRAME_WIDTH, CP0_ENTRYHI_VPN2_SHIFT.
  rewrite Z.shiftr_shiftr by lia. change (12 + 1) with 13.
  rewrite Z.shiftl_mul_pow2, Z.shiftr_div_pow2 by lia. change (2 ^ 13) with 8192.
  rewrite wrap_small by (unfold u32; rewrite word_max_eq; Z.div_mod_to_equations; lia).
  change 8192 with (2 ^ 13). apply lor_shift_add; [lia|]. apply Z.mod_pos_bound. lia.
Qed.

Lemma flush_hi_spec addr hi :
  u32 addr → u32 hi →
  u32 (flush_hi addr hi) ∧ flush_hi addr hi / 8192 = addr / 8192 ∧ flush_hi addr hi mod 256 = hi mod 256.
Proof. unfold u32, flush_hi. rewrite word_max_eq. intros ??. Z.div_mod_to_equations. lia. Qed.

Definition flushed (t : tlb) (addr : Z) (t' : tlb) : Prop :=
  tlb_hi t' = tlb_hi t ∧ tlb_random t' = tlb_random t ∧
  (tlb_entries t' = tlb_entries t ∧
     (∀ e, e ∈ tlb_entries t → te_vpn2 e = addr / 8192 → te_asid e = tlb_hi t mod 256 → False) ∨
   ∃ i e, tlb_entries t !! i = Some e ∧ te_vpn2 e = addr / 8192 ∧ te_asid e = tlb_hi t mod 256 ∧
     tlb_entries t' = <[i := TlbEntry 0 (flush_hi addr (tlb_hi t)) 0 0]> (tlb_entries t)).

Lemma tlb_ints_restored s t' :
  conditionally_enable_interrupts (Z.land (cp0_status s) CP0_STATUS_IE_MASK) (set_tlb t' (ints_masked s)) =
    Ok (tt, set_tlb t' s).
Proof.
  rewrite (ints_restore s) by apply status_set_tlb. unfold ints_masked.
  by rewrite <- set_tlb_status, set_cp0_status_set, set_cp0_status_same.
Qed.

(** The code up to the result of the probe. *)
Lemma flush_begin addr s t2 :
  u32 addr → u32 (tlb_hi (get_tlb s)) → let t := get_tlb s in
  tlbp (put_hi (flush_hi addr (tlb_hi t)) t) = t2 →
  tlb_flush addr s =
    ((if CP0_INDEX_P (tlb_index t2) =? 0 then
        write_cp0_pagemask CP0_PAGEMASK_4K ;; write_cp0_entrylo0 0 ;; write_cp0_entrylo1 0 ;; tlb_write_indexed
      else mret ()) ;;
     write_cp0_entryhi (tlb_hi t) ;;
     conditionally_enable_interrupts (Z.land (cp0_status s) CP0_STATUS_IE_MASK)) (set_tlb t2 (ints_masked s)).
Proof.
  intros Ha Hu t Ht2. unfold tlb_flush.
  assert (Hm : ints_masked s = set_tlb t (ints_masked s)).
  { unfold t, ints_masked. by rewrite set_tlb_status, set_get_tlb. }
  erewrite bind_ok by apply ints_query_exec. erewrite bind_ok by reflexivity. cbv zeta.
  replace (get_tlb (ints_masked s)) with t by (by rewrite Hm, get_set_tlb).
  rewrite flush_probe by done. rewrite Hm at 1. unfold write_cp0_entryhi. rewrite on_tlb_bind.
  unfold tlb_probe. rewrite on_tlb_bind, Ht2. erewrite bind_ok by reflexivity. by rewrite get_set_tlb.
Qed.

Lemma tlb_flush_exec addr s :
  tlb_wf (get_tlb s) → u32 addr → u32 (tlb_hi (get_tlb s)) →
  tlb_hi (get_tlb s) mod 256 ≠ ASID_UNUSED →
  ∃ t', tlb_flush addr s = Ok (tt, set_tlb t' s) ∧ flushed (get_tlb s) addr t'.
Proof.
  intros Hwf Ha Hu Hna. set (t := get_tlb s) in *.
  destruct (flush_hi_spec addr (tlb_hi t) Ha Hu) as (Hfu & Hfv & Hfa).
  set (t1 := put_hi (flush_hi addr (tlb_hi t)) t).
  assert (Hfound : (∃ i e, tlb_entries t !! i = Some e ∧ te_match (tlb_hi t1) e = true) ∨
    ∀ e, e ∈ tlb_entries t → te_match (tlb_hi t1) e = false).
  { destruct (first_index (te_match (tlb_hi t1)) (tlb_entries t)) as [i|] eqn:E.
    - left. destruct (first_index_some _ _ _ E) as (e & ? & ?). eauto.
    - right. intros e. by apply first_index_none. }
  pose proof Hwf as (_ & Hall & _). rewrite Forall_lookup in Hall.
  assert (Hmatch : ∀ i e, tlb_entries t !! i = Some e → te_match (tlb_hi t1) e = true ↔
    te_vpn2 e = addr / 8192 ∧ te_asid e = tlb_hi t mod 256).
  { intros i e Hi. rewrite te_match_spec by (done || by eapply Hall). cbn. by rewrite Hfv, Hfa. }
  destruct Hfound as [(i & e & Hi & Hme)|Hno].
  - apply (Hmatch i e Hi) in Hme as [Hv Hae].
    destruct (probe_found t1 i e) as [Hp Hib]; try done; cbn; [by rewrite Hfa|by rewrite Hfv|by rewrite Hfa|].
    eexists. split.
    + rewrite (flush_begin addr s _ Ha Hu Hp). replace (CP0_INDEX_P _ =? 0) with true.
      * unfold write_cp0_pagemask, write_cp0_entrylo0, write_cp0_entrylo1, tlb_write_indexed, write_cp0_entryhi.
        repeat first [rewrite bind_assoc | rewrite on_tlb_bind]. apply tlb_ints_restored.
      * symmetry. apply Z.eqb_eq. unfold CP0_INDEX_P. change CP0_INDEX_P_MASK with (2 ^ 31).
        by rewrite land_small_pow by (cbn [tlb_index put_index]; lia).
    + split_and!; [done|done|]. right. exists i, e. split_and!; [done..|]. unfold tlbwi.
      cbn [tlb_entries put_hi]. rewrite put_entries by done. cbn. by rewrite Nat2Z.id.
  - eexists. split.
    + erewrite (flush_begin addr s _ Ha Hu) by (by apply probe_missing). change (CP0_INDEX_P _ =? 0) with false. cbv iota.
      rewrite bind_ret. unfold write_cp0_entryhi. rewrite on_tlb_bind. apply tlb_ints_restored.
    + split_and!; [done|done|]. left. split; [done|]. intros e (i & Hi)%list_elem_of_lookup Hv Hae.
      assert (Hme : te_match (tlb_hi t1) e = true) by (by apply (Hmatch i e Hi)).
      rewrite Hno in Hme; [done|]. by eapply list_elem_of_lookup_2.
Qed.

(** The effect of a flush on translation. *)
Lemma flushed_spec map t addr t' :
  tlb_wf t → u32 addr → u32 (tlb_hi t) → tlb_hi t mod 256 ≠ ASID_UNUSED →
  tlb_coherent map t → flushed t addr t' →
  tlb_wf t' ∧ tlb_coherent map t' ∧
  (∀ virt, u32 virt → virt / 8192 = addr / 8192 → tlb_translate virt (tlb_hi t mod 256) t' = None) ∧
  (∀ virt asid, u32 virt → 0 ≤ asid < 256 → asid ≠ ASID_UNUSED →
    virt / 8192 ≠ addr / 8192 ∨ asid ≠ tlb_hi t mod 256 →
    tlb_translate virt asid t' = tlb_translate virt asid t).
Proof.
  intros Hwf Ha Hu Hna Hco (Hhi & Hr & Hcase). destruct (flush_hi_spec addr (tlb_hi t) Ha Hu) as (Hfu & Hfv & Hfa).
  pose proof (Z.mod_pos_bound (tlb_hi t) 256 ltac:(lia)) as Hab.
  destruct Hcase as [[Heq Hno]|(i & e & Hi & Hve & Hae & Heq)].
  - assert (Hwf' : tlb_wf t') by (unfold tlb_wf; by rewrite Heq). split_and!; [done| | |].
    + unfold tlb_coherent. by rewrite Heq.
    + intros virt Hv Hp. apply translate_none; [done..|]. rewrite Heq. intros e He Hv' Ha'.
      apply (Hno e He); congruence.
    + intros virt asid _ _ _ _. unfold tlb_translate. by rewrite Heq.
  - set (e' := TlbEntry 0 (flush_hi addr (tlb_hi t)) 0 0) in *.
    assert (He' : te_vpn2 e' = addr / 8192 ∧ te_asid e' = tlb_hi t mod 256) by (split; [exact Hfv|exact Hfa]).
    destruct He' as [Hve' Hae']. pose proof Hwf as (Hlen & Hall & Huniq).
    assert (Hwf' : tlb_wf t').
    { eapply (tlb_wf_insert t t' i e'); [done|done| |done]. intros j e2 Hj Hji Hn [Hs1 Hs2].
      apply Hji. eapply Huniq; [exact Hj|exact Hi|congruence|]. split; congruence. }
    assert (Hi' : tlb_entries t' !! i = Some e').
    { rewrite Heq. apply list_lookup_insert_eq. by apply lookup_lt_Some in Hi. }
    split_and!; [done| | |].
    + unfold tlb_coherent. rewrite Heq. apply Forall_insert; [done|]. by intros [].
    + intros virt Hv Hp. rewrite (translate_some t' virt _ i e') by (done || congruence).
      by destruct (Z.testbit virt 12).
    + intros virt asid Hv Has Hnas Hdiff.
      destruct (first_index (te_match (virt_hi virt asid)) (tlb_entries t)) as [j|] eqn:E.
      * destruct (first_index_some _ _ _ E) as (e2 & Hj & Hm). rewrite Forall_lookup in Hall.
        destruct (virt_hi_spec virt asid Hv Has) as (Hvu & Hvd & Hvm).
        apply te_match_spec in Hm as [Hv2 Ha2]; [|by eapply Hall|done]. rewrite Hvd in Hv2. rewrite Hvm in Ha2.
        assert (Hij : i ≠ j) by (intros ->; rewrite Hi in Hj; injection Hj as <-; destruct Hdiff; congruence).
        rewrite (translate_some t virt asid j e2), (translate_some t' virt asid j e2); try done.
        by rewrite Heq, list_lookup_insert_ne.
      * rewrite (translate_none t' virt asid), (translate_none t virt asid); try done.
        -- intros e2 Hin Hv2 Ha2. pose proof (first_index_none _ _ _ E Hin) as Hm.
           rewrite Forall_forall in Hall. destruct (virt_hi_spec virt asid Hv Has) as (Hvu & Hvd & Hvm).
           assert (te_match (virt_hi virt asid) e2 = true); [|congruence].
           apply te_match_spec; [by apply Hall|done|]. by rewrite Hvd, Hvm.
        -- intros e2 (k & Hk)%list_elem_of_lookup Hv2 Ha2. rewrite Heq in Hk.
           apply list_lookup_insert_Some in Hk as [(<- & <- & _)|[_ Hk]].
           { destruct Hdiff; congruence. }
           pose proof (first_index_none _ _ _ E (list_elem_of_lookup_2 _ _ _ Hk)) as Hm.
           rewrite Forall_lookup in Hall. destruct (virt_hi_spec virt asid Hv Has) as (Hvu & Hvd & Hvm).
           assert (te_match (virt_hi virt asid) e2 = true); [|congruence].
           apply te_match_spec; [by eapply Hall|done|]. by rewrite Hvd, Hvm.
Qed.
(** The entry of an empty TLB. *)
Definition te_unused : tlb_entry := TlbEntry 0 CP0_ENTRYHI_ASID_MASK 0 0.

Definition cleared_from (t : tlb) (n : nat) : Prop :=
  tlb_pagemask t = 0 ∧ tlb_hi t = CP0_ENTRYHI_ASID_MASK ∧ tlb_lo0 t = 0 ∧ tlb_lo1 t = 0 ∧
  length (tlb_entries t) = 48%nat ∧ random_ok t ∧
  ∀ i e, (i < n)%nat → tlb_entries t !! i = Some e → e = te_unused.

Lemma tlb_init_loop_exec count n t s :
  cleared_from t n → (n + count = 48)%nat →
  ∃ t', tlb_init_loop count (Z.of_nat n) (set_tlb t s) = Ok (tt, set_tlb t' s) ∧ cleared_from t' 48.
Proof.
  revert n t. induction count as [|count IH]; intros n t Ht Hn; cbn [tlb_init_loop].
  - exists t. split; [done|]. by replace 48%nat with n by lia.
  - unfold write_cp0_index, tlb_write_indexed. rewrite !on_tlb_bind.
    replace (Z.of_nat n + 1) with (Z.of_nat (Datatypes.S n)) by lia. apply IH; [|lia].
    destruct Ht as (Hp & Hh & H0' & H1' & Hlen & Hr & Hc). unfold tlbwi.
    split_and!; try done; cbn [tlb_entries put_index].
    + rewrite put_entries by (done || (cbn; lia)). by rewrite length_insert.
    + intros i e Hi. rewrite put_entries by (done || (cbn; lia)). cbn [tlb_hi tlb_lo0 tlb_lo1 tlb_index put_index].
      rewrite Nat2Z.id. intros [(_ & <- & _)|[Hne He]]%list_lookup_insert_Some; [by rewrite Hh, H0', H1'|].
      apply (Hc i); [|done]. lia.
Qed.

(** [tlb_init], whatever the TLB held before, leaves a well-formed TLB with no
    valid translation for any address of any address space, and Random in range. *)
Lemma tlb_init_correct map s :
  length (tlb_entries (get_tlb s)) = 48%nat →
  ∃ t', tlb_init s = Ok (tt, set_tlb t' s) ∧ tlb_wf t' ∧ random_ok t' ∧ tlb_coherent map t' ∧
    tlb_hi t' = CP0_ENTRYHI_ASID_MASK ∧ ∀ virt asid, tlb_translate virt asid t' = None.
Proof.
  intros Hlen.
  destruct (tlb_init_loop_exec 48 0 (put_hi CP0_ENTRYHI_ASID_MASK (put_lo1 0 (put_lo0 0
    (put_pagemask CP0_PAGEMASK_4K (put_wired 0 (get_tlb s)))))) s) as (t' & He & Ht').
  { split_and!; try done. intros i e Hi. lia. }
  { done. }
  exists t'. split.
  { unfold tlb_init. rewrite <- (set_get_tlb s) at 1.
    unfold write_cp0_wired, write_cp0_pagemask, write_cp0_entrylo0, write_cp0_entrylo1, write_cp0_entryhi.
    rewrite !on_tlb_bind. exact He. }
  destruct Ht' as (_ & Hhi & _ & _ & Hlen' & Hr & Hc).
  assert (Hall : ∀ e, e ∈ tlb_entries t' → e = te_unused).
  { intros e (i & Hi)%list_elem_of_lookup. apply (Hc i); [|done].
    apply lookup_lt_Some in Hi. by rewrite <- Hlen'. }
  split; [unfold tlb_wf; split; [done|split]|split; [done|split; [|split; [exact Hhi|]]]].
  - apply Forall_forall. intros e ->%Hall. done.
  - intros i j e e' Hi Hj Hna. exfalso. apply Hna.
    by rewrite (Hall e) by (by eapply list_elem_of_lookup_2).
  - apply Forall_forall. intros e ->%Hall. by intros [].
  - intros virt asid. unfold tlb_translate. cbv zeta. destruct (first_index _ _) as [i|] eqn:E; [|done].
    destruct (first_index_some _ _ _ E) as (e & He' & _). cbn [mbind option_bind]. rewrite He'.
    rewrite (Hall e) by (by eapply list_elem_of_lookup_2). unfold te_lo. by destruct (Z.testbit virt PAGE_WIDTH).
Qed.

(** [tlb_flush]: no translation of the page is left in the current address
    space, the translations of all other page pairs and of all other address
    spaces are unchanged, the TLB stays well formed and coherent, EntryHi and the
    interrupt state are restored. *)
Theorem tlb_flush_correct map addr s :
  let t := get_tlb s in
  tlb_wf t → tlb_coherent map t → u32 addr → u32 (tlb_hi t) → tlb_hi t mod 256 ≠ ASID_UNUSED →
  ∃ t', tlb_flush addr s = Ok (tt, set_tlb t' s) ∧ tlb_wf t' ∧ tlb_coherent map t' ∧
    tlb_hi t' = tlb_hi t ∧ tlb_translate addr (tlb_hi t mod 256) t' = None ∧
    ∀ virt asid, u32 virt → 0 ≤ asid < 256 → asid ≠ ASID_UNUSED →
      virt / 8192 ≠ addr / 8192 ∨ asid ≠ tlb_hi t mod 256 →
      tlb_translate virt asid t' = tlb_translate virt asid t.
Proof.
  intros t Hwf Hco Ha Hu Hna. destruct (tlb_flush_exec addr s Hwf Ha Hu Hna) as (t' & He & Hf).
  destruct (flushed_spec map _ _ _ Hwf Ha Hu Hna Hco Hf) as (Hwf' & Hco' & Hnone & Hsame).
  exists t'. split_and!; [done..| |by apply Hnone|done]. by destruct Hf.
Qed.

End stores.

(** ** A machine that is nothing but a TLB and the Status register *)
Record tlb_machine := TlbMachine { tm_tlb : tlb; tm_status : Z }.

#[export] Instance tlb_machine_cpu : CpuState tlb_machine := {
  cp0_status := tm_status;
  set_cp0_status v s := TlbMachine (tm_tlb s) v;
}.
#[export] Instance tlb_machine_cpu_laws : CpuStateLaws tlb_machine.
Proof. split; [done|done|by intros []]. Qed.
#[export] Instance tlb_machine_tlb : TlbState tlb_machine := {
  get_tlb := tm_tlb;
  set_tlb t s := TlbMachine t (tm_status s);
}.
#[export] Instance tlb_machine_tlb_laws : TlbStateLaws tlb_machine.
Proof. split; try done. by intros []. Qed.

(** Address space 3 runs; page 5 is in frame 9 and in the TLB. *)
Definition sample_page : tlb_entry := TlbEntry 0 (2 * 8192 + 3) 0 (tlb_entrylo 9).
Definition sample_tlb : tlb := Tlb (sample_page :: replicate 47 te_unused) 0 47 0 0 0 0 3.
Definition sample_machine : tlb_machine := TlbMachine sample_tlb 1.
Definition sample_map (asid vpn : Z) : option Z :=
  if bool_decide (asid = 3 ∧ vpn = 5) then Some 9 else None.

Lemma sample_tlb_wf : tlb_wf sample_tlb.
Proof.
  split_and!; [done| |].
  - apply Forall_cons. split; [done|]. by apply Forall_replicate.
  - intros i j e e' Hi Hj Hna [_ Hs].
    assert (Hone : ∀ k x, tlb_entries sample_tlb !! k = Some x → te_asid x ≠ ASID_UNUSED → k = O).
    { intros [|k] x; [done|]. cbn. intros [-> _]%(lookup_replicate 47). by intros []. }
    rewrite (Hone i e) by done. by rewrite (Hone j e') by (done || by rewrite <- Hs).
Qed.

Lemma sample_tlb_coherent : tlb_coherent sample_map sample_tlb.
Proof.
  apply Forall_cons. split; [by intros []|]. apply Forall_replicate. by intros [].
Qed.

Lemma tlb_flush_correct_witness :
  tlb_translate 0x5000 3 sample_tlb = Some 9 ∧
  ∃ t', tlb_flush 0x5000 sample_machine = Ok (tt, set_tlb t' sample_machine) ∧
    tlb_translate 0x5000 3 t' = None.
Proof.
  split; [reflexivity|].
  destruct (tlb_flush_correct sample_map 0x5000 sample_machine) as (t' & He & _ & _ & _ & Hn & _).
  - exact sample_tlb_wf.
  - exact sample_tlb_coherent.
  - unfold u32; rewrite word_max_eq; lia.
  - unfold u32; cbn; rewrite word_max_eq; lia.
  - done.
  - eauto.
Defined.
