(* ===== verification/Kernel.v ===== *)
(** * The state of the kernel

    The control structures live in typed stores indexed by their address; the
    link of a structure is at a fixed offset of it ([thread.link] at 0).  The
    memory for them comes from the heap, behind the interface [KernelHeap]: an
    object exists in its store from the [malloc] of its memory until the [free].

    A C function that gives up the processor in the middle (by [schedule ()] and
    [cpu_switch_context]) is split there: what remains to be done when it is
    resumed is a [frame].  The stack of a thread is its list of frames, innermost
    first; [k_stack] is the stack of the running thread, the others are saved
    behind [thread.stack_top]. *)
From S2P Require Import Prelude CList Cpu Malloc KHeap Tlb.

(** ** Control structures *)

(** Values of function pointers: the modelled functions, or other code. *)
Inductive code :=
  | CNull
  | CTimerThread  (** [timer_thread_func] *)
  | CTimeout      (** [thread_timeout_handler] *)
  | CIdle         (** [idle] of [main.c] *)
  | CUser (entry : Z).

#[export] Instance code_eq_dec : EqDecision code.
Proof. solve_decision. Defined.

Inductive thread_state := THREAD_READY | THREAD_RUNNING | THREAD_SLEEPING | THREAD_ZOMBIE.

#[export] Instance thread_state_eq_dec : EqDecision thread_state.
Proof. solve_decision. Defined.

(** What a suspended function has left to do. *)
Inductive frame :=
  | FUser (entry data : Z)          (** code outside the modelled functions *)
  | FStub (thread : Z)              (** [thread_stub], to be started *)
  | FStubEnd                        (** [thread_stub] after the entry function *)
  | FIdle                           (** the loop of [idle] *)
  | FSwitch (state : Z)             (** [thread_switch] after [cpu_switch_context] *)
  | FSchedule (state : Z)           (** [schedule] after [thread_switch] *)
  | FSuspend (state : Z)            (** [thread_suspend] after [schedule] *)
  | FFinish                         (** [thread_finish] after [schedule] *)
  | FBoot                           (** [bsp_start]/[ap_start] after [thread_switch] *)
  | FJoin (thread retval status : Z) (** [thread_join] after [thread_suspend] *)
  | FSleep (usec : bool) (current state : Z)  (** [thread_sleep]/[thread_usleep] after [schedule] *)
  | FSleepEnd (usec : bool) (remains state : Z)  (** and after [timer_destroy] *)
  | FDestroy (timer status : Z)     (** [timer_destroy], in the inner loop *)
  | FTimerLoop                      (** [timer_thread_func], at the head of the inner loop *)
  | FTimerRan (timer : Z)           (** and after the handler *)
  | FException (status : Z).        (** [handle_general] after the C handler *)

(** A saved context: the frames on the stack and the Status register. *)
Record context := Context {
  cx_frames : list frame;
  cx_status : Z;
}.

Record thread := Thread {
  th_stack_size : Z;
  th_stack_data : Z;
  th_entry_func : code;
  th_entry_data : Z;
  th_retval : Z;
  th_stack_top : context;
  th_state : thread_state;
  th_scheduled : Z;
  th_joiner : Z;
  th_vmm : Z;
  th_process : Z;
  th_uthread : Z;
}.

Record timer := Timer {
  ti_timeout : Z;
  ti_expires : Z;
  ti_running : bool;
  ti_handler : code;
  ti_data : Z;
}.

Record vma := Vma {
  vma_vpn_base : Z;
  vma_pfn_base : Z;
  vma_count : Z;
  vma_valid : bool;
}.

Record vmm := Vmm {
  vmm_asid : Z;
  vmm_vma : list vma;
}.

Record process := Process {
  pr_ustack_top : Z;
  pr_main_uthread : Z;
  pr_image : Z;
  pr_size : Z;
  pr_retval : Z;
}.

Record uthread := UThread {
  ut_thread : Z;
  ut_process : Z;
  ut_entry : Z;
  ut_data : Z;
  ut_user_data : Z;
}.

(** Updates of their fields. *)
Definition set_th_stack_size (v : Z) (x : thread) : thread :=
  Thread v (th_stack_data x) (th_entry_func x) (th_entry_data x) (th_retval x) (th_stack_top x)
    (th_state x) (th_scheduled x) (th_joiner x) (th_vmm x) (th_process x) (th_uthread x).
Definition set_th_stack_data (v : Z) (x : thread) : thread :=
  Thread (th_stack_size x) v (th_entry_func x) (th_entry_data x) (th_retval x) (th_stack_top x)
    (th_state x) (th_scheduled x) (th_joiner x) (th_vmm x) (th_process x) (th_uthread x).
Definition set_th_entry_func (v : code) (x : thread) : thread :=
  Thread (th_stack_size x) (th_stack_data x) v (th_entry_data x) (th_retval x) (th_stack_top x)
    (th_state x) (th_scheduled x) (th_joiner x) (th_vmm x) (th_process x) (th_uthread x).
Definition set_th_entry_data (v : Z) (x : thread) : thread :=
  Thread (th_stack_size x) (th_stack_data x) (th_entry_func x) v (th_retval x) (th_stack_top x)
    (th_state x) (th_scheduled x) (th_joiner x) (th_vmm x) (th_process x) (th_uthread x).
Definition set_th_retval (v : Z) (x : thread) : thread :=
  Thread (th_stack_size x) (th_stack_data x) (th_entry_func x) (th_entry_data x) v (th_stack_top x)
    (th_state x) (th_scheduled x) (th_joiner x) (th_vmm x) (th_process x) (th_uthread x).
Definition set_th_stack_top (v : context) (x : thread) : thread :=
  Thread (th_stack_size x) (th_stack_data x) (th_entry_func x) (th_entry_data x) (th_retval x) v
    (th_state x) (th_scheduled x) (th_joiner x) (th_vmm x) (th_process x) (th_uthread x).
Definition set_th_state (v : thread_state) (x : thread) : thread :=
  Thread (th_stack_size x) (th_stack_data x) (th_entry_func x) (th_entry_data x) (th_retval x) (th_stack_top x)
    v (th_scheduled x) (th_joiner x) (th_vmm x) (th_process x) (th_uthread x).
Definition set_th_scheduled (v : Z) (x : thread) : thread :=
  Thread (th_stack_size x) (th_stack_data x) (th_entry_func x) (th_entry_data x) (th_retval x) (th_stack_top x)
    (th_state x) v (th_joiner x) (th_vmm x) (th_process x) (th_uthread x).
Definition set_th_joiner (v : Z) (x : thread) : thread :=
  Thread (th_stack_size x) (th_stack_data x) (th_entry_func x) (th_entry_data x) (th_retval x) (th_stack_top x)
    (th_state x) (th_scheduled x) v (th_vmm x) (th_process x) (th_uthread x).
Definition set_th_vmm (v : Z) (x : thread) : thread :=
  Thread (th_stack_size x) (th_stack_data x) (th_entry_func x) (th_entry_data x) (th_retval x) (th_stack_top x)
    (th_state x) (th_scheduled x) (th_joiner x) v (th_process x) (th_uthread x).
Definition set_th_process (v : Z) (x : thread) : thread :=
  Thread (th_stack_size x) (th_stack_data x) (th_entry_func x) (th_entry_data x) (th_retval x) (th_stack_top x)
    (th_state x) (th_scheduled x) (th_joiner x) (th_vmm x) v (th_uthread x).
Definition set_th_uthread (v : Z) (x : thread) : thread :=
  Thread (th_stack_size x) (th_stack_data x) (th_entry_func x) (th_entry_data x) (th_retval x) (th_stack_top x)
    (th_state x) (th_scheduled x) (th_joiner x) (th_vmm x) (th_process x) v.
Definition set_ti_timeout (v : Z) (x : timer) : timer :=
  Timer v (ti_expires x) (ti_running x) (ti_handler x) (ti_data x).
Definition set_ti_expires (v : Z) (x : timer) : timer :=
  Timer (ti_timeout x) v (ti_running x) (ti_handler x) (ti_data x).
Definition set_ti_running (v : bool) (x : timer) : timer :=
  Timer (ti_timeout x) (ti_expires x) v (ti_handler x) (ti_data x).
Definition set_ti_handler (v : code) (x : timer) : timer :=
  Timer (ti_timeout x) (ti_expires x) (ti_running x) v (ti_data x).
Definition set_ti_data (v : Z) (x : timer) : timer :=
  Timer (ti_timeout x) (ti_expires x) (ti_running x) (ti_handler x) v.
Definition set_vmm_asid (v : Z) (x : vmm) : vmm :=
  Vmm v (vmm_vma x).
Definition set_vmm_vma (v : list vma) (x : vmm) : vmm :=
  Vmm (vmm_asid x) v.

(** ** The state *)
Record kernel (H : Type) := Kernel {
  k_heap : H;  (** the heap and the Status register *)
  k_links : links;  (** every [link_t] and [list_t] outside the heap manager *)
  k_threads : gmap Z thread;
  k_timers : gmap Z timer;
  k_vmms : gmap Z vmm;
  k_processes : gmap Z process;
  k_uthreads : gmap Z uthread;
  k_current : gmap Z Z;  (** [current_thread] *)
  k_cpu : Z;  (** [cpuid ()] *)
  k_jiffies : Z;  (** [jiffies] *)
  k_count : Z;  (** the Count register *)
  k_compare : Z;  (** the Compare register *)
  k_epc : Z;  (** the EPC register *)
  k_tlb : tlb;
  k_last_asid : Z;  (** [last_asid] *)
  k_timer_thread : Z;  (** [timer_thread] *)
  k_stack : list frame;  (** what is left to do on the current stack *)
  k_ret : Z;  (** the register of function results *)
  k_out : gmap Z Z;  (** the variables output arguments point to *)
}.
Arguments Kernel {H} _ _ _ _ _ _ _ _ _ _ _ _ _ _ _ _ _ _ _.
Arguments k_heap {H} _.
Arguments k_links {H} _.
Arguments k_threads {H} _.
Arguments k_timers {H} _.
Arguments k_vmms {H} _.
Arguments k_processes {H} _.
Arguments k_uthreads {H} _.
Arguments k_current {H} _.
Arguments k_cpu {H} _.
Arguments k_jiffies {H} _.
Arguments k_count {H} _.
Arguments k_compare {H} _.
Arguments k_epc {H} _.
Arguments k_tlb {H} _.
Arguments k_last_asid {H} _.
Arguments k_timer_thread {H} _.
Arguments k_stack {H} _.
Arguments k_ret {H} _.
Arguments k_out {H} _.

(** Updates of single fields. *)
Definition set_k_heap {H} (v : H) (s : kernel H) : kernel H :=
  Kernel v (k_links s) (k_threads s) (k_timers s) (k_vmms s) (k_processes s)
    (k_uthreads s) (k_current s) (k_cpu s) (k_jiffies s) (k_count s) (k_compare s)
    (k_epc s) (k_tlb s) (k_last_asid s) (k_timer_thread s) (k_stack s) (k_ret s)
    (k_out s).
Definition set_k_links {H} (f : links → links) (s : kernel H) : kernel H :=
  Kernel (k_heap s) (f (k_links s)) (k_threads s) (k_timers s) (k_vmms s) (k_processes s)
    (k_uthreads s) (k_current s) (k_cpu s) (k_jiffies s) (k_count s) (k_compare s)
    (k_epc s) (k_tlb s) (k_last_asid s) (k_timer_thread s) (k_stack s) (k_ret s)
    (k_out s).
Definition set_k_threads {H} (f : gmap Z thread → gmap Z thread) (s : kernel H) : kernel H :=
  Kernel (k_heap s) (k_links s) (f (k_threads s)) (k_timers s) (k_vmms s) (k_processes s)
    (k_uthreads s) (k_current s) (k_cpu s) (k_jiffies s) (k_count s) (k_compare s)
    (k_epc s) (k_tlb s) (k_last_asid s) (k_timer_thread s) (k_stack s) (k_ret s)
    (k_out s).
Definition set_k_timers {H} (f : gmap Z timer → gmap Z timer) (s : kernel H) : kernel H :=
  Kernel (k_heap s) (k_links s) (k_threads s) (f (k_timers s)) (k_vmms s) (k_processes s)
    (k_uthreads s) (k_current s) (k_cpu s) (k_jiffies s) (k_count s) (k_compare s)
    (k_epc s) (k_tlb s) (k_last_asid s) (k_timer_thread s) (k_stack s) (k_ret s)
    (k_out s).
Definition set_k_vmms {H} (f : gmap Z vmm → gmap Z vmm) (s : kernel H) : kernel H :=
  Kernel (k_heap s) (k_links s) (k_threads s) (k_timers s) (f (k_vmms s)) (k_processes s)
    (k_uthreads s) (k_current s) (k_cpu s) (k_jiffies s) (k_count s) (k_compare s)
    (k_epc s) (k_tlb s) (k_last_asid s) (k_timer_thread s) (k_stack s) (k_ret s)
    (k_out s).
Definition set_k_processes {H} (f : gmap Z process → gmap Z process) (s : kernel H) : kernel H :=
  Kernel (k_heap s) (k_links s) (k_threads s) (k_timers s) (k_vmms s) (f (k_processes s))
    (k_uthreads s) (k_current s) (k_cpu s) (k_jiffies s) (k_count s) (k_compare s)
    (k_epc s) (k_tlb s) (k_last_asid s) (k_timer_thread s) (k_stack s) (k_ret s)
    (k_out s).
Definition set_k_uthreads {H} (f : gmap Z uthread → gmap Z uthread) (s : kernel H) : kernel H :=
  Kernel (k_heap s) (k_links s) (k_threads s) (k_timers s) (k_vmms s) (k_processes s)
    (f (k_uthreads s)) (k_current s) (k_cpu s) (k_jiffies s) (k_count s) (k_compare s)
    (k_epc s) (k_tlb s) (k_last_asid s) (k_timer_thread s) (k_stack s) (k_ret s)
    (k_out s).
Definition set_k_current {H} (f : gmap Z Z → gmap Z Z) (s : kernel H) : kernel H :=
  Kernel (k_heap s) (k_links s) (k_threads s) (k_timers s) (k_vmms s) (k_processes s)
    (k_uthreads s) (f (k_current s)) (k_cpu s) (k_jiffies s) (k_count s) (k_compare s)
    (k_epc s) (k_tlb s) (k_last_asid s) (k_timer_thread s) (k_stack s) (k_ret s)
    (k_out s).
Definition set_k_cpu {H} (v : Z) (s : kernel H) : kernel H :=
  Kernel (k_heap s) (k_links s) (k_threads s) (k_timers s) (k_vmms s) (k_processes s)
    (k_uthreads s) (k_current s) v (k_jiffies s) (k_count s) (k_compare s)
    (k_epc s) (k_tlb s) (k_last_asid s) (k_timer_thread s) (k_stack s) (k_ret s)
    (k_out s).
Definition set_k_jiffies {H} (v : Z) (s : kernel H) : kernel H :=
  Kernel (k_heap s) (k_links s) (k_threads s) (k_timers s) (k_vmms s) (k_processes s)
    (k_uthreads s) (k_current s) (k_cpu s) v (k_count s) (k_compare s)
    (k_epc s) (k_tlb s) (k_last_asid s) (k_timer_thread s) (k_stack s) (k_ret s)
    (k_out s).
Definition set_k_count {H} (v : Z) (s : kernel H) : kernel H :=
  Kernel (k_heap s) (k_links s) (k_threads s) (k_timers s) (k_vmms s) (k_processes s)
    (k_uthreads s) (k_current s) (k_cpu s) (k_jiffies s) v (k_compare s)
    (k_epc s) (k_tlb s) (k_last_asid s) (k_timer_thread s) (k_stack s) (k_ret s)
    (k_out s).
Definition set_k_compare {H} (v : Z) (s : kernel H) : kernel H :=
  Kernel (k_heap s) (k_links s) (k_threads s) (k_timers s) (k_vmms s) (k_processes s)
    (k_uthreads s) (k_current s) (k_cpu s) (k_jiffies s) (k_count s) v
    (k_epc s) (k_tlb s) (k_last_asid s) (k_timer_thread s) (k_stack s) (k_ret s)
    (k_out s).
Definition set_k_epc {H} (v : Z) (s : kernel H) : kernel H :=
  Kernel (k_heap s) (k_links s) (k_threads s) (k_timers s) (k_vmms s) (k_processes s)
    (k_uthreads s) (k_current s) (k_cpu s) (k_jiffies s) (k_count s) (k_compare s)
    v (k_tlb s) (k_last_asid s) (k_timer_thread s) (k_stack s) (k_ret s)
    (k_out s).
Definition set_k_tlb {H} (v : tlb) (s : kernel H) : kernel H :=
  Kernel (k_heap s) (k_links s) (k_threads s) (k_timers s) (k_vmms s) (k_processes s)
    (k_uthreads s) (k_current s) (k_cpu s) (k_jiffies s) (k_count s) (k_compare s)
    (k_epc s) v (k_last_asid s) (k_timer_thread s) (k_stack s) (k_ret s)
    (k_out s).
Definition set_k_last_asid {H} (v : Z) (s : kernel H) : kernel H :=
  Kernel (k_heap s) (k_links s) (k_threads s) (k_timers s) (k_vmms s) (k_processes s)
    (k_uthreads s) (k_current s) (k_cpu s) (k_jiffies s) (k_count s) (k_compare s)
    (k_epc s) (k_tlb s) v (k_timer_thread s) (k_stack s) (k_ret s)
    (k_out s).
Definition set_k_timer_thread {H} (v : Z) (s : kernel H) : kernel H :=
  Kernel (k_heap s) (k_links s) (k_threads s) (k_timers s) (k_vmms s) (k_processes s)
    (k_uthreads s) (k_current s) (k_cpu s) (k_jiffies s) (k_count s) (k_compare s)
    (k_epc s) (k_tlb s) (k_last_asid s) v (k_stack s) (k_ret s)
    (k_out s).
Definition set_k_stack {H} (v : list frame) (s : kernel H) : kernel H :=
  Kernel (k_heap s) (k_links s) (k_threads s) (k_timers s) (k_vmms s) (k_processes s)
    (k_uthreads s) (k_current s) (k_cpu s) (k_jiffies s) (k_count s) (k_compare s)
    (k_epc s) (k_tlb s) (k_last_asid s) (k_timer_thread s) v (k_ret s)
    (k_out s).
Definition set_k_ret {H} (v : Z) (s : kernel H) : kernel H :=
  Kernel (k_heap s) (k_links s) (k_threads s) (k_timers s) (k_vmms s) (k_processes s)
    (k_uthreads s) (k_current s) (k_cpu s) (k_jiffies s) (k_count s) (k_compare s)
    (k_epc s) (k_tlb s) (k_last_asid s) (k_timer_thread s) (k_stack s) v
    (k_out s).
Definition set_k_out {H} (f : gmap Z Z → gmap Z Z) (s : kernel H) : kernel H :=
  Kernel (k_heap s) (k_links s) (k_threads s) (k_timers s) (k_vmms s) (k_processes s)
    (k_uthreads s) (k_current s) (k_cpu s) (k_jiffies s) (k_count s) (k_compare s)
    (k_epc s) (k_tlb s) (k_last_asid s) (k_timer_thread s) (k_stack s) (k_ret s)
    (f (k_out s)).

(** States with equal fields are equal. *)
Lemma kernel_ext {H} (s s' : kernel H) :
  k_heap s = k_heap s' →
  k_links s = k_links s' →
  k_threads s = k_threads s' →
  k_timers s = k_timers s' →
  k_vmms s = k_vmms s' →
  k_processes s = k_processes s' →
  k_uthreads s = k_uthreads s' →
  k_current s = k_current s' →
  k_cpu s = k_cpu s' →
  k_jiffies s = k_jiffies s' →
  k_count s = k_count s' →
  k_compare s = k_compare s' →
  k_epc s = k_epc s' →
  k_tlb s = k_tlb s' →
  k_last_asid s = k_last_asid s' →
  k_timer_thread s = k_timer_thread s' →
  k_stack s = k_stack s' →
  k_ret s = k_ret s' →
  k_out s = k_out s' → s = s'.
Proof. destruct s, s'. cbn. intros. by subst. Qed.

(** ** Machine interfaces *)
#[export] Instance kernel_cpu H `{CpuState H} : CpuState (kernel H) := {
  cp0_status s := cp0_status (k_heap s);
  set_cp0_status v s := set_k_heap (set_cp0_status v (k_heap s)) s;
}.

#[export] Instance kernel_cpu_laws H `{CpuStateLaws H} : CpuStateLaws (kernel H).
Proof.
  split; intros.
  - apply (cp0_status_set (S := H)).
  - unfold set_k_heap. cbn. by rewrite set_cp0_status_set.
  - destruct s. unfold set_k_heap. cbn. by rewrite set_cp0_status_same.
Qed.

#[export] Instance kernel_tlb H : TlbState (kernel H) := {
  get_tlb := k_tlb;
  set_tlb := set_k_tlb;
}.

#[export] Instance kernel_tlb_laws H `{CpuState H} : TlbStateLaws (kernel H).
Proof. split; try done. by intros []. Qed.

#[export] Instance kernel_links H : LinkMem (kernel H) := {
  ld_prev s p := ld_prev (k_links s) p;
  ld_next s p := ld_next (k_links s) p;
  st_prev p v := set_k_links (st_prev p v);
  st_next p v := set_k_links (st_next p v);
  lsep p q := lsep (M := links) p q;
}.

#[export] Instance kernel_links_laws H : LinkMemLaws (kernel H).
Proof.
  split.
  - exact (lsep_sym (M := links)).
  - exact (lsep_ne (M := links)).
  - intros m. exact (ld_prev_st_prev (M := links) (k_links m)).
  - intros m. exact (ld_next_st_next (M := links) (k_links m)).
  - intros m. exact (ld_next_st_prev (M := links) (k_links m)).
  - intros m. exact (ld_prev_st_next (M := links) (k_links m)).
  - intros m. exact (ld_prev_st_prev_sep (M := links) (k_links m)).
  - intros m. exact (ld_next_st_prev_sep (M := links) (k_links m)).
  - intros m. exact (ld_prev_st_next_sep (M := links) (k_links m)).
  - intros m. exact (ld_next_st_next_sep (M := links) (k_links m)).
Qed.

(** ** Access *)
Section access.
  Context {H : Type} `{KernelHeap H}.

(** A call of the memory management. *)
Definition in_heap {A} (m : KM H A) : KM (kernel H) A := λ s,
  match m (k_heap s) with
  | Ok (a, h) => Ok (a, set_k_heap h s)
  | Panic => Panic
  | Fault => Fault
  | NoFuel => NoFuel
  end.

(** Reading and writing the fields of a control structure. *)
Definition get_thread {A} (f : thread → A) (p : Z) : KM (kernel H) A :=
  kload (λ s, f <$> k_threads s !! p).
Definition upd_thread (f : thread → thread) (p : Z) : KM (kernel H) unit :=
  get_thread id p ≫= λ t, kmodify (set_k_threads <[p := f t]>).
Definition get_timer {A} (f : timer → A) (p : Z) : KM (kernel H) A :=
  kload (λ s, f <$> k_timers s !! p).
Definition upd_timer (f : timer → timer) (p : Z) : KM (kernel H) unit :=
  get_timer id p ≫= λ t, kmodify (set_k_timers <[p := f t]>).
Definition get_vmm {A} (f : vmm → A) (p : Z) : KM (kernel H) A :=
  kload (λ s, f <$> k_vmms s !! p).
Definition upd_vmm (f : vmm → vmm) (p : Z) : KM (kernel H) unit :=
  get_vmm id p ≫= λ t, kmodify (set_k_vmms <[p := f t]>).

(** Reading the state. *)
Definition kgets {A} (f : kernel H → A) : KM (kernel H) A := λ s, Ok (f s, s).

Definition cpuid : KM (kernel H) Z := kgets k_cpu.

(** [current_thread[cpuid ()]] *)
Definition get_current : KM (kernel H) Z := kload (λ s, k_current s !! k_cpu s).
Definition set_current (t : Z) : KM (kernel H) unit := kmodify (λ s, set_k_current <[k_cpu s := t]> s).

(** Leaving a function that will be resumed, and resuming it. *)
Definition push_frame (f : frame) : KM (kernel H) unit :=
  kmodify (λ s, set_k_stack (f :: k_stack s) s).
Definition pop_frame : KM (kernel H) frame := λ s,
  match k_stack s with
  | f :: fs => Ok (f, set_k_stack fs s)
  | [] => Fault
  end.

Definition return_value (v : Z) : KM (kernel H) unit := kmodify (set_k_ret v).

End access.
