(* ===== verification/Sched.v ===== *)
(** * Scheduling and context switching

    [kernel/sched/sched.c], [thread_switch] of [kernel/proc/thread.c],
    [kernel/drivers/timer.h] and [cpu_switch_context] of [kernel/head.S].

    A function of this kind that gives up the processor pushes the frame it is to
    be resumed with and ends; execution goes on with the innermost frame of
    [k_stack], which is by then another thread's. *)
From S2P Require Import Prelude CList Cpu Malloc KHeap Tlb Kernel.

Definition THREAD_QUANTUM : Z := 4000.
Definition sizeof_list : Z := 8.

Section code.
  Context {H : Type} `{KernelHeap H}.
  (** The address of the array [runnable_list]. *)
  Context (runnable_list : Z).

(** [&runnable_list[cpu]] *)
Definition runnable_list_of (cpu : Z) : Z := runnable_list + sizeof_list * cpu.

Definition timer_setup (quantum : Z) : KM (kernel H) unit :=
  kmodify (λ s, set_k_compare (wrap (k_count s + quantum)) s).

Definition timer_get : KM (kernel H) Z := kgets k_count.

Definition scheduler_init : KM (kernel H) unit :=
  cpu ← cpuid;
  list_init (runnable_list_of cpu) ;;
  timer_setup THREAD_QUANTUM.

Definition sched_insert (thread : Z) : KM (kernel H) unit :=
  state ← query_and_disable_interrupts;
  cpu ← cpuid;
  list_append (runnable_list_of cpu) thread ;;
  conditionally_enable_interrupts state.

Definition sched_remove (thread : Z) : KM (kernel H) unit :=
  state ← query_and_disable_interrupts;
  list_remove thread ;;
  conditionally_enable_interrupts state.

(** The old context is saved (behind a dummy when there is no old thread), the
    address space is switched, and the new context is loaded, the Status register
    last. *)
Definition cpu_switch_context (old new asid : Z) : KM (kernel H) unit :=
  frames ← kgets k_stack;
  status ← kgets cp0_status;
  (if bool_decide (old ≠ NULL) then upd_thread (set_th_stack_top (Context frames status)) old
   else mret ()) ;;
  disable_interrupts ;;
  entryhi ← read_cp0_entryhi;
  write_cp0_entryhi (Z.lor (Z.land entryhi (Z.lnot CP0_ENTRYHI_ASID_MASK)) asid) ;;
  ctx ← get_thread th_stack_top new;
  kmodify (set_k_stack (cx_frames ctx)) ;;
  kmodify (set_cp0_status (cx_status ctx)).

Definition thread_switch (thread : Z) : KM (kernel H) unit :=
  state ← query_and_disable_interrupts;
  current ← get_current;
  (if bool_decide (current ≠ NULL) then
     st ← get_thread th_state current;
     if bool_decide (st = THREAD_RUNNING) then upd_thread (set_th_state THREAD_READY) current
     else mret ()
   else mret ()) ;;
  set_current thread ;;
  upd_thread (set_th_state THREAD_RUNNING) thread ;;
  vmm ← get_thread th_vmm thread;
  asid ← get_vmm vmm_asid vmm;
  push_frame (FSwitch state) ;;
  cpu_switch_context current thread asid.

Definition schedule : KM (kernel H) unit :=
  state ← query_and_disable_interrupts;
  cpu ← cpuid;
  link ← list_rotate (runnable_list_of cpu);
  if bool_decide (link ≠ NULL) then
    scheduled ← timer_get;
    upd_thread (set_th_scheduled scheduled) link ;;
    push_frame (FSchedule state) ;;
    thread_switch link
  else conditionally_enable_interrupts state.

(** [thread_get_current] of [thread.c]. *)
Definition thread_get_current : KM (kernel H) Z :=
  state ← query_and_disable_interrupts;
  current ← get_current;
  conditionally_enable_interrupts state ;;
  mret current.

End code.
