(* ===== verification/Vmm.v ===== *)
(** * Virtual memory maps ([kernel/mm/vmm.c])

    An output argument ([*from], [*phys], [*pvmm]) is a component of the result. *)
From S2P Require Import Prelude CList Cpu Malloc KHeap Tlb Kernel Sched.

Definition VMAS : nat := 100.
Definition sizeof_vmm : Z := 1604.

Section code.
  Context {H : Type} `{KernelHeap H}.

Definition vmm_create : KM (kernel H) (Z * Z) :=
  vmm ← in_heap (km_malloc sizeof_vmm);
  if bool_decide (vmm = NULL) then mret (ENOMEM, NULL)
  else
    kmodify (set_k_vmms <[vmm := Vmm 0 (replicate VMAS (Vma 0 0 0 false))]>) ;;
    state ← query_and_disable_interrupts;
    last_asid ← kgets k_last_asid;
    upd_vmm (set_vmm_asid last_asid) vmm ;;
    kmodify (set_k_last_asid ((last_asid + 1) mod 256)) ;;
    conditionally_enable_interrupts state ;;
    mret (EOK, vmm).

(** [(flags & f) == f] *)
Definition has_flag (flags f : Z) : bool := Z.land flags f =? f.

(** The end of an area, as a page number. *)
Definition vma_end (v : vma) : Z := wrap (vma_vpn_base v + vma_count v).

(** The search for an address: the highest end of an area below 0x40000 pages. *)
Definition vma_map_auto (vmas : list vma) : Z :=
  foldl (λ vpn v,
    if vma_valid v && (vma_vpn_base v <? 0x40000) && (vpn <? vma_end v) then vma_end v else vpn) 0 vmas.

(** The part of [vma_map] after the address is known. *)
Definition vma_map_at (vmm from count : Z) : KM (kernel H) Z :=
  vmas ← get_vmm vmm_vma vmm;
  match first_index (λ v, negb (vma_valid v)) vmas with
  | Some i =>
    '(rc, phys) ← in_heap (km_frame_alloc count (Z.lor VF_VA_AUTO VF_AT_KSEG0));
    (if bool_decide (rc ≠ EOK) then mret ()
     else upd_vmm (set_vmm_vma (<[i := Vma (Z.shiftr from PAGE_WIDTH) (Z.shiftr phys FRAME_WIDTH) count true]> vmas)) vmm) ;;
    mret rc
  | None => mret ENOMEM
  end.

Definition vma_map (from size flags : Z) : KM (kernel H) (Z * Z) :=
  let flag_auto := has_flag flags VF_VA_AUTO in
  let flag_user := has_flag flags VF_VA_USER in
  let flag_kseg0 := has_flag flags VF_AT_KSEG0 || has_flag flags VF_AT_KSEG1 in
  kassert (xorb flag_auto flag_user) ;;
  if negb (ALIGN_DOWN size PAGE_SIZE =? size) then mret (EINVAL, from)
  else
    let count := Z.shiftr size PAGE_WIDTH in
    if flag_kseg0 then kpanic
    else
      state ← query_and_disable_interrupts;
      current ← thread_get_current;
      vmm ← get_thread th_vmm current;
      target ←
        (if flag_auto then
           vmas ← get_vmm vmm_vma vmm;
           let vpn := vma_map_auto vmas in
           mret (if vpn =? 0 then None else Some (wrap (Z.shiftl vpn PAGE_WIDTH)))
         else mret (Some from));
      match target with
      | None =>
        conditionally_enable_interrupts state ;;
        mret (ENOMEM, from)
      | Some from =>
        if negb (ALIGN_DOWN from PAGE_SIZE =? from) then
          conditionally_enable_interrupts state ;;
          mret (EINVAL, from)
        else
          rc ← vma_map_at vmm from count;
          conditionally_enable_interrupts state ;;
          mret (rc, from)
      end.

(** [for (pos = 0; pos < count; pos++) tlb_flush ((vpn + pos) << FRAME_WIDTH)] *)
Fixpoint vma_flush (count : nat) (vpn pos : Z) : KM (kernel H) unit :=
  match count with
  | O => mret ()
  | S count =>
    tlb_flush (wrap (Z.shiftl (wrap (vpn + pos)) FRAME_WIDTH)) ;;
    vma_flush count vpn (pos + 1)
  end.

Definition vma_unmap (from : Z) : KM (kernel H) Z :=
  if negb (ALIGN_DOWN from PAGE_SIZE =? from) then mret EINVAL
  else
    let vpn := Z.shiftr from PAGE_WIDTH in
    state ← query_and_disable_interrupts;
    current ← thread_get_current;
    vmm ← get_thread th_vmm current;
    vmas ← get_vmm vmm_vma vmm;
    rc ← (match first_index (λ v, vma_valid v && (vma_vpn_base v =? vpn)) vmas with
          | Some i =>
            v ← kload (λ _, vmas !! i);
            let phys := wrap (Z.shiftl (vma_pfn_base v) FRAME_WIDTH) in
            rc ← in_heap (km_frame_free phys (vma_count v));
            (if bool_decide (rc ≠ EOK) then mret ()
             else
               vma_flush (Z.to_nat (vma_count v)) vpn 0 ;;
               upd_vmm (set_vmm_vma (<[i := Vma (vma_vpn_base v) (vma_pfn_base v) (vma_count v) false]> vmas)) vmm) ;;
            mret rc
          | None => mret EINVAL
          end);
    conditionally_enable_interrupts state ;;
    mret rc.

Definition vma_covers (vpn : Z) (v : vma) : bool :=
  vma_valid v && (vma_vpn_base v <=? vpn) && (vpn <? vma_end v).

Definition vma_check_user (addr size : Z) : KM (kernel H) bool :=
  let vpn_start := Z.shiftr addr PAGE_WIDTH in
  let vpn_end := Z.shiftr (wrap (addr + size)) PAGE_WIDTH in
  state ← query_and_disable_interrupts;
  current ← thread_get_current;
  vmm ← get_thread th_vmm current;
  vmas ← get_vmm vmm_vma vmm;
  let rc := existsb (λ v, vma_covers vpn_start v && (vma_vpn_base v <=? vpn_end) && (vpn_end <? vma_end v)) vmas in
  conditionally_enable_interrupts state ;;
  mret rc.

Definition vmm_mapping_find (virt : Z) : KM (kernel H) (Z * option Z) :=
  state ← query_and_disable_interrupts;
  current ← thread_get_current;
  vmm ← get_thread th_vmm current;
  vmas ← get_vmm vmm_vma vmm;
  let vpn := Z.shiftr virt PAGE_WIDTH in
  let found := i ← first_index (vma_covers vpn) vmas; vmas !! i in
  conditionally_enable_interrupts state ;;
  mret (match found with
        | Some v =>
          let pfn := wrap (vma_pfn_base v + (vpn - vma_vpn_base v)) in
          let offset := Z.land virt (PAGE_SIZE - 1) in
          (EOK, Some (wrap (wrap (Z.shiftl pfn FRAME_WIDTH) + offset)))
        | None => (EINVAL, None)
        end).

End code.
