(* ===== verification/PageTable.v ===== *)
(** * Page tables

    The abstract meaning of a virtual memory map: a partial function from page numbers
    to frame numbers; and the meaning of all maps together, by address space. *)
From S2P Require Import Prelude CList Cpu Malloc KHeap Tlb TlbTheorems Kernel Vmm.

(** ** One map *)

(** The frame of page [vpn]: that of the first area which covers it. *)
Definition page_table (vmas : list vma) (vpn : Z) : option Z :=
  i ← first_index (vma_covers vpn) vmas;
  v ← vmas !! i;
  Some (vma_pfn_base v + (vpn - vma_vpn_base v)).

(** An area within the user segments, on frames below 512 MB. *)
Definition vma_ok (v : vma) : Prop :=
  vma_valid v = true →
  0 ≤ vma_vpn_base v ∧ 0 < vma_count v ∧ vma_vpn_base v + vma_count v ≤ 2 ^ 20 ∧
  0 ≤ vma_pfn_base v ∧ vma_pfn_base v + vma_count v ≤ 2 ^ 17.

Definition in_vma (v : vma) (vpn : Z) : Prop :=
  vma_valid v = true ∧ vma_vpn_base v ≤ vpn < vma_vpn_base v + vma_count v.

(** The areas of a map do not overlap. *)
Definition vmas_ok (vmas : list vma) : Prop :=
  Forall vma_ok vmas ∧
  ∀ i j v w vpn, vmas !! i = Some v → vmas !! j = Some w → in_vma v vpn → in_vma w vpn → i = j.

Lemma vma_end_spec v : vma_ok v → vma_valid v = true → vma_end v = vma_vpn_base v + vma_count v.
Proof. intros Hok Hv. destruct (Hok Hv) as (? & ? & ? & _). apply wrap_small. word_lia. Qed.

Lemma vma_covers_spec v vpn : vma_ok v → vma_covers vpn v = true ↔ in_vma v vpn.
Proof.
  intros Hok. unfold vma_covers, in_vma. rewrite !andb_true_iff, Z.leb_le, Z.ltb_lt.
  destruct (vma_valid v) eqn:Hv; [|split; intros; tauto || (destruct_and!; done)].
  rewrite vma_end_spec by done. tauto.
Qed.

Lemma page_table_some vmas i v vpn :
  vmas_ok vmas → vmas !! i = Some v → in_vma v vpn →
  page_table vmas vpn = Some (vma_pfn_base v + (vpn - vma_vpn_base v)).
Proof.
  intros [Hok Hd] Hi Hv. pose proof Hok as Hok'. rewrite Forall_lookup in Hok'. unfold page_table.
  destruct (first_index_exists (vma_covers vpn) vmas i v Hi) as [j Hj]; [by apply vma_covers_spec; [eapply Hok'|]|].
  rewrite Hj. cbn. destruct (first_index_some _ _ _ Hj) as (w & Hw & Hc).
  apply vma_covers_spec in Hc; [|by eapply Hok']. assert (j = i) as -> by eauto. rewrite Hw. cbn. congruence.
Qed.

Lemma page_table_none vmas vpn :
  vmas_ok vmas → (∀ i v, vmas !! i = Some v → ¬ in_vma v vpn) → page_table vmas vpn = None.
Proof.
  intros [Hok Hd] Hn. rewrite Forall_lookup in Hok. unfold page_table.
  destruct (first_index (vma_covers vpn) vmas) as [j|] eqn:Hj; [|done].
  destruct (first_index_some _ _ _ Hj) as (w & Hw & Hc).
  apply vma_covers_spec in Hc; [|by eapply Hok]. by destruct (Hn _ _ Hw Hc).
Qed.

(** A page is mapped or not. *)
Lemma page_table_case vmas vpn :
  vmas_ok vmas → (∃ i v, vmas !! i = Some v ∧ in_vma v vpn ∧
     page_table vmas vpn = Some (vma_pfn_base v + (vpn - vma_vpn_base v))) ∨
   (page_table vmas vpn = None ∧ ∀ i v, vmas !! i = Some v → ¬ in_vma v vpn).
Proof.
  intros Hok. destruct (first_index (vma_covers vpn) vmas) as [j|] eqn:Hj.
  - destruct (first_index_some _ _ _ Hj) as (w & Hw & Hc). pose proof Hok as [Hall _]. rewrite Forall_lookup in Hall.
    apply vma_covers_spec in Hc; [|by eapply Hall]. left. exists j, w. split; [done|split; [done|]]. by eapply page_table_some.
  - right. assert (Hn : ∀ i v, vmas !! i = Some v → ¬ in_vma v vpn).
    { intros i v Hi Hv. pose proof Hok as [Hall _]. rewrite Forall_lookup in Hall.
      rewrite <- vma_covers_spec in Hv by (by eapply Hall).
      rewrite (first_index_none _ _ v Hj) in Hv; [done|]. by eapply list_elem_of_lookup_2. }
    split; [by apply page_table_none|done].
Qed.

Lemma page_table_range vmas vpn pfn : vmas_ok vmas → page_table vmas vpn = Some pfn → 0 ≤ pfn < 2 ^ 17.
Proof.
  intros Hok Hp. destruct (page_table_case vmas vpn Hok) as [(i & v & Hi & [Hv Hin] & E)|[E _]]; rewrite E in Hp; [|done].
  injection Hp as <-. destruct Hok as [Hall _]. rewrite Forall_lookup in Hall. destruct (Hall i v Hi Hv). lia.
Qed.

(** A slot is taken by a new area, or given up. *)
Lemma vmas_ok_replace vmas i w :
  vmas_ok vmas → vma_ok w → (∀ j v vpn, j ≠ i → vmas !! j = Some v → in_vma v vpn → ¬ in_vma w vpn) →
  vmas_ok (<[i := w]> vmas).
Proof.
  intros [Hall Hd] Hw Hdis. split; [by apply Forall_insert|]. intros j k v u vpn Hj Hk Hv Hu.
  apply list_lookup_insert_Some in Hj as [(<- & <- & _)|[Hji Hj]];
    apply list_lookup_insert_Some in Hk as [(<- & <- & _)|[Hki Hk]]; [done| | |by eauto].
  - by destruct (Hdis _ _ _ (not_eq_sym Hki) Hk Hu).
  - by destruct (Hdis _ _ _ (not_eq_sym Hji) Hj Hv).
Qed.

Lemma page_table_replace vmas i u w vpn :
  vmas_ok vmas → vmas_ok (<[i := w]> vmas) → vmas !! i = Some u →
  (in_vma w vpn → page_table (<[i := w]> vmas) vpn = Some (vma_pfn_base w + (vpn - vma_vpn_base w))) ∧
  (¬ in_vma w vpn → in_vma u vpn → page_table (<[i := w]> vmas) vpn = None) ∧
  (¬ in_vma w vpn → ¬ in_vma u vpn → page_table (<[i := w]> vmas) vpn = page_table vmas vpn).
Proof.
  intros Hok Hok' Hi. pose proof (lookup_lt_Some _ _ _ Hi) as Hlt. split; [|split].
  - intros Hw. eapply page_table_some; [done| |done]. by apply list_lookup_insert_eq.
  - intros Hnw Hu. apply page_table_none; [done|]. intros j v Hj.
    apply list_lookup_insert_Some in Hj as [(<- & <- & _)|[Hji Hj]]; [done|]. intros Hv.
    destruct Hok as [_ Hd]. by apply Hji, (Hd i j u v vpn).
  - intros Hnw Hnu. destruct (page_table_case vmas vpn Hok) as [(j & v & Hj & Hv & ->)|[-> Hn]].
    + eapply page_table_some; [done| |done]. rewrite list_lookup_insert_ne; [exact Hj|]. intros ->. congruence.
    + apply page_table_none; [done|]. intros j v Hj.
      apply list_lookup_insert_Some in Hj as [(<- & <- & _)|[Hji Hj]]; [done|by eapply Hn].
Qed.

(** ** All maps *)

(** Every map has its own address space. *)
Definition asids_ok (vmms : gmap Z vmm) : Prop :=
  ∀ p q v w, vmms !! p = Some v → vmms !! q = Some w → vmm_asid v = vmm_asid w → p = q.

Definition spaces (vmms : gmap Z vmm) (asid vpn : Z) : option Z :=
  head (omap (λ '(_, v), if bool_decide (vmm_asid v = asid) then page_table (vmm_vma v) vpn else None)
    (map_to_list vmms)).

Lemma spaces_eq vmms p v vpn :
  asids_ok vmms → vmms !! p = Some v → spaces vmms (vmm_asid v) vpn = page_table (vmm_vma v) vpn.
Proof.
  intros Ha Hp. unfold spaces. set (f := λ '(_, w), _).
  assert (Hf : ∀ q w x, (q, w) ∈ map_to_list vmms → f (q, w) = Some x → page_table (vmm_vma v) vpn = Some x).
  { intros q w x Hq Hx. apply elem_of_map_to_list in Hq. unfold f in Hx. case_bool_decide as E; [|done].
    assert (q = p) as -> by eauto. congruence. }
  destruct (omap f (map_to_list vmms)) as [|x l] eqn:E.
  - cbn. destruct (page_table (vmm_vma v) vpn) as [y|] eqn:Ey; [|done]. exfalso.
    assert (Hy : y ∈ omap f (map_to_list vmms)).
    { apply list_elem_of_omap. exists (p, v). split; [by apply elem_of_map_to_list|].
      unfold f. by rewrite bool_decide_eq_true_2. }
    rewrite E in Hy. by apply elem_of_nil in Hy.
  - cbn. assert (Hx : x ∈ omap f (map_to_list vmms)) by (rewrite E; left).
    apply list_elem_of_omap in Hx as ([q w] & Hq & Hx). symmetry. by eapply Hf.
Qed.

Lemma spaces_none vmms asid vpn : (∀ p v, vmms !! p = Some v → vmm_asid v ≠ asid) → spaces vmms asid vpn = None.
Proof.
  intros Hn. unfold spaces. set (f := λ '(_, w), _).
  destruct (omap f (map_to_list vmms)) as [|x l] eqn:E; [done|].
  assert (Hx : x ∈ omap f (map_to_list vmms)) by (rewrite E; left).
  apply list_elem_of_omap in Hx as ([q w] & Hq%elem_of_map_to_list & Hx). unfold f in Hx.
  case_bool_decide as Ea; [|done]. by destruct (Hn _ _ Hq Ea).
Qed.

Lemma space_case (vmms : gmap Z vmm) asid :
  (∃ p v, vmms !! p = Some v ∧ vmm_asid v = asid) ∨ (∀ p v, vmms !! p = Some v → vmm_asid v ≠ asid).
Proof.
  destruct (decide (map_Exists (λ _ v, vmm_asid v = asid) vmms)) as [(p & v & ? & ?)|Hn]; [left; eauto|].
  right. intros p v Hp E. apply Hn. by exists p, v.
Qed.

(** The areas of one map are replaced. *)
Lemma asids_ok_insert vmms p v l : asids_ok vmms → vmms !! p = Some v → asids_ok (<[p := set_vmm_vma l v]> vmms).
Proof.
  intros Ha Hp q r u w Hq Hr E.
  assert (Hl : ∀ q u, <[p := set_vmm_vma l v]> vmms !! q = Some u → ∃ u', vmms !! q = Some u' ∧ vmm_asid u' = vmm_asid u).
  { intros q' u' Hq'. apply lookup_insert_Some in Hq' as [[<- <-]|[_ Hq']]; eauto. }
  destruct (Hl _ _ Hq) as (u' & Hq' & Eu), (Hl _ _ Hr) as (w' & Hr' & Ew). eapply Ha; [done..|congruence].
Qed.

Lemma spaces_insert vmms p v l asid vpn :
  asids_ok vmms → vmms !! p = Some v →
  spaces (<[p := set_vmm_vma l v]> vmms) asid vpn =
    if bool_decide (asid = vmm_asid v) then page_table l vpn else spaces vmms asid vpn.
Proof.
  intros Ha Hp. pose proof (asids_ok_insert _ _ _ l Ha Hp) as Ha'. case_bool_decide as E.
  - subst. rewrite (spaces_eq _ p (set_vmm_vma l v)); [done|done|apply lookup_insert_eq].
  - destruct (space_case vmms asid) as [(q & w & Hq & <-)|Hn].
    + rewrite !(spaces_eq _ q w); try done. rewrite lookup_insert_ne; [done|]. intros <-. congruence.
    + rewrite !spaces_none; [done|done|]. intros q w [(<- & <-)|[_ Hq]]%lookup_insert_Some; [done|by eapply Hn].
Qed.
