(* ===== verification/Threads.v ===== *)
(** * Kernel threads ([kernel/proc/thread.c])

    [THREAD_STACK_SIZE] and the layout of [struct thread] determine the addresses
    of the links and the timer embedded in a thread.  [malloc] does not clear
    memory: the initial contents of a structure are parameters. *)
From S2P Require Import Prelude CList Cpu Malloc KHeap KTime Tlb Kernel Sched Vmm.

Definition THREAD_STACK_SIZE : Z := 4096.
Definition TF_NONE : Z := 0.
Definition TF_NEW_VMM : Z := 1.

Definition sizeof_thread : Z := 92.

(** [&thread->timer] and [&thread->wait_queue_link]; [thread->link] is at 0. *)
Definition thread_timer (thread : Z) : Z := thread + 44.
Definition thread_wait_queue_link (thread : Z) : Z := thread + 72.

(** The interrupt mask bits of the Status register. *)
Definition CP0_STATUS_IM_MASK : Z := 0xff00.

Section code.
  Context {H : Type} `{KernelHeap H}.
  Context (runnable_list : Z).
  Context (junk_thread : thread) (junk_timer : timer) (junk_link : link_t).

(** [for (i = 0; i < MAX_CPU; i++) current_thread[i] = NULL] *)
Fixpoint threads_init_loop (count : nat) (i : Z) : KM (kernel H) unit :=
  match count with
  | O => mret ()
  | S count =>
    kmodify (set_k_current <[i := NULL]>) ;;
    threads_init_loop count (i + 1)
  end.

Definition threads_init : KM (kernel H) unit := threads_init_loop (Z.to_nat MAX_CPU) 0.

(** Memory that becomes a structure, and back. *)
Definition malloc_thread : KM (kernel H) Z :=
  p ← in_heap (km_malloc sizeof_thread);
  if bool_decide (p ≠ NULL) then
    kmodify (set_k_threads <[p := junk_thread]>) ;;
    kmodify (set_k_timers <[thread_timer p := junk_timer]>) ;;
    kmodify (set_k_links (λ m, <[p := junk_link]> (<[thread_timer p := junk_link]>
      (<[thread_wait_queue_link p := junk_link]> m)))) ;;
    mret p
  else mret p.

Definition free_thread (p : Z) : KM (kernel H) unit :=
  get_thread id p ;;
  kmodify (set_k_threads (delete p)) ;;
  kmodify (set_k_timers (delete (thread_timer p))) ;;
  kmodify (set_k_links (λ m, delete p (delete (thread_timer p) (delete (thread_wait_queue_link p) m)))) ;;
  in_heap (km_free p).

(** The control structure of a new thread, from [link_init] to the context. *)
Definition thread_setup (thread : Z) (entry : code) (data : Z) : KM (kernel H) unit :=
  link_init thread ;;
  upd_thread (set_th_entry_func entry) thread ;;
  upd_thread (set_th_entry_data data) thread ;;
  upd_thread (set_th_retval NULL) thread ;;
  upd_thread (set_th_process NULL) thread ;;
  upd_thread (set_th_uthread NULL) thread ;;
  upd_thread (set_th_scheduled 0) thread ;;
  upd_thread (set_th_state THREAD_READY) thread ;;
  upd_thread (set_th_joiner NULL) thread ;;
  link_init (thread_wait_queue_link thread) ;;
  upd_thread (set_th_stack_top
    (Context [FStub thread] (Z.lor CP0_STATUS_IE_MASK CP0_STATUS_IM_MASK))) thread.

(** The memory map of a new thread: a new one, or that of the current thread.  The
    return code of [vmm_create]. *)
Definition thread_choose_vmm (thread current flags : Z) : KM (kernel H) Z :=
  if bool_decide (current = NULL) || bool_decide (Z.land flags TF_NEW_VMM = TF_NEW_VMM) then
    '(rc, vmm) ← vmm_create;
    (if bool_decide (rc = EOK) then upd_thread (set_th_vmm vmm) thread else mret ()) ;;
    mret rc
  else
    vmm ← get_thread th_vmm current;
    upd_thread (set_th_vmm vmm) thread ;;
    mret EOK.

(** [thread_create] from the choice of the memory map on. *)
Definition thread_create_vmm (entry : code) (data flags thread : Z) : KM (kernel H) (Z * Z) :=
  state ← query_and_disable_interrupts;
  current ← get_current;
  rc ← thread_choose_vmm thread current flags;
  if bool_decide (rc ≠ EOK) then
    stack ← get_thread th_stack_data thread;
    in_heap (km_free stack) ;;
    free_thread thread ;;
    mret (rc, NULL)
  else
    conditionally_enable_interrupts state ;;
    thread_setup thread entry data ;;
    sched_insert runnable_list thread ;;
    mret (EOK, thread).

(** The return code and the new thread. *)
Definition thread_create (entry : code) (data flags : Z) : KM (kernel H) (Z * Z) :=
  thread ← malloc_thread;
  if bool_decide (thread = NULL) then mret (ENOMEM, NULL)
  else
    upd_thread (set_th_stack_size THREAD_STACK_SIZE) thread ;;
    stack ← in_heap (km_malloc THREAD_STACK_SIZE);
    upd_thread (set_th_stack_data stack) thread ;;
    if bool_decide (stack = NULL) then
      free_thread thread ;;
      mret (ENOMEM, NULL)
    else
      thread_create_vmm entry data flags thread.

Definition thread_yield : KM (kernel H) unit := schedule runnable_list.

Definition thread_suspend : KM (kernel H) unit :=
  state ← query_and_disable_interrupts;
  current ← get_current;
  upd_thread (set_th_state THREAD_SLEEPING) current ;;
  sched_remove current ;;
  push_frame (FSuspend state) ;;
  schedule runnable_list.

Definition thread_wakeup (thread : Z) : KM (kernel H) Z :=
  state ← query_and_disable_interrupts;
  st ← get_thread th_state thread;
  (if bool_decide (st = THREAD_SLEEPING) then
     upd_thread (set_th_state THREAD_READY) thread ;;
     sched_insert runnable_list thread
   else mret ()) ;;
  conditionally_enable_interrupts state ;;
  mret EOK.

Definition thread_timeout_handler (timer data : Z) : KM (kernel H) unit :=
  thread_wakeup data ;;
  mret ().

Definition thread_can_join (thread : Z) : KM (kernel H) bool :=
  state ← query_and_disable_interrupts;
  current ← get_current;
  conditionally_enable_interrupts state ;;
  if bool_decide (thread = current) then mret false
  else
    joiner ← get_thread th_joiner thread;
    if bool_decide (joiner ≠ NULL) then mret false else mret true.

Definition thread_set_process (process uthread : Z) : KM (kernel H) unit :=
  state ← query_and_disable_interrupts;
  current ← get_current;
  upd_thread (set_th_process process) current ;;
  upd_thread (set_th_uthread uthread) current ;;
  conditionally_enable_interrupts state.

Definition thread_get_process : KM (kernel H) Z :=
  state ← query_and_disable_interrupts;
  current ← get_current;
  process ← get_thread th_process current;
  conditionally_enable_interrupts state ;;
  mret process.

Definition thread_get_uthread : KM (kernel H) Z :=
  state ← query_and_disable_interrupts;
  current ← get_current;
  uthread ← get_thread th_uthread current;
  conditionally_enable_interrupts state ;;
  mret uthread.

Definition thread_finish (retval : Z) : KM (kernel H) unit :=
  query_and_disable_interrupts ;;
  current ← get_current;
  upd_thread (set_th_state THREAD_ZOMBIE) current ;;
  sched_remove current ;;
  upd_thread (set_th_retval retval) current ;;
  joiner ← get_thread th_joiner current;
  (if bool_decide (joiner ≠ NULL) then
     joiner ← get_thread th_joiner current;
     thread_wakeup joiner ;; mret ()
   else mret ()) ;;
  push_frame FFinish ;;
  schedule runnable_list.

Definition thread_destroy (thread : Z) : KM (kernel H) unit :=
  stack ← get_thread th_stack_data thread;
  in_heap (km_free stack) ;;
  free_thread thread.

(** The end of [thread_join]: the thread is (meant to be) a zombie. *)
Definition thread_join_reap (thread thread_retval status : Z) : KM (kernel H) unit :=
  (if bool_decide (thread_retval ≠ NULL) then
     retval ← get_thread th_retval thread;
     kmodify (set_k_out <[thread_retval := retval]>)
   else mret ()) ;;
  thread_destroy thread ;;
  conditionally_enable_interrupts status ;;
  return_value EOK.

Definition thread_join (thread thread_retval : Z) : KM (kernel H) unit :=
  status ← query_and_disable_interrupts;
  current ← get_current;
  can_join ← thread_can_join thread;
  if (can_join : bool) then
    st ← get_thread th_state thread;
    if bool_decide (st ≠ THREAD_ZOMBIE) then
      upd_thread (set_th_joiner current) thread ;;
      push_frame (FJoin thread thread_retval status) ;;
      thread_suspend
    else thread_join_reap thread thread_retval status
  else
    conditionally_enable_interrupts status ;;
    return_value EINVAL.

End code.
