(* ===== verification/Timers.v ===== *)
(** * Timers ([kernel/time/timer.c]), sleeping, and the running kernel

    The timer framework, [thread_sleep]/[thread_usleep], [sched_timer], the entry
    stub of a thread, the idle thread, and the dispatch on frames that resumes
    suspended functions. *)
From S2P Require Import Prelude CList Cpu Malloc KHeap KTime Tlb Kernel Sched Vmm Threads.

Section code.
  Context {H : Type} `{KernelHeap H}.
  Context (runnable_list timers_list : Z).

(** A list has at most as many links as there are. *)
Definition foreach_timer {R} (body : Z → KM (kernel H) (option R)) : KM (kernel H) (option R) := λ s,
  list_foreach (S (size (k_links s))) timers_list body s.

Definition timer_pending (timer : Z) : KM (kernel H) bool := link_connected timer.
Definition timer_remove (timer : Z) : KM (kernel H) unit := list_remove timer.

(** Is the timer at [timer] due? *)
Definition timer_expired (timer : Z) : KM (kernel H) (option Z) :=
  expires ← get_timer ti_expires timer;
  jiffies ← kgets k_jiffies;
  mret (if expires <? jiffies then Some timer else None).

Definition timers_run : KM (kernel H) unit :=
  due ← foreach_timer timer_expired;
  match due with
  | Some _ =>
    timer_thread ← kgets k_timer_thread;
    thread_wakeup runnable_list timer_thread ;;
    mret ()
  | None => mret ()
  end.

Definition timer_init_jiffies (timer timeout : Z) (handler : code) (data : Z) : KM (kernel H) unit :=
  link_init timer ;;
  upd_timer (set_ti_expires 0) timer ;;
  upd_timer (set_ti_timeout timeout) timer ;;
  upd_timer (set_ti_running false) timer ;;
  upd_timer (set_ti_handler handler) timer ;;
  upd_timer (set_ti_data data) timer.

Definition timer_start (timer : Z) : KM (kernel H) unit :=
  status ← query_and_disable_interrupts;
  jiffies ← kgets k_jiffies;
  timeout ← get_timer ti_timeout timer;
  upd_timer (set_ti_expires (wrap (jiffies + timeout))) timer ;;
  list_append timers_list timer ;;
  conditionally_enable_interrupts status.

(** [timer_destroy] from the inner loop on; [fuel] counts rounds of the outer
    loop. *)
Fixpoint timer_destroy_wait (fuel : nat) (timer status : Z) : KM (kernel H) unit :=
  running ← get_timer ti_running timer;
  if (running : bool) then
    push_frame (FDestroy timer status) ;;
    thread_yield runnable_list
  else
    pending ← timer_pending timer;
    if (pending : bool) then
      match fuel with
      | O => knofuel
      | S fuel => timer_remove timer ;; timer_destroy_wait fuel timer status
      end
    else conditionally_enable_interrupts status.

Definition timer_destroy (timer : Z) : KM (kernel H) unit :=
  status ← query_and_disable_interrupts;
  pending ← timer_pending timer;
  (if (pending : bool) then timer_remove timer else mret ()) ;;
  timer_destroy_wait 1 timer status.

(** The call of a function pointer that may be blocking. *)
Definition call_code (c : code) (arg data : Z) : KM (kernel H) unit :=
  match c with
  | CNull => λ _, Fault
  | CTimerThread => push_frame FTimerLoop
  | CTimeout => thread_timeout_handler runnable_list arg data
  | CIdle => push_frame FIdle
  | CUser entry => push_frame (FUser entry data)
  end.

(** [timer_thread_func], one round of the inner loop. *)
Definition timer_thread_round : KM (kernel H) unit :=
  status ← query_and_disable_interrupts;
  expired_timer ← foreach_timer timer_expired;
  match expired_timer with
  | Some timer =>
    timer_remove timer ;;
    upd_timer (set_ti_running true) timer ;;
    handler ← get_timer ti_handler timer;
    data ← get_timer ti_data timer;
    conditionally_enable_interrupts status ;;
    push_frame (FTimerRan timer) ;;
    (if bool_decide (handler ≠ CNull) then call_code handler timer data else mret ())
  | None =>
    conditionally_enable_interrupts status ;;
    status ← query_and_disable_interrupts;
    conditionally_enable_interrupts status ;;
    push_frame FTimerLoop ;;
    thread_suspend runnable_list
  end.

(** And after the handler. *)
Definition timer_thread_ran (timer : Z) : KM (kernel H) unit :=
  status ← query_and_disable_interrupts;
  upd_timer (set_ti_running false) timer ;;
  conditionally_enable_interrupts status ;;
  push_frame FTimerLoop.

(** ** Sleeping *)
Definition thread_sleep_in (usec : bool) (amount : Z) : KM (kernel H) unit :=
  let timeout := if usec then usec_to_jiffies amount else sec_to_jiffies amount in
  state ← query_and_disable_interrupts;
  current ← get_current;
  upd_thread (set_th_state THREAD_SLEEPING) current ;;
  sched_remove current ;;
  timer_init_jiffies (thread_timer current) timeout CTimeout current ;;
  timer_start (thread_timer current) ;;
  push_frame (FSleep usec current state) ;;
  schedule runnable_list.

Definition thread_sleep (sec : Z) : KM (kernel H) unit := thread_sleep_in false sec.
Definition thread_usleep (usec : Z) : KM (kernel H) unit := thread_sleep_in true usec.

(** After the wake-up: the remaining time is computed and the timer destroyed. *)
Definition thread_sleep_woken (usec : bool) (current state : Z) : KM (kernel H) unit :=
  expires ← get_timer ti_expires (thread_timer current);
  jiffies ← kgets k_jiffies;
  let remains := wrap (expires - jiffies) in
  push_frame (FSleepEnd usec remains state) ;;
  timer_destroy (thread_timer current).

Definition thread_sleep_end (usec : bool) (remains state : Z) : KM (kernel H) unit :=
  conditionally_enable_interrupts state ;;
  return_value (if usec then jiffies_to_usec remains else jiffies_to_sec remains).

(** ** The system timer *)
Definition sched_timer : KM (kernel H) unit :=
  kmodify (λ s, set_k_jiffies (wrap (k_jiffies s + 1)) s) ;;
  timers_run ;;
  timer_setup THREAD_QUANTUM ;;
  current ← get_current;
  timestamp ← timer_get;
  scheduled ← get_thread th_scheduled current;
  if THREAD_QUANTUM <=? wrap (timestamp - scheduled) then schedule runnable_list else mret ().

(** ** Resuming *)
Definition thread_stub (thread : Z) : KM (kernel H) unit :=
  entry_func ← get_thread th_entry_func thread;
  entry_data ← get_thread th_entry_data thread;
  push_frame FStubEnd ;;
  call_code entry_func entry_data entry_data.

(** The end of [handle_general]: the interrupted context comes back. *)
Definition exception_return (status : Z) : KM (kernel H) unit := kmodify (set_cp0_status status).

Definition thread_stub_end : KM (kernel H) unit :=
  retval ← kgets k_ret;
  thread_finish runnable_list retval.

Definition idle : KM (kernel H) unit :=
  push_frame FIdle ;;
  thread_yield runnable_list.

Definition run_frame (f : frame) : KM (kernel H) unit :=
  match f with
  | FUser _ _ => mret ()
  | FStub thread => thread_stub thread
  | FStubEnd => thread_stub_end
  | FIdle => idle
  | FSwitch state => conditionally_enable_interrupts state
  | FSchedule state => conditionally_enable_interrupts state
  | FSuspend state => conditionally_enable_interrupts state
  | FFinish => kpanic
  | FBoot => kpanic
  | FJoin thread retval status => thread_join_reap thread retval status
  | FSleep usec current state => thread_sleep_woken usec current state
  | FSleepEnd usec remains state => thread_sleep_end usec remains state
  | FDestroy timer status => timer_destroy_wait 1 timer status
  | FTimerLoop => timer_thread_round
  | FTimerRan timer => timer_thread_ran timer
  | FException status => exception_return status
  end.

(** The running thread executes what is on top of its stack. *)
Definition resume : KM (kernel H) unit := f ← pop_frame; run_frame f.

End code.

Section init.
  Context {H : Type} `{KernelHeap H}.
  Context (runnable_list timers_list : Z).
  Context (junk_thread : thread) (junk_timer : timer) (junk_link : link_t).

Definition timers_init : KM (kernel H) Z :=
  list_init timers_list ;;
  '(rc, thread) ← thread_create runnable_list junk_thread junk_timer junk_link CTimerThread NULL 0;
  (if bool_decide (rc = EOK) then kmodify (set_k_timer_thread thread) else mret ()) ;;
  mret rc.

End init.
