(* ===== verification/Exc.v ===== *)
(** * Exceptions ([kernel/mm/tlb.c], [kernel/exc/exc.c], [int.c], [syscall.c])

    The C handlers, called by [handle_general] and [handle_tlb_refill] (see [Mips]) with
    the saved registers.  [printk] leaves the state modelled here alone: the messages
    are omitted. *)
From S2P Require Import Prelude CList Cpu Malloc KHeap Tlb Cp0 Kernel Sched Vmm Threads Timers.

(** The members of [context_t] the handlers use. *)
Record registers := Registers {
  rg_v0 : Z;
  rg_a0 : Z;
  rg_a1 : Z;
  rg_a2 : Z;
  rg_a3 : Z;
  rg_epc : Z;
  rg_cause : Z;
  rg_badva : Z;
  rg_entryhi : Z;
}.

Definition set_rg_v0 (v : Z) (r : registers) : registers :=
  Registers v (rg_a0 r) (rg_a1 r) (rg_a2 r) (rg_a3 r) (rg_epc r) (rg_cause r) (rg_badva r) (rg_entryhi r).
Definition set_rg_epc (v : Z) (r : registers) : registers :=
  Registers (rg_v0 r) (rg_a0 r) (rg_a1 r) (rg_a2 r) (rg_a3 r) v (rg_cause r) (rg_badva r) (rg_entryhi r).

Section code.
  Context {H : Type} `{KernelHeap H}.
  Context (runnable_list : Z).

(** ** TLB exceptions: a thread that accesses unmapped memory is finished *)
Definition tlb_invalid (registers : registers) : KM (kernel H) unit :=
  let virt := rg_badva registers in
  found ← vmm_mapping_find virt;
  match found with
  | (_, Some phys) =>
    let vpn := Z.shiftr virt PAGE_WIDTH in
    let pfn := Z.shiftr phys FRAME_WIDTH in
    write_cp0_entryhi (rg_entryhi registers) ;;
    tlb_probe ;;
    index ← read_cp0_index;
    if negb (CP0_INDEX_P index =? 0) then tlb_store_random vpn pfn else tlb_store_indexed vpn pfn
  | (_, None) => thread_get_current ;; thread_finish runnable_list NULL
  end.

Definition wrapped_tlb_refill (registers : registers) : KM (kernel H) unit :=
  let virt := rg_badva registers in
  found ← vmm_mapping_find virt;
  match found with
  | (_, Some phys) => tlb_store_random (Z.shiftr virt PAGE_WIDTH) (Z.shiftr phys FRAME_WIDTH)
  | (_, None) => thread_get_current ;; thread_finish runnable_list NULL
  end.

(** ** System calls *)
Definition set_pr_retval (v : Z) (x : process) : process :=
  Process (pr_ustack_top x) (pr_main_uthread x) (pr_image x) (pr_size x) v.

Definition process_set_retval (process retval : Z) : KM (kernel H) unit :=
  state ← query_and_disable_interrupts;
  x ← kload (λ s, k_processes s !! process);
  kmodify (set_k_processes <[process := set_pr_retval retval x]>) ;;
  conditionally_enable_interrupts state.

(** A handler yields its result, or nothing when it has given up the processor for good. *)
Definition sys_exit (retval : Z) : KM (kernel H) (option Z) :=
  process ← thread_get_process;
  if bool_decide (process = NULL) then mret (Some EINVAL)
  else process_set_retval process retval ;; thread_finish runnable_list NULL ;; mret None.

Definition sys_thread_self : KM (kernel H) (option Z) :=
  uthread ← thread_get_uthread; mret (Some uthread).

Definition SYSCALL_COUNT : Z := 15.

Section syscall.
  (** The entries of [syscall_table] behind [sys_exit]; [sys_thread_self] is one of them. *)
  Context (handlers : list (Z → Z → Z → Z → KM (kernel H) (option Z))).

Definition syscall_table : list (Z → Z → Z → Z → KM (kernel H) (option Z)) :=
  (λ a0 _ _ _, sys_exit a0) :: handlers.

(** The saved registers afterwards.  When the thread has been finished they are never
    loaded again. *)
Definition syscall (registers : registers) : KM (kernel H) Exc.registers :=
  let registers := set_rg_epc (wrap (rg_epc registers + 4)) registers in
  if rg_v0 registers <? SYSCALL_COUNT then
    enable_interrupts ;;
    handler ← kload (λ _, syscall_table !! Z.to_nat (rg_v0 registers));
    result ← handler (rg_a0 registers) (rg_a1 registers) (rg_a2 registers) (rg_a3 registers);
    match result with
    | Some v => disable_interrupts ;; mret (set_rg_v0 (wrap v) registers)
    | None => mret registers
    end
  else thread_get_current ;; thread_finish runnable_list NULL ;; mret registers.

(** ** Interrupts and the dispatch *)

(** The keyboard driver and the timer interrupt. *)
Context (kbd_handle sched_timer : KM (kernel H) unit).

Definition interrupt (registers : registers) : KM (kernel H) unit :=
  let cause := rg_cause registers in
  (if negb (Z.land cause CP0_CAUSE_IP4_MASK =? 0) then kbd_handle else mret ()) ;;
  (if negb (Z.land cause CP0_CAUSE_IP7_MASK =? 0) then sched_timer else mret ()).

(** The saved registers afterwards: those the interrupted code goes on with when its
    thread has the processor again. *)
Definition wrapped_general (registers : registers) : KM (kernel H) Exc.registers :=
  let code := CP0_CAUSE_EXCCODE (rg_cause registers) in
  if code =? CP0_CAUSE_EXCCODE_INT then interrupt registers ;; mret registers
  else if code =? CP0_CAUSE_EXCCODE_SYS then syscall registers
  else if (code =? CP0_CAUSE_EXCCODE_TLBL) || (code =? CP0_CAUSE_EXCCODE_TLBS) then
    tlb_invalid registers ;; mret registers
  else if (code =? CP0_CAUSE_EXCCODE_ADEL) || (code =? CP0_CAUSE_EXCCODE_ADES) then kpanic
  else if (code =? CP0_CAUSE_EXCCODE_BP) || (code =? CP0_CAUSE_EXCCODE_TR) || (code =? CP0_CAUSE_EXCCODE_OV) then kpanic
  else if code =? CP0_CAUSE_EXCCODE_CPU then kpanic
  else if code =? CP0_CAUSE_EXCCODE_RI then kpanic
  else kpanic.

End syscall.
End code.
