(* ===== verification/SchedExec.v ===== *)
(** * Scheduling: what the operations compute

    Symbolic execution of the context switch and of the scheduler: each operation
    is shown to return and its final state is given explicitly. *)
From S2P Require Import Prelude CList Cpu Malloc KHeap Tlb Kernel Sched.

(** ** Field accesses *)
Section access.
  Context {H : Type} `{KernelHeapLaws H}.
  Implicit Types (s : kernel H).

Lemma get_thread_ok {A} (f : thread → A) p t s :
  k_threads s !! p = Some t → get_thread f p s = Ok (f t, s).
Proof. intros Ht. unfold get_thread, kload. by rewrite Ht. Qed.

Lemma upd_thread_ok f p t s :
  k_threads s !! p = Some t → upd_thread f p s = Ok (tt, set_k_threads <[p := f t]> s).
Proof. intros Ht. unfold upd_thread. by erewrite bind_ok by (by apply get_thread_ok). Qed.

Lemma get_timer_ok {A} (f : timer → A) p t s :
  k_timers s !! p = Some t → get_timer f p s = Ok (f t, s).
Proof. intros Ht. unfold get_timer, kload. by rewrite Ht. Qed.

Lemma upd_timer_ok f p t s :
  k_timers s !! p = Some t → upd_timer f p s = Ok (tt, set_k_timers <[p := f t]> s).
Proof. intros Ht. unfold upd_timer. by erewrite bind_ok by (by apply get_timer_ok). Qed.

Lemma get_vmm_ok {A} (f : vmm → A) p t s :
  k_vmms s !! p = Some t → get_vmm f p s = Ok (f t, s).
Proof. intros Ht. unfold get_vmm, kload. by rewrite Ht. Qed.

Lemma upd_vmm_ok f p t s :
  k_vmms s !! p = Some t → upd_vmm f p s = Ok (tt, set_k_vmms <[p := f t]> s).
Proof. intros Ht. unfold upd_vmm. by erewrite bind_ok by (by apply get_vmm_ok). Qed.

Lemma get_current_ok s t : k_current s !! k_cpu s = Some t → get_current s = Ok (t, s).
Proof. intros Ht. unfold get_current, kload. by rewrite Ht. Qed.

Lemma in_heap_ok {A} (m : KM H A) a h s :
  m (k_heap s) = Ok (a, h) → in_heap m s = Ok (a, set_k_heap h s).
Proof. intros Hm. unfold in_heap. by rewrite Hm. Qed.

Lemma set_heap_same s : set_k_heap (k_heap s) s = s.
Proof. by destruct s. Qed.

(** The list operations touch nothing but the links. *)
Lemma writes_kernel (P : Z → Prop) s s' :
  writes P s s' → ∃ l, s' = set_k_links (λ _, l) s ∧ writes P (k_links s) l.
Proof.
  induction 1 as [s|s s' p v Hw (l & -> & Hl) Hp|s s' p v Hw (l & -> & Hl) Hp].
  - exists (k_links s). split; [by destruct s|constructor].
  - eexists. split; [reflexivity|]. by apply (writes_prev (M := links)).
  - eexists. split; [reflexivity|]. by apply (writes_next (M := links)).
Qed.

Lemma is_list_kernel s h xs : is_list s h xs ↔ is_list (M := links) (k_links s) h xs.
Proof.
  assert (Hp : ∀ ns, path s ns ↔ path (M := links) (k_links s) ns).
  { induction ns as [|a [|b ns] IH]; [done|done|]. cbn [path] in *. by rewrite IH. }
  unfold is_list. by rewrite Hp.
Qed.

Lemma is_list_links s s' h xs : k_links s' = k_links s → is_list s h xs → is_list s' h xs.
Proof.
  intros Heq [Hp Hs]. split; [|done]. eapply path_frame; [..|exact Hp]; intros p _; cbn; by rewrite Heq.
Qed.

Lemma unlinked_links s s' p : k_links s' = k_links s → unlinked s p → unlinked s' p.
Proof. intros Heq Hu. unfold unlinked in *. cbn in *. by rewrite Heq. Qed.
Lemma link_init_kernel s q :
  q ≠ NULL → is_Some (k_links s !! q) → link_init q s = Ok (tt, set_k_links <[q := Link NULL NULL]> s).
Proof.
  intros Hq [v Hv]. rewrite link_init_exec; [|done|].
  2:{ unfold mapped. cbn. rewrite Hv. split; by eexists. }
  do 2 f_equal. apply kernel_ext; try reflexivity. cbn. apply map_eq. intros x.
  destruct (decide (x = q)) as [->|Hx].
  - by rewrite !lookup_alter_eq, lookup_insert_eq, Hv.
  - by rewrite !lookup_alter_ne, lookup_insert_ne by done.
Qed.
End access.

Ltac kexec_step :=
  first
    [ erewrite bind_ok by (apply ints_query_exec)
    | erewrite bind_ok by (by apply get_current_ok)
    | erewrite bind_ok by (by apply get_thread_ok)
    | erewrite bind_ok by (by apply get_timer_ok)
    | erewrite bind_ok by (by apply get_vmm_ok)
    | erewrite bind_ok by (by apply upd_thread_ok)
    | erewrite bind_ok by (by apply upd_timer_ok)
    | erewrite bind_ok by (by apply upd_vmm_ok)
    | erewrite bind_ok by reflexivity ].

(** ** The context switch *)

(** What becomes of the control structures: [new] is stamped and running, [old] is
    no longer running and has its context saved. *)
Definition switched (old new : Z) (ctx : context) (t : Z) (th : thread) : thread :=
  let th := if bool_decide (t = old ∧ th_state th = THREAD_RUNNING) then set_th_state THREAD_READY th else th in
  let th := if bool_decide (t = new) then set_th_state THREAD_RUNNING th else th in
  if bool_decide (t = old) then set_th_stack_top ctx th else th.

Definition switch_threads (old new : Z) (ctx : context) (T : gmap Z thread) : gmap Z thread :=
  map_imap (λ t th, Some (switched old new ctx t th)) T.

Lemma lookup_switch old new ctx T t :
  switch_threads old new ctx T !! t = switched old new ctx t <$> T !! t.
Proof. unfold switch_threads. rewrite map_lookup_imap. by destruct (T !! t). Qed.

(** The steps of [thread_switch] on the structures: the current thread becomes ready if it
    was running, ... *)
Definition readied (old : Z) (tho : thread) (T : gmap Z thread) : gmap Z thread :=
  if bool_decide (th_state tho = THREAD_RUNNING) then <[old := set_th_state THREAD_READY tho]> T else T.

Lemma lookup_readied old tho T t :
  T !! old = Some tho →
  readied old tho T !! t =
    (λ th, if bool_decide (t = old ∧ th_state th = THREAD_RUNNING) then set_th_state THREAD_READY th else th) <$> T !! t.
Proof.
  intros Ho. unfold readied. destruct (decide (t = old)) as [->|Hne].
  - rewrite Ho. cbn. case_bool_decide; [rewrite lookup_insert_eq, bool_decide_eq_true_2 by done|
      rewrite Ho, bool_decide_eq_false_2 by tauto]; done.
  - transitivity (T !! t); [case_bool_decide; by rewrite ?lookup_insert_ne|].
    destruct (T !! t); [|done]. cbn. by rewrite bool_decide_eq_false_2 by tauto.
Qed.

(** ... and [new] becomes running; then the context of [old] is saved. *)
Lemma switch_threads_eq old new saved T tho thn1 tho2 :
  T !! old = Some tho → readied old tho T !! new = Some thn1 →
  <[new := set_th_state THREAD_RUNNING thn1]> (readied old tho T) !! old = Some tho2 →
  <[old := set_th_stack_top saved tho2]> (<[new := set_th_state THREAD_RUNNING thn1]> (readied old tho T)) =
    switch_threads old new saved T.
Proof.
  intros Ho Hn Ho2. apply map_eq. intros t. rewrite lookup_switch. unfold switched.
  rewrite lookup_readied in Hn by done. destruct (decide (t = old)) as [->|Hto].
  - rewrite lookup_insert_eq. destruct (decide (old = new)) as [<-|Hne].
    + rewrite lookup_insert_eq in Ho2. injection Ho2 as <-. rewrite Ho in Hn |- *. cbn in Hn |- *. injection Hn as <-.
      by rewrite !(bool_decide_eq_true_2 (old = old)).
    + rewrite lookup_insert_ne, lookup_readied in Ho2 by done. rewrite Ho in Ho2 |- *. injection Ho2 as <-. cbn.
      by rewrite (bool_decide_eq_true_2 (old = old)), (bool_decide_eq_false_2 (old = new)).
  - rewrite lookup_insert_ne by done. rewrite (bool_decide_eq_false_2 (t = old)) by done.
    destruct (decide (t = new)) as [->|Htn].
    + rewrite lookup_insert_eq. destruct (T !! new); [|done]. cbn in Hn |- *. injection Hn as <-.
      by rewrite (bool_decide_eq_true_2 (new = new)).
    + rewrite lookup_insert_ne, lookup_readied by done. destruct (T !! t); [|done]. cbn.
      by rewrite (bool_decide_eq_false_2 (t = new)).
Qed.

(** The part of the EntryHi register that selects the address space. *)
Definition with_asid (asid : Z) (t : tlb) : tlb :=
  put_hi (Z.lor (Z.land (tlb_hi t) (Z.lnot CP0_ENTRYHI_ASID_MASK)) asid) t.

Section switch.
  Context {H : Type} `{KernelHeapLaws H}.
  Implicit Types (s : kernel H).

Lemma cpu_switch_exec s old new asid tho thn :
  old ≠ NULL → k_threads s !! old = Some tho → k_threads s !! new = Some thn →
  let saved := Context (k_stack s) (cp0_status s) in
  let ctx := if bool_decide (old = new) then saved else th_stack_top thn in
  cpu_switch_context old new asid s =
    Ok (tt, set_k_heap (set_cp0_status (cx_status ctx) (k_heap s))
      (set_k_stack (cx_frames ctx)
        (set_k_tlb (with_asid asid (k_tlb s))
          (set_k_threads <[old := set_th_stack_top saved tho]> s)))).
Proof.
  intros Hnull Ho Hn saved ctx. unfold cpu_switch_context.
  do 2 (erewrite bind_ok by reflexivity). rewrite bool_decide_eq_true_2 by done.
  fold saved. kexec_step. unfold disable_interrupts. do 3 (erewrite bind_ok by reflexivity).
  assert (Hctx : ∀ s', k_threads s' = <[old := set_th_stack_top saved tho]> (k_threads s) →
    get_thread th_stack_top new s' = Ok (ctx, s')).
  { intros s' Heq. unfold ctx. case_bool_decide as E; [subst new|]; unfold get_thread, kload; rewrite Heq.
    - by rewrite lookup_insert_eq.
    - rewrite lookup_insert_ne by done. by rewrite Hn. }
  erewrite bind_ok by (by apply Hctx).
  erewrite bind_ok by reflexivity. unfold kmodify.
  do 2 f_equal. apply kernel_ext; try reflexivity.
  cbn. by rewrite set_cp0_status_set.
Qed.

(** The state in which [new] runs. *)
Definition switch_state (old new asid : Z) (ctx : context) s : kernel H :=
  let saved := Context (FSwitch (Z.land (cp0_status s) CP0_STATUS_IE_MASK) :: k_stack s)
                 (Z.land (cp0_status s) (Z.lnot CP0_STATUS_IE_MASK)) in
  let ctx := if bool_decide (old = new) then saved else ctx in
  set_k_heap (set_cp0_status (cx_status ctx) (k_heap s))
    (set_k_stack (cx_frames ctx)
      (set_k_tlb (with_asid asid (k_tlb s))
        (set_k_threads (switch_threads old new saved)
          (set_k_current <[k_cpu s := new]> s)))).

Lemma thread_switch_exec s old new tho thn v :
  k_current s !! k_cpu s = Some old → old ≠ NULL →
  k_threads s !! old = Some tho → k_threads s !! new = Some thn →
  k_vmms s !! th_vmm thn = Some v →
  thread_switch new s = Ok (tt, switch_state old new (vmm_asid v) (th_stack_top thn) s).
Proof.
  intros Hcur Hnull Ho Hn Hv. unfold thread_switch. kexec_step. kexec_step.
  rewrite bool_decide_eq_true_2 by done. rewrite bind_assoc. kexec_step.
  set (T1 := readied old tho (k_threads s)). set (s0 := ints_masked s).
  assert (He1 : (if bool_decide (th_state tho = THREAD_RUNNING)
      then upd_thread (set_th_state THREAD_READY) old else mret ()) s0 = Ok (tt, set_k_threads (λ _, T1) s0)).
  { unfold T1, readied. case_bool_decide; [by erewrite upd_thread_ok|]. by destruct s. }
  assert (Hn1 : ∃ thn1, T1 !! new = Some thn1 ∧ th_vmm thn1 = th_vmm thn ∧ th_stack_top thn1 = th_stack_top thn).
  { unfold T1. rewrite lookup_readied, Hn by done. cbn. eexists. split; [done|]. by destruct (bool_decide (new = old ∧ _)). }
  destruct Hn1 as (thn1 & Hn1 & Hvm & Hstk). erewrite bind_ok by exact He1. erewrite bind_ok by reflexivity.
  erewrite bind_ok by (apply upd_thread_ok; exact Hn1).
  erewrite bind_ok by (apply get_thread_ok, lookup_insert_eq). cbn [set_th_state th_vmm]. rewrite Hvm.
  erewrite bind_ok by (by apply get_vmm_ok). erewrite bind_ok by reflexivity.
  set (T2 := <[new := set_th_state THREAD_RUNNING thn1]> T1).
  assert (Ho2 : is_Some (T2 !! old)).
  { unfold T2. rewrite lookup_insert_is_Some'. right. unfold T1. rewrite lookup_readied, Ho by done. by eexists. }
  destruct Ho2 as [tho2 Ho2]. erewrite cpu_switch_exec; [|done|exact Ho2|apply lookup_insert_eq].
  cbn [set_th_state th_stack_top]. rewrite Hstk. do 2 f_equal. unfold switch_state.
  assert (Hst : cp0_status s0 = Z.land (cp0_status s) (Z.lnot CP0_STATUS_IE_MASK)) by apply cp0_status_set.
  apply kernel_ext; try reflexivity.
  - cbn. by rewrite !set_cp0_status_set, !cp0_status_set.
  - cbn [k_threads set_k_threads set_k_heap set_k_stack set_k_tlb set_k_current k_stack cp0_status].
    match goal with |- context [Context _ (cp0_status ?x)] => change (cp0_status x) with (cp0_status s0) end.
    rewrite Hst. by apply switch_threads_eq.
  - cbn. by destruct (bool_decide (old = new)).
Qed.
End switch.

(** ** The scheduler *)
Section scheduler.
  Context {H : Type} `{KernelHeapLaws H}.
  Context (runnable_list : Z).
  Implicit Types (s : kernel H).

Definition run_queue s : Z := runnable_list_of runnable_list (k_cpu s).

(** What [schedule] does before it switches to the thread at the head. *)
Definition schedule_state (l : links) (x : Z) (thx : thread) s : kernel H :=
  set_k_stack (FSchedule (Z.land (cp0_status s) CP0_STATUS_IE_MASK) :: k_stack s)
    (set_k_threads <[x := set_th_scheduled (k_count s) thx]>
      (set_k_links (λ _, l) (ints_masked s))).

Lemma is_list_status s v h xs : is_list s h xs → is_list (set_cp0_status v s) h xs.
Proof. by apply is_list_links. Qed.

Lemma schedule_exec s x xs old tho thx v :
  is_list s (run_queue s) (x :: xs) →
  k_current s !! k_cpu s = Some old → old ≠ NULL →
  k_threads s !! old = Some tho → k_threads s !! x = Some thx → k_vmms s !! th_vmm thx = Some v →
  ∃ l, schedule runnable_list s =
      Ok (tt, switch_state old x (vmm_asid v) (th_stack_top thx) (schedule_state l x thx s)) ∧
    is_list (M := links) l (run_queue s) (xs ++ [x]) ∧ writes (.∈ run_queue s :: x :: xs) (k_links s) l.
Proof.
  intros Hl Hcur Hnull Ho Hx Hv.
  destruct (list_rotate_spec (ints_masked s) _ _ _ (is_list_status _ _ _ _ Hl)) as (s1 & He & Hl1 & Hw).
  apply writes_kernel in Hw as (l & -> & Hw). exists l. split; [|split].
  - unfold schedule. kexec_step. erewrite bind_ok by reflexivity.
    erewrite bind_ok by exact He.
    rewrite bool_decide_eq_true_2.
    2: { apply (is_list_nonnull _ _ _ x Hl). right. left. }
    erewrite bind_ok by reflexivity. erewrite bind_ok by (apply upd_thread_ok; exact Hx).
    erewrite bind_ok by reflexivity.
    set (s2 := set_k_stack _ _). change s2 with (schedule_state l x thx s).
    destruct (decide (old = x)) as [->|Hne].
    + eapply (thread_switch_exec _ x x _ (set_th_scheduled (k_count s) thx) v); try done;
        cbn; apply lookup_insert_eq.
    + eapply (thread_switch_exec _ old x tho (set_th_scheduled (k_count s) thx) v); try done; cbn.
      * by rewrite lookup_insert_ne.
      * apply lookup_insert_eq.
  - by apply is_list_kernel in Hl1.
  - exact Hw.
Qed.

Lemma schedule_empty s : is_list s (run_queue s) [] → schedule runnable_list s = Ok (tt, s).
Proof.
  intros Hl. unfold schedule. kexec_step. erewrite bind_ok by reflexivity.
  erewrite bind_ok by (apply list_rotate_empty, is_list_status; exact Hl).
  rewrite bool_decide_eq_false_2 by (intros Hn; by apply Hn).
  rewrite (ints_restore s) by done. unfold ints_masked.
  by rewrite set_cp0_status_set, set_cp0_status_same.
Qed.

(** [sched_insert] and [sched_remove] *)
Lemma status_restored s l :
  conditionally_enable_interrupts (Z.land (cp0_status s) CP0_STATUS_IE_MASK)
    (set_k_links (λ _, l) (ints_masked s)) = Ok (tt, set_k_links (λ _, l) s).
Proof.
  rewrite (ints_restore s) by done. do 2 f_equal. apply kernel_ext; try reflexivity.
  cbn. by rewrite set_cp0_status_set, set_cp0_status_same.
Qed.

Lemma sched_insert_exec s xs t :
  is_list s (run_queue s) xs → t ≠ NULL → mapped s t → Forall (λ y, t ≠ y) (run_queue s :: xs) →
  ∃ l, sched_insert runnable_list t s = Ok (tt, set_k_links (λ _, l) s) ∧
    is_list (M := links) l (run_queue s) (xs ++ [t]) ∧ writes (.∈ t :: run_queue s :: xs) (k_links s) l.
Proof.
  intros Hl Hnull Hm Hsep.
  destruct (list_append_spec (ints_masked s) _ _ t (is_list_status _ _ _ _ Hl) Hnull Hm Hsep) as (s1 & He & Hl1 & Hw).
  apply writes_kernel in Hw as (l & -> & Hw). apply is_list_kernel in Hl1. exists l. split; [|by split].
  unfold sched_insert. kexec_step. erewrite bind_ok by reflexivity. erewrite bind_ok by exact He.
  apply status_restored.
Qed.

Lemma sched_remove_exec s xs t ys :
  is_list s (run_queue s) (xs ++ t :: ys) →
  ∃ l, sched_remove t s = Ok (tt, set_k_links (λ _, l) s) ∧
    is_list (M := links) l (run_queue s) (xs ++ ys) ∧ unlinked (M := links) l t ∧
    writes (.∈ run_queue s :: xs ++ t :: ys) (k_links s) l.
Proof.
  intros Hl.
  destruct (list_remove_spec (ints_masked s) _ _ _ _ (is_list_status _ _ _ _ Hl)) as (s1 & He & Hl1 & Hu & Hw).
  apply writes_kernel in Hw as (l & -> & Hw). apply is_list_kernel in Hl1. exists l. split; [|by split_and!].
  unfold sched_remove. kexec_step. erewrite bind_ok by exact He. apply status_restored.
Qed.
End scheduler.
