(* ===== verification/VmmTheorems.v ===== *)
(** * Virtual memory areas: lookups, and unmapping keeps the TLB coherent

    What the lookups compute; [memory_ok] says that the TLB holds nothing but translations of
    the page tables; [vma_unmap] takes the area out of the page table of the running thread and
    keeps the invariant.  ([vma_map] is in [VmmMap].) *)
From S2P Require Import Prelude CList Cpu Malloc KHeap Tlb TlbTheorems Kernel Sched Vmm PageTable.
From S2P Require Import SchedExec.

Section exec.
  Context {H : Type} `{KernelHeapLaws H}.
  Implicit Types (s : kernel H).

(** The memory map [v], at [p], of the running thread is in effect. *)
Definition current_space s (p : Z) (v : vmm) : Prop :=
  (∃ t th, k_current s !! k_cpu s = Some t ∧ k_threads s !! t = Some th ∧ th_vmm th = p) ∧
  k_vmms s !! p = Some v ∧
  u32 (tlb_hi (k_tlb s)) ∧ tlb_hi (k_tlb s) mod 256 = vmm_asid v ∧ vmm_asid v ≠ ASID_UNUSED.

(** The TLB caches the page tables: this is what makes memory protection work. *)
Record memory_ok s : Prop := {
  mo_tlb : tlb_wf (k_tlb s);
  mo_random : random_ok (k_tlb s);
  mo_coherent : tlb_coherent (spaces (k_vmms s)) (k_tlb s);
  mo_asids : asids_ok (k_vmms s);
  mo_vmas : ∀ p v, k_vmms s !! p = Some v → vmas_ok (vmm_vma v);
}.

Lemma restored s :
  conditionally_enable_interrupts (Z.land (cp0_status s) CP0_STATUS_IE_MASK) (ints_masked s) = Ok (tt, s).
Proof.
  rewrite (ints_restore s) by done. unfold ints_masked. by rewrite set_cp0_status_set, set_cp0_status_same.
Qed.

Lemma thread_get_current_ok s t : k_current s !! k_cpu s = Some t → thread_get_current s = Ok (t, s).
Proof. intros Ht. unfold thread_get_current. do 2 kexec_step. by erewrite bind_ok by apply restored. Qed.

(** The common beginning of the functions: interrupts off, the current map. *)
Lemma current_prefix {A} (f : vmm → A) (k : A → KM (kernel H) unit) s p v :
  current_space s p v →
  (current ← thread_get_current; vmm ← get_thread th_vmm current; vmas ← get_vmm f vmm; k vmas) (ints_masked s) =
    k (f v) (ints_masked s).
Proof.
  intros ((t & th & Ht & Hth & <-) & Hv & _). erewrite bind_ok by (by apply thread_get_current_ok).
  by do 2 kexec_step.
Qed.

Lemma page_number virt : Z.shiftr virt PAGE_WIDTH = virt / 4096.
Proof. by rewrite Z.shiftr_div_pow2 by done. Qed.

Lemma page_offset virt : Z.land virt (PAGE_SIZE - 1) = virt mod 4096.
Proof. change (PAGE_SIZE - 1) with (Z.ones 12). by rewrite Z.land_ones by done. Qed.

(** The page table is what [vmm_mapping_find] looks up. *)
Lemma find_frame vmas virt :
  vmas_ok vmas → 0 ≤ virt →
  (match i ← first_index (vma_covers (virt / 4096)) vmas; vmas !! i with
   | Some v => (EOK, Some (wrap (wrap (Z.shiftl (wrap (vma_pfn_base v + (virt / 4096 - vma_vpn_base v))) FRAME_WIDTH) + virt mod 4096)))
   | None => (EINVAL, None)
   end) =
  match page_table vmas (virt / 4096) with
  | Some pfn => (EOK, Some (pfn * 4096 + virt mod 4096)) | None => (EINVAL, None) end.
Proof.
  intros Hok Hv. pose proof (page_table_range vmas (virt / 4096)) as Hr.
  unfold page_table in *. destruct (first_index _ _) as [i|] eqn:Ei; [|done]. cbn in *.
  destruct (vmas !! i) as [v|] eqn:Hi; [|done]. cbn in *. specialize (Hr _ Hok eq_refl).
  set (pfn := vma_pfn_base v + _) in *. pose proof (Z.mod_pos_bound virt 4096 ltac:(lia)).
  rewrite (wrap_small pfn) by word_lia. rewrite Z.shiftl_mul_pow2 by done. change (2 ^ FRAME_WIDTH) with 4096.
  rewrite (wrap_small (pfn * 4096)) by word_lia. by rewrite wrap_small by word_lia.
Qed.

Lemma vmm_mapping_find_exec s p v virt :
  current_space s p v → vmas_ok (vmm_vma v) → 0 ≤ virt →
  vmm_mapping_find virt s =
    Ok (match page_table (vmm_vma v) (virt / 4096) with
        | Some pfn => (EOK, Some (pfn * 4096 + virt mod 4096)) | None => (EINVAL, None) end, s).
Proof.
  intros ((t & th & Ht & Hth & <-) & Hv & _) Hok Hvirt. unfold vmm_mapping_find. kexec_step.
  erewrite bind_ok by (by apply thread_get_current_ok). do 2 kexec_step. cbv zeta.
  rewrite page_number, page_offset. erewrite bind_ok by apply restored.
  unfold mret, KM_ret. f_equal. f_equal. apply find_frame; done.
Qed.
End exec.

(** ** Virtual memory areas: mapping and unmapping keep the TLB coherent

    [memory_ok] says that the TLB holds nothing but translations of the page tables;
    [vma_unmap] takes the area out of the page table of the running thread and keeps
    the invariant.  ([vma_map] is in [VmmMap].) *)

(** ** Flushing a range of pages *)

(** No valid translation of the pair of pages [v2] in address space [asid]. *)
Definition purged (t : tlb) (asid v2 : Z) : Prop :=
  ∀ e odd, e ∈ tlb_entries t → te_vpn2 e = v2 → te_asid e = asid → lo_valid (te_half odd e) = false.

Lemma flushed_purged t addr t' :
  tlb_wf t → u32 addr → u32 (tlb_hi t) → tlb_hi t mod 256 ≠ ASID_UNUSED → flushed t addr t' →
  purged t' (tlb_hi t mod 256) (addr / 8192) ∧
  ∀ v2, purged t (tlb_hi t mod 256) v2 → purged t' (tlb_hi t mod 256) v2.
Proof.
  intros Hwf Ha Hu Hna (Hhi & Hr & Hcase). destruct (flush_hi_spec addr (tlb_hi t) Ha Hu) as (Hfu & Hfv & Hfa).
  set (e' := TlbEntry 0 (flush_hi addr (tlb_hi t)) 0 0) in *.
  assert (Hinv : ∀ odd, lo_valid (te_half odd e') = false) by (by intros []).
  destruct Hcase as [[Heq Hno]|(i & e & Hi & Hve & Hae & Heq)]; unfold purged; rewrite Heq.
  - split; [|done]. intros e odd He Hv Has. by destruct (Hno e He Hv Has).
  - pose proof Hwf as (_ & _ & Huniq). split.
    + intros e2 odd (j & Hj)%list_elem_of_lookup Hv2 Ha2.
      apply list_lookup_insert_Some in Hj as [(_ & <- & _)|[Hne Hj]]; [apply Hinv|].
      destruct Hne. eapply Huniq; [exact Hi|exact Hj|congruence|]. split; congruence.
    + intros v2 Hp e2 odd (j & Hj)%list_elem_of_lookup Hv2 Ha2.
      apply list_lookup_insert_Some in Hj as [(_ & <- & _)|[Hne Hj]]; [apply Hinv|].
      apply Hp; [|done..]. by eapply list_elem_of_lookup_2.
Qed.

(** Page tables may lose pages that have been flushed. *)
#[export] Instance in_vma_dec v vpn : Decision (in_vma v vpn).
Proof. unfold in_vma. apply _. Defined.

Lemma coherent_purged (f g : Z → Z → option Z) t asid :
  tlb_coherent f t → (∀ a vpn, g a vpn = f a vpn ∨ (a = asid ∧ purged t asid (vpn / 2))) → tlb_coherent g t.
Proof.
  unfold tlb_coherent. rewrite !Forall_forall. intros Hc Hg e He odd Hv.
  destruct (Hg (te_asid e) (2 * te_vpn2 e + Z.b2z odd)) as [->|[Ha Hp]]; [by apply Hc|].
  exfalso. rewrite (Hp e odd) in Hv; [done|done| |done]. destruct odd; cbn; Z.div_mod_to_equations; lia.
Qed.

Lemma coherent_extends (f g : Z → Z → option Z) t :
  tlb_coherent f t → (∀ a vpn pfn, f a vpn = Some pfn → g a vpn = Some pfn) → tlb_coherent g t.
Proof. unfold tlb_coherent. rewrite !Forall_forall. intros Hc Hg e He odd Hv. by apply Hg, Hc. Qed.

Section theorems.
  Context {H : Type} `{KernelHeapLaws H}.
  Implicit Types (s : kernel H).

Lemma page_address vpn : 0 ≤ vpn < 2 ^ 20 → wrap (Z.shiftl (wrap vpn) FRAME_WIDTH) = vpn * 4096.
Proof.
  intros Hv. rewrite (wrap_small vpn) by word_lia. rewrite Z.shiftl_mul_pow2 by done.
  change (2 ^ FRAME_WIDTH) with 4096. apply wrap_small. word_lia.
Qed.

Lemma vma_flush_exec (f : Z → Z → option Z) count vpn pos s :
  0 ≤ vpn → 0 ≤ pos → vpn + pos + Z.of_nat count ≤ 2 ^ 20 →
  tlb_wf (k_tlb s) → random_ok (k_tlb s) → tlb_coherent f (k_tlb s) →
  u32 (tlb_hi (k_tlb s)) → tlb_hi (k_tlb s) mod 256 ≠ ASID_UNUSED →
  let asid := tlb_hi (k_tlb s) mod 256 in
  ∃ t', vma_flush count vpn pos s = Ok (tt, set_k_tlb t' s) ∧ tlb_wf t' ∧ random_ok t' ∧ tlb_coherent f t' ∧
    tlb_hi t' = tlb_hi (k_tlb s) ∧
    (∀ v2, purged (k_tlb s) asid v2 → purged t' asid v2) ∧
    ∀ k, pos ≤ k < pos + Z.of_nat count → purged t' asid ((vpn + k) / 2).
Proof.
  revert pos s. induction count as [|count IH]; intros pos s Hv Hp Hb Hwf Hr Hco Hu Hna asid; cbn [vma_flush].
  - exists (k_tlb s). split; [by destruct s|]. split_and!; try done. lia.
  - set (addr := (vpn + pos) * 4096). rewrite (page_address (vpn + pos)) by lia. fold addr.
    assert (Ha : u32 addr) by (unfold addr; word_lia).
    destruct (tlb_flush_exec (S := kernel H) addr s) as (t1 & He & Hf); [done..|]. cbn [get_tlb kernel_tlb] in Hf.
    destruct (flushed_spec f _ _ _ Hwf Ha Hu Hna Hco Hf) as (Hwf1 & Hco1 & _).
    destruct (flushed_purged _ _ _ Hwf Ha Hu Hna Hf) as [Hp1 Hk1].
    assert (Haddr : addr / 8192 = (vpn + pos) / 2) by (unfold addr; Z.div_mod_to_equations; lia).
    destruct Hf as (Hhi1 & Hr1 & _). erewrite bind_ok by exact He.
    destruct (IH (pos + 1) (set_tlb t1 s)) as (t2 & He2 & Hwf2 & Hr2 & Hco2 & Hhi2 & Hk2 & Hp2);
      cbn [k_tlb set_k_tlb set_tlb kernel_tlb]; [done|lia|lia|done| |done|by rewrite Hhi1|by rewrite Hhi1|].
    { unfold random_ok. by rewrite Hr1. }
    cbn [k_tlb set_k_tlb set_tlb kernel_tlb] in *. rewrite Hhi1 in Hhi2, Hk2, Hp2.
    exists t2. split; [exact He2|]. split_and!; try done.
    + intros v2 H2. by apply Hk2, Hk1.
    + intros k Hk. destruct (decide (k = pos)) as [->|]; [|apply Hp2; lia].
      apply Hk2. rewrite <- Haddr. exact Hp1.
Qed.

Lemma aligned from : (ALIGN_DOWN from PAGE_SIZE =? from) = (from mod 4096 =? 0).
Proof.
  unfold ALIGN_DOWN. change (PAGE_SIZE - 1) with (2 ^ 12 - 1). rewrite land_lnot_ones by done.
  change (2 ^ 12) with 4096. apply Bool.eq_iff_eq_true. rewrite !Z.eqb_eq. lia.
Qed.

(** Nothing but the heap, the memory maps and the TLB differs. *)
Definition same_but_memory s s' : Prop :=
  s' = set_k_heap (k_heap s') (set_k_vmms (λ _, k_vmms s') (set_k_tlb (k_tlb s') s)) ∧
  cp0_status s' = cp0_status s ∧ tlb_hi (k_tlb s') = tlb_hi (k_tlb s).

(** The frames of the areas belong to the kernel. *)
Definition frames_owned (vmas : list vma) (owned : Z → Prop) : Prop :=
  ∀ i w a, vmas !! i = Some w → vma_valid w = true → in_frames (vma_pfn_base w * 4096) (vma_count w) a → owned a.

Definition invalid (w : vma) : vma := Vma (vma_vpn_base w) (vma_pfn_base w) (vma_count w) false.

(** The map of the running thread is changed to [l], the TLB to [t']. *)
Lemma memory_ok_update s s' p v l :
  memory_ok s → k_vmms s !! p = Some v → k_vmms s' = <[p := set_vmm_vma l v]> (k_vmms s) →
  vmas_ok l → tlb_wf (k_tlb s') → random_ok (k_tlb s') →
  tlb_coherent (spaces (<[p := set_vmm_vma l v]> (k_vmms s))) (k_tlb s') → memory_ok s'.
Proof.
  intros [_ _ _ Ha Hvm] Hp Hv Hl Hwf Hr Hco. split; try done; rewrite Hv.
  - done.
  - by apply asids_ok_insert.
  - intros q w [(<- & <-)|[_ Hq]]%lookup_insert_Some; [done|by eapply Hvm].
Qed.

Lemma vma_unmap_exec s p v from i w live owned :
  memory_ok s → current_space s p v → kh_rep (k_heap s) live owned → frames_owned (vmm_vma v) owned →
  from mod 4096 = 0 → vmm_vma v !! i = Some w → vma_valid w = true → vma_vpn_base w = from / 4096 →
  first_index (λ v, vma_valid v && (vma_vpn_base v =? from / 4096)) (vmm_vma v) = Some i →
  ∃ s', vma_unmap from s = Ok (EOK, s') ∧ same_but_memory s s' ∧
    k_vmms s' = <[p := set_vmm_vma (<[i := invalid w]> (vmm_vma v)) v]> (k_vmms s) ∧
    kh_rep (k_heap s') live (λ a, owned a ∧ ¬ in_frames (vma_pfn_base w * 4096) (vma_count w) a) ∧
    tlb_wf (k_tlb s') ∧ random_ok (k_tlb s') ∧ tlb_coherent (spaces (k_vmms s)) (k_tlb s') ∧
    (∀ vpn, in_vma w vpn → purged (k_tlb s') (vmm_asid v) (vpn / 2)).
Proof.
  intros [Htlb Hrand Hco Hasid Hvmas] Hcur Hrep Hown Hal Hi Hval Hbase Hfirst.
  destruct Hcur as ((t & th & Ht & Hth & Hvm) & Hv & Hu & Has & Hna).
  destruct (Hvmas _ _ Hv) as [Hall _]. rewrite Forall_lookup in Hall.
  destruct (Hall i w Hi Hval) as (Hb0 & Hc0 & Hb1 & Hp0 & Hp1).
  destruct (km_frame_free_law (k_heap (ints_masked s)) live owned (vma_pfn_base w * 4096) (vma_count w))
    as (h' & Hfree & Hst & Hrep'); [by apply kh_rep_status|done|by exists (vma_pfn_base w)|lia|unfold FRAME_SIZE; lia| |].
  { intros a Ha. by eapply Hown. }
  set (s1 := set_k_heap h' (ints_masked s)).
  destruct (vma_flush_exec (spaces (k_vmms s)) (Z.to_nat (vma_count w)) (from / 4096) 0 s1)
    as (t' & Hfl & Hwf' & Hr' & Hco' & Hhi' & _ & Hpur); try done; [lia|lia|by rewrite <- Has in Hna|].
  change (k_tlb s1) with (k_tlb s) in *.
  set (l := <[i := invalid w]> (vmm_vma v)).
  set (s2 := set_k_vmms <[p := set_vmm_vma l v]> (set_k_tlb t' s1)).
  exists (set_cp0_status (cp0_status s) s2). split.
  { unfold vma_unmap. rewrite aligned, (proj2 (Z.eqb_eq _ _) Hal). cbn [negb]. rewrite page_number. kexec_step.
    erewrite bind_ok by (by apply thread_get_current_ok). kexec_step. rewrite Hvm. kexec_step. rewrite Hfirst.
    rewrite (bind_ok _ _ _ EOK s2); [by erewrite bind_ok by (by apply (ints_restore s))|].
    erewrite bind_ok by (by apply load_some).
    rewrite Z.shiftl_mul_pow2 by done. change (2 ^ FRAME_WIDTH) with 4096.
    rewrite wrap_small by word_lia. erewrite bind_ok by (by apply in_heap_ok).
    rewrite bool_decide_eq_false_2 by tauto. rewrite bind_assoc. fold s1. erewrite bind_ok by exact Hfl.
    erewrite bind_ok by (apply upd_vmm_ok; exact Hv). done. }
  split; [|split; [done|split; [by apply kh_rep_status|split; [done|split; [done|split; [done|]]]]]].
  - split; [destruct s; done|]. split; [apply cp0_status_set|exact Hhi'].
  - intros vpn [_ Hin]. rewrite <- Has. replace vpn with (from / 4096 + (vpn - from / 4096)) by lia. apply Hpur. lia.
Qed.

(** The page table after an area was given up. *)
Lemma unmapped_table vmas i w vpn :
  vmas_ok vmas → vmas !! i = Some w →
  vmas_ok (<[i := invalid w]> vmas) ∧
  (in_vma w vpn → page_table (<[i := invalid w]> vmas) vpn = None) ∧
  (¬ in_vma w vpn → page_table (<[i := invalid w]> vmas) vpn = page_table vmas vpn).
Proof.
  intros Hok Hi. assert (Hn : ∀ k, ¬ in_vma (invalid w) k) by (by intros k [? _]).
  assert (Hok' : vmas_ok (<[i := invalid w]> vmas)).
  { apply vmas_ok_replace; [done|by intros ?|]. intros j u k _ _ _. apply Hn. }
  destruct (page_table_replace vmas i w (invalid w) vpn Hok Hok' Hi) as (_ & H2 & H3). eauto.
Qed.

(** C15. [vma_unmap] removes the area that begins at the address, and no other page;
    its frames are given back; and no translation of its pages is left in the TLB,
    which stays coherent with all page tables.  An address that is not aligned or at
    which no area begins gives [EINVAL], and nothing happens. *)
Theorem vma_unmap_correct s p v from live owned :
  memory_ok s → current_space s p v → kh_rep (k_heap s) live owned → frames_owned (vmm_vma v) owned → u32 from →
  ∃ rc s', vma_unmap from s = Ok (rc, s') ∧ same_but_memory s s' ∧ memory_ok s' ∧
    ((rc = EINVAL ∧ s' = s ∧
      (from mod 4096 ≠ 0 ∨ ∀ w, w ∈ vmm_vma v → vma_valid w = true → vma_vpn_base w ≠ from / 4096)) ∨
     (rc = EOK ∧ ∃ w v', w ∈ vmm_vma v ∧ vma_valid w = true ∧ vma_vpn_base w * 4096 = from ∧
        k_vmms s' !! p = Some v' ∧ vmm_asid v' = vmm_asid v ∧
        (∀ vpn, in_vma w vpn → page_table (vmm_vma v') vpn = None) ∧
        (∀ vpn, ¬ in_vma w vpn → page_table (vmm_vma v') vpn = page_table (vmm_vma v) vpn) ∧
        (∀ virt, u32 virt → in_vma w (virt / 4096) → tlb_translate virt (vmm_asid v) (k_tlb s') = None) ∧
        kh_rep (k_heap s') live (λ a, owned a ∧ ¬ in_frames (vma_pfn_base w * 4096) (vma_count w) a))).
Proof.
  intros Hmem Hcur Hrep Hown Hfrom.
  assert (Hsame : same_but_memory s s) by (by destruct s).
  destruct (decide (from mod 4096 = 0)) as [Hal|Hal].
  2:{ exists EINVAL, s. split; [|split; [done|split; [done|left; eauto]]].
      unfold vma_unmap. by rewrite aligned, (proj2 (Z.eqb_neq _ _) Hal). }
  pose proof Hcur as ((t & th & Ht & Hth & Hvm) & Hv & Hu & Has & Hna).
  destruct (first_index (λ v, vma_valid v && (vma_vpn_base v =? from / 4096)) (vmm_vma v)) as [i|] eqn:Hfirst.
  2:{ exists EINVAL, s. split; [|split; [done|split; [done|left; split; [done|split; [done|right]]]]].
      - unfold vma_unmap. rewrite aligned, (proj2 (Z.eqb_eq _ _) Hal). cbn [negb]. rewrite page_number. kexec_step.
        erewrite bind_ok by (by apply thread_get_current_ok). kexec_step. rewrite Hvm. kexec_step. rewrite Hfirst.
        kexec_step. by erewrite bind_ok by apply restored.
      - intros w Hw Hval Hb. pose proof (first_index_none _ _ _ Hfirst Hw) as Hf. cbn beta in Hf.
        by rewrite Hval, (proj2 (Z.eqb_eq _ _) Hb) in Hf. }
  destruct (first_index_some _ _ _ Hfirst) as (w & Hi & Hw). apply andb_true_iff in Hw as [Hval Hb%Z.eqb_eq].
  destruct (vma_unmap_exec s p v from i w live owned) as (s' & He & Hsame' & Hvs & Hrep' & Hwf' & Hr' & Hco' & Hpur); try done.
  pose proof (mo_vmas _ Hmem _ _ Hv) as Hok. set (l := <[i := invalid w]> (vmm_vma v)) in *.
  assert (Hmem' : memory_ok s').
  { eapply (memory_ok_update s s' p v l); try done; [by eapply (unmapped_table _ i w 0)|].
    eapply (coherent_purged _ _ _ (vmm_asid v)); [exact Hco'|]. intros a vpn.
    rewrite spaces_insert by (done || apply Hmem). case_bool_decide as Ea; [|by left]. subst a.
    destruct (unmapped_table (vmm_vma v) i w vpn Hok Hi) as (_ & _ & Hout).
    destruct (decide (in_vma w vpn)) as [Hin|Hn]; [right; split; [done|by apply Hpur]|].
    left. fold l in Hout. rewrite (Hout Hn). symmetry. by apply (spaces_eq _ p), Hv; apply Hmem. }
  exists EOK, s'. split; [done|split; [done|split; [done|right; split; [done|]]]].
  assert (Hv' : k_vmms s' !! p = Some (set_vmm_vma l v)) by (rewrite Hvs; apply lookup_insert_eq).
  exists w, (set_vmm_vma l v). split; [by eapply list_elem_of_lookup_2|]. split; [done|].
  split; [Z.div_mod_to_equations; lia|]. split; [done|]. split; [done|].
  split; [intros vpn; by apply unmapped_table|]. split; [intros vpn; by apply unmapped_table|]. split; [|done].
  intros virt Hvirt Hin. destruct (tlb_translate virt (vmm_asid v) (k_tlb s')) as [pfn|] eqn:E; [|done]. exfalso.
  pose proof (Z.mod_pos_bound (tlb_hi (k_tlb s)) 256 ltac:(lia)) as Hab. rewrite Has in Hab.
  apply (translate_coherent _ _ _ _ _ (mo_tlb _ Hmem') (mo_coherent _ Hmem')) in E; [|done|done].
  change (vmm_asid v) with (vmm_asid (set_vmm_vma l v)) in E.
  rewrite (spaces_eq _ _ _ _ (mo_asids _ Hmem') Hv') in E.
  destruct (unmapped_table (vmm_vma v) i w (virt / 4096) Hok Hi) as (_ & Hnone & _).
  change (page_table l (virt / 4096) = Some pfn) in E. fold l in Hnone. by rewrite (Hnone Hin) in E.
Qed.
End theorems.
