(* ===== verification/VmmMap.v ===== *)
(** * [vma_map]: a new area *)
From S2P Require Import Prelude CList Cpu Malloc KHeap Tlb TlbTheorems Kernel Sched Vmm PageTable SchedExec VmmTheorems.

(** ** The address that is looked for *)
Definition auto_step (vpn : Z) (v : vma) : Z :=
  if vma_valid v && (vma_vpn_base v <? 0x40000) && (vpn <? vma_end v) then vma_end v else vpn.

Lemma auto_step_le vpn v : vpn ≤ auto_step vpn v.
Proof. unfold auto_step. destruct (vma_valid v), (_ <? 0x40000); cbn; try lia. destruct (Z.ltb_spec vpn (vma_end v)); lia. Qed.

Lemma auto_fold_le l vpn : vpn ≤ foldl auto_step vpn l.
Proof.
  revert vpn. induction l as [|v l IH]; intros vpn; cbn; [lia|]. pose proof (auto_step_le vpn v). specialize (IH (auto_step vpn v)). lia.
Qed.

(** The address lies behind all areas that begin in the first gigabyte. *)
Lemma auto_above vmas w vpn :
  Forall vma_ok vmas → w ∈ vmas → vma_vpn_base w < 0x40000 → in_vma w vpn → vpn < vma_map_auto vmas.
Proof.
  unfold vma_map_auto. change (λ vpn v, _) with auto_step. generalize 0 as n.
  intros n Hok Hw Hb Hv. revert n Hw. induction Hok as [|v l Hv0 Hok IH]; intros n Hw; [by inversion Hw|].
  cbn. apply elem_of_cons in Hw as [->|Hw]; [|by apply IH].
  pose proof (auto_fold_le l (auto_step n v)). destruct Hv as [Hval Hin].
  assert (vma_end v ≤ auto_step n v).
  { unfold auto_step. rewrite Hval, (proj2 (Z.ltb_lt _ _) Hb). cbn. destruct (Z.ltb_spec n (vma_end v)); lia. }
  rewrite (vma_end_spec v Hv0 Hval) in *. lia.
Qed.

Lemma auto_range vmas : Forall vma_ok vmas → 0 ≤ vma_map_auto vmas ≤ 2 ^ 20.
Proof.
  unfold vma_map_auto. change (λ vpn v, _) with auto_step. intros Hok.
  cut (∀ n, 0 ≤ n ≤ 2 ^ 20 → 0 ≤ foldl auto_step n vmas ≤ 2 ^ 20); [intros Hc; apply Hc; lia|]. induction Hok as [|v l Hv Hok IH]; intros n Hn; [done|].
  cbn. apply IH. unfold auto_step. destruct (vma_valid v) eqn:Hval; cbn; [|done].
  destruct (_ <? _); cbn; [|done]. destruct (Z.ltb_spec n (vma_end v)); [|done].
  rewrite (vma_end_spec v Hv Hval) in *. destruct (Hv Hval) as (? & ? & ? & _). lia.
Qed.

(** Where the area will be: as given, or behind the areas of the map. *)
Definition map_target (vmas : list vma) (from flags : Z) : option Z :=
  if has_flag flags VF_VA_AUTO then
    if vma_map_auto vmas =? 0 then None else Some (wrap (Z.shiftl (vma_map_auto vmas) PAGE_WIDTH))
  else Some from.

(** The area [addr, addr + size) is in the address space and unused. *)
Definition fresh_area (vmas : list vma) (addr size : Z) : Prop :=
  addr + size ≤ word_max ∧
  ∀ w vpn, w ∈ vmas → in_vma w vpn → ¬ addr / 4096 ≤ vpn < addr / 4096 + size / 4096.

Lemma auto_fresh vmas from flags addr size :
  Forall vma_ok vmas → has_flag flags VF_VA_AUTO = true → map_target vmas from flags = Some addr →
  (∀ w, w ∈ vmas → vma_valid w = true → vma_vpn_base w < 0x40000) → vma_map_auto vmas < 2 ^ 20 →
  addr + size ≤ word_max → fresh_area vmas addr size.
Proof.
  intros Hok Hf Ht Hb Hr Hs. split; [done|]. unfold map_target in Ht. rewrite Hf in Ht. case_match; [done|].
  injection Ht as <-. pose proof (auto_range vmas Hok) as Hn.
  intros w vpn Hw Hin. pose proof (auto_above vmas w vpn Hok Hw) as Ha. destruct Hin as [Hval Hin].
  specialize (Ha (Hb w Hw Hval) (conj Hval Hin)).
  rewrite Z.shiftl_mul_pow2 by done. change (2 ^ PAGE_WIDTH) with 4096.
  rewrite wrap_small by word_lia. rewrite Z.div_mul by done. lia.
Qed.

Section theorems.
  Context {H : Type} `{KernelHeapLaws H}.
  Implicit Types (s : kernel H).

(** The flags [vma_map] supports. *)
Definition map_flags (flags : Z) : Prop :=
  xorb (has_flag flags VF_VA_AUTO) (has_flag flags VF_VA_USER) = true ∧
  has_flag flags VF_AT_KSEG0 = false ∧ has_flag flags VF_AT_KSEG1 = false.

Lemma vma_map_prefix s p v from size flags :
  current_space s p v → map_flags flags → size mod 4096 = 0 →
  vma_map from size flags s =
    match map_target (vmm_vma v) from flags with
    | None => Ok ((ENOMEM, from), s)
    | Some addr =>
      if addr mod 4096 =? 0 then
        (rc ← vma_map_at p addr (size / 4096);
         conditionally_enable_interrupts (Z.land (cp0_status s) CP0_STATUS_IE_MASK) ;; mret (rc, addr)) (ints_masked s)
      else Ok ((EINVAL, addr), s)
    end.
Proof.
  intros ((t & th & Ht & Hth & Hvm) & Hv & _) (Hx & H0' & H1') Hs.
  unfold vma_map. rewrite Hx, H0', H1', aligned, (proj2 (Z.eqb_eq _ _) Hs). cbn [orb negb kassert].
  erewrite bind_ok by reflexivity. rewrite page_number. kexec_step.
  erewrite bind_ok by (by apply thread_get_current_ok). kexec_step. rewrite Hvm.
  rewrite (bind_ok _ _ _ (map_target (vmm_vma v) from flags) (ints_masked s)).
  - destruct (map_target (vmm_vma v) from flags) as [addr|]; [|by erewrite bind_ok by apply restored].
    rewrite aligned. destruct (addr mod 4096 =? 0); [done|]. cbn [negb]. by erewrite bind_ok by apply restored.
  - unfold map_target. destruct (has_flag flags VF_VA_AUTO); [|done]. kexec_step. cbn. by destruct (_ =? 0).
Qed.

(** The new area, and the map with it in the first free slot. *)
Definition new_vma (addr phys count : Z) : vma := Vma (addr / 4096) (phys / 4096) count true.

Definition map_enter (w : vma) (vmas : list vma) : list vma :=
  match first_index (λ v, negb (vma_valid v)) vmas with Some i => <[i := w]> vmas | None => vmas end.

Definition map_full (vmas : list vma) : bool := forallb vma_valid vmas.

Lemma full_index vmas : map_full vmas = true → first_index (λ v, negb (vma_valid v)) vmas = None.
Proof.
  intros Hf. unfold map_full in Hf. rewrite forallb_forall in Hf. destruct (first_index _ _) as [i|] eqn:E; [|done].
  apply first_index_some in E as (w & Hw%list_elem_of_lookup_2%list_elem_of_In & Hn). by rewrite (Hf w Hw) in Hn.
Qed.

Lemma room_index vmas : map_full vmas = false → ∃ i, first_index (λ v, negb (vma_valid v)) vmas = Some i.
Proof.
  intros Hf. destruct (first_index _ _) as [i|] eqn:E; [by exists i|]. exfalso.
  assert (Ht : map_full vmas = true); [|congruence]. apply forallb_forall. intros w Hw%list_elem_of_In.
  by apply negb_false_iff, (first_index_none _ _ _ E Hw).
Qed.

Lemma vma_map_at_exec s p v addr count i live owned :
  memory_ok s → current_space s p v → kh_rep (k_heap s) live owned → 0 < count →
  first_index (λ v, negb (vma_valid v)) (vmm_vma v) = Some i →
  ∃ rc phys h', let s1 := set_k_heap h' s in
    vma_map_at p addr count (ints_masked s) =
      Ok (rc, ints_masked (if bool_decide (rc = EOK)
                           then set_k_vmms <[p := set_vmm_vma (<[i := new_vma addr phys count]> (vmm_vma v)) v]> s1 else s1)) ∧
    cp0_status h' = cp0_status s ∧
    ((rc ≠ EOK ∧ kh_rep h' live owned) ∨
     (rc = EOK ∧ (4096 | phys) ∧ 0 ≤ phys ∧ phys + count * 4096 ≤ 2 ^ 29 ∧ (∀ a, in_frames phys count a → ¬ owned a) ∧
      kh_rep h' live (λ a, owned a ∨ in_frames phys count a))) ∧
    ∃ h, km_frame_alloc count (Z.lor VF_VA_AUTO VF_AT_KSEG0) (k_heap (ints_masked s)) = Ok ((rc, phys), h) ∧
      h' = set_cp0_status (cp0_status s) h.
Proof.
  intros Hmem ((t & th & Ht & Hth & Hvm) & Hv & _) Hrep Hc Hfirst.
  destruct (km_frame_alloc_law (k_heap (ints_masked s)) live owned count) as (rc & phys & h' & He & Hst & Hres);
    [by apply kh_rep_status|done|].
  exists rc, phys, (set_cp0_status (cp0_status s) h'). cbn zeta.
  assert (Hm : set_k_heap h' (ints_masked s) = ints_masked (set_k_heap (set_cp0_status (cp0_status s) h') s)).
  { apply kernel_ext; try reflexivity. cbn. rewrite set_cp0_status_set, cp0_status_set. cbn in Hst.
    rewrite cp0_status_set in Hst. rewrite <- Hst. by rewrite set_cp0_status_same. }
  split; [|split; [by rewrite cp0_status_set|split; [|by exists h']]].
  - unfold vma_map_at. kexec_step. rewrite Hfirst. erewrite bind_ok by (apply in_heap_ok; exact He). cbn beta iota.
    rewrite Hm. destruct (decide (rc = EOK)) as [->|Hrc].
    + rewrite bool_decide_eq_false_2, bool_decide_eq_true_2 by tauto. rewrite page_number.
      rewrite Z.shiftr_div_pow2 by done. change (2 ^ FRAME_WIDTH) with 4096.
      by erewrite bind_ok by (apply upd_vmm_ok; exact Hv).
    + by rewrite bool_decide_eq_true_2, bool_decide_eq_false_2 by done.
  - destruct Hres as [[Hrc Hr]|(Hrc & H1' & H2' & H3' & H4' & Hr)]; [left|right].
    + split; [done|]. by apply kh_rep_status.
    + split_and!; try done. by apply kh_rep_status.
Qed.

Lemma in_new addr phys count vpn : in_vma (new_vma addr phys count) vpn ↔ addr / 4096 ≤ vpn < addr / 4096 + count.
Proof. unfold in_vma, new_vma. cbn. tauto. Qed.

(** A fresh area enters the page table. *)
Lemma mapped_table vmas i u addr phys count :
  vmas_ok vmas → vmas !! i = Some u → vma_valid u = false →
  vma_ok (new_vma addr phys count) → fresh_area vmas addr (count * 4096) →
  vmas_ok (<[i := new_vma addr phys count]> vmas) ∧
  ∀ vpn, page_table (<[i := new_vma addr phys count]> vmas) vpn =
    if decide (in_vma (new_vma addr phys count) vpn) then Some (phys / 4096 + (vpn - addr / 4096))
    else page_table vmas vpn.
Proof.
  intros Hok Hi Hu Hn [_ Hf]. rewrite Z.div_mul in Hf by done.
  assert (Hok' : vmas_ok (<[i := new_vma addr phys count]> vmas)).
  { apply vmas_ok_replace; [done|done|]. intros j v vpn _ Hj Hv Hin. apply in_new in Hin.
    by apply (Hf v vpn); [eapply list_elem_of_lookup_2|..]. }
  split; [done|]. intros vpn.
  destruct (page_table_replace vmas i u (new_vma addr phys count) vpn Hok Hok' Hi) as (H1' & _ & H3').
  case_decide as Hd; [by apply H1'|]. apply H3'; [done|]. intros [Hval _]. congruence.
Qed.

(** Entering a fresh area into the map keeps the memory management consistent. *)
Lemma mapped_memory s p v i addr phys count h' :
  memory_ok s → current_space s p v → first_index (λ v, negb (vma_valid v)) (vmm_vma v) = Some i →
  0 < count → 0 ≤ addr → addr mod 4096 = 0 → (4096 | phys) → 0 ≤ phys → phys + count * 4096 ≤ 2 ^ 29 →
  fresh_area (vmm_vma v) addr (count * 4096) →
  let l := <[i := new_vma addr phys count]> (vmm_vma v) in
  memory_ok (set_k_vmms <[p := set_vmm_vma l v]> (set_k_heap h' s)) ∧
  ∀ vpn, page_table l vpn =
    if decide (addr / 4096 ≤ vpn < addr / 4096 + count) then Some (phys / 4096 + (vpn - addr / 4096))
    else page_table (vmm_vma v) vpn.
Proof.
  intros Hmem Hcur Hfirst Hc Haddr Ha [k ->] Hp0 Hp1 Hfresh l. pose proof Hcur as (_ & Hv & _).
  pose proof (mo_vmas _ Hmem _ _ Hv) as Hok. destruct (first_index_some _ _ _ Hfirst) as (u & Hi & Hu%negb_true_iff).
  pose proof Hfresh as [Hend Hf].
  assert (Hnv : vma_ok (new_vma addr (k * 4096) count)).
  { intros _. unfold new_vma. cbn. rewrite word_max_eq in Hend. Z.div_mod_to_equations. lia. }
  destruct (mapped_table (vmm_vma v) i u addr (k * 4096) count Hok Hi Hu Hnv Hfresh) as [Hok' Htab]. split.
  - eapply (memory_ok_update s _ p v); try done; try apply Hmem.
    eapply coherent_extends; [apply Hmem|]. intros a vpn pfn Hpf.
    rewrite spaces_insert by (done || apply Hmem). case_bool_decide as Ea; [subst a|done].
    rewrite (spaces_eq _ p v) in Hpf by (done || apply Hmem). unfold l. rewrite Htab. case_decide as Hd; [|done].
    exfalso. apply in_new in Hd. rewrite Z.div_mul in Hf by done.
    destruct (page_table_case _ vpn Hok) as [(j & w & Hj & Hw & _)|[Hnone _]]; [|congruence].
    by apply (Hf w vpn); [eapply list_elem_of_lookup_2|..].
  - intros vpn. unfold l. rewrite Htab. apply decide_ext, in_new.
Qed.

Lemma map_target_nonneg vmas from flags addr :
  u32 from → map_target vmas from flags = Some addr → 0 ≤ addr.
Proof.
  intros Hfrom. unfold map_target. destruct (has_flag flags VF_VA_AUTO).
  - case_match; [done|]. intros [= <-]. apply wrap_range.
  - intros [= <-]. by destruct Hfrom.
Qed.

(** What a call that succeeds leaves behind: the area [addr, addr + size) is in map [p],
    on frames no one owned. *)
Record area_entered s s' p v (addr size phys flags : Z) live (owned : Z → Prop) : Prop := AreaEntered {
  ae_vmms : k_vmms s' = <[p := set_vmm_vma (map_enter (new_vma addr phys (size / 4096)) (vmm_vma v)) v]> (k_vmms s);
  ae_frames : (4096 | phys) ∧ (∀ a, in_frames phys (size / 4096) a → ¬ owned a);
  ae_heap : kh_rep (k_heap s') live (λ a, owned a ∨ in_frames phys (size / 4096) a);
  ae_table : fresh_area (vmm_vma v) addr size → memory_ok s' ∧
    ∀ vpn, page_table (map_enter (new_vma addr phys (size / 4096)) (vmm_vma v)) vpn =
      if decide (addr / 4096 ≤ vpn < addr / 4096 + size / 4096) then Some (phys / 4096 + (vpn - addr / 4096))
      else page_table (vmm_vma v) vpn;
  ae_auto : has_flag flags VF_VA_AUTO = true → (∀ w, w ∈ vmm_vma v → vma_valid w = true → vma_vpn_base w < 0x40000) →
    vma_map_auto (vmm_vma v) < 2 ^ 20 → addr + size ≤ word_max → fresh_area (vmm_vma v) addr size;
}.

(** All cases. *)
Lemma vma_map_exec s p v from size flags live owned :
  memory_ok s → current_space s p v → kh_rep (k_heap s) live owned →
  u32 from → 0 < size < word_max → map_flags flags →
  ∃ rc addr s', vma_map from size flags s = Ok ((rc, addr), s') ∧
    if negb (size mod 4096 =? 0) then rc = EINVAL ∧ s' = s
    else match map_target (vmm_vma v) from flags with
    | None => rc = ENOMEM ∧ s' = s
    | Some a => addr = a ∧
      if negb (a mod 4096 =? 0) then rc = EINVAL ∧ s' = s
      else if map_full (vmm_vma v) then rc = ENOMEM ∧ s' = s
      else ∃ phys h,
        km_frame_alloc (size / 4096) (Z.lor VF_VA_AUTO VF_AT_KSEG0) (k_heap (ints_masked s)) = Ok ((rc, phys), h) ∧
        k_heap s' = set_cp0_status (cp0_status s) h ∧ same_but_memory s s' ∧
        if bool_decide (rc = EOK) then area_entered s s' p v a size phys flags live owned
        else k_vmms s' = k_vmms s ∧ memory_ok s' ∧ kh_rep (k_heap s') live owned
    end.
Proof.
  intros Hmem Hcur Hrep Hfrom Hsize Hfl. pose proof Hcur as ((t & th & Ht & Hth & Hvm) & Hv & _).
  pose proof (mo_vmas _ Hmem _ _ Hv) as Hok. destruct (Z.eqb_spec (size mod 4096) 0) as [Hal|Hal].
  2:{ exists EINVAL, from, s. split; [|done]. destruct Hfl as (Hx & _).
      unfold vma_map. by rewrite Hx, aligned, (proj2 (Z.eqb_neq _ _) Hal). }
  cbn [negb]. rewrite (vma_map_prefix s p v) by done.
  destruct (map_target (vmm_vma v) from flags) as [addr|] eqn:Htar; [|by exists ENOMEM, from, s].
  destruct (Z.eqb_spec (addr mod 4096) 0) as [Ha|Ha]; [|by exists EINVAL, addr, s]. cbn [negb].
  destruct (map_full (vmm_vma v)) eqn:Hfull.
  { exists ENOMEM, addr, s. split; [|done]. unfold vma_map_at. rewrite bind_assoc. kexec_step.
    rewrite (full_index _ Hfull). erewrite bind_ok by reflexivity. by erewrite bind_ok by apply restored. }
  destruct (room_index _ Hfull) as [i Hfirst].
  assert (Hcount : 0 < size / 4096) by (Z.div_mod_to_equations; lia).
  destruct (vma_map_at_exec s p v addr (size / 4096) i live owned) as (rc & phys & h' & He & Hst & Hres & h & Hh & Eh); try done.
  cbn zeta in He. erewrite bind_ok by exact He.
  set (s' := if bool_decide (rc = EOK) then _ else _) in *.
  assert (Hs' : cp0_status s' = cp0_status s ∧ k_heap s' = h') by (unfold s'; by case_bool_decide). destruct Hs' as [Hs' Hk'].
  rewrite <- Hs'. erewrite bind_ok by apply restored. exists rc, addr, s'. split; [done|]. split; [done|].
  exists phys, h. split; [done|]. rewrite Hs'. split; [by rewrite Hk'|].
  split; [unfold s'; case_bool_decide; destruct s; by repeat split|].
  destruct Hres as [[Hrc Hrep']|(Hrc & Hdiv & Hp0 & Hp1 & Hnew & Hrep')].
  - unfold s'. rewrite bool_decide_eq_false_2 by done. split; [done|split; [|done]]. by destruct Hmem; split.
  - unfold s'. rewrite bool_decide_eq_true_2 by done.
    assert (El : map_enter (new_vma addr phys (size / 4096)) (vmm_vma v) = <[i := new_vma addr phys (size / 4096)]> (vmm_vma v))
      by (unfold map_enter; by rewrite Hfirst).
    split; [by rewrite El|done|done| |].
    + assert (Hsz : size = size / 4096 * 4096) by (Z.div_mod_to_equations; lia). rewrite El. rewrite Hsz at 1.
      intros Hfresh. apply (mapped_memory s p v i addr phys (size / 4096) _); try done.
      by eapply map_target_nonneg.
    + intros Hf Hb Hr Hend. apply (auto_fresh _ from flags); try done. apply Hok.
Qed.

(** C34. [vma_map] in all cases; the first that applies counts.  A size that is no multiple
    of the page size gives [EINVAL]; when an address is looked for and none is found,
    [ENOMEM]; an address that is no multiple of the page size, [EINVAL]; a full map,
    [ENOMEM]; and nothing has changed.  Otherwise the frame allocator is asked for the
    pages of the area, and its answer is the result.  If it has no frames, the memory maps are
    unchanged.  If it has, the area is entered into the first free slot of the map, on
    frames no one owned; and if the area is fresh, which it is when the address was looked
    for and all areas begin in the first gigabyte, its pages, and no others, are mapped
    to these frames and the TLB is coherent with the new page table. *)
Theorem vma_map_correct s p v from size flags live owned :
  memory_ok s → current_space s p v → kh_rep (k_heap s) live owned →
  u32 from → 0 < size < word_max → map_flags flags →
  ∃ rc addr s', vma_map from size flags s = Ok ((rc, addr), s') ∧
    if negb (size mod 4096 =? 0) then rc = EINVAL ∧ s' = s
    else match map_target (vmm_vma v) from flags with
    | None => rc = ENOMEM ∧ s' = s
    | Some a => addr = a ∧
      if negb (a mod 4096 =? 0) then rc = EINVAL ∧ s' = s
      else if map_full (vmm_vma v) then rc = ENOMEM ∧ s' = s
      else ∃ phys h,
        km_frame_alloc (size / 4096) (Z.lor VF_VA_AUTO VF_AT_KSEG0) (k_heap (ints_masked s)) = Ok ((rc, phys), h) ∧
        k_heap s' = set_cp0_status (cp0_status s) h ∧ same_but_memory s s' ∧
        if bool_decide (rc = EOK) then area_entered s s' p v a size phys flags live owned
        else k_vmms s' = k_vmms s ∧ memory_ok s' ∧ kh_rep (k_heap s') live owned
    end.
Proof. exact (vma_map_exec s p v from size flags live owned). Qed.
End theorems.
