(* ===== verification/ExcTheorems.v ===== *)
(** * The TLB exceptions load the page table *)
From S2P Require Import Prelude CList Cpu Malloc KHeap Tlb TlbTheorems Kernel.
From S2P Require Import Sched Vmm PageTable Threads Timers SchedExec VmmTheorems Exc.

Section theorems.
  Context {H : Type} `{KernelHeapLaws H}.
  Context (runnable_list : Z).
  Implicit Types (s : kernel H).

Lemma frame_number pfn virt : 0 ≤ pfn → Z.shiftr (pfn * 4096 + virt mod 4096) FRAME_WIDTH = pfn.
Proof.
  intros Hp. rewrite Z.shiftr_div_pow2 by done. change (2 ^ FRAME_WIDTH) with 4096.
  pose proof (Z.mod_pos_bound virt 4096 ltac:(lia)). rewrite Z.div_add_l by done. rewrite Z.div_small by done. lia.
Qed.

(** The TLB is replaced by a coherent one. *)
Lemma memory_ok_tlb s t' :
  memory_ok s → tlb_wf t' → random_ok t' → tlb_coherent (spaces (k_vmms s)) t' → memory_ok (set_k_tlb t' s).
Proof. intros []. by split. Qed.

(** The TLB caches the page tables as before, and the map is still in effect. *)
Definition loaded s (p : Z) (v : vmm) (virt pfn : Z) (t' : tlb) : Prop :=
  memory_ok (set_k_tlb t' s) ∧ current_space (set_k_tlb t' s) p v ∧ tlb_translate virt (vmm_asid v) t' = Some pfn.

Lemma current_space_tlb s p v t' :
  current_space s p v → u32 (tlb_hi t') → tlb_hi t' mod 256 = vmm_asid v → current_space (set_k_tlb t' s) p v.
Proof. intros (Hc & Hv & _ & _ & Hn) Hu Ha. by split_and!. Qed.

(** The faulting page, as the hardware reports it. *)
Definition faulting s (virt : Z) : Prop :=
  u32 virt ∧ tlb_hi (k_tlb s) / 8192 = virt / 8192.

Lemma refill_exec s p v r pfn :
  memory_ok s → current_space s p v → faulting s (rg_badva r) →
  page_table (vmm_vma v) (rg_badva r / 4096) = Some pfn →
  (∀ e, e ∈ tlb_entries (k_tlb s) → te_match (tlb_hi (k_tlb s)) e = false) →
  ∃ t', tlb_store_random (rg_badva r / 4096) pfn s = Ok (tt, set_k_tlb t' s) ∧
    loaded s p v (rg_badva r) pfn t'.
Proof.
  intros Hmem Hcur [Hvirt Hpage] Hpt Hno. pose proof Hcur as (_ & Hv & Hu & Has & Hna).
  pose proof (page_table_range _ _ _ (mo_vmas _ Hmem _ _ Hv) Hpt) as Hr.
  destruct (store_random_spec (S := kernel H) (spaces (k_vmms s)) (rg_badva r) pfn s) as (t' & He & Hr' & Hhi' & Hwf' & Hco' & Htr);
    try apply Hmem; try done; cbn [get_tlb kernel_tlb].
  - split_and!; try done. by rewrite Has.
  - rewrite Has. by rewrite (spaces_eq _ p v) by (done || apply Hmem).
  - lia.
  - cbn [get_tlb kernel_tlb] in Htr, Hhi'. rewrite Has in Htr. exists t'. split; [exact He|].
    split; [by apply memory_ok_tlb|split; [|done]]. apply current_space_tlb; [done|by rewrite Hhi'..].
Qed.

Lemma index_found i : 0 ≤ i < 48 → CP0_INDEX_P i = 0.
Proof. intros Hi. unfold CP0_INDEX_P. change CP0_INDEX_P_MASK with (2 ^ 31). by rewrite land_small_pow by lia. Qed.

Lemma invalid_exec s p v r pfn :
  memory_ok s → current_space s p v → faulting s (rg_badva r) → rg_entryhi r = tlb_hi (k_tlb s) →
  page_table (vmm_vma v) (rg_badva r / 4096) = Some pfn →
  ∃ t', (write_cp0_entryhi (rg_entryhi r) ;; tlb_probe ;;
         index ← read_cp0_index;
         if negb (CP0_INDEX_P index =? 0) then tlb_store_random (rg_badva r / 4096) pfn
         else tlb_store_indexed (rg_badva r / 4096) pfn) s = Ok (tt, set_k_tlb t' s) ∧
    loaded s p v (rg_badva r) pfn t'.
Proof.
  intros Hmem Hcur [Hvirt Hpage] Hhi Hpt. pose proof Hcur as (_ & Hv & Hu & Has & Hna). set (t := k_tlb s) in *.
  pose proof (page_table_range _ _ _ (mo_vmas _ Hmem _ _ Hv) Hpt) as Hr.
  assert (Hput : put_hi (rg_entryhi r) t = t) by (rewrite Hhi; by destruct t).
  unfold write_cp0_entryhi, tlb_probe, on_tlb, kmodify. do 2 erewrite bind_ok by reflexivity.
  change (set_tlb (tlbp (get_tlb (set_tlb (put_hi (rg_entryhi r) (get_tlb s)) s))) _)
    with (set_tlb (tlbp (put_hi (rg_entryhi r) t)) s). rewrite Hput.
  destruct (first_index (te_match (tlb_hi t)) (tlb_entries t)) as [i|] eqn:Ef.
  - destruct (first_index_some _ _ _ Ef) as (e & Hi & Hm).
    pose proof (mo_tlb _ Hmem) as (Hlen & Hall & _). fold t in Hlen, Hall. rewrite Forall_lookup in Hall.
    apply te_match_spec in Hm as [Hv2 Ha2]; [|by eapply Hall|done].
    assert (Htp : tlbp t = put_index (Z.of_nat i) t) by (unfold tlbp; by rewrite Ef).
    apply lookup_lt_Some in Hi as Hlt. rewrite Htp. erewrite bind_ok by reflexivity.
    cbn [get_tlb kernel_tlb set_tlb k_tlb set_k_tlb tlb_index put_index]. rewrite index_found by lia. cbn [Z.eqb negb].
    destruct (store_indexed_spec (S := kernel H) (spaces (k_vmms s)) (rg_badva r) pfn (set_tlb (put_index (Z.of_nat i) t) s) i e)
      as (t' & He & Hr' & Hhi' & Hwf' & Hco' & Htr); try apply Hmem; try done; cbn [get_tlb kernel_tlb].
    + congruence.
    + congruence.
    + rewrite Ha2, Has. by rewrite (spaces_eq _ p v) by (done || apply Hmem).
    + lia.
    + rewrite Ha2, Has in Htr. exists t'. split; [exact He|]. split; [by apply memory_ok_tlb|split; [|done]].
      destruct (Hall _ _ Hi) as (_ & Hue & _). apply current_space_tlb; [done|by rewrite Hhi'|]. rewrite Hhi'. by transitivity (tlb_hi t mod 256).
  - assert (Hno : ∀ e, e ∈ tlb_entries t → te_match (tlb_hi t) e = false) by (intros e; by apply first_index_none).
    rewrite probe_missing by exact Hno. erewrite bind_ok by reflexivity.
    change (negb (CP0_INDEX_P _ =? 0)) with true. cbv iota.
    destruct (refill_exec (set_k_tlb (put_index CP0_INDEX_P_MASK t) s) p v r pfn) as (t' & He & Hl); try done.
    + apply memory_ok_tlb; [done|apply Hmem..].
    + exists t'. split; [exact He|exact Hl].
Qed.

(** Both handlers. *)
Lemma handlers_exec s p v r :
  memory_ok s → current_space s p v → faulting s (rg_badva r) → rg_entryhi r = tlb_hi (k_tlb s) →
  match page_table (vmm_vma v) (rg_badva r / 4096) with
  | Some pfn =>
    (∃ t', tlb_invalid runnable_list r s = Ok (tt, set_k_tlb t' s) ∧ loaded s p v (rg_badva r) pfn t') ∧
    ((∀ e, e ∈ tlb_entries (k_tlb s) → te_match (tlb_hi (k_tlb s)) e = false) →
     ∃ t', wrapped_tlb_refill runnable_list r s = Ok (tt, set_k_tlb t' s) ∧ loaded s p v (rg_badva r) pfn t')
  | None =>
    tlb_invalid runnable_list r s = thread_finish runnable_list NULL s ∧
    wrapped_tlb_refill runnable_list r s = thread_finish runnable_list NULL s
  end.
Proof.
  intros Hmem Hcur Hf Hhi. pose proof Hcur as ((t & th & Ht & _) & Hv & _). pose proof Hf as [[Hvirt _] _].
  pose proof (mo_vmas _ Hmem _ _ Hv) as Hok.
  pose proof (vmm_mapping_find_exec s p v (rg_badva r) Hcur Hok Hvirt) as Hfind.
  destruct (page_table (vmm_vma v) (rg_badva r / 4096)) as [pfn|] eqn:Hpt.
  - pose proof (page_table_range _ _ _ Hok Hpt) as [Hpfn _]. split.
    + unfold tlb_invalid. erewrite bind_ok by exact Hfind. rewrite page_number, frame_number by done.
      by apply (invalid_exec s p v).
    + intros Hno. unfold wrapped_tlb_refill. erewrite bind_ok by exact Hfind. rewrite page_number, frame_number by done.
      by apply (refill_exec s p v).
  - unfold tlb_invalid, wrapped_tlb_refill. split; erewrite bind_ok by exact Hfind; cbv iota beta;
      by erewrite bind_ok by (by apply thread_get_current_ok).
Qed.

(** C16. The TLB exceptions load the page table of the running thread: when the address is
    mapped, the TLB afterwards translates it to its frame and is again coherent with
    the page tables of all threads, the address space is still that of the thread, and
    nothing else has changed; the refill handler does this when no entry of the page
    pair exists, as the hardware guarantees, the invalid handler in any case.  When the
    address is not mapped, the thread is finished. *)
Theorem tlb_exceptions_correct s p v r :
  memory_ok s → current_space s p v → faulting s (rg_badva r) → rg_entryhi r = tlb_hi (k_tlb s) →
  match page_table (vmm_vma v) (rg_badva r / 4096) with
  | Some pfn =>
    (∃ t', tlb_invalid runnable_list r s = Ok (tt, set_k_tlb t' s) ∧ loaded s p v (rg_badva r) pfn t') ∧
    ((∀ e, e ∈ tlb_entries (k_tlb s) → te_match (tlb_hi (k_tlb s)) e = false) →
     ∃ t', wrapped_tlb_refill runnable_list r s = Ok (tt, set_k_tlb t' s) ∧ loaded s p v (rg_badva r) pfn t')
  | None =>
    tlb_invalid runnable_list r s = thread_finish runnable_list NULL s ∧
    wrapped_tlb_refill runnable_list r s = thread_finish runnable_list NULL s
  end.
Proof. exact (handlers_exec s p v r). Qed.
End theorems.
