(* ===== verification/Paging.v ===== *)
(** * Virtual memory in use ([kernel/mm/tlb.c], [kernel/exc/exc.c])

    A processor that accesses memory by virtual addresses: the kernel of [Kernel] with
    the bytes of the physical memory.  An address of the user segment goes through the
    TLB; without a valid entry the access raises an exception, the handlers of [Exc] run
    and the access is repeated.  (That the assembler code around the handlers restores
    the registers is shown in [MipsExc].) *)
From S2P Require Import Prelude CList Cpu Cp0 Bytes Malloc KHeap Tlb TlbTheorems Kernel Sched Vmm.
From S2P Require Import PageTable Threads Timers Exc SchedExec VmmTheorems ExcTheorems.

(** The registers a user space thread starts with. *)
Record user_registers := UserRegisters { us_pc : Z; us_sp : Z; us_a0 : Z; us_a1 : Z }.

Record processor (H : Type) := Processor {
  po_kernel : kernel H;
  po_mem : Z → Z;                     (** the bytes of the physical memory *)
  po_user : option user_registers;    (** the processor has left the kernel *)
}.
Arguments Processor {H} _ _ _.
Arguments po_kernel {H} _.
Arguments po_mem {H} _.
Arguments po_user {H} _.

Definition set_po_kernel {H} (k : kernel H) (s : processor H) : processor H := Processor k (po_mem s) (po_user s).
Definition set_po_mem {H} (m : Z → Z) (s : processor H) : processor H := Processor (po_kernel s) m (po_user s).
Definition set_po_user {H} (u : option user_registers) (s : processor H) : processor H := Processor (po_kernel s) (po_mem s) u.

(** KUSEG is translated, KSEG0 is a window of the physical memory. *)
Definition KUSEG_END : Z := 0x80000000.
Definition KSEG0_END : Z := 0xa0000000.

Section code.
  Context {H : Type} `{KernelHeap H}.
  Context (runnable_list : Z).
  (** The other handlers of [Exc], and what the remaining registers hold. *)
  Context (handlers : list (Z → Z → Z → Z → KM (kernel H) (option Z))) (kbd_handle sched_timer : KM (kernel H) unit).
  Context (saved : registers).

Definition on_kernel {A} (m : KM (kernel H) A) : KM (processor H) A := λ s,
  match m (po_kernel s) with
  | Ok (a, k) => Ok (a, set_po_kernel k s)
  | Panic => Panic
  | Fault => Fault
  | NoFuel => NoFuel
  end.

(** The hardware sets BadVAddr, Cause and the page of EntryHi.  The refill handler is
    called when no entry of the page exists, the general handler when there is one
    which is not valid. *)
Definition fault_hi (virt hi : Z) : Z :=
  Z.lor (Z.land virt CP0_ENTRYHI_VPN2_MASK) (Z.land hi CP0_ENTRYHI_ASID_MASK).

Definition fault_registers (store : bool) (virt hi : Z) : registers :=
  Registers (rg_v0 saved) (rg_a0 saved) (rg_a1 saved) (rg_a2 saved) (rg_a3 saved) (rg_epc saved)
    (Z.shiftl (if store then CP0_CAUSE_EXCCODE_TLBS else CP0_CAUSE_EXCCODE_TLBL) 2) virt hi.

Definition tlb_exception (store : bool) (virt : Z) : KM (kernel H) unit :=
  hi ← read_cp0_entryhi;
  let hi := fault_hi virt hi in
  write_cp0_entryhi hi ;;
  t ← kgets k_tlb;
  if existsb (te_match hi) (tlb_entries t) then
    wrapped_general runnable_list handlers kbd_handle sched_timer (fault_registers store virt hi) ;; mret ()
  else wrapped_tlb_refill runnable_list (fault_registers store virt hi).

(** The physical address, by the TLB alone. *)
Definition tlb_lookup (virt : Z) (t : tlb) : option Z :=
  pfn ← tlb_translate virt (Z.land (tlb_hi t) CP0_ENTRYHI_ASID_MASK) t;
  Some (pfn * PAGE_SIZE + virt mod PAGE_SIZE).

Definition current_thread : KM (kernel H) (option Z) := kgets (λ k, k_current k !! k_cpu k).

(** The physical address of an access.  A thread that a handler has finished does not go
    on: it is never current again. *)
Definition translate (store : bool) (virt : Z) : KM (kernel H) Z :=
  if virt <? KUSEG_END then
    t ← kgets k_tlb;
    match tlb_lookup virt t with
    | Some phys => mret phys
    | None =>
      before ← current_thread;
      tlb_exception store virt ;;
      after ← current_thread;
      kload (λ k, if bool_decide (before = after) then tlb_lookup virt (k_tlb k) else None)
    end
  else kload (λ _, if virt <? KSEG0_END then Some (virt - KUSEG_END) else None).

Definition po_load8 (virt : Z) : KM (processor H) Z :=
  phys ← on_kernel (translate false virt);
  kload (λ s, Some (po_mem s phys)).

Definition po_store8 (virt v : Z) : KM (processor H) unit :=
  phys ← on_kernel (translate true virt);
  kmodify (λ s, set_po_mem (λ a, if a =? phys then v mod 256 else po_mem s a) s).

#[local] Instance processor_bytes : ByteMemory (processor H) := { load8 := po_load8; store8 := po_store8 }.

End code.

(** ** Accesses through the TLB see the page table *)

Section theorems.
  Context {H : Type} `{KernelHeapLaws H}.
  Context (runnable_list : Z).
  Context (handlers : list (Z → Z → Z → Z → KM (kernel H) (option Z))) (kbd_handle sched_timer : KM (kernel H) unit).
  Context (saved : registers).
  Implicit Types (k : kernel H) (s : processor H).

Local Abbreviation translate := (translate runnable_list handlers kbd_handle sched_timer saved).
Local Abbreviation load8 := (po_load8 runnable_list handlers kbd_handle sched_timer saved).
Local Abbreviation store8 := (po_store8 runnable_list handlers kbd_handle sched_timer saved).

Lemma on_kernel_ok {A} (m : KM (kernel H) A) s a k :
  m (po_kernel s) = Ok (a, k) → on_kernel m s = Ok (a, set_po_kernel k s).
Proof. intros E. unfold on_kernel. by rewrite E. Qed.

(** A translation by the TLB is one by the page table. *)
Lemma lookup_page_table k p v virt phys :
  memory_ok k → current_space k p v → u32 virt → tlb_lookup virt (k_tlb k) = Some phys →
  ∃ pfn, page_table (vmm_vma v) (virt / 4096) = Some pfn ∧ phys = pfn * 4096 + virt mod 4096.
Proof.
  intros Hmem (_ & Hv & _ & Has & _) Hu. unfold tlb_lookup. rewrite asid_field, Has.
  destruct (tlb_translate _ _ _) as [pfn|] eqn:E; [|done]. intros [= <-]. exists pfn. split; [|done].
  rewrite <- (spaces_eq (k_vmms k) p v) by (done || apply Hmem).
  eapply translate_coherent; [apply Hmem..|done| |done]. rewrite <- Has. by apply Z.mod_pos_bound.
Qed.

(** The hardware's part of the exception. *)
Lemma fault_space k p v virt :
  memory_ok k → current_space k p v → u32 virt →
  let hi := fault_hi virt (tlb_hi (k_tlb k)) in let k1 := set_k_tlb (put_hi hi (k_tlb k)) k in
  memory_ok k1 ∧ current_space k1 p v ∧ faulting k1 virt.
Proof.
  intros Hmem Hcur Hu hi k1. pose proof Hcur as (_ & _ & _ & Has & _).
  destruct (virt_hi_spec virt (vmm_asid v) Hu) as (Hhu & Hhd & Hhm); [rewrite <- Has; by apply Z.mod_pos_bound|].
  assert (Ehi : hi = virt_hi virt (vmm_asid v)) by (unfold hi, fault_hi, virt_hi; by rewrite asid_field, Has).
  rewrite <- Ehi in *. split; [apply memory_ok_tlb; [done|apply Hmem..]|].
  split; [by apply current_space_tlb|]. by split.
Qed.

Lemma general_tlb store virt hi k t :
  tlb_invalid runnable_list (fault_registers saved store virt hi) k = Ok (tt, t) →
  (wrapped_general runnable_list handlers kbd_handle sched_timer (fault_registers saved store virt hi) ;; mret ()) k =
    Ok (tt, t).
Proof.
  intros E. unfold wrapped_general. destruct store;
    (change (CP0_CAUSE_EXCCODE _) with 3 || change (CP0_CAUSE_EXCCODE _) with 2); cbn [Z.eqb Pos.eqb];
    cbn; rewrite bind_assoc; by erewrite bind_ok by exact E.
Qed.

Lemma exception_exec k p v store virt pfn :
  memory_ok k → current_space k p v → u32 virt → page_table (vmm_vma v) (virt / 4096) = Some pfn →
  ∃ t, tlb_exception runnable_list handlers kbd_handle sched_timer saved store virt k = Ok (tt, set_k_tlb t k) ∧
    loaded k p v virt pfn t.
Proof.
  intros Hmem Hcur Hu Hpt. destruct (fault_space k p v virt Hmem Hcur Hu) as (Hm1 & Hc1 & Hf1).
  set (hi := fault_hi virt (tlb_hi (k_tlb k))) in *. set (k1 := set_k_tlb (put_hi hi (k_tlb k)) k) in *.
  pose proof (handlers_exec runnable_list k1 p v (fault_registers saved store virt hi) Hm1 Hc1 Hf1 eq_refl) as Hh.
  change (rg_badva (fault_registers saved store virt hi)) with virt in Hh. rewrite Hpt in Hh.
  destruct Hh as [(t & Ei & Hl) Hr].
  unfold tlb_exception. do 3 erewrite bind_ok by reflexivity.
  change (fault_hi virt (tlb_hi (get_tlb k))) with hi. change (tlb_entries (k_tlb _)) with (tlb_entries (k_tlb k)).
  destruct (existsb (te_match hi) (tlb_entries (k_tlb k))) eqn:Eb.
  - exists t. split; [|exact Hl]. by apply general_tlb.
  - destruct Hr as (t' & Er & Hl'); [|by exists t'].
    intros e He. apply not_true_is_false. intros Et. apply not_true_iff_false in Eb. apply Eb, existsb_exists.
    exists e. split; [by apply list_elem_of_In|exact Et].
Qed.

(** A mapped page is accessible: if need be, after an exception. *)
Lemma translate_exec k p v store virt pfn :
  memory_ok k → current_space k p v → 0 ≤ virt < KUSEG_END → page_table (vmm_vma v) (virt / 4096) = Some pfn →
  ∃ t, translate store virt k = Ok (pfn * 4096 + virt mod 4096, set_k_tlb t k) ∧
    memory_ok (set_k_tlb t k) ∧ current_space (set_k_tlb t k) p v.
Proof.
  intros Hmem Hcur Hvirt Hpt. assert (Hu : u32 virt) by (unfold KUSEG_END in Hvirt; word_lia).
  unfold translate. rewrite (proj2 (Z.ltb_lt _ _)) by lia. erewrite bind_ok by reflexivity.
  destruct (tlb_lookup virt (k_tlb k)) as [phys|] eqn:El.
  - destruct (lookup_page_table k p v virt phys) as (q & Hq & ->); try done. assert (q = pfn) as -> by congruence.
    exists (k_tlb k). destruct k. by split_and!.
  - erewrite bind_ok by reflexivity.
    destruct (exception_exec k p v store virt pfn) as (t & Ex & Hm & Hc & Htr); try done.
    erewrite bind_ok by exact Ex. erewrite bind_ok by reflexivity. exists t. split; [|done].
    unfold kload. rewrite bool_decide_eq_true_2 by done.
    unfold tlb_lookup. pose proof Hc as (_ & _ & _ & Has & _). cbn [k_tlb set_k_tlb] in *. by rewrite asid_field, Has, Htr.
Qed.

Lemma translate_kseg0 k store virt :
  KUSEG_END ≤ virt < KSEG0_END → translate store virt k = Ok (virt - KUSEG_END, k).
Proof.
  intros Hv. unfold translate. rewrite (proj2 (Z.ltb_ge _ _)) by lia.
  unfold kload. by rewrite (proj2 (Z.ltb_lt _ _)) by lia.
Qed.
(** ** Loads and stores *)
Lemma load8_kuseg s p v virt pfn :
  memory_ok (po_kernel s) → current_space (po_kernel s) p v → 0 ≤ virt < KUSEG_END →
  page_table (vmm_vma v) (virt / 4096) = Some pfn →
  ∃ t, load8 virt s = Ok (po_mem s (pfn * 4096 + virt mod 4096), set_po_kernel (set_k_tlb t (po_kernel s)) s) ∧
    memory_ok (set_k_tlb t (po_kernel s)) ∧ current_space (set_k_tlb t (po_kernel s)) p v.
Proof.
  intros Hmem Hcur Hvirt Hpt. destruct (translate_exec (po_kernel s) p v false virt pfn) as (t & E & Hm & Hc); try done.
  exists t. split; [|done]. unfold po_load8. by erewrite bind_ok by (apply on_kernel_ok; exact E).
Qed.

Lemma load8_kseg0 s virt : KUSEG_END ≤ virt < KSEG0_END → load8 virt s = Ok (po_mem s (virt - KUSEG_END), s).
Proof.
  intros Hv. unfold po_load8. erewrite bind_ok by (apply on_kernel_ok; by apply translate_kseg0). by destruct s.
Qed.

Lemma store8_kuseg s p v virt pfn x :
  memory_ok (po_kernel s) → current_space (po_kernel s) p v → 0 ≤ virt < KUSEG_END →
  page_table (vmm_vma v) (virt / 4096) = Some pfn → 0 ≤ x < 256 →
  ∃ t, store8 virt x s = Ok (tt, Processor (set_k_tlb t (po_kernel s))
      (λ a, if a =? pfn * 4096 + virt mod 4096 then x else po_mem s a) (po_user s)) ∧
    memory_ok (set_k_tlb t (po_kernel s)) ∧ current_space (set_k_tlb t (po_kernel s)) p v.
Proof.
  intros Hmem Hcur Hvirt Hpt Hx. destruct (translate_exec (po_kernel s) p v true virt pfn) as (t & E & Hm & Hc); try done.
  exists t. split; [|done]. unfold po_store8. erewrite bind_ok by (apply on_kernel_ok; exact E).
  unfold kmodify. by rewrite (Z.mod_small x 256 Hx).
Qed.

(** ** Copying into an area *)

(** The pages of [base, base + count * 4096) are mapped to the frames from [phys]. *)
Definition area_mapped (v : vmm) (base phys count : Z) : Prop :=
  (4096 | phys) ∧ base mod 4096 = 0 ∧
  ∀ vpn, base / 4096 ≤ vpn < base / 4096 + count → page_table (vmm_vma v) vpn = Some (phys / 4096 + (vpn - base / 4096)).

Lemma area_address v base phys count i :
  area_mapped v base phys count → 0 ≤ i < count * 4096 →
  ∃ pfn, page_table (vmm_vma v) ((base + i) / 4096) = Some pfn ∧ pfn * 4096 + (base + i) mod 4096 = phys + i.
Proof.
  intros ([q ->] & Hb & Hpt) Hi. exists (q * 4096 / 4096 + ((base + i) / 4096 - base / 4096)). split.
  - apply Hpt. Z.div_mod_to_equations. lia.
  - rewrite Z.div_mul by done. Z.div_mod_to_equations. lia.
Qed.

Definition copied (m : Z → Z) (dst src n a : Z) : Z := if decide (dst ≤ a < dst + n) then m (src + (a - dst)) else m a.

Lemma copied_step m m' dst src i a :
  0 ≤ i → (∀ b, m' b = copied m dst src i b) → src + i < dst ∨ dst + i ≤ src →
  (if a =? dst + i then m' (src + i) else m' a) = copied m dst src (i + 1) a.
Proof.
  intros Hi Hm Hd. destruct (Z.eqb_spec a (dst + i)) as [->|Hne]; rewrite !Hm; unfold copied.
  - rewrite decide_False by lia. rewrite decide_True by lia. f_equal. lia.
  - destruct (decide (dst ≤ a < dst + i)); [by rewrite decide_True by lia|by rewrite decide_False by lia].
Qed.

#[local] Instance bytes : ByteMemory (processor H) := processor_bytes runnable_list handlers kbd_handle sched_timer saved.

Lemma copy_exec s p v base phys count src n fuel :
  memory_ok (po_kernel s) → current_space (po_kernel s) p v → area_mapped v base phys count →
  0 ≤ base → base + n ≤ KUSEG_END → 0 ≤ n ≤ count * 4096 → KUSEG_END ≤ src → src + n ≤ KSEG0_END →
  (∀ a, 0 ≤ po_mem s a < 256) → (src - KUSEG_END + n ≤ phys ∨ phys + n ≤ src - KUSEG_END) → n < Z.of_nat fuel →
  ∃ t m, memcpy fuel base src n s = Ok (base, Processor (set_k_tlb t (po_kernel s)) m (po_user s)) ∧
    memory_ok (set_k_tlb t (po_kernel s)) ∧ current_space (set_k_tlb t (po_kernel s)) p v ∧
    ∀ a, m a = copied (po_mem s) phys (src - KUSEG_END) n a.
Proof.
  intros Hmem Hcur Harea Hb Hbn Hn Hs Hsn Hbytes Hd Hf. set (k := po_kernel s) in *.
  assert (Hseg : KUSEG_END ≤ word_max ∧ KSEG0_END ≤ word_max) by done.
  destruct (memcpy_rule (λ i s1, ∃ t m, s1 = Processor (set_k_tlb t k) m (po_user s) ∧
    memory_ok (set_k_tlb t k) ∧ current_space (set_k_tlb t k) p v ∧
    ∀ a, m a = copied (po_mem s) phys (src - KUSEG_END) i a) base src n fuel s) as (s' & He & t & m & -> & Hr).
  - done.
  - lia.
  - unfold KUSEG_END in Hs. lia.
  - lia.
  - lia.
  - intros i s1 Hi (t & m & -> & Hm1 & Hc1 & Hm). set (s1 := Processor _ m _).
    destruct (area_address v base phys count i Harea) as (pfn & Hpt & Ha); [lia|].
    assert (Hx : 0 ≤ m (src + i - KUSEG_END) < 256) by (rewrite Hm; unfold copied; case_decide; apply Hbytes).
    destruct (store8_kuseg s1 p v (base + i) pfn (m (src + i - KUSEG_END)) Hm1 Hc1) as (t' & Est & Hm2 & Hc2); [lia|done|done|].
    exists (m (src + i - KUSEG_END)), s1. eexists. split; [apply load8_kseg0; lia|]. split; [exact Est|].
    exists t'. eexists. split; [reflexivity|]. split; [done|split; [done|]]. intros a. cbn [po_mem s1]. rewrite Ha.
    replace (src + i - KUSEG_END) with (src - KUSEG_END + i) by lia. apply copied_step; [lia|exact Hm|lia].
  - exists (k_tlb k), (po_mem s). split; [by destruct s as [[]]|]. split; [by destruct s as [[]]|].
    split; [by destruct s as [[]]|]. intros a. unfold copied. by rewrite decide_False by lia.
  - exists t, m. split; [exact He|]. exact Hr.
Qed.
End theorems.
