(* ===== verification/SchedSpec.v ===== *)
(** * Scheduling: the abstract scheduler and the refinement

    The abstract scheduler is a queue of threads, the current thread and the
    state of each thread; the operations on the run queue refine it. *)
From S2P Require Import Prelude CList Cpu Malloc KHeap Tlb Kernel Sched Vmm Threads SchedExec.

Record sched := Scheduler {
  sc_queue : list Z;
  sc_current : Z;
  sc_state : gmap Z thread_state;
}.

Definition runnable (st : thread_state) : Prop := st = THREAD_READY ∨ st = THREAD_RUNNING.

#[export] Instance runnable_dec st : Decision (runnable st).
Proof. unfold runnable. apply _. Defined.

(** The queue holds the runnable threads, each once; at most the current thread is
    running. *)
Definition sched_ok (a : sched) : Prop :=
  NoDup (sc_queue a) ∧
  (∀ t, t ∈ sc_queue a ↔ ∃ st, sc_state a !! t = Some st ∧ runnable st) ∧
  (∀ t, sc_state a !! t = Some THREAD_RUNNING → t = sc_current a) ∧
  is_Some (sc_state a !! sc_current a) ∧ sc_state a !! NULL = None.

Definition running (a : sched) : Prop := sc_state a !! sc_current a = Some THREAD_RUNNING.

(** ** The abstract operations *)
Definition demote (t : Z) (m : gmap Z thread_state) : gmap Z thread_state :=
  if bool_decide (m !! t = Some THREAD_RUNNING) then <[t := THREAD_READY]> m else m.

(** Round robin: the head of the queue runs and moves to the end. *)
Definition a_schedule (a : sched) : sched :=
  match sc_queue a with
  | [] => a
  | x :: q => Scheduler (q ++ [x]) x (<[x := THREAD_RUNNING]> (demote (sc_current a) (sc_state a)))
  end.

Lemma filter_id_ne (t : Z) (xs : list Z) : t ∉ xs → filter (λ u, u ≠ t) xs = xs.
Proof.
  induction xs as [|x xs IH]; [done|]. rewrite elem_of_cons. intros Hn.
  rewrite filter_cons_True by (intros ->; tauto). f_equal. apply IH. tauto.
Qed.

Lemma filter_other (t : Z) (xs ys : list Z) : NoDup (xs ++ t :: ys) → filter (λ u, u ≠ t) (xs ++ t :: ys) = xs ++ ys.
Proof.
  rewrite NoDup_app, NoDup_cons. intros (_ & Hx & Hy & _).
  rewrite filter_app, filter_cons_False by tauto.
  rewrite !filter_id_ne; [done|done|]. intros Hin. apply (Hx _ Hin). left.
Qed.

(** The current thread leaves the queue. *)
Definition a_block (st : thread_state) (a : sched) : sched :=
  Scheduler (filter (λ t, t ≠ sc_current a) (sc_queue a)) (sc_current a)
    (<[sc_current a := st]> (sc_state a)).

Definition a_wakeup (t : Z) (a : sched) : sched :=
  if bool_decide (sc_state a !! t = Some THREAD_SLEEPING)
  then Scheduler (sc_queue a ++ [t]) (sc_current a) (<[t := THREAD_READY]> (sc_state a))
  else a.

(** A new thread enters the queue. *)
Definition a_create (t : Z) (a : sched) : sched :=
  Scheduler (sc_queue a ++ [t]) (sc_current a) (<[t := THREAD_READY]> (sc_state a)).

Lemma sched_ok_schedule a : sched_ok a → sched_ok (a_schedule a) ∧ (sc_queue a ≠ [] → running (a_schedule a)).
Proof.
  intros (Hnd & Hq & Hr & Hc & Hn). unfold a_schedule. destruct (sc_queue a) as [|x q] eqn:Eq.
  { split; [|done]. unfold sched_ok. rewrite Eq. done. }
  assert (Hx : ∃ st, sc_state a !! x = Some st ∧ runnable st) by (apply Hq; left).
  assert (Hx0 : x ≠ NULL) by (intros ->; destruct Hx as (? & ? & _); congruence).
  assert (Hd : ∀ t, (∃ st, demote (sc_current a) (sc_state a) !! t = Some st ∧ runnable st) ↔
    ∃ st, sc_state a !! t = Some st ∧ runnable st).
  { intros t. unfold demote. case_bool_decide as E; [|done].
    destruct (decide (t = sc_current a)) as [->|].
    - rewrite lookup_insert_eq. split; intros _; eexists; (split; [done|]); [right|left]; done.
    - by rewrite lookup_insert_ne by done. }
  assert (Hdr : ∀ t, demote (sc_current a) (sc_state a) !! t ≠ Some THREAD_RUNNING).
  { intros t. unfold demote. case_bool_decide as E.
    - destruct (decide (t = sc_current a)) as [->|]; [by rewrite lookup_insert_eq|].
      rewrite lookup_insert_ne by done. intros Ht. by apply Hr in Ht.
    - intros Ht. pose proof (Hr t Ht) as ->. done. }
  split; [|intros _; apply lookup_insert_eq].
  split_and!; cbn [sc_queue sc_current sc_state].
  - apply NoDup_cons in Hnd as [? ?]. apply NoDup_app. split_and!; [done| |apply NoDup_singleton].
    set_solver.
  - intros t. destruct (decide (t = x)) as [->|Hne].
    + rewrite lookup_insert_eq. split; [|set_solver]. intros _. eexists. split; [done|]. by right.
    + rewrite lookup_insert_ne by done. rewrite Hd, <- Hq. set_solver.
  - intros t. destruct (decide (t = x)) as [->|Hne]; [done|].
    rewrite lookup_insert_ne by done. intros Ht. by apply Hdr in Ht.
  - rewrite lookup_insert_eq. eauto.
  - rewrite lookup_insert_ne by done. unfold demote. case_bool_decide as E; [|done].
    rewrite lookup_insert_ne; [done|]. intros E'. rewrite E' in E. congruence.
Qed.

Lemma sched_ok_block st a : sched_ok a → ¬ runnable st → sched_ok (a_block st a).
Proof.
  intros (Hnd & Hq & Hr & [sc Hc] & Hn) Hst. unfold a_block. split_and!; cbn [sc_queue sc_current sc_state].
  - by apply NoDup_filter.
  - intros t. rewrite list_elem_of_filter, Hq. destruct (decide (t = sc_current a)) as [->|].
    + rewrite lookup_insert_eq. naive_solver.
    + rewrite lookup_insert_ne by done. naive_solver.
  - intros t. destruct (decide (t = sc_current a)) as [->|]; [done|].
    rewrite lookup_insert_ne by done. apply Hr.
  - rewrite lookup_insert_eq. eauto.
  - rewrite lookup_insert_ne; [done|]. intros E. rewrite E in Hc. congruence.
Qed.

Lemma sched_ok_enter t a :
  sched_ok a → t ≠ NULL → t ∉ sc_queue a →
  sched_ok (Scheduler (sc_queue a ++ [t]) (sc_current a) (<[t := THREAD_READY]> (sc_state a))).
Proof.
  intros (Hnd & Hq & Hr & [sc Hc] & Hn) Ht Hnin. split_and!; cbn [sc_queue sc_current sc_state].
  - apply NoDup_app. split_and!; [done|set_solver|apply NoDup_singleton].
  - intros u. destruct (decide (u = t)) as [->|].
    + rewrite lookup_insert_eq. split; [|set_solver]. intros _. eexists. split; [done|]. by left.
    + rewrite lookup_insert_ne by done. rewrite <- Hq. set_solver.
  - intros u. destruct (decide (u = t)) as [->|]; [by rewrite lookup_insert_eq|].
    rewrite lookup_insert_ne by done. apply Hr.
  - destruct (decide (sc_current a = t)) as [->|]; [rewrite lookup_insert_eq|rewrite lookup_insert_ne by done]; eauto.
  - by rewrite lookup_insert_ne.
Qed.

Lemma sleeping_not_queued t a : sched_ok a → sc_state a !! t = Some THREAD_SLEEPING → t ≠ NULL ∧ t ∉ sc_queue a.
Proof.
  intros (_ & Hq & _ & _ & Hn) Ht. split; [intros ->; congruence|].
  intros (st & Hst & Hrun)%Hq. rewrite Ht in Hst. injection Hst as <-. by destruct Hrun.
Qed.

Lemma sched_ok_wakeup t a : sched_ok a → sched_ok (a_wakeup t a).
Proof.
  intros Hok. unfold a_wakeup. case_bool_decide as E; [|done].
  destruct (sleeping_not_queued t a Hok E). by apply sched_ok_enter.
Qed.
