(* ===== verification/SchedRefine.v ===== *)
(** * Scheduling: the operations refine the abstract scheduler *)
From S2P Require Import Prelude CList Cpu Malloc KHeap Tlb Kernel Sched Vmm Threads SchedExec SchedSpec.

(** What scheduling may change in a thread, blanked out. *)
Definition erase (th : thread) : thread :=
  set_th_state THREAD_READY (set_th_scheduled 0 (set_th_stack_top (Context [] 0) th)).

Section refine.
  Context {H : Type} `{KernelHeapLaws H}.
  Context (runnable_list : Z).
  Implicit Types (s : kernel H) (a : sched).

Definition sched_rep s a : Prop :=
  sched_ok a ∧
  is_list (M := links) (k_links s) (run_queue runnable_list s) (sc_queue a) ∧
  k_current s !! k_cpu s = Some (sc_current a) ∧
  sc_state a = th_state <$> k_threads s ∧
  (∀ t, is_Some (k_threads s !! t) → t ∉ sc_queue a → unlinked (M := links) (k_links s) t) ∧
  (∀ t th, k_threads s !! t = Some th → is_Some (k_vmms s !! th_vmm th)) ∧
  k_threads s !! run_queue runnable_list s = None.

(** Everything scheduling leaves alone. *)
Definition sched_frame s s' : Prop :=
  (∀ p, p ≠ run_queue runnable_list s → k_threads s !! p = None → k_links s' !! p = k_links s !! p) ∧
  erase <$> k_threads s' = erase <$> k_threads s ∧
  k_heap s' = set_cp0_status (cp0_status s') (k_heap s) ∧
  tlb_entries (k_tlb s') = tlb_entries (k_tlb s) ∧
  k_timers s' = k_timers s ∧ k_vmms s' = k_vmms s ∧ k_processes s' = k_processes s ∧
  k_uthreads s' = k_uthreads s ∧ k_cpu s' = k_cpu s ∧ k_jiffies s' = k_jiffies s ∧
  k_count s' = k_count s ∧ k_compare s' = k_compare s ∧ k_epc s' = k_epc s ∧
  k_last_asid s' = k_last_asid s ∧ k_timer_thread s' = k_timer_thread s ∧ k_out s' = k_out s.

Lemma run_queue_cpu s s' : k_cpu s' = k_cpu s → run_queue runnable_list s' = run_queue runnable_list s.
Proof. unfold run_queue. by intros ->. Qed.

Lemma erase_none s s' p :
  erase <$> k_threads s' = erase <$> k_threads s → k_threads s !! p = None → k_threads s' !! p = None.
Proof.
  intros He Hp. assert (Hl : (erase <$> k_threads s') !! p = (erase <$> k_threads s) !! p) by (by rewrite He).
  rewrite !lookup_fmap, Hp in Hl. by destruct (k_threads s' !! p).
Qed.

Lemma erase_some s s' p :
  erase <$> k_threads s' = erase <$> k_threads s → is_Some (k_threads s !! p) → is_Some (k_threads s' !! p).
Proof.
  intros He Hp. destruct (k_threads s' !! p) eqn:E; [eauto|].
  by rewrite (erase_none s' s p (eq_sym He) E) in Hp.
Qed.

Lemma sched_frame_refl s : sched_frame s s.
Proof. split_and!; try done. cbn. by rewrite set_cp0_status_same. Qed.

Lemma sched_frame_trans s1 s2 s3 : sched_frame s1 s2 → sched_frame s2 s3 → sched_frame s1 s3.
Proof.
  intros (L1 & E1 & H1' & T1 & A1 & A2 & A3 & A4 & A5 & A6 & A7 & A8 & A9 & A10 & A11 & A12)
    (L2 & E2 & H2' & T2 & B1 & B2 & B3 & B4 & B5 & B6 & B7 & B8 & B9 & B10 & B11 & B12).
  split_and!; try congruence.
  - intros p Hp Ht. rewrite L2, L1; [done..| |]; [by rewrite (run_queue_cpu s1 s2)|].
    by eapply erase_none.
  - rewrite H2', H1'. by rewrite set_cp0_status_set.
Qed.

Lemma rep_thread s a t : sched_rep s a → is_Some (sc_state a !! t) ↔ is_Some (k_threads s !! t).
Proof. intros (_ & _ & _ & Hst & _). rewrite Hst, lookup_fmap. by rewrite fmap_is_Some. Qed.

Lemma rep_state s a t th : sched_rep s a → k_threads s !! t = Some th → sc_state a !! t = Some (th_state th).
Proof. intros (_ & _ & _ & Hst & _) Ht. by rewrite Hst, lookup_fmap, Ht. Qed.

Lemma rep_queue s a t : sched_rep s a → t ∈ sc_queue a → is_Some (k_threads s !! t).
Proof.
  intros Hr Hin. apply (rep_thread s a t Hr). destruct Hr as ((_ & Hq & _) & _).
  apply Hq in Hin as (st & -> & _). eauto.
Qed.

Lemma rep_current s a : sched_rep s a → ∃ th, k_threads s !! sc_current a = Some th ∧ sc_current a ≠ NULL.
Proof.
  intros Hr. pose proof Hr as ((_ & _ & _ & Hc & Hn) & _).
  destruct (proj1 (rep_thread s a (sc_current a) Hr) Hc) as [th Hth]. exists th. split; [done|].
  intros E. rewrite E, Hn in Hc. by destruct Hc.
Qed.

(** Only the links of the queue and of threads are written. *)
Lemma writes_frame_links s l xs :
  writes (.∈ run_queue runnable_list s :: xs) (k_links s) l →
  (∀ t, t ∈ xs → is_Some (k_threads s !! t)) →
  ∀ p, p ≠ run_queue runnable_list s → k_threads s !! p = None → l !! p = k_links s !! p.
Proof.
  intros Hw Hxs p Hp Hn. apply (writes_links _ _ _ p Hw).
  intros [->|Hin]%elem_of_cons; [done|]. apply Hxs in Hin as [? ?]. congruence.
Qed.

Lemma unlinked_lookup (l l' : links) t : l' !! t = l !! t → unlinked (M := links) l t → unlinked (M := links) l' t.
Proof. unfold unlinked. cbn. by intros ->. Qed.

(** The thread states after a switch. *)
Lemma switch_states old new ctx (T : gmap Z thread) :
  is_Some (T !! new) →
  th_state <$> switch_threads old new ctx T = <[new := THREAD_RUNNING]> (demote old (th_state <$> T)).
Proof.
  intros [thn Hn]. apply map_eq. intros t. rewrite lookup_fmap, lookup_switch.
  destruct (decide (t = new)) as [->|Hne].
  - rewrite lookup_insert_eq, Hn. cbn. unfold switched. rewrite (bool_decide_eq_true_2 (new = new)) by done.
    by destruct (bool_decide (new = old)).
  - rewrite lookup_insert_ne by done. unfold demote.
    destruct (T !! t) as [th|] eqn:Et.
    + cbn. unfold switched. rewrite (bool_decide_eq_false_2 (t = new)) by done.
      destruct (decide (t = old)) as [->|Hto].
      * rewrite lookup_fmap, Et. cbn. rewrite (bool_decide_eq_true_2 (old = old)) by done.
        destruct (decide (th_state th = THREAD_RUNNING)) as [E|E].
        -- rewrite !bool_decide_eq_true_2 by (try split; congruence). by rewrite lookup_insert_eq.
        -- rewrite !bool_decide_eq_false_2 by (try intros [_ ?]; congruence). by rewrite lookup_fmap, Et.
      * rewrite !(bool_decide_eq_false_2 (t = old)) by done.
        rewrite (bool_decide_eq_false_2 (t = old ∧ _)) by naive_solver.
        case_bool_decide; rewrite ?lookup_insert_ne by done; by rewrite lookup_fmap, Et.
    + cbn. case_bool_decide as E.
      * destruct (decide (t = old)) as [->|Hto]; [by rewrite lookup_fmap, Et in E|].
        by rewrite lookup_insert_ne, lookup_fmap, Et.
      * by rewrite lookup_fmap, Et.
Qed.

Lemma erase_switched old new ctx t th : erase (switched old new ctx t th) = erase th.
Proof. unfold switched. by repeat case_bool_decide. Qed.

Lemma erase_switch old new ctx (T : gmap Z thread) : erase <$> switch_threads old new ctx T = erase <$> T.
Proof.
  apply map_eq. intros t. rewrite !lookup_fmap, lookup_switch. destruct (T !! t) as [th|]; [|done].
  cbn. by rewrite erase_switched.
Qed.

Lemma erase_vmm s s' t th :
  erase <$> k_threads s' = erase <$> k_threads s → k_threads s' !! t = Some th →
  ∃ th0, k_threads s !! t = Some th0 ∧ erase th = erase th0.
Proof.
  intros He Ht. assert (Hl : (erase <$> k_threads s') !! t = (erase <$> k_threads s) !! t) by (by rewrite He).
  rewrite !lookup_fmap, Ht in Hl. destruct (k_threads s !! t) as [th0|] eqn:E; [|done].
  exists th0. split; [done|]. by apply (inj Some).
Qed.

Lemma rep_ext s s' a :
  k_links s' = k_links s → k_threads s' = k_threads s → k_current s' = k_current s →
  k_cpu s' = k_cpu s → k_vmms s' = k_vmms s → sched_rep s a → sched_rep s' a.
Proof.
  intros E1 E2 E3 E4 E5. unfold sched_rep. rewrite (run_queue_cpu s s') by done. by rewrite E1, E2, E3, E4, E5.
Qed.

Lemma ie_masked x : Z.land (Z.land x (Z.lnot CP0_STATUS_IE_MASK)) CP0_STATUS_IE_MASK = 0.
Proof. by rewrite <- Z.land_assoc, (Z.land_comm (Z.lnot _)), Z.land_lnot_diag, Z.land_0_r. Qed.

(** ** The contexts *)
Definition context_of s (t : Z) : option context := th_stack_top <$> k_threads s !! t.

(** The context in which a call of [schedule] suspends the current thread. *)
Definition suspended (frames : list frame) (status : Z) : context :=
  Context (FSwitch 0 :: FSchedule (Z.land status CP0_STATUS_IE_MASK) :: frames)
    (Z.land status (Z.lnot CP0_STATUS_IE_MASK)).

(** After a call of [schedule] with the given frames and Status register the
    current thread is suspended there, no other context has changed, and the saved
    context of the thread that now runs has been loaded; with an empty queue
    nothing has happened. *)
Definition handed_over (frames : list frame) (status : Z) s s' (a : sched) : Prop :=
  match sc_queue a with
  | [] => k_stack s' = frames ∧ cp0_status s' = status ∧ ∀ t, context_of s' t = context_of s t
  | x :: _ =>
    context_of s' (sc_current a) = Some (suspended frames status) ∧
    (∀ t, t ≠ sc_current a → context_of s' t = context_of s t) ∧
    context_of s' x = Some (Context (k_stack s') (cp0_status s'))
  end.

Lemma handed_over_from frames status s0 s s' a :
  (∀ t, context_of s t = context_of s0 t) → handed_over frames status s s' a → handed_over frames status s0 s' a.
Proof.
  intros Hc. unfold handed_over. destruct (sc_queue a).
  - intros (? & ? & Ht). split_and!; try done. intros t. by rewrite Ht.
  - intros (? & Ht & ?). split_and!; try done. intros t Hne. by rewrite Ht.
Qed.

Lemma schedule_threads old x ctx thx n (T : gmap Z thread) :
  T !! x = Some thx →
  th_state <$> switch_threads old x ctx (<[x := set_th_scheduled n thx]> T) =
    <[x := THREAD_RUNNING]> (demote old (th_state <$> T)) ∧
  erase <$> switch_threads old x ctx (<[x := set_th_scheduled n thx]> T) = erase <$> T.
Proof.
  intros Hx. split.
  - rewrite switch_states by (rewrite lookup_insert_eq; eauto).
    rewrite fmap_insert. change (th_state (set_th_scheduled n thx)) with (th_state thx).
    by rewrite (insert_id (th_state <$> T)) by (by rewrite lookup_fmap, Hx).
  - rewrite erase_switch, fmap_insert. apply insert_id. by rewrite lookup_fmap, Hx.
Qed.

Lemma th_vmm_erase s s' :
  erase <$> k_threads s' = erase <$> k_threads s → k_vmms s' = k_vmms s →
  (∀ t th, k_threads s !! t = Some th → is_Some (k_vmms s !! th_vmm th)) →
  ∀ t th, k_threads s' !! t = Some th → is_Some (k_vmms s' !! th_vmm th).
Proof.
  intros He Hv Hs t th Ht. destruct (erase_vmm s s' t th He Ht) as (th0 & Ht0 & E).
  rewrite Hv. replace (th_vmm th) with (th_vmm th0) by (change (th_vmm (erase th0) = th_vmm (erase th)); by rewrite E).
  by eapply Hs.
Qed.
End refine.
