(* ===== verification/SchedOps.v ===== *)
(** * Scheduling: what the operations do to the representation

    The effect of [schedule], of leaving and of entering the run queue and of
    [thread_wakeup] on a state that represents an abstract scheduler, in the form
    in which the callers of these functions use it. *)
From S2P Require Import Prelude CList Cpu Malloc KHeap Tlb Kernel Sched Vmm Threads Timers SchedExec SchedSpec SchedRefine.

Section ops.
  Context {H : Type} `{KernelHeapLaws H}.
  Context (runnable_list : Z).
  Implicit Types (s : kernel H) (a : sched).
  Abbreviation sched_rep := (sched_rep runnable_list).
  Abbreviation sched_frame := (sched_frame runnable_list).

(** Where the contexts of the threads are after a switch to [x]: that of the old thread is
    saved, unless [x] is it the others are where they were. *)
Lemma switch_contexts old x ctx c (T : gmap Z thread) tho thx :
  T !! old = Some tho → T !! x = Some thx →
  let T' := switch_threads old x ctx (<[x := set_th_scheduled c thx]> T) in
  th_stack_top <$> T' !! old = Some ctx ∧
  (∀ t, t ≠ old → th_stack_top <$> T' !! t = th_stack_top <$> T !! t) ∧
  th_stack_top <$> T' !! x = Some (if bool_decide (old = x) then ctx else th_stack_top thx).
Proof.
  intros Ho Hx T'.
  assert (Hold : th_stack_top <$> T' !! old = Some ctx).
  { unfold T'. rewrite lookup_switch. destruct (decide (old = x)) as [<-|Hne].
    - rewrite lookup_insert_eq. cbn. unfold switched. by rewrite !(bool_decide_eq_true_2 (old = old)).
    - rewrite lookup_insert_ne, Ho by done. cbn. unfold switched. by rewrite (bool_decide_eq_true_2 (old = old)). }
  assert (Hother : ∀ t, t ≠ old → th_stack_top <$> T' !! t = th_stack_top <$> T !! t).
  { intros t Hne. unfold T'. rewrite lookup_switch. unfold switched. rewrite (bool_decide_eq_false_2 (t = old)) by done.
    destruct (decide (t = x)) as [->|Htx].
    - rewrite lookup_insert_eq, Hx. cbn. by repeat case_bool_decide.
    - rewrite lookup_insert_ne by done. destruct (T !! t); [|done]. cbn. by repeat case_bool_decide. }
  split; [done|split; [done|]]. case_bool_decide as E; [by subst x|]. by rewrite Hother, Hx by done.
Qed.

(** The effect of [schedule] as seen by its callers. *)
Lemma schedule_rep s a :
  sched_rep s a →
  ∃ s', schedule runnable_list s = Ok (tt, s') ∧ sched_rep s' (a_schedule a) ∧ sched_frame s s' ∧
    handed_over (k_stack s) (cp0_status s) s s' a.
Proof.
  intros Hr. pose proof Hr as (Hok & Hl & Hc & Hst & Hu & Hv & Hrq).
  destruct (rep_current _ s a Hr) as (tho & Ho & Hnull).
  unfold handed_over, a_schedule. destruct (sc_queue a) as [|x xs] eqn:Eq.
  { exists s. split; [apply schedule_empty; by apply is_list_kernel|]. split; [done|].
    split; [apply sched_frame_refl|done]. }
  destruct (rep_queue _ s a x Hr) as [thx Hx]; [rewrite Eq; left|].
  destruct (Hv x thx Hx) as [v Hvx].
  destruct (schedule_exec runnable_list s x xs (sc_current a) tho thx v) as (l & He & Hl' & Hw);
    try done; [by apply is_list_kernel|].
  set (ctx := Context (FSwitch (Z.land (Z.land (cp0_status s) (Z.lnot CP0_STATUS_IE_MASK)) CP0_STATUS_IE_MASK)
    :: FSchedule (Z.land (cp0_status s) CP0_STATUS_IE_MASK) :: k_stack s)
    (Z.land (Z.land (cp0_status s) (Z.lnot CP0_STATUS_IE_MASK)) (Z.lnot CP0_STATUS_IE_MASK))).
  destruct (schedule_threads (sc_current a) x ctx thx (k_count s) (k_threads s) Hx) as [Hss Hse].
  destruct (switch_contexts (sc_current a) x ctx (k_count s) (k_threads s) tho thx Ho Hx) as (Hco & Hct & Hcx).
  assert (Hsm : cp0_status (schedule_state l x thx s) = Z.land (cp0_status s) (Z.lnot CP0_STATUS_IE_MASK))
    by apply cp0_status_set.
  eexists. split; [exact He|].
  set (s' := switch_state _ _ _ _ _).
  assert (HT : k_threads s' = switch_threads (sc_current a) x ctx
    (<[x := set_th_scheduled (k_count s) thx]> (k_threads s))).
  { unfold s', switch_state. rewrite Hsm. reflexivity. }
  rewrite <- HT in Hss, Hse.
  assert (Hctx : ctx = suspended (k_stack s) (cp0_status s)).
  { unfold ctx, suspended. by rewrite ie_masked, <- Z.land_assoc, Z.land_diag. }
  assert (Hwl : ∀ p, p ≠ run_queue runnable_list s → k_threads s !! p = None → l !! p = k_links s !! p).
  { eapply writes_frame_links; [exact Hw|]. intros t Ht. eapply rep_queue; [exact Hr|]. by rewrite Eq. }
  split; [|split].
  - destruct (sched_ok_schedule a Hok) as [Hok' _]. unfold a_schedule in Hok'. rewrite Eq in Hok'.
    split_and!; try done; cbn [sc_queue sc_current sc_state].
    + apply lookup_insert_eq.
    + by rewrite Hss, Hst.
    + intros t Ht Hnin. apply (unlinked_lookup (k_links s)).
      * apply (writes_links _ _ _ t Hw). intros [->|Hin]%elem_of_cons.
        -- by rewrite (erase_none s s' _ Hse Hrq) in Ht; destruct Ht.
        -- apply Hnin, elem_of_app. rewrite list_elem_of_singleton. apply elem_of_cons in Hin. tauto.
      * apply Hu; [|rewrite elem_of_app, list_elem_of_singleton in Hnin; rewrite elem_of_cons; tauto].
        destruct (k_threads s !! t) eqn:Et; [eauto|]. by rewrite (erase_none s s' _ Hse Et) in Ht.
    + by apply (th_vmm_erase s s').
    + by apply (erase_none s s').
  - split_and!; try done.
    cbn. by rewrite !set_cp0_status_set, !cp0_status_set.
  - unfold context_of. rewrite HT, <- Hctx. split_and!; [done|done|].
    rewrite Hcx. f_equal. unfold s', switch_state. rewrite Hsm. cbn -[schedule_state]. rewrite cp0_status_set.
    destruct (bool_decide (sc_current a = x)); [done|]. by destruct (th_stack_top thx).
Qed.

(** *** Changing the state of one thread *)
Lemma state_erase s t th st :
  k_threads s !! t = Some th → erase <$> <[t := set_th_state st th]> (k_threads s) = erase <$> k_threads s.
Proof.
  intros Ht. rewrite fmap_insert. apply (insert_id (erase <$> k_threads s)). by rewrite lookup_fmap, Ht.
Qed.

(** The state with new links and one thread in another state. *)
Definition moved (l : links) (t : Z) (th : thread) (st : thread_state) s : kernel H :=
  set_k_links (λ _, l) (set_k_threads <[t := set_th_state st th]> s).

Lemma moved_context l t th st s :
  k_threads s !! t = Some th → ∀ u, context_of (moved l t th st s) u = context_of s u.
Proof.
  intros Ht u. unfold context_of. cbn. destruct (decide (u = t)) as [->|].
  - by rewrite lookup_insert_eq, Ht.
  - by rewrite lookup_insert_ne.
Qed.

Lemma moved_scheduled l t th st s :
  k_threads s !! t = Some th → ∀ u, th_scheduled <$> k_threads (moved l t th st s) !! u = th_scheduled <$> k_threads s !! u.
Proof.
  intros Ht u. cbn. destruct (decide (u = t)) as [->|]; [by rewrite lookup_insert_eq, Ht|by rewrite lookup_insert_ne].
Qed.

(** It represents an abstract state if the queues agree. *)
Lemma moved_rep l t th st s a q :
  sched_rep s a → k_threads s !! t = Some th →
  let a' := Scheduler q (sc_current a) (<[t := st]> (sc_state a)) in
  sched_ok a' → is_list (M := links) l (run_queue runnable_list s) q →
  writes (.∈ run_queue runnable_list s :: t :: sc_queue a) (k_links s) l →
  (∀ u, u ≠ t → u ∉ q → u ∉ sc_queue a) → (t ∉ q → unlinked (M := links) l t) →
  sched_rep (moved l t th st s) a' ∧ sched_frame s (moved l t th st s).
Proof.
  intros Hr Ht a' Hok' Hl Hw Hq Hut. pose proof Hr as (Hok & _ & Hc & Hst & Hu & Hv & Hrq).
  set (s' := moved l t th st s).
  pose proof (state_erase s t th st Ht) as He. change (<[t := _]> (k_threads s)) with (k_threads s') in He.
  split.
  - split_and!; try done.
    + cbn. by rewrite Hst, fmap_insert.
    + intros u Hu1 Hnin. destruct (decide (u = t)) as [->|Hne]; [by apply Hut|].
      assert (Hin : u ∉ sc_queue a) by (by apply Hq).
      apply (unlinked_lookup (k_links s)).
      * apply (writes_links _ _ _ u Hw). rewrite !elem_of_cons. intros [->|[?|?]]; try done.
        rewrite (erase_none s s' _ He Hrq) in Hu1. by destruct Hu1.
      * apply Hu; [|done]. destruct (k_threads s !! u) eqn:Eu; [eauto|].
        rewrite (erase_none s s' _ He Eu) in Hu1. by destruct Hu1.
    + by apply (th_vmm_erase s s').
    + by apply (erase_none s s').
  - split_and!; try done.
    + eapply writes_frame_links; [exact Hw|]. intros u [->|Hin]%elem_of_cons; [eauto|]. by eapply rep_queue.
    + cbn. by rewrite set_cp0_status_same.
Qed.

(** The current thread leaves the queue. *)
Lemma block_rep s a st :
  sched_rep s a → running a → ¬ runnable st →
  ∃ tho l, k_threads s !! sc_current a = Some tho ∧
    sched_remove (sc_current a) (set_k_threads <[sc_current a := set_th_state st tho]> s) =
      Ok (tt, moved l (sc_current a) tho st s) ∧
    sched_rep (moved l (sc_current a) tho st s) (a_block st a) ∧
    sched_frame s (moved l (sc_current a) tho st s).
Proof.
  intros Hr Hrun Hst. pose proof Hr as (Hok & Hl & Hc & HS & Hu & Hv & Hrq).
  destruct (rep_current _ s a Hr) as (tho & Ho & Hnull).
  assert (Hin : sc_current a ∈ sc_queue a).
  { destruct Hok as (_ & Hq & _). apply Hq. exists THREAD_RUNNING. split; [exact Hrun|]. by right. }
  pose proof (list_elem_of_split _ _ Hin) as (xs & ys & Eq).
  assert (Hf : filter (λ t, t ≠ sc_current a) (sc_queue a) = xs ++ ys).
  { destruct Hok as (Hnd & _). rewrite Eq in Hnd |- *. by apply filter_other. }
  destruct (sched_remove_exec runnable_list (set_k_threads <[sc_current a := set_th_state st tho]> s)
    xs (sc_current a) ys) as (l & He & Hl' & Hul & Hw).
  { apply is_list_kernel. cbn. rewrite <- Eq. exact Hl. }
  exists tho, l. split; [done|]. split; [exact He|].
  apply (moved_rep l (sc_current a) tho st s a _ Hr Ho); rewrite ?Hf; try done.
  - rewrite <- Hf. by apply (sched_ok_block st a).
  - eapply writes_mono; [exact Hw|]. intros u. rewrite Eq. cbn. rewrite !elem_of_cons. tauto.
  - intros u Hne Hnin. rewrite Eq. rewrite elem_of_app, elem_of_cons in *. tauto.
Qed.

Lemma unlinked_mapped (l : links) t : unlinked (M := links) l t → mapped (M := links) l t.
Proof. intros [E1 E2]. unfold mapped. rewrite E1, E2. eauto. Qed.

(** A thread that is not in the queue enters it. *)
Lemma enter_rep s a t th :
  sched_rep s a → k_threads s !! t = Some th → t ∉ sc_queue a →
  ∃ l, sched_insert runnable_list t (set_k_threads <[t := set_th_state THREAD_READY th]> s) =
      Ok (tt, moved l t th THREAD_READY s) ∧
    sched_rep (moved l t th THREAD_READY s) (a_create t a) ∧ sched_frame s (moved l t th THREAD_READY s).
Proof.
  intros Hr Ht Hnin. pose proof Hr as (Hok & Hl & Hc & HS & Hu & Hv & Hrq).
  assert (Ht0 : t ≠ NULL).
  { intros ->. destruct Hok as (_ & _ & _ & _ & Hn).
    pose proof (rep_state _ s a NULL th Hr Ht). congruence. }
  destruct (sched_insert_exec runnable_list (set_k_threads <[t := set_th_state THREAD_READY th]> s)
    (sc_queue a) t) as (l & He & Hl' & Hw); [by apply is_list_kernel|done| | |].
  { apply (unlinked_mapped (k_links s)). apply Hu; [eauto|done]. }
  { constructor; [|apply Forall_forall; intros y Hy ->; done].
    intros E. rewrite E in Ht. change (k_threads s !! run_queue runnable_list s = Some th) in Ht. congruence. }
  exists l. split; [exact He|]. apply (moved_rep l t th THREAD_READY s a _ Hr Ht); try done.
  - by apply sched_ok_enter.
  - eapply writes_mono; [exact Hw|]. intros u. rewrite !elem_of_cons. tauto.
  - intros u Hne Hn. rewrite elem_of_app in Hn. tauto.
  - intros Hn. rewrite elem_of_app, list_elem_of_singleton in Hn. tauto.
Qed.

(** [thread_wakeup] as seen by its callers. *)
Lemma wakeup_rep s a t :
  sched_rep s a → is_Some (k_threads s !! t) →
  ∃ s', thread_wakeup runnable_list t s = Ok (EOK, s') ∧ sched_rep s' (a_wakeup t a) ∧
    sched_frame s s' ∧ k_stack s' = k_stack s ∧ cp0_status s' = cp0_status s ∧
    (∀ u, th_scheduled <$> k_threads s' !! u = th_scheduled <$> k_threads s !! u) ∧
    ∀ u, context_of s' u = context_of s u.
Proof.
  intros Hr [th Ht]. unfold a_wakeup. rewrite (rep_state _ s a t th Hr Ht).
  unfold thread_wakeup. kexec_step. erewrite bind_ok by (by apply get_thread_ok).
  destruct (decide (th_state th = THREAD_SLEEPING)) as [E|E].
  - rewrite !bool_decide_eq_true_2 by congruence.
    pose proof (rep_state _ s a t th Hr Ht) as Hst. rewrite E in Hst.
    destruct (sleeping_not_queued t a) as [_ Hnin]; [apply Hr|done|].
    assert (Hrm : sched_rep (ints_masked s) a) by (by apply (rep_ext _ s)).
    destruct (enter_rep (ints_masked s) a t th Hrm Ht Hnin) as (l & He & Hr' & Hf).
    rewrite bind_assoc. erewrite bind_ok by (by apply upd_thread_ok).
    erewrite bind_ok by exact He.
    exists (moved l t th THREAD_READY s). split_and!.
    + erewrite bind_ok; [done|]. rewrite (ints_restore s) by done. do 2 f_equal.
      apply kernel_ext; try reflexivity. cbn. by rewrite set_cp0_status_set, set_cp0_status_same.
    + apply (rep_ext _ (moved l t th THREAD_READY (ints_masked s))); done.
    + destruct Hf as (Hl1 & He1 & _). split_and!; try done. cbn. by rewrite set_cp0_status_same.
    + done.
    + done.
    + by apply moved_scheduled.
    + by apply moved_context.
  - rewrite !bool_decide_eq_false_2 by congruence. exists s. split_and!; try done.
    + erewrite bind_ok by done. erewrite bind_ok; [done|]. rewrite (ints_restore s) by done.
      do 2 f_equal. unfold ints_masked. by rewrite set_cp0_status_set, set_cp0_status_same.
    + apply sched_frame_refl.
Qed.

(** Changes of the other fields of threads. *)
Lemma rep_upd s a t th th' :
  sched_rep s a → k_threads s !! t = Some th → th_state th' = th_state th → th_vmm th' = th_vmm th →
  sched_rep (set_k_threads <[t := th']> s) a.
Proof.
  intros (Hok & Hl & Hc & HS & Hu & Hv & Hrq) Ht Es Ev. split_and!; try done; cbn.
  - rewrite fmap_insert, Es, HS. symmetry. apply insert_id. by rewrite lookup_fmap, Ht.
  - intros u Hu'. apply Hu. destruct (decide (u = t)) as [->|]; [eauto|]. by rewrite lookup_insert_ne in Hu'.
  - intros u uth. destruct (decide (u = t)) as [->|].
    + rewrite lookup_insert_eq. intros [= <-]. rewrite Ev. by eapply Hv.
    + rewrite lookup_insert_ne by done. apply Hv.
  - destruct (decide (run_queue runnable_list s = t)) as [<-|E]; [congruence|].
    change (<[t:=th']> (k_threads s) !! run_queue runnable_list s = None). by rewrite lookup_insert_ne.
Qed.

Lemma frame_status s v : sched_frame s (set_cp0_status v s).
Proof. split_and!; try done. cbn. by rewrite !cp0_status_set. Qed.

Lemma frame_stack s fs : sched_frame s (set_k_stack fs s).
Proof. split_and!; try done. cbn. by rewrite set_cp0_status_same. Qed.

Lemma frame_upd f t s s' :
  (∀ th th', erase th = erase th' → erase (f th) = erase (f th')) →
  sched_frame s s' →
  sched_frame (set_k_threads (alter f t) s) (set_k_threads (alter f t) s').
Proof.
  intros Hf (Hl & He & Hrest). split_and!; try apply Hrest.
  - intros p Hp Hn. apply Hl; [done|]. cbn in Hn. destruct (decide (p = t)) as [->|].
    + rewrite lookup_alter_eq in Hn. by destruct (k_threads s !! t).
    + by rewrite lookup_alter_ne in Hn.
  - cbn. apply map_eq. intros p.
    assert (Hp : (erase <$> k_threads s') !! p = (erase <$> k_threads s) !! p) by (by rewrite He).
    rewrite !lookup_fmap in *. destruct (decide (p = t)) as [->|]; [|by rewrite !lookup_alter_ne].
    rewrite !lookup_alter_eq. destruct (k_threads s' !! t), (k_threads s !! t); cbn in *; try done.
    f_equal. apply Hf. by apply (inj Some).
Qed.

(** [thread_suspend] as seen by its callers. *)
Lemma suspend_rep s a :
  sched_rep s a → running a →
  ∃ s', thread_suspend runnable_list s = Ok (tt, s') ∧
    sched_rep s' (a_schedule (a_block THREAD_SLEEPING a)) ∧ sched_frame s s' ∧
    handed_over (FSuspend (Z.land (cp0_status s) CP0_STATUS_IE_MASK) :: k_stack s)
      (Z.land (cp0_status s) (Z.lnot CP0_STATUS_IE_MASK)) s s' (a_block THREAD_SLEEPING a).
Proof.
  intros Hr Hrun. set (s0 := ints_masked s).
  assert (Hr0 : sched_rep s0 a) by (by apply (rep_ext _ s)).
  destruct (block_rep s0 a THREAD_SLEEPING Hr0 Hrun) as (tho & l & Ho & He & Hr1 & Hf1); [by intros [|]|].
  set (s1 := moved l (sc_current a) tho THREAD_SLEEPING s0) in *.
  set (s2 := set_k_stack (FSuspend (Z.land (cp0_status s) CP0_STATUS_IE_MASK) :: k_stack s) s1).
  destruct (schedule_rep s2 (a_block THREAD_SLEEPING a)) as (s' & He' & Hr' & Hf' & Hh);
    [by apply (rep_ext _ s1)|].
  exists s'. split_and!; [|done| |].
  - unfold thread_suspend. kexec_step. erewrite bind_ok by (apply get_current_ok; apply Hr).
    erewrite bind_ok by (by apply upd_thread_ok). erewrite bind_ok by exact He.
    erewrite bind_ok by reflexivity. exact He'.
  - eapply sched_frame_trans; [|exact Hf'].
    destruct Hf1 as (? & ? & ? & ?). split_and!; try done; cbn; by rewrite ?cp0_status_set.
  - assert (Hc2 : cp0_status s2 = Z.land (cp0_status s) (Z.lnot CP0_STATUS_IE_MASK)) by apply cp0_status_set.
    rewrite Hc2 in Hh. apply (handed_over_from _ _ s s2); [|exact Hh].
    by apply (moved_context l (sc_current a) tho THREAD_SLEEPING s0).
Qed.

(** [thread_finish] wakes the thread that waits for the current one. *)
Lemma wake_joiner_rep s a cur th :
  sched_rep s a → k_threads s !! cur = Some th →
  (th_joiner th = NULL ∨ is_Some (k_threads s !! th_joiner th)) →
  ∃ s', (if bool_decide (th_joiner th ≠ NULL) then
      joiner ← get_thread th_joiner cur; thread_wakeup runnable_list joiner ;; mret ()
    else mret ()) s = Ok (tt, s') ∧
    sched_rep s' (if bool_decide (th_joiner th ≠ NULL) then a_wakeup (th_joiner th) a else a) ∧
    sched_frame s s' ∧ k_stack s' = k_stack s ∧ cp0_status s' = cp0_status s ∧
    ∀ u, context_of s' u = context_of s u.
Proof.
  intros Hr Ht Hj. case_bool_decide as Ej.
  - destruct Hj as [|Hj]; [done|].
    destruct (wakeup_rep s a (th_joiner th)) as (s' & He & Hr' & Hf & Hk & Hc & _ & Hx); [done|done|].
    exists s'. split_and!; try done.
    erewrite bind_ok by (by apply get_thread_ok). by erewrite bind_ok by exact He.
  - exists s. split_and!; try done. apply sched_frame_refl.
Qed.

(** What [thread_finish] does before it gives up the processor. *)
Definition a_finish (joiner : Z) a : sched :=
  let a1 := a_block THREAD_ZOMBIE a in
  if bool_decide (joiner ≠ NULL) then a_wakeup joiner a1 else a1.

(** A finished thread never runs again by scheduling. *)
Lemma a_finish_zombie joiner a :
  sched_ok a → sc_state (a_finish joiner a) !! sc_current a = Some THREAD_ZOMBIE.
Proof.
  intros Hok. unfold a_finish, a_wakeup.
  assert (E : sc_state (a_block THREAD_ZOMBIE a) !! sc_current a = Some THREAD_ZOMBIE) by apply lookup_insert_eq.
  case_bool_decide; [|done]. case_bool_decide as E'; [|done].
  cbn [sc_state]. rewrite lookup_insert_ne; [done|]. intros ->. congruence.
Qed.

Lemma a_schedule_zombie t a :
  sched_ok a → sc_state a !! t = Some THREAD_ZOMBIE → sc_state (a_schedule a) !! t = Some THREAD_ZOMBIE.
Proof.
  intros (_ & Hq & _) Ht. unfold a_schedule. destruct (sc_queue a) as [|x q] eqn:Eq; [done|].
  assert (Hx : x ≠ t).
  { intros ->. destruct (proj1 (Hq t)) as (st & Hst & Hr); [left|].
    rewrite Ht in Hst. injection Hst as <-. by destruct Hr. }
  cbn [sc_state]. rewrite lookup_insert_ne by done. unfold demote. case_bool_decide as E; [|done].
  rewrite lookup_insert_ne; [done|]. intros E1. rewrite E1 in E. congruence.
Qed.

(** All of [thread_finish] but the hand-over. *)
Lemma finish_rep s a tho retval :
  sched_rep s a → running a → k_threads s !! sc_current a = Some tho →
  (th_joiner tho = NULL ∨ is_Some (k_threads s !! th_joiner tho)) →
  ∃ s', thread_finish runnable_list retval s = (push_frame FFinish ;; schedule runnable_list) s' ∧
    sched_rep s' (a_finish (th_joiner tho) a) ∧
    sched_frame (set_k_threads (alter (set_th_retval retval) (sc_current a)) s) s' ∧ k_stack s' = k_stack s ∧
    cp0_status s' = Z.land (cp0_status s) (Z.lnot CP0_STATUS_IE_MASK) ∧
    ∀ u, context_of s' u = context_of s u.
Proof.
  intros Hr Hrun Ho Hj. set (cur := sc_current a) in *. set (s1 := ints_masked s).
  assert (Hr1 : sched_rep s1 a) by (by apply (rep_ext _ s)).
  destruct (block_rep s1 a THREAD_ZOMBIE Hr1 Hrun) as (tho1 & l & Ho1 & He & Hr2 & Hf2); [by intros [|]|].
  assert (tho1 = tho) as -> by (change (k_threads s !! cur = Some tho1) in Ho1; congruence).
  change (sc_current a) with cur in He, Hr2, Hf2.
  set (s2 := moved l cur tho THREAD_ZOMBIE s1) in *.
  set (th3 := set_th_retval retval (set_th_state THREAD_ZOMBIE tho)).
  set (s3 := set_k_threads <[cur := th3]> s2).
  assert (H2 : k_threads s2 !! cur = Some (set_th_state THREAD_ZOMBIE tho)) by apply lookup_insert_eq.
  assert (Hr3 : sched_rep s3 (a_block THREAD_ZOMBIE a)) by (by eapply rep_upd).
  assert (Hf3 : sched_frame (set_k_threads (alter (set_th_retval retval) cur) s1) s3).
  { replace s3 with (set_k_threads (alter (set_th_retval retval) cur) s2).
    - apply frame_upd; [|exact Hf2]. intros th th' E.
      change (set_th_retval retval (erase th) = set_th_retval retval (erase th')). by rewrite E.
    - apply kernel_ext; try reflexivity.
      cbn. by rewrite alter_insert_eq, insert_insert_eq. }
  assert (H3 : k_threads s3 !! cur = Some th3) by apply lookup_insert_eq.
  destruct (wake_joiner_rep s3 (a_block THREAD_ZOMBIE a) cur th3) as (s4 & He4 & Hr4 & Hf4 & Hk4 & Hc4 & Hx4); [done..| |].
  { destruct Hj as [Hj|Hj]; [by left|right]. apply (rep_thread _ s3 _ _ Hr3). cbn. fold cur.
    destruct (decide (th_joiner tho = cur)) as [->|Hne]; [rewrite lookup_insert_eq; eauto|].
    rewrite lookup_insert_ne by done. by apply (rep_thread _ s _ _ Hr). }
  change (th_joiner th3) with (th_joiner tho) in He4, Hr4. fold (a_finish (th_joiner tho) a) in Hr4.
  exists s4. split_and!; [|exact Hr4| |exact Hk4| |].
  - unfold thread_finish. kexec_step. erewrite bind_ok by (apply get_current_ok; apply Hr).
    erewrite bind_ok by (by apply upd_thread_ok). erewrite bind_ok by exact He.
    erewrite bind_ok by (by apply upd_thread_ok).
    erewrite bind_ok by (by apply get_thread_ok). by erewrite bind_ok by exact He4.
  - apply (sched_frame_trans _ _ s3); [|exact Hf4].
    eapply sched_frame_trans; [apply frame_status|exact Hf3].
  - rewrite Hc4. apply cp0_status_set.
  - intros u. rewrite Hx4. unfold context_of. cbn.
    destruct (decide (u = cur)) as [->|]; [by rewrite lookup_insert_eq, Ho|].
    by rewrite !lookup_insert_ne.
Qed.

End ops.

(** The run queue is found in the hypotheses. *)
Arguments schedule_rep {H _ _ runnable_list} s a.
Arguments moved_rep {H _ _ runnable_list} l t th st s a q.
Arguments block_rep {H _ _ runnable_list} s a st.
Arguments enter_rep {H _ _ runnable_list} s a t th.
Arguments suspend_rep {H _ _ runnable_list} s a.
Arguments wakeup_rep {H _ _ runnable_list} s a t.
Arguments wake_joiner_rep {H _ _ runnable_list} s a cur th.
Arguments finish_rep {H _ _ runnable_list} s a tho retval.
Arguments rep_upd {H runnable_list} s a t th th'.
Arguments frame_upd {H _ runnable_list} f t s s'.
