(* ===== verification/KernelSample.v ===== *)
(** * A small kernel

    Two threads share a processor, a third one sleeps; the run queue is at 64.  The
    witnesses of the theorems on the kernel use this state. *)
From S2P Require Import Prelude CList Cpu Malloc MallocInv KHeap MallocTheorems Tlb TlbTheorems Kernel Sched Vmm Threads SchedExec SchedSpec SchedRefine.

(** The kernel image: the head of the heap list, and the low addresses at which the
    objects of the sample are. *)
Definition sample_static (x : Z) : Prop := x = sample_hl ∨ 0 ≤ x < 0x10000.

#[export] Instance sample_kernel_heap : KernelHeap (mm_state (gset Z)) :=
  mm_kernel_heap sample_hl sample_static.

#[export] Instance sample_kernel_heap_laws : KernelHeapLaws (mm_state (gset Z)) :=
  mm_kernel_heap_laws sample_hl sample_static.

Definition sample_thread (st : thread_state) (joiner : Z) (top : context) : thread :=
  Thread 4096 65536 (CUser 7) 8 0 top st 100 joiner 20480 0 0.

(** The context of a thread that waits in [schedule]. *)
Definition sample_context : context := suspended [FUser 1 2] 0xff01.

Definition sample_kernel : kernel (mm_state (gset Z)) :=
  Kernel (MM ∅ ∅ 0xff01)
    (list_to_map [(64, Link 8192 4096); (4096, Link 64 8192); (8192, Link 4096 64); (12288, Link 0 0)])
    (list_to_map [(4096, sample_thread THREAD_READY 0 sample_context);
                  (8192, sample_thread THREAD_RUNNING 12288 (Context [] 0));
                  (12288, sample_thread THREAD_SLEEPING 0 sample_context)])
    ∅
    (list_to_map [(20480, Vmm 3 [Vma 5 9 2 true; Vma 0 0 0 false])])
    ∅ ∅ (list_to_map [(0, 8192)]) 0 10 500 4000 0 sample_tlb 4 4096 [FUser 3 4] 0 ∅.

Definition sample_sched : sched :=
  Scheduler [4096; 8192] 8192
    (list_to_map [(4096, THREAD_READY); (8192, THREAD_RUNNING); (12288, THREAD_SLEEPING)]).

Lemma sample_threads_inv t th :
  k_threads sample_kernel !! t = Some th → t = 4096 ∨ t = 8192 ∨ t = 12288.
Proof.
  cbn. intros Ht.
  destruct (decide (t = 4096)); [by left|]. destruct (decide (t = 8192)); [by right; left|].
  destruct (decide (t = 12288)); [by right; right|].
  by rewrite !lookup_insert_ne in Ht by done.
Qed.

Lemma sample_sched_ok : sched_ok sample_sched.
Proof.
  split_and!.
  - by apply (bool_decide_unpack _).
  - intros t. cbn. split.
    + intros [->|[->|[]%elem_of_nil]%elem_of_cons]%elem_of_cons; eexists; (split; [reflexivity|]); [left|right]; done.
    + intros (st & Hst & Hr). destruct (decide (t = 4096)) as [->|]; [left|].
      destruct (decide (t = 8192)) as [->|]; [right; left|].
      destruct (decide (t = 12288)) as [->|]; [by injection Hst as <-; destruct Hr|].
      by rewrite !lookup_insert_ne in Hst by done.
  - intros t. cbn. intros Hst. destruct (decide (t = 8192)) as [->|]; [done|].
    destruct (decide (t = 4096)) as [->|]; [done|]. destruct (decide (t = 12288)) as [->|]; [done|].
    by rewrite !lookup_insert_ne in Hst by done.
  - by eexists.
  - done.
Qed.

Lemma sample_sched_rep : sched_rep 64 sample_kernel sample_sched.
Proof.
  split_and!; try done.
  - exact sample_sched_ok.
  - split; [by vm_compute|]. split; [by apply (bool_decide_unpack _)|].
    split; [by apply (bool_decide_unpack _)|]. intros x y _ _ ?. done.
  - intros t [th Ht]. destruct (sample_threads_inv t th Ht) as [->|[->| ->]]; cbn; intros Hn.
    + destruct Hn. left.
    + destruct Hn. right. left.
    + done.
  - intros t th Ht. destruct (sample_threads_inv t th Ht) as [->|[->| ->]]; injection Ht as <-; by eexists.
Qed.

Lemma sample_running : running sample_sched.
Proof. reflexivity. Qed.

(** No free frame is part of the image. *)
Lemma free_frames_static n a : frame_is_free (frame_run 16 n) (a - ADDR_PREFIX_KSEG0) → ¬ sample_static a.
Proof.
  intros Ha Hs. cbn -[frame_run] in Ha. apply frame_run_spec in Ha.
  unfold sample_static, in_frames, sample_hl, ADDR_PREFIX_KSEG0, FRAME_SIZE in *. lia.
Qed.

Lemma sample_free_static a : frame_is_free sample_frames (a - ADDR_PREFIX_KSEG0) → ¬ sample_static a.
Proof. exact (free_frames_static 16 a). Qed.

(** An empty heap over free frames. *)
Lemma frames_heap n : ∃ h, kh_rep (KernelHeap := sample_kernel_heap) h ∅ (λ _, False) ∧
  mm_frames h = frame_run 16 n ∧ mm_inv sample_hl h [].
Proof.
  destruct (frames_mm_init n) as (s & _ & Hinv & Hf). exists s. split; [|by split].
  exists []. split_and!; [done| |done|].
  - intros p k. rewrite lookup_empty. split; [done|]. by intros (h & ? & ? & ? & ?%elem_of_nil & _).
  - intros a [(h & ?%elem_of_nil & _)|Ha]; [done|]. split; [|tauto]. rewrite Hf in Ha. by eapply free_frames_static.
Qed.

Lemma sample_heap : ∃ h, kh_rep (KernelHeap := sample_kernel_heap) h ∅ (λ _, False) ∧
  mm_frames h = sample_frames ∧ mm_inv sample_hl h [].
Proof. exact (frames_heap 16). Qed.
