(* ===== verification/ThreadCreate.v ===== *)
(** * Creation of threads ([kernel/proc/thread.c])

    [thread_create] allocates up to three objects ([thread_requests]), gives back what it
    has taken when one of them is refused, and otherwise enters a thread into the run queue that will start
    in [thread_stub]. *)
From S2P Require Import Prelude CList Cpu Malloc MallocTheorems KHeap Tlb Kernel Sched Vmm Threads Timers SchedExec SchedSpec SchedRefine SchedOps VmmTheorems KernelSample.

Section create.
  Context {H : Type} `{KernelHeapLaws H}.
  Context (runnable_list : Z).
  Context (junk_thread : thread) (junk_timer : timer) (junk_link : link_t).
  Implicit Types (s : kernel H) (a : sched) (live : gmap Z Z).

(** The addresses of allocated memory and of the kernel image. *)
Definition in_use live (x : Z) : Prop :=
  kh_static x ∨ ∃ q n, live !! q = Some n ∧ q ≤ x < q + n.

(** Every object of the kernel is in memory that is in use. *)
Record objects_ok s live : Prop := ObjectsOk {
  oo_threads t : is_Some (k_threads s !! t) → in_use live t;
  oo_links p : is_Some (k_links s !! p) → in_use live p;
  oo_timers p : is_Some (k_timers s !! p) → in_use live p;
  oo_vmms p : is_Some (k_vmms s !! p) → in_use live p;
  oo_processes p : is_Some (k_processes s !! p) → in_use live p;
  oo_uthreads p : is_Some (k_uthreads s !! p) → in_use live p;
}.

Lemma fresh_not_in_use live p n x : fresh_payload live p n → p ≤ x < p + n → ¬ in_use live x.
Proof.
  intros (_ & _ & _ & Hl & Hs) Hx [Hst|(q & k & Hq & Hin)]; [by apply (Hs x)|].
  destruct (Hl q k Hq) as [_ [?|?]]; lia.
Qed.

Lemma fresh_live live p n : fresh_payload live p n → live !! p = None.
Proof.
  intros (_ & _ & _ & Hl & _). destruct (live !! p) as [k|] eqn:E; [|done]. by destruct (Hl p k E).
Qed.

Lemma in_use_insert live p n x : live !! p = None → in_use live x → in_use (<[p := n]> live) x.
Proof.
  intros Hp [Hs|(q & k & Hq & Hx)]; [by left|right]. exists q, k. split; [|done].
  rewrite lookup_insert_ne; [done|]. intros ->. congruence.
Qed.

Lemma in_use_new live p n x : p ≤ x < p + n → in_use (<[p := n]> live) x.
Proof. intros Hx. right. exists p, n. by rewrite lookup_insert_eq. Qed.

(** No object lies in fresh memory. *)
Lemma fresh_objects s live p n x :
  objects_ok s live → fresh_payload live p n → p ≤ x < p + n →
  k_threads s !! x = None ∧ k_links s !! x = None ∧ k_timers s !! x = None ∧ k_vmms s !! x = None.
Proof.
  intros Hok Hf Hx. pose proof (fresh_not_in_use live p n x Hf Hx) as Hn.
  split_and!; apply eq_None_not_Some; intros Hs; apply Hn; by destruct Hok; auto.
Qed.

(** ** A thread under construction *)
(** The state with a thread structure at [p], timer [tm] and links [l]. *)
Definition creating (p : Z) (th : thread) (tm : timer) (l : links) s : kernel H :=
  set_k_threads <[p := th]> (set_k_timers <[thread_timer p := tm]> (set_k_links (λ _, l) s)).

(** The links of a new thread structure. *)
Definition raw_links (p : Z) s : links :=
  <[p := junk_link]> (<[thread_timer p := junk_link]> (<[thread_wait_queue_link p := junk_link]> (k_links s))).

Lemma creating_upd f p th tm l s :
  upd_thread f p (creating p th tm l s) = Ok (tt, creating p (f th) tm l s).
Proof.
  erewrite upd_thread_ok by apply lookup_insert_eq. do 2 f_equal.
  apply kernel_ext; try reflexivity. apply insert_insert_eq.
Qed.

Lemma creating_get {A} (f : thread → A) p th tm l s :
  get_thread f p (creating p th tm l s) = Ok (f th, creating p th tm l s).
Proof. apply get_thread_ok, lookup_insert_eq. Qed.

Lemma creating_link p th tm l s q :
  q ≠ NULL → is_Some (l !! q) →
  link_init q (creating p th tm l s) = Ok (tt, creating p th tm (<[q := Link NULL NULL]> l) s).
Proof.
  intros Hq Hl. by erewrite link_init_kernel.
Qed.

Lemma thread_parts p n (m : Z → Prop) :
  sizeof_thread ≤ n → (∀ x, p ≤ x < p + n → m x) →
  m p ∧ m (thread_timer p) ∧ m (thread_wait_queue_link p).
Proof.
  unfold sizeof_thread, thread_timer, thread_wait_queue_link. intros Hn Hm. split_and!; apply Hm; lia.
Qed.

(** What [thread_create] asks of the allocator; a thread with an address space of its own
    needs one block more. *)
Definition thread_requests (new : bool) : list request :=
  [Block sizeof_thread; Block THREAD_STACK_SIZE] ++ (if new then [Block sizeof_vmm] else []).

(** [malloc] of a thread structure. *)
Lemma malloc_thread_exec s live owned :
  kh_rep (k_heap s) live owned →
  ∃ p h', cp0_status h' = cp0_status s ∧
    ((p = NULL ∧ kh_rep h' live owned ∧ refused [Block sizeof_thread] (k_heap s) ∧
      malloc_thread junk_thread junk_timer junk_link s = Ok (NULL, set_k_heap h' s)) ∨
     (p ≠ NULL ∧ granted [Block sizeof_thread] (k_heap s) h' ∧ ∃ n, sizeof_thread ≤ n ∧ fresh_payload live p n ∧ kh_rep h' (<[p := n]> live) owned ∧
      malloc_thread junk_thread junk_timer junk_link s =
        Ok (p, creating p junk_thread junk_timer (raw_links p s) (set_k_heap h' s)))).
Proof.
  intros Hrep. destruct (km_malloc_law (k_heap s) live owned sizeof_thread Hrep) as (p & h' & He & Hst & Hres); [done|].
  exists p, h'. split; [done|]. unfold malloc_thread. erewrite bind_ok by (apply in_heap_ok; exact He).
  destruct Hres as [[-> Hr]|(Hp & n & Hn & Hf & Hr)]; [left|right].
  { split_and!; [done|done|by eapply refused_block|done]. }
  split; [done|]. split; [by eapply granted_block|]. exists n. rewrite bool_decide_eq_true_2 by done. by split_and!.
Qed.

(** [free] of it: the stores are as before the allocation. *)
Lemma free_thread_exec p th tm s live owned n :
  kh_rep (k_heap s) live owned → live !! p = Some n →
  k_threads s !! p = None → k_timers s !! thread_timer p = None →
  k_links s !! p = None → k_links s !! thread_timer p = None → k_links s !! thread_wait_queue_link p = None →
  ∃ h', free_thread p (creating p th tm (raw_links p s) s) = Ok (tt, set_k_heap h' s) ∧
    cp0_status h' = cp0_status s ∧ kh_rep h' (delete p live) owned.
Proof.
  intros Hrep Hp ? ? ? ? ?.
  destruct (km_free_law (k_heap s) live owned p n Hrep Hp) as (h' & He & Hst & Hr).
  exists h'. split; [|done]. unfold free_thread.
  erewrite bind_ok by (apply creating_get). do 3 (erewrite bind_ok by reflexivity).
  erewrite in_heap_ok by exact He. do 2 f_equal. apply kernel_ext; try reflexivity; cbn.
  - unfold raw_links. apply map_eq. intros x.
    destruct (decide (x = p)) as [->|]; [by rewrite lookup_delete_eq|]. rewrite lookup_delete_ne by done.
    destruct (decide (x = thread_timer p)) as [->|]; [by rewrite lookup_delete_eq|]. rewrite lookup_delete_ne by done.
    destruct (decide (x = thread_wait_queue_link p)) as [->|]; [by rewrite lookup_delete_eq|].
    by rewrite lookup_delete_ne, !lookup_insert_ne by done.
  - by rewrite delete_insert_id.
  - by rewrite delete_insert_id.
Qed.
(** ** The memory map of a new thread *)
Definition empty_vmm (asid : Z) : vmm := Vmm asid (replicate VMAS (Vma 0 0 0 false)).

Definition with_new_vmm (v : Z) s : kernel H :=
  set_k_last_asid ((k_last_asid s + 1) mod 256) (set_k_vmms <[v := empty_vmm (k_last_asid s)]> s).

Lemma vmm_create_exec s live owned :
  kh_rep (k_heap s) live owned →
  ∃ h', cp0_status h' = cp0_status s ∧
    ((vmm_create s = Ok ((ENOMEM, NULL), set_k_heap h' s) ∧ kh_rep h' live owned ∧
      refused [Block sizeof_vmm] (k_heap s)) ∨
     ∃ v n, vmm_create s = Ok ((EOK, v), with_new_vmm v (set_k_heap h' s)) ∧ sizeof_vmm ≤ n ∧
       fresh_payload live v n ∧ kh_rep h' (<[v := n]> live) owned ∧ granted [Block sizeof_vmm] (k_heap s) h').
Proof.
  intros Hrep. destruct (km_malloc_law (k_heap s) live owned sizeof_vmm Hrep) as (v & h' & He & Hst & Hres); [done|].
  exists h'. split; [done|]. unfold vmm_create. erewrite bind_ok by (apply in_heap_ok; exact He).
  destruct Hres as [[-> Hr]|(Hv & n & Hn & Hf & Hr)]; [left|right].
  { split_and!; [done|done|by eapply refused_block]. }
  exists v, n. split; [|split_and!; [done..|by eapply granted_block]]. rewrite bool_decide_eq_false_2 by done. erewrite bind_ok by reflexivity. kexec_step.
  erewrite bind_ok by reflexivity. erewrite bind_ok by (apply upd_vmm_ok, lookup_insert_eq).
  erewrite bind_ok by reflexivity. erewrite bind_ok by (apply ints_restore; reflexivity).
  unfold mret, KM_ret. do 2 f_equal. apply kernel_ext; try reflexivity; cbn.
  - by rewrite set_cp0_status_set, set_cp0_status_same.
  - by rewrite insert_insert_eq.
Qed.

(** ** A dormant thread joins the others *)
Lemma sched_ok_dormant t a :
  sched_ok a → t ≠ NULL → sc_state a !! t = None →
  sched_ok (Scheduler (sc_queue a) (sc_current a) (<[t := THREAD_SLEEPING]> (sc_state a))).
Proof.
  intros (Hnd & Hq & Hrun & Hc & Hn) Ht0 Htst. split_and!; cbn [sc_queue sc_current sc_state].
  - done.
  - intros u. rewrite Hq. destruct (decide (u = t)) as [->|Hne]; [|by rewrite lookup_insert_ne].
    rewrite lookup_insert_eq, Htst. split; [naive_solver|]. intros (st & [= <-] & [|]); done.
  - intros u. destruct (decide (u = t)) as [->|Hne]; [by rewrite lookup_insert_eq|].
    rewrite lookup_insert_ne by done. apply Hrun.
  - rewrite lookup_insert_ne; [done|]. intros ->. rewrite Htst in Hc. by destruct Hc.
  - by rewrite lookup_insert_ne.
Qed.

Lemma dormant_rep s a t th l :
  sched_rep runnable_list s a → k_threads s !! t = None → t ≠ NULL → t ≠ run_queue runnable_list s →
  (∀ q, is_Some (k_links s !! q) → l !! q = k_links s !! q) → unlinked (M := links) l t →
  is_Some (k_vmms s !! th_vmm th) →
  sched_rep runnable_list (set_k_links (λ _, l) (set_k_threads <[t := set_th_state THREAD_SLEEPING th]> s))
    (Scheduler (sc_queue a) (sc_current a) (<[t := THREAD_SLEEPING]> (sc_state a))).
Proof.
  intros Hr Ht Ht0 Htq Hl Hu Hv. pose proof Hr as (Hok & His & Hcur & Hst & Hul & Hvm & Hrq).
  assert (Htst : sc_state a !! t = None) by (by rewrite Hst, lookup_fmap, Ht).
  assert (Hmap : ∀ q, mapped (M := links) (k_links s) q → is_Some (k_links s !! q)).
  { intros q [Hp _]. cbn in Hp. by apply fmap_is_Some in Hp. }
  split_and!; cbn [sc_queue sc_current sc_state].
  - by apply sched_ok_dormant.
  - assert (Hagree : ∀ q, q ∈ run_queue runnable_list s :: sc_queue a → l !! q = k_links s !! q).
    { intros q Hin. apply Hl, Hmap. by eapply is_list_mapped. }
    destruct His as [Hp Hs]. split; [|exact Hs].
    eapply path_frame; [..|exact Hp]; intros q Hin; cbn; rewrite Hagree; try done.
    + rewrite app_comm_cons, removelast_last in Hin. done.
    + cbn in Hin. rewrite elem_of_app, list_elem_of_singleton in Hin. rewrite elem_of_cons. tauto.
  - done.
  - cbn. by rewrite fmap_insert, Hst.
  - intros u Hu' Hnin. destruct (decide (u = t)) as [->|Hne]; [done|].
    cbn in Hu'. rewrite lookup_insert_ne in Hu' by done.
    pose proof (Hul u Hu' Hnin) as Hun. apply (unlinked_lookup (k_links s)); [|done].
    apply Hl, Hmap. by apply unlinked_mapped.
  - intros u uth. cbn. destruct (decide (u = t)) as [->|Hne].
    + rewrite lookup_insert_eq. by intros [= <-].
    + rewrite lookup_insert_ne by done. apply Hvm.
  - cbn. rewrite lookup_insert_ne; [done|]. done.
Qed.
(** ** The parts of [thread_create] *)
(** The control structure when it is complete. *)
Definition started (p : Z) (entry : code) (data : Z) (th : thread) : thread :=
  Thread (th_stack_size th) (th_stack_data th) entry data NULL
    (Context [FStub p] (Z.lor CP0_STATUS_IE_MASK CP0_STATUS_IM_MASK)) THREAD_READY 0 NULL (th_vmm th) NULL NULL.

Definition started_links (p : Z) (l : links) : links :=
  <[thread_wait_queue_link p := Link NULL NULL]> (<[p := Link NULL NULL]> l).

Lemma setup_exec p entry data th tm l s :
  0 < p → is_Some (l !! p) → is_Some (l !! thread_wait_queue_link p) →
  thread_setup p entry data (creating p th tm l s) =
    Ok (tt, creating p (started p entry data th) tm (started_links p l) s).
Proof.
  intros Hp Hl Hw. unfold thread_setup.
  erewrite bind_ok by (apply creating_link; [unfold NULL; lia|done]).
  do 8 (erewrite bind_ok by apply creating_upd).
  erewrite bind_ok.
  2:{ apply creating_link; [unfold NULL, thread_wait_queue_link; lia|].
      rewrite lookup_insert_ne; [done|]. unfold thread_wait_queue_link. lia. }
  rewrite creating_upd. by destruct th.
Qed.

(** The choice of the memory map: a new one. *)
Lemma choose_new_vmm_exec flags cur p th tm l s live owned :
  kh_rep (k_heap s) live owned → cur = NULL ∨ Z.land flags TF_NEW_VMM = TF_NEW_VMM →
  ∃ h', cp0_status h' = cp0_status s ∧
    ((thread_choose_vmm p cur flags (creating p th tm l s) = Ok (ENOMEM, creating p th tm l (set_k_heap h' s)) ∧
      kh_rep h' live owned ∧ refused [Block sizeof_vmm] (k_heap s)) ∨
     ∃ v n, thread_choose_vmm p cur flags (creating p th tm l s) =
         Ok (EOK, creating p (set_th_vmm v th) tm l (with_new_vmm v (set_k_heap h' s))) ∧
       sizeof_vmm ≤ n ∧ fresh_payload live v n ∧ kh_rep h' (<[v := n]> live) owned ∧
       granted [Block sizeof_vmm] (k_heap s) h').
Proof.
  intros Hrep Hnew. unfold thread_choose_vmm.
  replace (bool_decide (cur = NULL) || _) with true by (symmetry; apply orb_true_iff; by rewrite !bool_decide_eq_true).
  destruct (vmm_create_exec (creating p th tm l s) live owned Hrep) as (h' & Hst & [(He & Hr & Hrf)|(v & n & He & Hn & Hf & Hr & Hg)]);
    exists h'; (split; [done|]); [left|right].
  - split; [|done]. by erewrite bind_ok by exact He.
  - exists v, n. split; [|done]. erewrite bind_ok by exact He. cbn beta iota.
    rewrite bool_decide_eq_true_2 by done.
    change (with_new_vmm v (set_k_heap h' (creating p th tm l s)))
      with (creating p th tm l (with_new_vmm v (set_k_heap h' s))).
    by erewrite bind_ok by apply creating_upd.
Qed.

(** Or that of the current thread. *)
Lemma choose_vmm_exec flags cur curth p th tm l s live owned :
  kh_rep (k_heap s) live owned → k_threads s !! cur = Some curth → cur ≠ p → cur ≠ NULL →
  (Z.land flags TF_NEW_VMM = TF_NEW_VMM ∧ ∃ h', cp0_status h' = cp0_status s ∧
    ((thread_choose_vmm p cur flags (creating p th tm l s) = Ok (ENOMEM, creating p th tm l (set_k_heap h' s)) ∧
      kh_rep h' live owned ∧ refused [Block sizeof_vmm] (k_heap s)) ∨
     ∃ v n, thread_choose_vmm p cur flags (creating p th tm l s) =
         Ok (EOK, creating p (set_th_vmm v th) tm l (with_new_vmm v (set_k_heap h' s))) ∧
       sizeof_vmm ≤ n ∧ fresh_payload live v n ∧ kh_rep h' (<[v := n]> live) owned ∧
       granted [Block sizeof_vmm] (k_heap s) h')) ∨
  (Z.land flags TF_NEW_VMM ≠ TF_NEW_VMM ∧
   thread_choose_vmm p cur flags (creating p th tm l s) =
     Ok (EOK, creating p (set_th_vmm (th_vmm curth) th) tm l s)).
Proof.
  intros Hrep Hcur Hne Hn0. destruct (decide (Z.land flags TF_NEW_VMM = TF_NEW_VMM)) as [Hfl|Hfl]; [left|right];
    (split; [done|]).
  - apply choose_new_vmm_exec; [done|by right].
  - unfold thread_choose_vmm. rewrite (bool_decide_eq_false_2 (cur = NULL)), (bool_decide_eq_false_2 (_ = TF_NEW_VMM)) by done.
    cbn [orb]. erewrite bind_ok.
    2:{ apply get_thread_ok. cbn. rewrite lookup_insert_ne; done. }
    by erewrite bind_ok by apply creating_upd.
Qed.
(** The new thread is set up and enters the run queue. *)
Lemma start_rep s a p th tm entry data :
  sched_rep runnable_list s a → 0 < p → k_threads s !! p = None → k_links s !! p = None →
  k_links s !! thread_timer p = None → k_links s !! thread_wait_queue_link p = None →
  is_Some (k_vmms s !! th_vmm th) →
  ∃ l, (thread_setup p entry data ;; sched_insert runnable_list p) (creating p th tm (raw_links p s) s) =
      Ok (tt, creating p (started p entry data th) tm l s) ∧
    sched_rep runnable_list (creating p (started p entry data th) tm l s) (a_create p a) ∧
    ∀ q, q ≠ run_queue runnable_list s → q ≠ p → k_threads s !! q = None →
      l !! q = started_links p (raw_links p s) !! q.
Proof.
  intros Hr Hp Hpt Hp1 Hp2 Hp3 Hv.
  assert (Hraw : is_Some (raw_links p s !! p) ∧ is_Some (raw_links p s !! thread_wait_queue_link p)).
  { unfold raw_links. rewrite lookup_insert_eq. split; [by eexists|].
    rewrite !lookup_insert_ne, lookup_insert_eq by (unfold thread_wait_queue_link, thread_timer; lia). by eexists. }
  assert (Hq : p ≠ run_queue runnable_list s).
  { intros ->. pose proof Hr as (_ & His & _). destruct (is_list_mapped _ _ _ (run_queue runnable_list s) His) as [Hm _];
      [left|]. cbn in Hm. rewrite Hp1 in Hm. by destruct Hm. }
  set (th' := started p entry data th). set (l0 := started_links p (raw_links p s)).
  set (sd := set_k_links (λ _, l0) (set_k_threads <[p := set_th_state THREAD_SLEEPING th']>
    (set_k_timers <[thread_timer p := tm]> s))).
  set (ad := Scheduler (sc_queue a) (sc_current a) (<[p := THREAD_SLEEPING]> (sc_state a))).
  assert (Hd : sched_rep runnable_list sd ad).
  { apply dormant_rep; try done.
    - unfold NULL. lia.
    - intros q Hsq. unfold l0, started_links, raw_links. cbn in Hsq |- *.
      rewrite !lookup_insert_ne; [done|..]; intros <-;
        (rewrite Hp1 in Hsq || rewrite Hp2 in Hsq || rewrite Hp3 in Hsq); by destruct Hsq.
    - unfold unlinked, l0, started_links. cbn.
      rewrite lookup_insert_ne, lookup_insert_eq by (unfold thread_wait_queue_link; lia). done. }
  assert (Hnin : p ∉ sc_queue ad).
  { destruct Hd as ((_ & Hqd & _) & _). rewrite Hqd. cbn. rewrite lookup_insert_eq.
    intros (st & [= <-] & [|]); done. }
  destruct (enter_rep sd ad p (set_th_state THREAD_SLEEPING th') Hd) as (l & He & Hr' & Hf); [apply lookup_insert_eq|done|].
  assert (Hcr : ∀ l', set_k_links (λ _, l') (set_k_threads
      <[p := set_th_state THREAD_READY (set_th_state THREAD_SLEEPING th')]> sd) = creating p th' tm l' s).
  { intros l'. apply kernel_ext; try reflexivity. cbn. by rewrite insert_insert_eq. }
  exists l. split_and!.
  - erewrite bind_ok by (apply setup_exec; [done|by apply Hraw..]).
    rewrite <- (Hcr l), <- (Hcr (started_links _ _)). exact He.
  - rewrite <- (Hcr l). revert Hr'. unfold a_create, ad. cbn [sc_queue sc_current sc_state].
    by rewrite insert_insert_eq.
  - intros q Hqq Hqp Hqt. destruct Hf as (Hl & _). apply Hl; [done|]. cbn. by rewrite lookup_insert_ne.
Qed.
(** The structure, the stack and, if there is a new one, the memory map are in blocks
    of their own. *)
Definition own_blocks live live' (t stk v : Z) (new : bool) : Prop :=
  stk ≠ t ∧ live !! t = None ∧ (∃ k, live' !! t = Some k ∧ sizeof_thread ≤ k) ∧
  (new = true → v ≠ t ∧ v ≠ stk ∧ live !! v = None ∧ ∃ k, live' !! v = Some k ∧ sizeof_vmm ≤ k).

(** Threads have a link. *)
Lemma rep_thread_link s a t : sched_rep runnable_list s a → is_Some (k_threads s !! t) → is_Some (k_links s !! t).
Proof.
  intros (_ & His & _ & _ & Hu & _) Ht. destruct (decide (t ∈ sc_queue a)) as [Hin|Hn].
  - destruct (is_list_mapped _ _ _ t His) as [Hm _]; [by right|]. by apply fmap_is_Some in Hm.
  - destruct (unlinked_mapped (k_links s) t) as [Hm _]; [by apply Hu|]. by apply fmap_is_Some in Hm.
Qed.

(** The links after a thread has been created; those that [P] holds of may change. *)
Lemma started_domain (P : Z → Prop) `{∀ q, Decision (P q)} s p (l : links) :
  (∀ q, P q → is_Some (k_links s !! q) ∧ is_Some (l !! q)) → is_Some (l !! p) →
  (∀ q, ¬ P q → q ≠ p → l !! q = started_links p (raw_links p s) !! q) →
  ∀ q, is_Some (l !! q) ↔ is_Some (k_links s !! q) ∨ q = p ∨ q = thread_timer p ∨ q = thread_wait_queue_link p.
Proof.
  intros HP Hp Hl q. destruct (decide (P q)) as [Hq|Hq]; [destruct (HP q Hq); tauto|].
  destruct (decide (q = p)) as [->|Hne]; [tauto|]. rewrite Hl by done. unfold started_links, raw_links.
  rewrite !lookup_insert_is_Some'. naive_solver.
Qed.

Lemma created_links s a p th tm l :
  sched_rep runnable_list s a → sched_rep runnable_list (creating p th tm l s) (a_create p a) →
  (∀ q, q ≠ run_queue runnable_list s → q ≠ p → k_threads s !! q = None →
    l !! q = started_links p (raw_links p s) !! q) →
  ∀ q, is_Some (l !! q) ↔ is_Some (k_links s !! q) ∨ q = p ∨ q = thread_timer p ∨ q = thread_wait_queue_link p.
Proof.
  intros Hr Hr' Hl. assert (Hthread : ∀ q, is_Some (k_threads s !! q) ∨ q = p → is_Some (l !! q)).
  { intros q Hq. apply (rep_thread_link (creating p th tm l s) (a_create p a)); [done|]. cbn.
    rewrite lookup_insert_is_Some'. destruct Hq as [Hq| ->]; [by right|by left]. }
  apply (started_domain (λ q, q = run_queue runnable_list s ∨ is_Some (k_threads s !! q))); [|by apply Hthread; right|].
  - intros q [->|Hq]; [|split; [by apply (rep_thread_link s a)|by apply Hthread; left]].
    destruct Hr as (_ & His & _), Hr' as (_ & His' & _).
    destruct (is_list_mapped _ _ _ _ His (list_elem_of_here _ _)) as [Hm _].
    destruct (is_list_mapped _ _ _ _ His' (list_elem_of_here _ _)) as [Hm' _]. by apply fmap_is_Some in Hm, Hm'.
  - intros q Hq Hne. apply Hl; [tauto|done|apply eq_None_not_Some; tauto].
Qed.

(** What a call that succeeds leaves behind. *)
Record created s a live owned (entry : code) (data flags : Z) (cur : thread) (t : Z) s' : Prop := Created {
  cr_new : t ≠ NULL ∧ k_threads s !! t = None;
  cr_queue : sched_rep runnable_list s' (a_create t a);
  cr_frame : cp0_status s' = cp0_status s ∧ k_stack s' = k_stack s ∧
    k_processes s' = k_processes s ∧ k_uthreads s' = k_uthreads s;
  cr_links q : is_Some (k_links s !! q) → k_threads s !! q = None → q ≠ run_queue runnable_list s →
    k_links s' !! q = k_links s !! q;
  cr_memory : ∃ live' stk v n, live ⊆ live' ∧ kh_rep (k_heap s') live' owned ∧ objects_ok s' live' ∧
    k_threads s' = <[t := Thread THREAD_STACK_SIZE stk entry data NULL
      (Context [FStub t] (Z.lor CP0_STATUS_IE_MASK CP0_STATUS_IM_MASK)) THREAD_READY 0 NULL v NULL NULL]> (k_threads s) ∧
    live' !! stk = Some n ∧ THREAD_STACK_SIZE ≤ n ∧ live !! stk = None ∧
    (if bool_decide (Z.land flags TF_NEW_VMM = TF_NEW_VMM)
     then k_vmms s !! v = None ∧ k_vmms s' = <[v := empty_vmm (k_last_asid s)]> (k_vmms s)
     else v = th_vmm cur ∧ k_vmms s' = k_vmms s) ∧
    own_blocks live live' t stk v (bool_decide (Z.land flags TF_NEW_VMM = TF_NEW_VMM));
  cr_same : k_cpu s' = k_cpu s ∧ k_timer_thread s' = k_timer_thread s ∧ k_jiffies s' = k_jiffies s ∧
    (∀ p, p ≠ thread_timer t → k_timers s' !! p = k_timers s !! p) ∧ is_Some (k_timers s' !! thread_timer t) ∧
    ∀ p, is_Some (k_links s' !! p) ↔ is_Some (k_links s !! p) ∨ p = t ∨ p = thread_timer t ∨ p = thread_wait_queue_link t;
  cr_tlb : k_tlb s' = k_tlb s;
  cr_granted : granted (thread_requests (bool_decide (Z.land flags TF_NEW_VMM = TF_NEW_VMM))) (k_heap s) (k_heap s');
}.

Lemma rep_queue_mapped s a : sched_rep runnable_list s a → is_Some (k_links s !! run_queue runnable_list s).
Proof.
  intros (_ & His & _). destruct (is_list_mapped _ _ _ (run_queue runnable_list s) His) as [Hm _]; [left|].
  by apply fmap_is_Some in Hm.
Qed.

(** The objects of the state with the new thread. *)
Lemma created_objects s s1 p n th tm l live live' :
  is_Some (k_links s !! run_queue runnable_list s) → objects_ok s live → k_links s1 = k_links s → k_threads s1 = k_threads s →
  k_timers s1 = k_timers s → k_cpu s1 = k_cpu s → k_processes s1 = k_processes s → k_uthreads s1 = k_uthreads s →
  (∀ v, is_Some (k_vmms s1 !! v) → in_use live' v) → (∀ x, in_use live x → in_use live' x) →
  live' !! p = Some n → sizeof_thread ≤ n →
  (∀ q, q ≠ run_queue runnable_list s → q ≠ p → k_threads s !! q = None →
    l !! q = started_links p (raw_links p s1) !! q) →
  objects_ok (creating p th tm l s1) live'.
Proof.
  intros Hr [Hot Hol Hoi _ Hop Hou] El Et Ei Ec Ep Eu Hv Hup Hp Hn Hl.
  destruct (thread_parts p n (in_use live')) as (Hp1 & Hp2 & Hp3); [done|intros x Hx; right; by exists p, n|].
  split.
  - intros t. cbn. rewrite Et. intros [->|[_ Ht]]%lookup_insert_is_Some; [done|by apply Hup, Hot].
  - intros q Hq. cbn in Hq. destruct (decide (q = p)) as [->|Hqp]; [done|].
    destruct (decide (is_Some (k_threads s !! q))) as [Ht|Ht%eq_None_not_Some]; [by apply Hup, Hot|].
    destruct (decide (q = run_queue runnable_list s)) as [->|Hqq].
    + by apply Hup, Hol.
    + rewrite Hl in Hq by done. unfold started_links, raw_links in Hq. rewrite El in Hq.
      repeat (apply lookup_insert_is_Some in Hq; destruct Hq as [<-|[_ Hq]]; [done|]).
      by apply Hup, Hol.
  - intros q. cbn. rewrite Ei. intros [<-|[_ Hq]]%lookup_insert_is_Some; [done|by apply Hup, Hoi].
  - exact Hv.
  - intros q. cbn. rewrite Ep. intros Hq. by apply Hup, Hop.
  - intros q. cbn. rewrite Eu. intros Hq. by apply Hup, Hou.
Qed.
Lemma finish_create s s1 a p n th tm entry data flags cur live live' owned stk n' :
  sched_rep runnable_list s a → objects_ok s live →
  k_links s1 = k_links s → k_threads s1 = k_threads s → k_timers s1 = k_timers s → k_cpu s1 = k_cpu s →
  k_current s1 = k_current s → k_stack s1 = k_stack s → k_processes s1 = k_processes s →
  k_uthreads s1 = k_uthreads s → cp0_status s1 = cp0_status (ints_masked s) →
  fresh_payload live p n → sizeof_thread ≤ n → live' !! p = Some n → live ⊆ live' → kh_rep (k_heap s1) live' owned →
  live' !! stk = Some n' → THREAD_STACK_SIZE ≤ n' → live !! stk = None →
  th_stack_size th = THREAD_STACK_SIZE → th_stack_data th = stk →
  (∀ x, is_Some (k_vmms s1 !! x) → in_use live' x) → k_vmms s ⊆ k_vmms s1 → is_Some (k_vmms s1 !! th_vmm th) →
  (if bool_decide (Z.land flags TF_NEW_VMM = TF_NEW_VMM)
   then k_vmms s !! th_vmm th = None ∧ k_vmms s1 = <[th_vmm th := empty_vmm (k_last_asid s)]> (k_vmms s)
   else th_vmm th = th_vmm cur ∧ k_vmms s1 = k_vmms s) →
  own_blocks live live' p stk (th_vmm th) (bool_decide (Z.land flags TF_NEW_VMM = TF_NEW_VMM)) →
  k_timer_thread s1 = k_timer_thread s → k_jiffies s1 = k_jiffies s → k_tlb s1 = k_tlb s →
  granted (thread_requests (bool_decide (Z.land flags TF_NEW_VMM = TF_NEW_VMM))) (k_heap s) (k_heap s1) →
  ∃ s', (conditionally_enable_interrupts (Z.land (cp0_status s) CP0_STATUS_IE_MASK) ;;
      thread_setup p entry data ;; sched_insert runnable_list p ;; mret (EOK, p))
      (creating p th tm (raw_links p s) s1) = Ok ((EOK, p), s') ∧
    created s a live owned entry data flags cur p s'.
Proof.
  intros Hr Hok El Et Ei Ec Ecur Es Ep Eu Est Hf Hn Hp Hsub Hrep Hstk Hn' Hfstk Esz Edt Hvm Hvsub Hv Hfl Hown Ett Ej Etlb Hg.
  set (s2 := set_cp0_status (cp0_status s) s1).
  assert (Hr2 : sched_rep runnable_list s2 a).
  { destruct Hr as (R1 & R2 & R3 & R4 & R5 & R6 & R7). unfold SchedRefine.sched_rep, run_queue in *. cbn.
    rewrite El, Et, Ec, Ecur. split_and!; try done. intros t uth Ht. destruct (R6 t uth Ht) as [w Hw].
    exists w. by eapply lookup_weaken. }
  assert (Hraw : raw_links p s = raw_links p s2) by (unfold raw_links; cbn; by rewrite El).
  assert (Hp0 : 0 < p) by apply Hf.
  destruct (thread_parts p n (λ x, k_threads s !! x = None ∧ k_links s !! x = None)) as ([H1' H2'] & [_ H3'] & [_ H4']);
    [done|intros x Hx; destruct (fresh_objects s live p n x) as (? & ? & _); done|].
  destruct (start_rep s2 a p th tm entry data Hr2 Hp0) as (l & He & Hr' & Hl); try (cbn; rewrite ?Et, ?El; done).
  assert (Htail : (thread_setup p entry data ;; sched_insert runnable_list p ;; mret (EOK, p))
    (creating p th tm (raw_links p s2) s2) = Ok ((EOK, p), creating p (started p entry data th) tm l s2)).
  { rewrite <- bind_assoc. by erewrite bind_ok by exact He. }
  eexists. split; [|split].
  - erewrite bind_ok by (apply (ints_restore s); exact Est). rewrite Hraw. exact Htail.
  - split; [unfold NULL; lia|done].
  - exact Hr'.
  - split; [apply cp0_status_set|]. split; [exact Es|]. by split.
  - intros q Hq Hqt Hqq. assert (Hqp : q ≠ p) by (intros ->; rewrite H2' in Hq; by destruct Hq).
    cbn. rewrite Hl; [|unfold run_queue in *; cbn; by rewrite Ec|done|cbn; by rewrite Et].
    rewrite <- Hraw. unfold started_links, raw_links.
    rewrite !lookup_insert_ne; [done|..]; intros <-; (rewrite H2' in Hq || rewrite H3' in Hq || rewrite H4' in Hq);
      by destruct Hq.
  - exists live', stk, (th_vmm th), n'. split_and!; try done.
    + by apply kh_rep_status.
    + apply (created_objects s s2 p n _ _ _ live); try done.
      * by apply (rep_queue_mapped s a).
      * intros x [?|(q & k & Hq & Hx)]; [by left|right]. exists q, k. split; [by eapply lookup_weaken|done].
      * intros q Hqq Hqp Hqt. apply Hl; [unfold run_queue in *; cbn; by rewrite Ec|done|]. cbn. by rewrite Et.
    + cbn. rewrite Et. by rewrite <- Edt, <- Esz.
  - split_and!; try done; cbn.
    + intros q Hq. rewrite Ei. by rewrite lookup_insert_ne.
    + rewrite lookup_insert_eq. by eexists.
    + pose proof (created_links s2 a p (started p entry data th) tm l Hr2 Hr' Hl) as Hlk.
      change (k_links s2) with (k_links s1) in Hlk. by rewrite El in Hlk.
  - exact Etlb.
  - by apply granted_status.
Qed.
(** The first part of [thread_create]: the structure and the stack. *)
Lemma create_stack_exec entry data flags s live owned :
  kh_rep (k_heap s) live owned → objects_ok s live →
  (∃ h, thread_create runnable_list junk_thread junk_timer junk_link entry data flags s =
      Ok ((ENOMEM, NULL), set_k_heap h s) ∧ cp0_status h = cp0_status s ∧ kh_rep h live owned ∧
    refused (thread_requests false) (k_heap s)) ∨
  ∃ p n stk n' h, thread_create runnable_list junk_thread junk_timer junk_link entry data flags s =
      thread_create_vmm runnable_list entry data flags p
        (creating p (set_th_stack_data stk (set_th_stack_size THREAD_STACK_SIZE junk_thread)) junk_timer (raw_links p s)
           (set_k_heap h s)) ∧
    fresh_payload live p n ∧ sizeof_thread ≤ n ∧ fresh_payload (<[p := n]> live) stk n' ∧ THREAD_STACK_SIZE ≤ n' ∧
    cp0_status h = cp0_status s ∧ kh_rep h (<[stk := n']> (<[p := n]> live)) owned ∧
    granted (thread_requests false) (k_heap s) h.
Proof.
  intros Hrep Hok. unfold thread_create, thread_requests. rewrite app_nil_r.
  destruct (malloc_thread_exec s live owned Hrep) as (p & h1 & Hst1 & [(-> & Hr1 & Hrf1 & He1)|(Hp & Hg1 & n & Hn & Hf & Hr1 & He1)]).
  { left. exists h1. split; [|by split_and!; [..|apply (refused_app_l [_] [_])]]. erewrite bind_ok by exact He1. by rewrite bool_decide_eq_true_2. }
  erewrite bind_ok by exact He1. rewrite bool_decide_eq_false_2 by done. erewrite bind_ok by apply creating_upd.
  destruct (km_malloc_law h1 _ _ THREAD_STACK_SIZE Hr1) as (stk & h2 & He2 & Hst2 & Hres); [done|].
  erewrite bind_ok by (apply in_heap_ok; exact He2).
  change (set_k_heap h2 (creating ?p ?th ?tm ?l (set_k_heap h1 s))) with (creating p th tm l (set_k_heap h2 s)).
  erewrite bind_ok by apply creating_upd.
  destruct Hres as [[-> Hr2]|(Hstk & n' & Hn' & Hf' & Hr2)]; [left|right].
  - rewrite bool_decide_eq_true_2 by done.
    destruct (thread_parts p n (λ x, k_threads s !! x = None ∧ k_links s !! x = None ∧ k_timers s !! x = None))
      as ((? & ? & _) & (_ & ? & ?) & (_ & ? & _));
      [done|intros x Hx; by destruct (fresh_objects s live p n x) as (? & ? & ? & _)|].
    destruct (free_thread_exec p (set_th_stack_data NULL (set_th_stack_size THREAD_STACK_SIZE junk_thread))
      junk_timer (set_k_heap h2 s) _ _ n Hr2) as (h3 & He3 & Hst3 & Hr3); try done; [apply lookup_insert_eq|].
    exists h3. rewrite delete_insert_id in Hr3 by (by eapply fresh_live). split_and!; [|..|exact Hr3|].
    + by erewrite bind_ok by exact He3.
    + rewrite Hst3. cbn. by rewrite Hst2.
    + eapply (refused_app_r [_] [_]); [exact Hg1|by eapply refused_block].
  - rewrite bool_decide_eq_false_2 by done. exists p, n, stk, n', h2. split_and!; try done; [congruence|].
    eapply (granted_app [_] [_]); [exact Hg1|by eapply granted_block].
Qed.
(** The second part: the memory map.  When there is none the objects are given back. *)
Lemma undo_exec p n stk n' th tm s live owned :
  kh_rep (k_heap s) (<[stk := n']> (<[p := n]> live)) owned →
  objects_ok s live → fresh_payload live p n → sizeof_thread ≤ n → fresh_payload (<[p := n]> live) stk n' →
  th_stack_data th = stk →
  ∃ h, (stack ← get_thread th_stack_data p; in_heap (km_free stack) ;; free_thread p ;; mret (ENOMEM, NULL))
      (creating p th tm (raw_links p s) s) = Ok ((ENOMEM, NULL), set_k_heap h s) ∧
    cp0_status h = cp0_status s ∧ kh_rep h live owned.
Proof.
  intros Hrep Hok Hf Hn Hf' Hstk. pose proof (fresh_live _ _ _ Hf) as Hp. pose proof (fresh_live _ _ _ Hf') as Hs.
  erewrite bind_ok by apply creating_get. rewrite Hstk.
  destruct (km_free_law (k_heap s) _ owned stk n' Hrep) as (h1 & He1 & Hst1 & Hr1); [apply lookup_insert_eq|].
  rewrite delete_insert_id in Hr1 by done. erewrite bind_ok by (apply in_heap_ok; exact He1).
  destruct (thread_parts p n (λ x, k_threads s !! x = None ∧ k_links s !! x = None ∧ k_timers s !! x = None))
    as ((? & ? & _) & (_ & ? & ?) & (_ & ? & _));
    [done|intros x Hx; by destruct (fresh_objects s live p n x) as (? & ? & ? & _)|].
  destruct (free_thread_exec p th tm (set_k_heap h1 s) _ _ n Hr1) as (h2 & He2 & Hst2 & Hr2);
    try done; [apply lookup_insert_eq|].
  rewrite delete_insert_id in Hr2 by done. exists h2. split; [|split; [|done]].
  - by erewrite bind_ok by exact He2.
  - rewrite Hst2. cbn. by rewrite Hst1.
Qed.

(** Memory that has been allocated stays allocated. *)
Lemma fresh_sub live p n : fresh_payload live p n → live ⊆ <[p := n]> live.
Proof. intros Hf. apply insert_subseteq. by eapply fresh_live. Qed.

Lemma in_use_sub live live' x : live ⊆ live' → in_use live x → in_use live' x.
Proof. intros Hs [?|(q & k & Hq & Hx)]; [by left|right]. exists q, k. split; [by eapply lookup_weaken|done]. Qed.

(** The structure [p] and the stack [stk] have been allocated; [s1] is the state
    without them, with interrupts disabled. *)
Section allocated.
  Context (s s1 : kernel H) (a : sched) (live : gmap Z Z) (owned : Z → Prop) (p n stk n' : Z) (th : thread) (cur : thread).
  Context (Hr : sched_rep runnable_list s a) (Hok : objects_ok s live).
  Context (Hcur : k_threads s !! sc_current a = Some cur).
  Context (Hf : fresh_payload live p n) (Hn : sizeof_thread ≤ n).
  Context (Hf' : fresh_payload (<[p := n]> live) stk n') (Hn' : THREAD_STACK_SIZE ≤ n').
  Context (Hth : th_stack_size th = THREAD_STACK_SIZE ∧ th_stack_data th = stk).
  Context (Hs1 : s1 = set_k_heap (k_heap s1) s) (Hst1 : cp0_status s1 = cp0_status (ints_masked s)).
  Context (Hg1 : granted (thread_requests false) (k_heap s) (k_heap s1)).

Definition allocated : gmap Z Z := <[stk := n']> (<[p := n]> live).

Lemma allocated_sub : live ⊆ allocated.
Proof. unfold allocated. etrans; by apply fresh_sub. Qed.

Lemma allocated_ne : stk ≠ p.
Proof. intros ->. pose proof (fresh_live _ _ _ Hf') as E. by rewrite lookup_insert_eq in E. Qed.

Lemma allocated_stack : live !! stk = None.
Proof. pose proof (fresh_live _ _ _ Hf') as E. rewrite lookup_insert_ne in E; [done|]. symmetry. exact allocated_ne. Qed.

Lemma allocated_lookup : allocated !! p = Some n ∧ allocated !! stk = Some n'.
Proof.
  unfold allocated. rewrite lookup_insert_eq. rewrite lookup_insert_ne, lookup_insert_eq; [done|]. exact allocated_ne.
Qed.

Lemma allocated_own v nv :
  sizeof_vmm ≤ nv → fresh_payload allocated v nv → own_blocks live (<[v := nv]> allocated) p stk v true.
Proof.
  intros Hnv Hfv. pose proof (fresh_live _ _ _ Hfv) as Hv. destruct allocated_lookup as [Hlp Hls]. split_and!.
  - exact allocated_ne.
  - by eapply fresh_live.
  - exists n. split; [|done]. rewrite lookup_insert_ne; [done|]. intros ->. congruence.
  - intros _. split_and!; [intros ->; congruence|intros ->; congruence| |exists nv; by rewrite lookup_insert_eq].
    apply eq_None_not_Some. intros [k Hk]. pose proof (lookup_weaken _ _ _ _ Hk allocated_sub). congruence.
Qed.

(** A new map, at [v]. *)
Lemma finish_new_vmm v nv h tm entry data flags :
  Z.land flags TF_NEW_VMM = TF_NEW_VMM → cp0_status h = cp0_status s1 →
  sizeof_vmm ≤ nv → fresh_payload allocated v nv → kh_rep h (<[v := nv]> allocated) owned →
  granted [Block sizeof_vmm] (k_heap s1) h →
  ∃ s', (conditionally_enable_interrupts (Z.land (cp0_status s) CP0_STATUS_IE_MASK) ;;
      thread_setup p entry data ;; sched_insert runnable_list p ;; mret (EOK, p))
      (creating p (set_th_vmm v th) tm (raw_links p s) (with_new_vmm v (set_k_heap h s1))) = Ok ((EOK, p), s') ∧
    created s a live owned entry data flags cur p s'.
Proof.
  intros Hfl Hst Hnv Hfv Hrep Hg. pose proof (fresh_live _ _ _ Hfv) as Hv. destruct allocated_lookup as [Hlp Hls].
  assert (Hvn : k_vmms s !! v = None).
  { apply eq_None_not_Some. intros Hs. apply (fresh_not_in_use _ v nv v Hfv); [unfold sizeof_vmm in Hnv; lia|].
    eapply in_use_sub; [exact allocated_sub|]. by apply (oo_vmms _ _ Hok). }
  apply (finish_create s (with_new_vmm v (set_k_heap h s1)) a p n (set_th_vmm v th) tm entry data flags
    cur live (<[v := nv]> allocated) owned stk n'); try done; try (rewrite Hs1; done); try apply Hth.
  - rewrite <- Hst1, <- Hst. done.
  - rewrite lookup_insert_ne; [done|]. intros ->. congruence.
  - etrans; [exact allocated_sub|by apply fresh_sub].
  - rewrite lookup_insert_ne; [done|]. intros ->. congruence.
  - exact allocated_stack.
  - intros x. rewrite Hs1. cbn. intros [<-|[_ Hx]]%lookup_insert_is_Some.
    + apply in_use_new. unfold sizeof_vmm in Hnv. lia.
    + eapply in_use_sub; [|by apply (oo_vmms _ _ Hok)]. etrans; [exact allocated_sub|by apply fresh_sub].
  - rewrite Hs1. cbn. by apply insert_subseteq.
  - rewrite Hs1. cbn. rewrite lookup_insert_eq. by eexists.
  - rewrite bool_decide_eq_true_2 by done. by rewrite Hs1.
  - rewrite bool_decide_eq_true_2 by done. by apply allocated_own.
  - rewrite bool_decide_eq_true_2 by done. eapply (granted_app [_; _] [_]); [exact Hg1|exact Hg].
Qed.

(** The map of the current thread. *)
Lemma finish_shared_vmm tm entry data flags :
  Z.land flags TF_NEW_VMM ≠ TF_NEW_VMM → kh_rep (k_heap s1) allocated owned →
  ∃ s', (conditionally_enable_interrupts (Z.land (cp0_status s) CP0_STATUS_IE_MASK) ;;
      thread_setup p entry data ;; sched_insert runnable_list p ;; mret (EOK, p))
      (creating p (set_th_vmm (th_vmm cur) th) tm (raw_links p s) s1) = Ok ((EOK, p), s') ∧
    created s a live owned entry data flags cur p s'.
Proof.
  intros Hfl Hrep. destruct allocated_lookup as [Hlp Hls].
  apply (finish_create s s1 a p n (set_th_vmm (th_vmm cur) th) tm entry data flags
    cur live allocated owned stk n'); try done; try (rewrite Hs1; done); try apply Hth.
  - exact allocated_sub.
  - exact allocated_stack.
  - intros x Hx. rewrite Hs1 in Hx. eapply in_use_sub; [exact allocated_sub|]. by apply (oo_vmms _ _ Hok).
  - rewrite Hs1. destruct Hr as (_ & _ & _ & _ & _ & Hv & _). exact (Hv _ _ Hcur).
  - rewrite bool_decide_eq_false_2 by done. by rewrite Hs1.
  - unfold own_blocks. rewrite bool_decide_eq_false_2 by done. split_and!; [exact allocated_ne|by eapply fresh_live|by exists n|done].
  - by rewrite bool_decide_eq_false_2.
Qed.
End allocated.

(** [thread_create] as seen by its callers. *)
Lemma create_exec s a cur live owned entry data flags :
  sched_rep runnable_list s a → k_threads s !! sc_current a = Some cur →
  kh_rep (k_heap s) live owned → objects_ok s live →
  ∃ rc t s', thread_create runnable_list junk_thread junk_timer junk_link entry data flags s = Ok ((rc, t), s') ∧
    ((rc = ENOMEM ∧ t = NULL ∧
        refused (thread_requests (bool_decide (Z.land flags TF_NEW_VMM = TF_NEW_VMM))) (k_heap s) ∧
        ∃ h, s' = set_k_heap h s ∧ kh_rep h live owned ∧
        (cp0_status h = cp0_status s ∨
         Z.land flags TF_NEW_VMM = TF_NEW_VMM ∧
           cp0_status h = Z.land (cp0_status s) (Z.lnot CP0_STATUS_IE_MASK))) ∨
     (rc = EOK ∧ created s a live owned entry data flags cur t s')).
Proof.
  intros Hr Hcur Hrep Hok.
  destruct (create_stack_exec entry data flags s live owned Hrep Hok)
    as [(h & He & Hst & Hr1 & Hrf1)|(p & n & stk & n' & h & He & Hf & Hn & Hf' & Hn' & Hst & Hr1 & Hg1)].
  { exists ENOMEM, NULL, (set_k_heap h s). split; [done|]. left. split_and!; try done; [|exists h; auto].
    by apply (refused_app_l (thread_requests false)). }
  rewrite He. set (th := set_th_stack_data stk _). unfold thread_create_vmm. kexec_step.
  set (s1 := ints_masked (set_k_heap h s)).
  change (ints_masked (creating p th junk_timer ?l (set_k_heap h s))) with (creating p th junk_timer l s1).
  change (cp0_status (creating p th junk_timer ?l (set_k_heap h s))) with (cp0_status h). rewrite Hst.
  erewrite bind_ok by (apply get_current_ok; apply Hr).
  destruct (fresh_objects s live p n p) as (Hpt & _); try done; [unfold sizeof_thread in Hn; lia|].
  destruct (rep_current _ s a Hr) as (_ & _ & Hnull).
  assert (Hst1 : cp0_status s1 = cp0_status (ints_masked s)).
  { unfold s1, ints_masked. rewrite !cp0_status_set. cbn. by rewrite Hst. }
  assert (Hrep1 : kh_rep (k_heap s1) (<[stk := n']> (<[p := n]> live)) owned) by (by apply kh_rep_status).
  assert (Hgs1 : granted (thread_requests false) (k_heap s) (k_heap s1)) by (by apply granted_status).
  destruct (choose_vmm_exec flags (sc_current a) cur p th junk_timer (raw_links p s) s1 _ owned Hrep1)
    as [(Hfl & h2 & Hst2 & [(He2 & Hr2 & Hrf2)|(v & nv & He2 & Hnv & Hfv & Hr2 & Hg2)])|(Hfl & He2)]; [done|by intros <-; congruence|done|..].
  - destruct (undo_exec p n stk n' th junk_timer (set_k_heap h2 s1) live owned) as (h3 & He3 & Hst3 & Hr3); try done.
    { by destruct Hok; split. }
    exists ENOMEM, NULL, (set_k_heap h3 s). split.
    + erewrite bind_ok by exact He2. rewrite bool_decide_eq_true_2 by done. exact He3.
    + left. split_and!; try done; [rewrite bool_decide_eq_true_2 by done; by apply (refused_app_r [_; _] [_] _ _ Hgs1)|].
      exists h3. split_and!; try done. right. split; [done|].
      rewrite Hst3. cbn. rewrite Hst2, Hst1. apply cp0_status_set.
  - destruct (finish_new_vmm s s1 a live owned p n stk n' th cur Hr Hok Hf Hn Hf' Hn' (conj eq_refl eq_refl) eq_refl
      Hst1 Hgs1 v nv h2 junk_timer entry data flags Hfl Hst2 Hnv Hfv Hr2 Hg2) as (s' & He3 & Hcr).
    exists EOK, p, s'. split; [|by right]. erewrite bind_ok by exact He2.
    rewrite bool_decide_eq_false_2 by (by intros E). exact He3.
  - destruct (finish_shared_vmm s s1 a live owned p n stk n' th cur Hr Hok Hcur Hf Hn Hf' Hn' (conj eq_refl eq_refl)
      eq_refl Hst1 Hgs1 junk_timer entry data flags Hfl Hrep1) as (s' & He3 & Hcr).
    exists EOK, p, s'. split; [|by right]. erewrite bind_ok by exact He2.
    rewrite bool_decide_eq_false_2 by (by intros E). exact He3.
Qed.

(** C10. [thread_create] in all cases.  When the allocator turns down the structure, the
    stack or the memory map, and only then, the call returns [ENOMEM], all that had been allocated is
    free again and nothing else has changed, except that interrupts stay disabled when
    it was the memory map that could not be allocated.  Otherwise the new thread is
    at the end of the run queue, ready to start in [thread_stub] with the given
    function, on a stack of its own, in the address space of the current thread or in
    a new and empty one; the blocks it needs have been granted, the other threads are unchanged, and all objects of the
    kernel are in allocated memory again. *)
Theorem thread_create_correct s a cur live owned entry data flags :
  sched_rep runnable_list s a → k_threads s !! sc_current a = Some cur →
  kh_rep (k_heap s) live owned → objects_ok s live →
  ∃ rc t s', thread_create runnable_list junk_thread junk_timer junk_link entry data flags s = Ok ((rc, t), s') ∧
    ((rc = ENOMEM ∧ t = NULL ∧
        refused (thread_requests (bool_decide (Z.land flags TF_NEW_VMM = TF_NEW_VMM))) (k_heap s) ∧
        ∃ h, s' = set_k_heap h s ∧ kh_rep h live owned ∧
        (cp0_status h = cp0_status s ∨
         Z.land flags TF_NEW_VMM = TF_NEW_VMM ∧
           cp0_status h = Z.land (cp0_status s) (Z.lnot CP0_STATUS_IE_MASK))) ∨
     (rc = EOK ∧ created s a live owned entry data flags cur t s')).
Proof. exact (create_exec s a cur live owned entry data flags). Qed.
End create.

(** ** Witness *)
Lemma sample_objects h : objects_ok (set_k_heap h sample_kernel) ∅.
Proof.
  split; intros x Hx; left; right.
  - destruct Hx as [th Hx]. destruct (sample_threads_inv x th Hx) as [->|[->| ->]]; done.
  - cbn in Hx. repeat apply lookup_insert_is_Some in Hx as [<-|[_ Hx]]; try done.
    by destruct Hx.
  - by destruct Hx.
  - cbn in Hx. apply lookup_insert_is_Some in Hx as [<-|[_ Hx]]; [done|]. by destruct Hx.
  - by destruct Hx.
  - by destruct Hx.
Qed.

(** The sample has memory for a thread. *)
Lemma create_served f : f = sample_frames → is_Some (serve_all (thread_requests true) ([], f)).
Proof. intros ->. vm_compute. by eexists. Qed.

Lemma thread_create_correct_witness :
  ∃ h t s',
    thread_create 64 (sample_thread THREAD_ZOMBIE 0 (Context [] 0)) (Timer 0 0 false CNull 0) (Link 1 2)
      (CUser 9) 10 TF_NEW_VMM (set_k_heap h sample_kernel) = Ok ((EOK, t), s') ∧
    sched_rep 64 s' (a_create t sample_sched).
Proof.
  destruct sample_heap as (h & Hrep & Hf & Hinv). exists h.
  destruct (thread_create_correct (H := mm_state (gset Z)) 64
    (sample_thread THREAD_ZOMBIE 0 (Context [] 0)) (Timer 0 0 false CNull 0) (Link 1 2)
    (set_k_heap h sample_kernel) sample_sched (sample_thread THREAD_RUNNING 12288 (Context [] 0))
    ∅ (λ _, False) (CUser 9) 10 TF_NEW_VMM) as (rc & t & s' & He & Hres).
  - exact (rep_ext 64 sample_kernel (set_k_heap h sample_kernel) sample_sched eq_refl eq_refl eq_refl eq_refl eq_refl
      sample_sched_rep).
  - reflexivity.
  - exact Hrep.
  - exact (sample_objects h).
  - destruct Hres as [(_ & _ & Hr & _)|(-> & Hc)].
    + destruct (serve_not_refused sample_hl sample_static (thread_requests true) h [] _ Hinv Hf);
        [by repeat constructor|by apply create_served|exact Hr].
    + exists t, s'. split; [exact He|]. exact (cr_queue _ _ _ _ _ _ _ _ _ _ _ Hc).
Defined.
