(* ===== verification/TimerSpec.v ===== *)
(** * Timers: the representation, and what the framework computes

    The pending timers are the links of [timers_list], in the order in which they
    were started; none of these links belongs to the run queue, so that scheduling
    and the timers do not disturb each other. *)
From S2P Require Import Prelude CList Cpu Malloc KHeap KTime Tlb Kernel Sched Vmm Threads Timers SchedExec SchedSpec SchedRefine SchedOps VmmTheorems.

(** ** Searching a list *)
Section search.
  Context {A : Type} (f : A → bool).
  Implicit Types (l : list A).

Lemma find_split l x :
  List.find f l = Some x → ∃ xs ys, l = xs ++ x :: ys ∧ f x = true ∧ ∀ y, y ∈ xs → f y = false.
Proof.
  induction l as [|y l IH]; [done|]. cbn. destruct (f y) eqn:E.
  - intros [= <-]. exists [], l. split_and!; [done|done|]. by intros ? ?%elem_of_nil.
  - intros Hl. destruct (IH Hl) as (xs & ys & -> & Hx & Hn). exists (y :: xs), ys. split_and!; [done|done|].
    intros z [->|Hz]%elem_of_cons; auto.
Qed.

Lemma find_nothing l : List.find f l = None → ∀ y, y ∈ l → f y = false.
Proof. intros Hl y Hy. apply (List.find_none _ _ Hl). by apply list_elem_of_In. Qed.
End search.

Section timers.
  Context {H : Type} `{KernelHeapLaws H}.
  Context (runnable_list timers_list : Z).
  Implicit Types (s : kernel H) (a : sched) (ts : list Z).

Definition timers_rep s ts : Prop :=
  is_list (M := links) (k_links s) timers_list ts ∧
  (∀ t, t ∈ ts → is_Some (k_timers s !! t)) ∧
  (∀ p, p ∈ timers_list :: ts → k_threads s !! p = None ∧ p ≠ run_queue runnable_list s).

(** Has the time of the timer passed? *)
Definition due s (t : Z) : bool :=
  match k_timers s !! t with Some tm => ti_expires tm <? k_jiffies s | None => false end.

Lemma timers_rep_ext s s' ts :
  k_links s' = k_links s → k_threads s' = k_threads s → k_cpu s' = k_cpu s →
  (∀ t, is_Some (k_timers s !! t) → is_Some (k_timers s' !! t)) → timers_rep s ts → timers_rep s' ts.
Proof.
  intros E1 E2 E3 E4 (Hl & Ht & Hs). unfold timers_rep. rewrite E1, E2, (run_queue_cpu runnable_list s s') by done.
  split_and!; [done|intros t Hin; by apply E4, Ht|done].
Qed.

(** A list survives writes to other links. *)
Lemma is_list_agree (l l' : links) h xs :
  (∀ p, p ∈ h :: xs → l' !! p = l !! p) → is_list (M := links) l h xs → is_list (M := links) l' h xs.
Proof.
  intros Hl [Hp Hs]. split; [|exact Hs]. eapply path_frame; [..|exact Hp]; intros q Hin; cbn; rewrite Hl; try done.
  - by rewrite app_comm_cons, removelast_last in Hin.
  - cbn in Hin. rewrite elem_of_app, list_elem_of_singleton in Hin. rewrite elem_of_cons. tauto.
Qed.

(** Scheduling does not touch the timers. *)
Lemma timers_rep_frame s s' ts :
  sched_frame runnable_list s s' → timers_rep s ts → timers_rep s' ts.
Proof.
  intros (Hl & He & _ & _ & Hti & _ & _ & _ & Hc & _) (Hlist & Ht & Hs). split_and!.
  - apply (is_list_agree (k_links s)); [|done]. intros p Hp. destruct (Hs p Hp). by apply Hl.
  - intros t Hin. rewrite Hti. by apply Ht.
  - intros p Hp. destruct (Hs p Hp). split; [by apply (erase_none s s')|]. by rewrite (run_queue_cpu _ s s').
Qed.

Lemma timers_fuel s ts : timers_rep s ts → (length ts < S (size (k_links s)))%nat.
Proof.
  intros ([Hp Hs] & _). pose proof Hs as ([_ Hnd]%NoDup_cons & _). apply Nat.lt_succ_r.
  rewrite <- size_dom. rewrite <- (size_list_to_set (C := gset Z) ts) by done.
  apply subseteq_size. intros x Hx%elem_of_list_to_set. apply elem_of_dom.
  destruct (is_list_mapped _ _ _ x (conj Hp Hs)) as [Hm _]; [by right|]. cbn in Hm. by apply fmap_is_Some in Hm.
Qed.

Lemma expired_exec s t : is_Some (k_timers s !! t) → timer_expired t s = Ok (if due s t then Some t else None, s).
Proof.
  intros [tm Ht]. unfold timer_expired, due. rewrite Ht. kexec_step. by erewrite bind_ok by reflexivity.
Qed.

(** The loop over the timers finds the first that is due. *)
Lemma foreach_exec s ts :
  timers_rep s ts → foreach_timer timers_list timer_expired s = Ok (List.find (due s) ts, s).
Proof.
  intros Hr. pose proof (timers_fuel s ts Hr) as Hf. destruct Hr as (Hl%is_list_kernel & Ht & _).
  assert (Hb : ∀ t, t ∈ ts → due s t = false → timer_expired t s = Ok (None, s)).
  { intros t Hin Hd. rewrite expired_exec by (by apply Ht). by rewrite Hd. }
  unfold foreach_timer. destruct (List.find (due s) ts) as [t|] eqn:E.
  - destruct (find_split _ _ _ E) as (xs & ys & -> & Hd & Hn). rewrite length_app in Hf.
    apply (list_foreach_some s s timers_list xs t ys).
    + exact Hl.
    + cbn in Hf. lia.
    + intros x Hx. apply Hb; [by apply elem_of_app; left|by apply Hn].
    + rewrite expired_exec, Hd; [done|]. apply Ht, elem_of_app. right. left.
  - apply (list_foreach_none _ _ ts); [exact Hl|exact Hf|]. intros x Hx. apply Hb; [done|].
    by apply (find_nothing _ _ E).
Qed.

(** [timers_run] wakes the timer thread if there is anything to do. *)
Definition a_timers_run (timer_thread : Z) (expired : option Z) a : sched :=
  match expired with Some _ => a_wakeup timer_thread a | None => a end.

Lemma timers_run_rep s a ts :
  sched_rep runnable_list s a → timers_rep s ts → is_Some (k_threads s !! k_timer_thread s) →
  ∃ s', timers_run runnable_list timers_list s = Ok (tt, s') ∧
    sched_rep runnable_list s' (a_timers_run (k_timer_thread s) (List.find (due s) ts) a) ∧
    sched_frame runnable_list s s' ∧ k_stack s' = k_stack s ∧ cp0_status s' = cp0_status s ∧
    (∀ u, th_scheduled <$> k_threads s' !! u = th_scheduled <$> k_threads s !! u) ∧
    ∀ u, context_of s' u = context_of s u.
Proof.
  intros Hr Ht Htt. unfold timers_run. erewrite bind_ok by (by apply foreach_exec).
  destruct (List.find (due s) ts) as [t|].
  - erewrite bind_ok by reflexivity.
    destruct (wakeup_rep s a (k_timer_thread s) Hr Htt) as (s' & He & Hr' & Hf & Hk & Hc & Hsc & Hx).
    exists s'. split; [by erewrite bind_ok by exact He|]. by split_and!.
  - exists s. split_and!; try done. apply sched_frame_refl.
Qed.
(** ** Changes of the list of timers *)
Lemma sched_rep_links s a (l : links) :
  sched_rep runnable_list s a →
  (∀ p, p = run_queue runnable_list s ∨ is_Some (k_threads s !! p) → l !! p = k_links s !! p) →
  sched_rep runnable_list (set_k_links (λ _, l) s) a.
Proof.
  intros Hr Hl. pose proof Hr as (Hok & Hlist & Hc & Hst & Hu & Hv & Hrq).
  split_and!; [done| |done|done| |done|done].
  - apply (is_list_agree (k_links s)); [|exact Hlist]. intros p [->|Hp]%elem_of_cons; apply Hl; [by left|right].
    by eapply rep_queue.
  - intros t Ht Hn. apply (unlinked_lookup (k_links s)); [apply Hl; by right|by apply Hu].
Qed.

(** The links of the timers only. *)
Definition timer_links s ts (l : links) : Prop :=
  ∀ p, p ∉ timers_list :: ts → l !! p = k_links s !! p.

Lemma timer_links_rep s a ts l :
  sched_rep runnable_list s a → (∀ p, p ∈ timers_list :: ts → k_threads s !! p = None ∧ p ≠ run_queue runnable_list s) →
  timer_links s ts l → sched_rep runnable_list (set_k_links (λ _, l) s) a.
Proof.
  intros Hr Hs Hl. apply sched_rep_links; [done|]. intros p Hp. apply Hl. intros Hin. destruct (Hs p Hin) as [E ?].
  destruct Hp as [|[? Hp]]; congruence.
Qed.

Lemma timer_remove_exec s ts t :
  timers_rep s ts → t ∈ ts →
  ∃ l, timer_remove t s = Ok (tt, set_k_links (λ _, l) s) ∧ timer_links s ts l ∧ unlinked (M := links) l t ∧
    timers_rep (set_k_links (λ _, l) s) (filter (λ u, u ≠ t) ts).
Proof.
  intros (Hl & Ht & Hs) Hin. apply list_elem_of_split in Hin as (xs & ys & ->).
  assert (Hf : filter (λ u, u ≠ t) (xs ++ t :: ys) = xs ++ ys).
  { apply filter_other. by destruct Hl as [_ ([_ Hnd]%NoDup_cons & _)]. }
  destruct (list_remove_spec s timers_list xs t ys) as (s' & He & Hl' & Hu & Hw); [by apply is_list_kernel|].
  apply writes_kernel in Hw as (l & -> & Hw). apply is_list_kernel in Hl'. exists l. rewrite Hf. split_and!; try done.
  - intros p Hp. by apply (writes_links _ _ _ p Hw).
  - split_and!; [exact Hl'| |].
    + intros u Hu'. apply Ht. set_solver.
    + intros p Hp. apply (Hs p). set_solver.
Qed.

Lemma timer_start_exec s ts t tm :
  timers_rep s ts → k_timers s !! t = Some tm → t ≠ NULL → mapped (M := links) (k_links s) t →
  t ∉ timers_list :: ts → k_threads s !! t = None → t ≠ run_queue runnable_list s →
  ∃ l, timer_start timers_list t s =
      Ok (tt, set_k_links (λ _, l) (set_k_timers <[t := set_ti_expires (wrap (k_jiffies s + ti_timeout tm)) tm]> s)) ∧
    timer_links s (t :: ts) l ∧
    timers_rep (set_k_links (λ _, l) (set_k_timers <[t := set_ti_expires (wrap (k_jiffies s + ti_timeout tm)) tm]> s)) (ts ++ [t]).
Proof.
  intros (Hl & Ht & Hs) Htm Ht0 Hm Hn Htt Htq.
  set (s1 := set_k_timers <[t := set_ti_expires (wrap (k_jiffies s + ti_timeout tm)) tm]> (ints_masked s)).
  destruct (list_append_spec s1 timers_list ts t) as (s' & He & Hl' & Hw); [by apply is_list_kernel|done|done| |].
  { apply Forall_forall. intros p Hp <-. done. }
  apply writes_kernel in Hw as (l & -> & Hw). apply is_list_kernel in Hl'. exists l. split_and!; try done.
  - unfold timer_start. kexec_step. erewrite bind_ok by reflexivity. do 2 kexec_step. erewrite bind_ok by exact He.
    rewrite (ints_restore s) by done. do 2 f_equal. apply kernel_ext; try reflexivity. cbn.
    by rewrite set_cp0_status_set, set_cp0_status_same.
  - intros p Hp. apply (writes_links _ _ _ p Hw). rewrite !elem_of_cons in *. tauto.
  - split_and!; [exact Hl'| |].
    + intros u Hu. cbn. destruct (decide (u = t)) as [->|]; [rewrite lookup_insert_eq; eauto|].
      rewrite lookup_insert_ne by done. apply Ht. set_solver.
    + intros p Hp. destruct (decide (p = t)) as [->|]; [done|]. apply (Hs p). set_solver.
Qed.
End timers.

Arguments timers_rep_frame {H _ runnable_list timers_list} s s' ts.
Arguments timers_run_rep {H _ _ runnable_list timers_list} s a ts.
Arguments foreach_exec {H runnable_list timers_list} s ts.
Arguments timer_remove_exec {H _ _ runnable_list timers_list} s ts t.
Arguments timer_start_exec {H _ _ runnable_list timers_list} s ts t tm.
Arguments timer_links_rep {H runnable_list timers_list} s a ts l.
