(* ===== verification/TimerTheorems.v ===== *)
(** * Timers: what the framework guarantees

    The system timer interrupt, sleeping, and the timer thread: a thread that
    sleeps is woken up when its time has passed. *)
From S2P Require Import Prelude CList Cpu Malloc KHeap KTime Tlb Kernel Sched Vmm Threads Timers SchedExec SchedSpec.
From S2P Require Import SchedRefine SchedOps VmmTheorems TimerSpec KernelSample.

Section theorems.
  Context {H : Type} `{KernelHeapLaws H}.
  Context (runnable_list timers_list : Z).
  Implicit Types (s : kernel H) (a : sched) (ts : list Z).
  Abbreviation sched_rep := (sched_rep runnable_list).
  Abbreviation sched_frame := (sched_frame runnable_list).
  Abbreviation timers_rep := (timers_rep runnable_list timers_list).
  Abbreviation resume := (resume runnable_list timers_list).

(** The timer interrupt. *)
Lemma sched_timer_exec s a ts cur :
  sched_rep s a → timers_rep s ts → is_Some (k_threads s !! k_timer_thread s) →
  k_threads s !! sc_current a = Some cur →
  let s1 := set_k_compare (wrap (k_count s + THREAD_QUANTUM)) (set_k_jiffies (wrap (k_jiffies s + 1)) s) in
  let a1 := a_timers_run (k_timer_thread s) (List.find (due s1) ts) a in
  let expired := THREAD_QUANTUM <=? wrap (k_count s - th_scheduled cur) in
  ∃ s', sched_timer runnable_list timers_list s = Ok (tt, s') ∧
    sched_rep s' (if expired then a_schedule a1 else a1) ∧ sched_frame s1 s' ∧ timers_rep s' ts ∧
    if expired then handed_over (k_stack s) (cp0_status s) s s' a1
    else k_stack s' = k_stack s ∧ cp0_status s' = cp0_status s ∧ ∀ t, context_of s' t = context_of s t.
Proof.
  intros Hr Ht Htt Hcur s1 a1 expired. set (s0 := set_k_jiffies (wrap (k_jiffies s + 1)) s).
  assert (Hr0 : sched_rep s0 a) by (by apply (rep_ext _ s)).
  assert (Ht0 : timers_rep s0 ts) by (by apply (timers_rep_ext _ _ s)).
  destruct (timers_run_rep s0 a ts Hr0 Ht0 Htt) as (s2 & He & Hr2 & Hf2 & Hk2 & Hc2 & Hs2 & Hx2).
  change (List.find (due s0) ts) with (List.find (due s1) ts) in Hr2. fold a1 in Hr2.
  set (s3 := set_k_compare (wrap (k_count s + THREAD_QUANTUM)) s2).
  assert (Hr3 : sched_rep s3 a1) by (by apply (rep_ext _ s2)).
  assert (Hf3 : sched_frame s1 s3).
  { destruct Hf2 as (F1 & F2 & F3 & F4 & F5 & F6 & F7 & F8 & F9 & F10 & F11 & F12 & F13 & F14 & F15 & F16). by split_and!. }
  assert (Hcnt : k_count s2 = k_count s) by (by destruct Hf2 as (_&_&_&_&_&_&_&_&_&_&->&_)).
  assert (Hcur3 : sc_current a1 = sc_current a).
  { unfold a1, a_timers_run. destruct (List.find _ _); [|done]. unfold a_wakeup. by case_bool_decide. }
  assert (Hsc : ∃ cur3, k_threads s3 !! sc_current a = Some cur3 ∧ th_scheduled cur3 = th_scheduled cur).
  { specialize (Hs2 (sc_current a)). cbn in Hs2. rewrite Hcur in Hs2. cbn in Hs2 |- *.
    destruct (k_threads s2 !! sc_current a) as [cur3|]; [|done]. injection Hs2 as Hs2. eauto. }
  destruct Hsc as (cur3 & Hcur3' & Hsched).
  assert (Hexec : sched_timer runnable_list timers_list s =
    (if expired then schedule runnable_list else mret ()) s3).
  { unfold sched_timer. erewrite bind_ok by reflexivity. erewrite bind_ok by exact He.
    erewrite bind_ok by (unfold timer_setup, kmodify; rewrite Hcnt; reflexivity).
    rewrite <- Hcur3 in *. erewrite bind_ok by (apply get_current_ok; apply Hr3).
    erewrite bind_ok by reflexivity. erewrite bind_ok by (apply get_thread_ok; exact Hcur3').
    rewrite Hsched. fold s3. unfold expired. rewrite <- Hcnt. reflexivity. }
  rewrite Hexec. assert (Ht3 : timers_rep s3 ts) by (eapply (timers_rep_frame s1), (timers_rep_ext _ _ s); done).
  destruct expired.
  - destruct (schedule_rep s3 a1 Hr3) as (s' & He' & Hr' & Hf' & Hh). exists s'. split_and!; try done.
    + by eapply sched_frame_trans.
    + by apply (timers_rep_frame s3).
    + change (k_stack s3) with (k_stack s2) in Hh. change (cp0_status s3) with (cp0_status s2) in Hh.
      rewrite Hk2, Hc2 in Hh. by apply (handed_over_from _ _ s s3).
  - exists s3. by split_and!.
Qed.

(** C35. The system timer interrupt: [jiffies] advances, the next interrupt is due after a
    quantum, the timer thread is woken up if the time of a pending timer has passed, and
    the processor goes to the next thread if the current one has used its quantum up. *)
Theorem sched_timer_refines s a ts cur :
  sched_rep s a → timers_rep s ts → is_Some (k_threads s !! k_timer_thread s) →
  k_threads s !! sc_current a = Some cur →
  let s1 := set_k_compare (wrap (k_count s + THREAD_QUANTUM)) (set_k_jiffies (wrap (k_jiffies s + 1)) s) in
  let a1 := a_timers_run (k_timer_thread s) (List.find (due s1) ts) a in
  let expired := THREAD_QUANTUM <=? wrap (k_count s - th_scheduled cur) in
  ∃ s', sched_timer runnable_list timers_list s = Ok (tt, s') ∧
    sched_rep s' (if expired then a_schedule a1 else a1) ∧ sched_frame s1 s' ∧ timers_rep s' ts ∧
    if expired then handed_over (k_stack s) (cp0_status s) s s' a1
    else k_stack s' = k_stack s ∧ cp0_status s' = cp0_status s ∧ ∀ t, context_of s' t = context_of s t.
Proof. exact (sched_timer_exec s a ts cur). Qed.
(** ** The timer thread *)
(** What a round of the timer thread leaves alone. *)
Definition round_frame s s' : Prop :=
  erase <$> k_threads s' = erase <$> k_threads s ∧ k_jiffies s' = k_jiffies s ∧ k_cpu s' = k_cpu s ∧
  cp0_status s' = cp0_status s ∧ k_vmms s' = k_vmms s ∧ k_timer_thread s' = k_timer_thread s.

Lemma round_frame_trans s1 s2 s3 : round_frame s1 s2 → round_frame s2 s3 → round_frame s1 s3.
Proof. intros (?&?&?&?&?&?) (?&?&?&?&?&?). split_and!; congruence. Qed.

Lemma round_frame_thread s s' t : round_frame s s' → is_Some (k_threads s !! t) → is_Some (k_threads s' !! t).
Proof. intros (He & _). by apply erase_some. Qed.

(** A due timer of a sleeping thread: [thread_sleep_in] sets no other. *)
Definition timeout_of s (t : Z) (tm : timer) : Prop :=
  k_timers s !! t = Some tm ∧ ti_handler tm = CTimeout ∧ is_Some (k_threads s !! ti_data tm).

(** The first due timer leaves the list and its handler is called. *)
Definition taken (l : links) (t : Z) (tm : timer) (st : list frame) s : kernel H :=
  set_k_stack (FTimerRan t :: st) (set_k_timers <[t := set_ti_running true tm]> (set_k_links (λ _, l) s)).

Lemma round_found s ts t tm :
  timers_rep s ts → List.find (due s) ts = Some t → timeout_of s t tm →
  ∃ l, timer_thread_round runnable_list timers_list s =
      (thread_wakeup runnable_list (ti_data tm) ;; mret ()) (taken l t tm (k_stack s) s) ∧
    timer_links timers_list s ts l ∧ unlinked (M := links) l t ∧
    timers_rep (set_k_links (λ _, l) s) (filter (λ u, u ≠ t) ts).
Proof.
  intros Ht Hfind (Htm & Hh & Hdata). destruct (find_split _ _ _ Hfind) as (xs & ys & Ets & _ & _).
  set (sm := ints_masked s). assert (Htm0 : timers_rep sm ts) by (by apply (timers_rep_ext _ _ s)).
  destruct (timer_remove_exec sm ts t Htm0) as (l & He & Hl & Hun & Ht1); [rewrite Ets; set_solver|].
  exists l. split; [|split_and!; [exact Hl|exact Hun|by apply (timers_rep_ext _ _ (set_k_links (λ _, l) sm))]].
  unfold timer_thread_round. kexec_step. fold sm.
  erewrite bind_ok by (exact (foreach_exec sm ts Htm0)). change (due sm) with (due s). rewrite Hfind.
  erewrite bind_ok by exact He. erewrite bind_ok by (apply upd_timer_ok; exact Htm).
  do 2 (erewrite bind_ok by (apply get_timer_ok, lookup_insert_eq)).
  erewrite bind_ok by (apply (ints_restore s); reflexivity). erewrite bind_ok by reflexivity.
  cbn [ti_handler ti_data set_ti_running]. rewrite Hh.
  rewrite bool_decide_eq_true_2 by done. cbn [call_code]. unfold thread_timeout_handler. f_equal.
  apply kernel_ext; try reflexivity. cbn. by rewrite set_cp0_status_set, set_cp0_status_same.
Qed.

(** No timer is due: the timer thread suspends itself. *)
Lemma round_none s ts :
  timers_rep s ts → List.find (due s) ts = None →
  timer_thread_round runnable_list timers_list s =
    thread_suspend runnable_list (set_k_stack (FTimerLoop :: k_stack s) s).
Proof.
  intros Ht Hnone. set (sm := ints_masked s). assert (Hm : timers_rep sm ts) by (by apply (timers_rep_ext _ _ s)).
  unfold timer_thread_round. kexec_step. fold sm. erewrite bind_ok by (exact (foreach_exec sm _ Hm)).
  change (due sm) with (due s). rewrite Hnone.
  erewrite bind_ok by apply restored. kexec_step. erewrite bind_ok by apply restored. by erewrite bind_ok by reflexivity.
Qed.

Lemma resume_round s st : k_stack s = FTimerLoop :: st → resume s = timer_thread_round runnable_list timers_list (set_k_stack st s).
Proof. intros Hst. unfold Timers.resume, pop_frame. by erewrite bind_ok by (rewrite Hst; reflexivity). Qed.

Lemma round_take s ts st t tm :
  timers_rep s ts → k_stack s = FTimerLoop :: st → List.find (due s) ts = Some t → timeout_of s t tm →
  ∃ l, resume s = (thread_wakeup runnable_list (ti_data tm) ;; mret ()) (taken l t tm st s) ∧
    timer_links timers_list s ts l ∧ timers_rep (set_k_links (λ _, l) s) (filter (λ u, u ≠ t) ts).
Proof.
  intros Ht Hst Hfind Htm. rewrite (resume_round _ st) by done.
  destruct (round_found (set_k_stack st s) ts t tm) as (l & He & Hl & _ & Hr); [by apply (timers_rep_ext _ _ s)|done..|].
  exists l. split; [exact He|]. split; [exact Hl|]. by apply (timers_rep_ext _ _ (set_k_links (λ _, l) (set_k_stack st s))).
Qed.

(** And after the handler. *)
Lemma timer_ran_exec s t tm :
  k_timers s !! t = Some tm →
  timer_thread_ran t s = Ok (tt, set_k_stack (FTimerLoop :: k_stack s) (set_k_timers <[t := set_ti_running false tm]> s)).
Proof.
  intros Ht. unfold timer_thread_ran. kexec_step. erewrite bind_ok by (apply upd_timer_ok; exact Ht).
  erewrite bind_ok by (apply (ints_restore s); reflexivity).
  unfold push_frame, kmodify. do 2 f_equal. apply kernel_ext; try reflexivity. cbn.
  by rewrite set_cp0_status_set, set_cp0_status_same.
Qed.

Lemma round_ran s t tm st :
  k_stack s = FTimerRan t :: st → k_timers s !! t = Some tm →
  resume s = Ok (tt, set_k_stack (FTimerLoop :: st) (set_k_timers <[t := set_ti_running false tm]> s)).
Proof.
  intros Hst Ht. unfold Timers.resume, pop_frame. erewrite bind_ok by (rewrite Hst; reflexivity). cbn [run_frame].
  by apply (timer_ran_exec (set_k_stack st s)).
Qed.

(** One round: the first due timer leaves the list and the thread wakes up. *)
Lemma round_exec s a ts st t tm :
  sched_rep s a → timers_rep s ts → k_stack s = FTimerLoop :: st →
  List.find (due s) ts = Some t → timeout_of s t tm →
  ∃ s', (resume ;; resume) s = Ok (tt, s') ∧ sched_rep s' (a_wakeup (ti_data tm) a) ∧
    timers_rep s' (filter (λ u, u ≠ t) ts) ∧ k_stack s' = FTimerLoop :: st ∧
    k_timers s' = <[t := set_ti_running false tm]> (k_timers s) ∧ round_frame s s'.
Proof.
  intros Hr Ht Hst Hfind Htm. destruct (round_take s ts st t tm) as (l & He & Hl & Ht1); try done.
  assert (Hr2 : sched_rep (taken l t tm st s) a).
  { apply (rep_ext _ (set_k_links (λ _, l) s)); try done. apply (timer_links_rep (timers_list := timers_list) _ _ ts l Hr); [apply Ht|exact Hl]. }
  assert (Hup : ∀ (m : gmap Z timer) v u, is_Some (m !! u) → is_Some (<[t := v]> m !! u)).
  { intros m v u Hu. rewrite lookup_insert_is_Some. destruct (decide (t = u)); [by left|by right]. }
  destruct (wakeup_rep _ a (ti_data tm) Hr2) as (s3 & He3 & Hr3 & Hf3 & Hk3 & Hc3 & _); [apply Htm|].
  assert (Hti3 : k_timers s3 = <[t := set_ti_running true tm]> (k_timers s)) by apply Hf3.
  assert (Ht3 : timers_rep s3 (filter (λ u, u ≠ t) ts)).
  { apply (timers_rep_frame (taken l t tm st s)); [done|]. apply (timers_rep_ext _ _ (set_k_links (λ _, l) s)); try done.
    intros u. apply Hup. }
  eexists. split_and!.
  - erewrite bind_ok by (rewrite He; erewrite bind_ok by exact He3; reflexivity).
    apply (round_ran s3 t (set_ti_running true tm) st); [exact Hk3|]. rewrite Hti3. apply lookup_insert_eq.
  - by apply (rep_ext _ s3).
  - apply (timers_rep_ext _ _ s3); try done. intros u. apply Hup.
  - done.
  - cbn. rewrite Hti3. apply insert_insert_eq.
  - destruct Hf3 as (_ & F2 & _ & _ & _ & F6 & _ & _ & F9 & F10 & _ & _ & _ & _ & F15 & _). by split_and!.
Qed.

(** The timer thread runs for [n] resumptions. *)
Fixpoint resumes (n : nat) : KM (kernel H) unit :=
  match n with O => mret () | S n => resume ;; resumes n end.

Definition timer_data s (t : Z) : Z := from_option ti_data NULL (k_timers s !! t).

Definition wake_all (ds : list Z) a : sched := foldl (λ a d, a_wakeup d a) a ds.

Lemma filter_due_split (f : Z → bool) xs t ys :
  NoDup (xs ++ t :: ys) → f t = true → (∀ x, x ∈ xs → f x = false) →
  filter (λ u, f u = true) (xs ++ t :: ys) = t :: filter (λ u, f u = true) (filter (λ u, u ≠ t) (xs ++ t :: ys)) ∧
  filter (λ u, f u = false) (xs ++ t :: ys) = filter (λ u, f u = false) (filter (λ u, u ≠ t) (xs ++ t :: ys)).
Proof.
  intros Hnd Ht Hx. rewrite filter_other by done. rewrite !filter_app.
  rewrite filter_cons_True, filter_cons_False by congruence.
  assert (filter (λ u, f u = true) xs = []) as ->; [|done].
  destruct (filter (λ u, f u = true) xs) as [|x l] eqn:E; [done|].
  assert (Hin : x ∈ filter (λ u, f u = true) xs) by (rewrite E; left).
  apply list_elem_of_filter in Hin as [Hf Hin]. apply Hx in Hin. congruence.
Qed.

Lemma due_nothing (f : Z → bool) ts :
  filter (λ u, f u = true) ts = [] → filter (λ u, f u = false) ts = ts.
Proof.
  induction ts as [|t ts IH]; [done|]. rewrite filter_cons. case_decide; [done|]. intros Hts.
  rewrite filter_cons_True by (by destruct (f t)). by rewrite IH.
Qed.

Lemma due_something (f : Z → bool) ts :
  filter (λ u, f u = true) ts ≠ [] → ∃ t, List.find f ts = Some t.
Proof.
  destruct (List.find f ts) as [t|] eqn:Hfind; [eauto|]. pose proof (find_nothing _ _ Hfind) as Hn. intros Hne.
  destruct (filter _ ts) as [|x l] eqn:E; [done|].
  assert (Hin : x ∈ filter (λ t, f t = true) ts) by (rewrite E; left).
  apply list_elem_of_filter in Hin as [Hf Hin]. apply Hn in Hin. congruence.
Qed.

(** All due timers are served, in order. *)
Lemma serve_exec st n : ∀ s a ts,
  sched_rep s a → timers_rep s ts → k_stack s = FTimerLoop :: st →
  (∀ t, t ∈ ts → due s t = true → ∃ tm, timeout_of s t tm) →
  length (filter (λ t, due s t = true) ts) = n →
  ∃ s', resumes (2 * n) s = Ok (tt, s') ∧
    sched_rep s' (wake_all (timer_data s <$> filter (λ t, due s t = true) ts) a) ∧
    timers_rep s' (filter (λ t, due s t = false) ts) ∧ k_stack s' = FTimerLoop :: st ∧
    round_frame s s' ∧ ∀ t, due s' t = due s t.
Proof.
  induction n as [|n IH]; intros s a ts Hr Ht Hst Hdue Hlen.
  - apply nil_length_inv in Hlen. rewrite Hlen. exists s. split_and!; try done.
    by rewrite due_nothing.
  - destruct (due_something (due s) ts) as [t Hfind]; [by intros E; rewrite E in Hlen|].
    destruct (find_split _ _ _ Hfind) as (xs & ys & Ets & Hd & Hxs).
    destruct (Hdue t) as [tm Htm]; [rewrite Ets; set_solver|done|].
    destruct (round_exec s a ts st t tm Hr Ht Hst Hfind Htm) as (s1 & He & Hr1 & Ht1 & Hst1 & Hti & Hfr).
    assert (Hnd : NoDup (xs ++ t :: ys)) by (rewrite <- Ets; by destruct Ht as ([_ ([_ ?]%NoDup_cons & _)] & _)).
    destruct (filter_due_split (due s) xs t ys Hnd Hd Hxs) as [E1 E2]. rewrite <- Ets in E1, E2.
    pose proof Htm as (Hkt & _). pose proof Hfr as (_ & Hj & _).
    assert (Hsame : ∀ u, due s1 u = due s u ∧ timer_data s1 u = timer_data s u).
    { intros u. unfold due, timer_data. rewrite Hti, Hj. destruct (decide (u = t)) as [->|].
      - by rewrite lookup_insert_eq, Hkt.
      - by rewrite lookup_insert_ne. }
    assert (Hext : ∀ b (l : list Z), filter (λ u, due s1 u = b) l = filter (λ u, due s u = b) l).
    { intros b l. apply list_filter_iff. intros u. by rewrite (proj1 (Hsame u)). }
    destruct (IH s1 (a_wakeup (ti_data tm) a) (filter (λ u, u ≠ t) ts)) as (s' & He' & Hr' & Ht' & Hst' & Hfr' & Hd');
      try done.
    { intros u [Hne Hu]%list_elem_of_filter Hdu. rewrite (proj1 (Hsame u)) in Hdu.
      destruct (Hdue u Hu Hdu) as (um & Hum & Hh & Hdat). exists um. split_and!; [|done|].
      - by rewrite Hti, lookup_insert_ne.
      - by apply (round_frame_thread s s1). }
    { rewrite Hext. rewrite E1 in Hlen. by injection Hlen. }
    exists s'. split_and!; try done.
    + replace (2 * S n)%nat with (S (S (2 * n))) by lia. cbn [resumes]. rewrite <- bind_assoc.
      by erewrite bind_ok by exact He.
    + revert Hr'. rewrite Hext, E1. cbn [fmap list_fmap]. unfold wake_all. cbn [foldl].
      unfold timer_data at 2. rewrite Hkt. cbn [from_option].
      by rewrite (list_fmap_ext (timer_data s1) (timer_data s)) by (intros i x _; apply Hsame).
    + by rewrite E2, <- Hext.
    + by eapply round_frame_trans.
    + intros u. rewrite Hd'. apply Hsame.
Qed.

(** *** What a wake-up does to the queue *)
Lemma wakeup_running d a : running a → running (a_wakeup d a).
Proof.
  unfold running, a_wakeup. intros Hr. case_bool_decide as E; [|done]. cbn.
  rewrite lookup_insert_ne; [done|]. intros ->. congruence.
Qed.

Lemma wake_all_running ds a : running a → running (wake_all ds a) ∧ sc_current (wake_all ds a) = sc_current a.
Proof.
  revert a. induction ds as [|d ds IH]; [done|]. intros a Hr.
  destruct (IH (a_wakeup d a) (wakeup_running d a Hr)) as [H1' H2']. split; [done|].
  change (wake_all (d :: ds) a) with (wake_all ds (a_wakeup d a)). rewrite H2'. unfold a_wakeup. by case_bool_decide.
Qed.

Lemma wake_all_queued ds d a :
  d ∈ sc_queue a ∨ (d ∈ ds ∧ sc_state a !! d = Some THREAD_SLEEPING) → d ∈ sc_queue (wake_all ds a).
Proof.
  revert a. induction ds as [|e ds IH]; intros a Hd.
  - destruct Hd as [|[?%elem_of_nil _]]; done.
  - change (wake_all (e :: ds) a) with (wake_all ds (a_wakeup e a)). apply IH. unfold a_wakeup. destruct Hd as [Hd|[[->|Hd]%elem_of_cons Hs]].
    + left. case_bool_decide; [apply elem_of_app; by left|done].
    + left. rewrite bool_decide_eq_true_2 by done. apply elem_of_app. right. left.
    + case_bool_decide as E; [|by right]. destruct (decide (d = e)) as [->|Hne].
      * left. apply elem_of_app. right. left.
      * right. cbn. by rewrite lookup_insert_ne.
Qed.

Lemma schedule_queued d a : d ∈ sc_queue a → d ∈ sc_queue (a_schedule a).
Proof. unfold a_schedule. destruct (sc_queue a) eqn:E; [by rewrite E|]. cbn. set_solver. Qed.

(** C11. The timer thread, once it runs, serves every timer whose time has passed before it goes to
    sleep again: after two resumptions for each of these timers they have left the list,
    and every thread that was asleep in one of them is in the run queue; then the timer
    thread suspends itself, to go on with its loop, and the processor goes to the head of
    the run queue. *)
Theorem timer_thread_serves s a ts st :
  sched_rep s a → running a → timers_rep s ts → k_stack s = FTimerLoop :: st →
  (∀ t, t ∈ ts → due s t = true → ∃ tm, timeout_of s t tm) →
  let ds := timer_data s <$> filter (λ t, due s t = true) ts in
  let a1 := wake_all ds a in
  ∃ s1 s', resumes (2 * length ds) s = Ok (tt, s1) ∧ resume s1 = Ok (tt, s') ∧
    sched_rep s' (a_schedule (a_block THREAD_SLEEPING a1)) ∧
    timers_rep s' (filter (λ t, due s t = false) ts) ∧
    (∀ d, d ∈ ds → sc_state a !! d = Some THREAD_SLEEPING → d ∈ sc_queue (a_schedule (a_block THREAD_SLEEPING a1))) ∧
    handed_over (FSuspend (Z.land (cp0_status s) CP0_STATUS_IE_MASK) :: FTimerLoop :: st)
      (Z.land (cp0_status s) (Z.lnot CP0_STATUS_IE_MASK)) s1 s' (a_block THREAD_SLEEPING a1).
Proof.
  intros Hr Hrun Ht Hst Hdue ds a1.
  destruct (serve_exec st (length ds) s a ts Hr Ht Hst Hdue) as (s1 & He1 & Hr1 & Ht1 & Hst1 & Hfr & Hd1);
    [unfold ds; by rewrite length_fmap|]. fold ds a1 in Hr1.
  destruct (wake_all_running ds a Hrun) as [Hrun1 Hcur1]. fold a1 in Hrun1, Hcur1.
  assert (Hr2 : sched_rep (set_k_stack (FTimerLoop :: st) s1) a1) by (by apply (rep_ext _ s1)).
  destruct (suspend_rep _ a1 Hr2 Hrun1) as (s' & He' & Hr' & Hf' & Hh).
  assert (Hs : cp0_status s1 = cp0_status s) by apply Hfr.
  exists s1, s'. split_and!; [done| |done| | |].
  - rewrite (resume_round _ st) by done. rewrite (round_none _ (filter (λ t, due s t = false) ts)); [exact He'| |].
    + by apply (timers_rep_ext _ _ s1).
    + destruct (List.find _ _) as [t|] eqn:E; [|done]. destruct (find_split _ _ _ E) as (xs & ys & Ets & Hdt & _).
      change (due (set_k_stack st s1) t) with (due s1 t) in Hdt. rewrite Hd1 in Hdt.
      assert (Hin : t ∈ filter (λ t, due s t = false) ts) by (rewrite Ets; set_solver).
      apply list_elem_of_filter in Hin as [? _]. congruence.
  - apply (timers_rep_frame _ _ _ Hf'). by apply (timers_rep_ext _ _ s1).
  - intros d Hd Hsl. apply schedule_queued. cbn. apply list_elem_of_filter. split.
    + rewrite Hcur1. intros ->. unfold running in Hrun. congruence.
    + apply wake_all_queued. by right.
  - change (cp0_status (set_k_stack (FTimerLoop :: st) s1)) with (cp0_status s1) in Hh. rewrite Hs in Hh. apply (handed_over_from _ _ s1 (set_k_stack (FTimerLoop :: st) s1)); [done|exact Hh].
Qed.
(** ** Sleeping *)
Lemma timer_init_exec s t tm timeout handler data :
  t ≠ NULL → is_Some (k_links s !! t) → k_timers s !! t = Some tm →
  timer_init_jiffies t timeout handler data s =
    Ok (tt, set_k_timers <[t := Timer timeout 0 false handler data]> (set_k_links <[t := Link NULL NULL]> s)).
Proof.
  intros Ht0 Hl Ht. unfold timer_init_jiffies. erewrite bind_ok by (by apply link_init_kernel).
  erewrite bind_ok by (apply upd_timer_ok; exact Ht).
  do 3 (erewrite bind_ok by (apply upd_timer_ok, lookup_insert_eq)).
  rewrite (upd_timer_ok _ _ _ _ (lookup_insert_eq _ _ _)).
  do 2 f_equal. apply kernel_ext; try reflexivity. cbn. by rewrite !insert_insert_eq.
Qed.

(** A timer that can be started: it is not pending and belongs to no other list. *)
Definition idle_timer s ts (t : Z) : Prop :=
  t ≠ NULL ∧ is_Some (k_timers s !! t) ∧ is_Some (k_links s !! t) ∧
  t ∉ timers_list :: ts ∧ k_threads s !! t = None ∧ t ≠ run_queue runnable_list s.

(** Initialising and starting a timer. *)
Lemma arm_exec s a ts t timeout handler data :
  sched_rep s a → timers_rep s ts → idle_timer s ts t →
  ∃ l, (timer_init_jiffies t timeout handler data ;; timer_start timers_list t) s =
      Ok (tt, set_k_links (λ _, l) (set_k_timers <[t := Timer timeout (wrap (k_jiffies s + timeout)) false handler data]> s)) ∧
    let s' := set_k_links (λ _, l) (set_k_timers <[t := Timer timeout (wrap (k_jiffies s + timeout)) false handler data]> s) in
    sched_rep s' a ∧ timers_rep s' (ts ++ [t]) ∧ timer_links timers_list s (t :: ts) l.
Proof.
  intros Hr Ht (Ht0 & [tm Htm] & Hl & Hn & Htt & Htq).
  set (s1 := set_k_timers <[t := Timer timeout 0 false handler data]> (set_k_links <[t := Link NULL NULL]> s)).
  assert (Hl1 : ∀ p, p ≠ t → k_links s1 !! p = k_links s !! p) by (intros p Hp; cbn; by rewrite lookup_insert_ne).
  assert (Ht1 : timers_rep s1 ts).
  { destruct Ht as (Hli & Hti & Hs). split_and!; [|intros u Hu|done].
    - apply (is_list_agree (k_links s)); [|done]. intros p Hp. apply Hl1. by intros ->.
    - cbn. rewrite lookup_insert_ne by (intros <-; apply Hn; by right). by apply Hti. }
  destruct (timer_start_exec s1 ts t (Timer timeout 0 false handler data) Ht1) as (l & He & Hl' & Ht2); try done.
  { apply lookup_insert_eq. }
  { unfold mapped. cbn. rewrite lookup_insert_eq. split; by eexists. }
  assert (Hlk : timer_links timers_list s (t :: ts) l).
  { intros p Hp. rewrite Hl' by done. apply Hl1. intros ->. apply Hp. right. left. }
  exists l. split; [|split; [|split; [|exact Hlk]]].
  - erewrite bind_ok by (by apply (timer_init_exec s t tm)). etrans; [exact He|]. do 2 f_equal.
    apply kernel_ext; try reflexivity. cbn. by rewrite insert_insert_eq.
  - apply (rep_ext _ (set_k_links (λ _, l) s)); try done. apply (timer_links_rep (timers_list := timers_list) s a (t :: ts) l Hr).
    + intros p. rewrite !elem_of_cons. intros [->|[->|Hp]]; [apply Ht; left|done|apply Ht; by right].
    + exact Hlk.
  - revert Ht2. apply timers_rep_ext; try done. intros u. cbn. by rewrite insert_insert_eq.
Qed.

(** The call of either function up to [schedule]: [s1] is the state in which the thread
    has left the run queue. *)
Lemma sleep_blocked s a ts (usec : bool) amount :
  sched_rep s a → running a → timers_rep s ts → idle_timer s ts (thread_timer (sc_current a)) →
  let t := thread_timer (sc_current a) in
  let timeout := if usec then usec_to_jiffies amount else sec_to_jiffies amount in
  ∃ s1 s3 l, (if usec then thread_usleep runnable_list timers_list amount else thread_sleep runnable_list timers_list amount) s =
      schedule runnable_list s3 ∧
    sched_rep s1 (a_block THREAD_SLEEPING a) ∧ sched_frame s s1 ∧ (∀ u, context_of s1 u = context_of s u) ∧
    s3 = set_k_stack (FSleep usec (sc_current a) (Z.land (cp0_status s) CP0_STATUS_IE_MASK) :: k_stack s)
      (set_k_links (λ _, l) (set_k_timers
        <[t := Timer timeout (wrap (k_jiffies s + timeout)) false CTimeout (sc_current a)]> s1)) ∧
    cp0_status s3 = Z.land (cp0_status s) (Z.lnot CP0_STATUS_IE_MASK) ∧
    sched_rep s3 (a_block THREAD_SLEEPING a) ∧ timers_rep s3 (ts ++ [t]) ∧ timer_links timers_list s1 (t :: ts) l.
Proof.
  intros Hr Hrun Ht (Ht0 & Htm & Hlk & Hn & Htt & Htq) t timeout. fold t in Ht0, Htm, Hlk, Hn, Htt, Htq.
  set (s0 := ints_masked s).
  destruct (block_rep (runnable_list := runnable_list) s0 a THREAD_SLEEPING) as (tho & l & Ho & He & Hr1 & Hf1); [by apply (rep_ext _ s)|done|by intros [|]|].
  set (s1 := moved l (sc_current a) tho THREAD_SLEEPING s0) in *.
  assert (Hf : sched_frame s s1) by (eapply sched_frame_trans; [apply frame_status|exact Hf1]).
  assert (Ht1 : timers_rep s1 ts) by (by apply (timers_rep_frame s)).
  assert (Hidle : idle_timer s1 ts t).
  { split_and!; try done.
    - destruct Hf as (F1 & _). by rewrite F1.
    - by apply (erase_none s s1); [apply Hf|]. }
  destruct (arm_exec s1 _ ts t timeout CTimeout (sc_current a) Hr1 Ht1 Hidle) as (l2 & He2 & Hr2 & Ht2 & Hl2).
  set (s2 := set_k_links _ _) in *. set (ie := Z.land (cp0_status s) CP0_STATUS_IE_MASK).
  set (s3 := set_k_stack (FSleep usec (sc_current a) ie :: k_stack s) s2).
  exists s1, s3, l2. split_and!; try done.
  - assert (Hin : thread_sleep_in runnable_list timers_list usec amount s = schedule runnable_list s3);
      [|by destruct usec].
    unfold thread_sleep_in. fold timeout. kexec_step. erewrite bind_ok by (apply get_current_ok; apply Hr).
    erewrite bind_ok by (by apply upd_thread_ok). erewrite bind_ok by exact He.
    rewrite <- bind_assoc. erewrite bind_ok by exact He2. by erewrite bind_ok by reflexivity.
  - intros u. apply (moved_context l (sc_current a) tho THREAD_SLEEPING s0 Ho).
  - apply cp0_status_set.
Qed.

(** C22. [thread_sleep] and [thread_usleep] put the current thread to sleep, for a number of
    ticks computed from the time: it leaves the run queue, its own timer is the last of the
    pending ones, set to expire after that many ticks and to wake up this very thread, and
    the processor goes to the head of the run queue. *)
Theorem thread_sleep_refines s a ts (usec : bool) amount :
  sched_rep s a → running a → timers_rep s ts → idle_timer s ts (thread_timer (sc_current a)) →
  let t := thread_timer (sc_current a) in
  let timeout := if usec then usec_to_jiffies amount else sec_to_jiffies amount in
  ∃ s', (if usec then thread_usleep runnable_list timers_list amount else thread_sleep runnable_list timers_list amount) s =
      Ok (tt, s') ∧
    sched_rep s' (a_schedule (a_block THREAD_SLEEPING a)) ∧ timers_rep s' (ts ++ [t]) ∧
    k_timers s' = <[t := Timer timeout (wrap (k_jiffies s + timeout)) false CTimeout (sc_current a)]> (k_timers s) ∧
    k_jiffies s' = k_jiffies s ∧
    timeout_of s' t (Timer timeout (wrap (k_jiffies s + timeout)) false CTimeout (sc_current a)) ∧
    handed_over (FSleep usec (sc_current a) (Z.land (cp0_status s) CP0_STATUS_IE_MASK) :: k_stack s)
      (Z.land (cp0_status s) (Z.lnot CP0_STATUS_IE_MASK)) s s' (a_block THREAD_SLEEPING a).
Proof.
  intros Hr Hrun Ht Hidle t timeout.
  destruct (sleep_blocked s a ts usec amount Hr Hrun Ht Hidle) as (s1 & s3 & l & He & Hr1 & Hf1 & Hc1 & E3 & Hst3 & Hr3 & Ht3 & _).
  fold t timeout in E3, Ht3. destruct (schedule_rep s3 _ Hr3) as (s' & He' & Hr' & Hf' & Hh).
  assert (Hti : k_timers s' = k_timers s3) by apply Hf'.
  assert (Hj : k_jiffies s' = k_jiffies s).
  { transitivity (k_jiffies s3); [apply Hf'|]. rewrite E3. apply Hf1. }
  assert (Hti1 : k_timers s1 = k_timers s) by apply Hf1.
  exists s'. rewrite He. split_and!; try done.
  - by apply (timers_rep_frame s3).
  - rewrite Hti, E3. cbn. by rewrite Hti1.
  - split; [rewrite Hti, E3; apply lookup_insert_eq|split; [done|]].
    apply (erase_some s3); [apply Hf'|]. rewrite E3. destruct (rep_current _ s1 _ Hr1) as (th & Hth & _). by exists th.
  - rewrite Hst3 in Hh. replace (k_stack s3) with (FSleep usec (sc_current a) (Z.land (cp0_status s) CP0_STATUS_IE_MASK) :: k_stack s) in Hh
      by (by rewrite E3).
    apply (handed_over_from _ _ s s3); [|exact Hh]. intros u. rewrite E3. exact (Hc1 u).
Qed.

(** A full sleep ends with a strange result: a timer fires only after its time has passed,
    so the remaining time is negative and wraps around. *)
Lemma thread_sleep_returns s (usec : bool) cur state st tm :
  k_stack s = FSleep usec cur state :: st → thread_timer cur ≠ NULL →
  k_timers s !! thread_timer cur = Some tm → ti_running tm = false → unlinked (M := links) (k_links s) (thread_timer cur) →
  0 ≤ ti_expires tm < k_jiffies s → k_jiffies s < word_max →
  ∃ s', (resume ;; resume) s = Ok (tt, s') ∧ k_stack s' = st ∧
    let remains := word_max - (k_jiffies s - ti_expires tm) in
    k_ret s' = if usec then jiffies_to_usec remains else jiffies_to_sec remains.
Proof.
  intros Hst Ht0 Htm Hrun [Hp Hn] He Hj.
  assert (Hpend : ∀ s', k_links s' = k_links s → timer_pending (thread_timer cur) s' = Ok (false, s')).
  { intros s' E. unfold timer_pending. erewrite link_connected_exec; [|done|cbn; by rewrite E|cbn; by rewrite E]. done. }
  set (remains := wrap (ti_expires tm - k_jiffies s)).
  set (s1 := set_k_stack (FSleepEnd usec remains state :: st) s).
  assert (H1' : resume s = Ok (tt, s1)).
  { unfold Timers.resume, pop_frame. erewrite bind_ok by (rewrite Hst; reflexivity). cbn [run_frame].
    unfold thread_sleep_woken. kexec_step. erewrite bind_ok by reflexivity. erewrite bind_ok by reflexivity.
    unfold timer_destroy. kexec_step. erewrite bind_ok by (by apply Hpend). cbn iota. erewrite bind_ok by reflexivity.
    cbn [timer_destroy_wait]. kexec_step. rewrite Hrun. erewrite bind_ok by (by apply Hpend). cbn iota. apply restored. }
  erewrite bind_ok by exact H1'. unfold Timers.resume, pop_frame. erewrite bind_ok by reflexivity.
  cbn [run_frame]. unfold thread_sleep_end.
  assert (Hc : ∃ s2, conditionally_enable_interrupts state (set_k_stack st s1) = Ok (tt, s2) ∧ k_stack s2 = st).
  { unfold conditionally_enable_interrupts. case_bool_decide; eexists; (split; [reflexivity|done]). }
  destruct Hc as (s2 & Hc & Hst2). erewrite bind_ok by exact Hc. eexists. split; [reflexivity|]. split; [exact Hst2|].
  cbn. unfold remains. rewrite wrap_sub_underflow by lia.
  by replace (ti_expires tm - k_jiffies s + word_max) with (word_max - (k_jiffies s - ti_expires tm)) by lia.
Qed.
End theorems.

(** ** Witnesses *)
(** The sample kernel with the timer of the sleeping thread pending and due; the
    timer of the running thread is idle. *)
Definition timer_kernel : kernel (mm_state (gset Z)) :=
  set_k_links (λ m, <[72 := Link 12332 12332]> (<[12332 := Link 72 72]> (<[8236 := Link 0 0]> m)))
    (set_k_timers (λ _, list_to_map [(12332, Timer 3 5 false CTimeout 12288); (8236, Timer 0 0 false CNull 0)])
      (set_k_stack [FTimerLoop; FStubEnd] sample_kernel)).

Lemma timer_kernel_rep : sched_rep 64 timer_kernel sample_sched.
Proof.
  apply (sched_rep_links 64 (set_k_timers (λ _, list_to_map [(12332, Timer 3 5 false CTimeout 12288);
    (8236, Timer 0 0 false CNull 0)]) (set_k_stack [FTimerLoop; FStubEnd] sample_kernel)) sample_sched).
  - exact (rep_ext 64 sample_kernel _ sample_sched eq_refl eq_refl eq_refl eq_refl eq_refl sample_sched_rep).
  - intros p Hp. assert (Hc : p = 64 ∨ p = 4096 ∨ p = 8192 ∨ p = 12288).
    { destruct Hp as [Hp|[th Hp]]; [by left|right]. exact (sample_threads_inv p th Hp). }
    by destruct Hc as [->|[->|[->| ->]]].
Qed.

Lemma timer_kernel_timers : timers_rep 64 72 timer_kernel [12332].
Proof.
  split_and!.
  - split; [by vm_compute|]. split; [by apply (bool_decide_unpack _)|].
    split; [by apply (bool_decide_unpack _)|]. intros x y _ _ ?. done.
  - intros t [->|[]%elem_of_nil]%elem_of_cons. by eexists.
  - intros p Hp. assert (Hc : p = 72 ∨ p = 12332) by set_solver. by destruct Hc as [->| ->].
Qed.

Lemma timer_kernel_idle : idle_timer 64 72 timer_kernel [12332] (thread_timer 8192).
Proof.
  split_and!; [done|by eexists|by eexists| |done|done]. apply (bool_decide_unpack _). by vm_compute.
Qed.

Lemma sched_timer_refines_witness :
  ∃ s', sched_timer 64 72 timer_kernel = Ok (tt, s') ∧
    sched_rep 64 s' (a_timers_run 4096 (Some 12332) sample_sched) ∧ timers_rep 64 72 s' [12332].
Proof.
  destruct (sched_timer_refines (H := mm_state (gset Z)) 64 72 timer_kernel sample_sched [12332]
    (sample_thread THREAD_RUNNING 12288 (Context [] 0))) as (s' & He & Hr & _ & Ht & _).
  - exact timer_kernel_rep.
  - exact timer_kernel_timers.
  - by eexists.
  - reflexivity.
  - exists s'. split; [exact He|]. split; [exact Hr|exact Ht].
Defined.

Lemma timer_thread_serves_witness :
  ∃ s1 s', resumes 64 72 2 timer_kernel = Ok (tt, s1) ∧ resume 64 72 s1 = Ok (tt, s') ∧
    timers_rep 64 72 s' [] ∧ 12288 ∈ sc_queue (a_schedule (a_block THREAD_SLEEPING (a_wakeup 12288 sample_sched))).
Proof.
  destruct (timer_thread_serves (H := mm_state (gset Z)) 64 72 timer_kernel sample_sched [12332] [FStubEnd])
    as (s1 & s' & He1 & He2 & _ & Ht & Hq & _).
  - exact timer_kernel_rep.
  - exact sample_running.
  - exact timer_kernel_timers.
  - reflexivity.
  - intros t [->|[]%elem_of_nil]%elem_of_cons _. exists (Timer 3 5 false CTimeout 12288).
    split; [reflexivity|]. split; [reflexivity|]. by eexists.
  - exists s1, s'. split; [exact He1|]. split; [exact He2|]. split; [exact Ht|]. apply (Hq 12288); [left|reflexivity].
Defined.

Lemma thread_sleep_refines_witness :
  ∃ s', thread_usleep 64 72 20000 timer_kernel = Ok (tt, s') ∧ timers_rep 64 72 s' [12332; 8236] ∧
    sched_rep 64 s' (a_schedule (a_block THREAD_SLEEPING sample_sched)).
Proof.
  destruct (thread_sleep_refines (H := mm_state (gset Z)) 64 72 timer_kernel sample_sched [12332] true 20000)
    as (s' & He & Hr & Ht & _).
  - exact timer_kernel_rep.
  - exact sample_running.
  - exact timer_kernel_timers.
  - exact timer_kernel_idle.
  - exists s'. split; [exact He|]. split; [exact Ht|exact Hr].
Defined.
