(* ===== verification/Syscall.v ===== *)
(** * System calls, from the instruction to its return

    The assembler code of [head.S] and the C code of [exc.c] and [syscall.c] together.
    The compiled C code is any function on the machine that does to the saved context
    what the model of the C code does to its registers. *)
From S2P Require Import Prelude CList Cpu Cp0 Mips MipsTheorems MipsExc MipsSample Malloc.
From S2P Require Import MallocTheorems KHeap Tlb Kernel Sched Vmm Threads Timers Exc KernelSample.

(** The context of the interrupted code, as the C code sees it. *)
Definition registers_of (s : mips) : registers :=
  Registers (reg r_v0 s) (reg r_a0 s) (reg r_a1 s) (reg r_a2 s) (reg r_a3 s)
    (creg c_epc s) (creg c_cause s) (creg c_badvaddr s) (creg c_entryhi s).

(** [wrapped] returns with the saved context at [b] changed to that of [r]. *)
Definition returns_registers (wrapped : KM mips unit) (cpu b : Z) (s1 : mips) (r : registers) : Prop :=
  ∃ s2, wrapped s1 = Ok (tt, s2) ∧ reg r_sp s2 = reg r_sp s1 ∧ on_cpu cpu s2 ∧ area s2 b 39 ∧
    word s2 (b + REGS_OFFSET_V0) = rg_v0 r ∧ word s2 (b + REGS_OFFSET_EPC) = rg_epc r ∧
    ∀ off, 0 ≤ off < CONTEXT_SIZE → off ≠ REGS_OFFSET_V0 → off ≠ REGS_OFFSET_EPC →
      word s2 (b + off) = word s1 (b + off).

Section theorem.
  Context {H : Type} `{KernelHeap H}.
  Context (runnable_list : Z) (handlers : list (Z → Z → Z → Z → KM (kernel H) (option Z))).
  Context (kbd_handle sched_timer : KM (kernel H) unit).
  Implicit Types (k : kernel H).

Abbreviation C_code := (wrapped_general runnable_list handlers kbd_handle sched_timer).

(** What the C code makes of a system call. *)
Lemma wrapped_general_syscall r k handler v k' :
  CP0_CAUSE_EXCCODE (rg_cause r) = CP0_CAUSE_EXCCODE_SYS → 0 ≤ rg_v0 r < SYSCALL_COUNT →
  syscall_table runnable_list handlers !! Z.to_nat (rg_v0 r) = Some handler →
  handler (rg_a0 r) (rg_a1 r) (rg_a2 r) (rg_a3 r)
    (set_cp0_status (Z.lor (cp0_status k) CP0_STATUS_IE_MASK) k) = Ok (Some v, k') →
  C_code r k = Ok (set_rg_v0 (wrap v) (set_rg_epc (wrap (rg_epc r + 4)) r),
    set_cp0_status (Z.land (cp0_status k') (Z.lnot CP0_STATUS_IE_MASK)) k').
Proof.
  intros Hc Hn Hh He. unfold wrapped_general. rewrite Hc. cbn [Z.eqb CP0_CAUSE_EXCCODE_SYS CP0_CAUSE_EXCCODE_INT Pos.eqb].
  unfold syscall. cbn [rg_v0 set_rg_epc]. rewrite (proj2 (Z.ltb_lt _ _)) by lia.
  erewrite bind_ok by reflexivity. erewrite bind_ok by (apply load_some; exact Hh).
  by erewrite bind_ok by exact He.
Qed.

(** The slots of the other registers. *)
Lemma other_slots :
  Forall (λ '(r, off), r = r_v0 ∧ off = REGS_OFFSET_V0 ∨
    r ≠ r_v0 ∧ off ≠ REGS_OFFSET_V0 ∧ off ≠ REGS_OFFSET_EPC ∧ 0 ≤ off < CONTEXT_SIZE) saved_registers.
Proof. by apply (bool_decide_unpack _). Qed.

(** C20. A system call returns like a function call: when its handler returns [v], the
    code that executed the [syscall] instruction goes on behind it with [v] in [$v0] and
    all other registers but the kernel's [$k0] and [$k1] unchanged, out of the exception
    level and otherwise with its Status register. *)
Theorem system_call_returns (wrapped : KM mips unit) cpu b s k handler v k' :
  on_cpu cpu s → stack_for cpu b s →
  CP0_CAUSE_EXCCODE (creg c_cause s) = CP0_CAUSE_EXCCODE_SYS → 0 ≤ reg r_v0 s < SYSCALL_COUNT →
  syscall_table runnable_list handlers !! Z.to_nat (reg r_v0 s) = Some handler →
  handler (reg r_a0 s) (reg r_a1 s) (reg r_a2 s) (reg r_a3 s)
    (set_cp0_status (Z.lor (cp0_status k) CP0_STATUS_IE_MASK) k) = Ok (Some v, k') →
  (∀ s1 r k1, reg r_a0 s1 = b → context_of s1 s b → on_cpu cpu s1 → area s1 b 39 →
     C_code (registers_of s) k = Ok (r, k1) → returns_registers wrapped cpu b s1 r) →
  ∃ s', handle_general wrapped s = Ok (tt, s') ∧
    reg r_v0 s' = wrap v ∧ m_pc s' = wrap (creg c_epc s + 4) ∧
    (∀ r, 0 ≤ r < 32 → r ≠ r_k0 → r ≠ r_k1 → r ≠ r_v0 → reg r s' = reg r s) ∧
    m_hi s' = m_hi s ∧ m_lo s' = m_lo s ∧
    creg c_status s' = Z.land (creg c_status s) (Z.lnot CP0_STATUS_EXL_MASK).
Proof.
  intros Hon Hst Hc Hn Hh He Hwr.
  pose proof (wrapped_general_syscall (registers_of s) k handler v k' Hc Hn Hh He) as HC.
  set (r' := set_rg_v0 _ _) in HC.
  destruct (general_enter_spec cpu b s Hon Hst) as (s1' & E1' & _ & _ & Hctx & _).
  assert (Hret : ∀ s1, reg r_a0 s1 = b → context_of s1 s b → on_cpu cpu s1 → area s1 b 39 →
    returns_registers wrapped cpu b s1 r') by (intros; by eapply Hwr).
  destruct (handle_general_exec wrapped cpu b s Hon Hst) as
    (s1 & s2 & s3 & E1 & E2 & E & _ & M1 & _ & Hregs & Hsp & Hlo & Hhi & Hpc & Hstat).
  { intros s1 Ha0 Hsp Hcx Hon1 Ha1. destruct (Hret s1 Ha0 Hcx Hon1 Ha1) as (s2 & ? & ? & ? & ? & _). eauto. }
  assert (s1' = s1) as -> by congruence.
  assert (Hkeep : word s2 (b + REGS_OFFSET_V0) = rg_v0 r' ∧ word s2 (b + REGS_OFFSET_EPC) = rg_epc r' ∧
    ∀ off, 0 ≤ off < CONTEXT_SIZE → off ≠ REGS_OFFSET_V0 → off ≠ REGS_OFFSET_EPC → word s2 (b + off) = word s1 (b + off)).
  { destruct (general_enter_spec cpu b s Hon Hst) as (s1' & E1'' & Ha0 & _ & _ & _ & Mem1).
    assert (s1' = s1) as -> by congruence.
    assert (Hon1 : on_cpu cpu s1).
    { destruct Hst as (_ & _ & _ & _ & Hsep). apply (on_cpu_same _ _ _ _ Hon M1).
      intros [Hd|[_ Hd]]; [by apply Hsep in Hd as [? _]|]. destruct Hon as (Hcpu & _).
      pose proof (static_area_range cpu Hcpu). rewrite dorder_eq in Hd. unfold STATIC_OFFSET_STATUS in Hd. lia. }
    assert (Ha1 : area s1 b 39) by (eapply same_mem_area; [exact M1|]; apply Hst).
    destruct (Hret s1 Ha0 Hctx Hon1 Ha1) as (s2' & E2' & _ & _ & _ & ? & ? & ?).
    assert (s2' = s2) as -> by congruence. done. }
  destruct Hkeep as (Kv & Ke & Ko). destruct Hctx as [(Hh1 & Hlo1 & Hhi1) Hcp].
  assert (Hreg : ∀ r off, (r, off) ∈ saved_registers → r ≠ 0 → r ≠ r_v0 → reg r s3 = reg r s).
  { intros r off Hin H0' Hv. pose proof other_slots as Ho. rewrite Forall_forall in Ho.
    destruct (Ho _ Hin) as [[? _]|(_ & ? & ? & ?)]; [done|]. rewrite (Hregs r off Hin H0'), Ko by done. by apply Hh1. }
  exists s3. split; [exact E|]. split; [|split; [|split; [|split; [|split]]]].
  - rewrite (Hregs r_v0 REGS_OFFSET_V0); [exact Kv| |done]. by apply (bool_decide_unpack _).
  - by rewrite Hpc, Ke.
  - intros r Hr H0' H1' Hv. destruct (decide (r = 0)) as [->|]; [done|].
    destruct (decide (r = r_sp)) as [->|]; [exact Hsp|].
    destruct (saved_cover r) as [off Hin]; [lia|done..|]. by eapply Hreg.
  - by rewrite Hhi, Ko.
  - by rewrite Hlo, Ko.
  - rewrite Hstat, Ko by done. rewrite (Hcp c_status REGS_OFFSET_STATUS); [done|]. by apply (bool_decide_unpack _).
Qed.
End theorem.

(** ** A concrete system call

    The code of [MipsSample] executes [syscall] with 5 in [$v0]; the handler returns its
    first argument plus one. *)

Definition syscall_mips : mips := set_cp0 <[c_cause := 0x20]> sample_mips.

Definition increment (a0 a1 a2 a3 : Z) : KM (kernel (mm_state (gset Z))) (option Z) := mret (Some (a0 + 1)).

(** The compiled C code for this case. *)
Definition increment_code : KM mips unit := λ s, Ok (tt, set_mmem <[0x80100000 + REGS_OFFSET_EPC := 0x80012348]>
  (set_mmem <[0x80100000 + REGS_OFFSET_V0 := 0x80200001]> s)).

Lemma increment_code_mem s :
  same_mem (in_context 0x80100000) s (set_mmem <[0x80100000 + REGS_OFFSET_EPC := 0x80012348]>
    (set_mmem <[0x80100000 + REGS_OFFSET_V0 := 0x80200001]> s)).
Proof.
  eapply same_mem_trans; apply same_mem_store; by vm_compute.
Qed.

Lemma syscall_on_cpu : on_cpu 3 syscall_mips.
Proof. exact sample_on_cpu. Qed.

Lemma syscall_stack : stack_for 3 0x80100000 syscall_mips.
Proof. exact sample_stack. Qed.

Lemma increment_returns s1 : on_cpu 3 s1 → area s1 0x80100000 39 →
  returns_registers increment_code 3 0x80100000 s1
    (set_rg_v0 0x80200001 (set_rg_epc 0x80012348 (registers_of syscall_mips))).
Proof.
  intros Hon Ha. eexists. split; [reflexivity|]. pose proof (increment_code_mem s1) as Hm.
  split; [done|]. split; [|split; [by eapply same_mem_area|split; [|split]]].
  - eapply on_cpu_same; [exact Hon|exact Hm|]. rewrite dorder_eq. unfold in_context, CONTEXT_SIZE. lia.
  - rewrite word_store_ne by done. apply word_store_eq.
  - apply word_store_eq.
  - intros off Ho Hv He. by rewrite !word_store_ne by lia.
Qed.

Lemma system_call_returns_witness :
  ∃ s', handle_general increment_code syscall_mips = Ok (tt, s') ∧ reg r_v0 s' = 0x80200001 ∧
    m_pc s' = 0x80012348 ∧ reg r_s0 s' = reg r_s0 syscall_mips.
Proof.
  destruct (system_call_returns 64 (replicate 14 increment) (mret ()) (mret ()) increment_code 3 0x80100000
    syscall_mips sample_kernel increment 0x80200001
    (set_cp0_status (Z.lor (cp0_status sample_kernel) CP0_STATUS_IE_MASK) sample_kernel)) as (s' & E & Hv & Hpc & Hr & _).
  - exact syscall_on_cpu.
  - exact syscall_stack.
  - by vm_compute.
  - done.
  - reflexivity.
  - reflexivity.
  - intros s1 r k1 _ _ Hon Ha HC.
    rewrite (wrapped_general_syscall 64 (replicate 14 increment) (mret ()) (mret ()) (registers_of syscall_mips)
      sample_kernel increment 0x80200001
      (set_cp0_status (Z.lor (cp0_status sample_kernel) CP0_STATUS_IE_MASK) sample_kernel)) in HC.
    + injection HC as <- _. exact (increment_returns s1 Hon Ha).
    + by vm_compute.
    + done.
    + reflexivity.
    + reflexivity.
  - exists s'. split; [exact E|]. split; [exact Hv|]. split; [exact Hpc|]. apply (Hr r_s0); unfold r_s0, r_k0, r_k1, r_v0; lia.
Defined.
