(* ===== verification/VmSample.v ===== *)
(** * The virtual memory theorems on a concrete kernel

    The running thread of [KernelSample] with one area: pages 5 and 6 on frames 23 and
    24, page 5 being in the TLB. *)
From S2P Require Import Prelude CList Cpu Malloc MallocInv MallocTheorems KHeap Tlb TlbTheorems Kernel Sched.
From S2P Require Import Vmm PageTable Threads Timers SchedExec VmmTheorems VmmMap Exc ExcTheorems KernelSample.

Definition vm_page : tlb_entry := TlbEntry 0 (2 * 8192 + 3) 0 (tlb_entrylo 23).
Definition vm_tlb : tlb := Tlb (vm_page :: replicate 47 te_unused) 0 47 0 0 0 0 (2 * 8192 + 3).
Definition vm_vmas : list vma := Vma 5 23 2 true :: replicate 99 (Vma 0 0 0 false).

Definition vm_kernel (h : mm_state (gset Z)) : kernel (mm_state (gset Z)) :=
  set_k_heap h (set_k_vmms (λ _, {[20480 := Vmm 3 vm_vmas]}) (set_k_tlb vm_tlb sample_kernel)).

Lemma vm_vmas_ok : vmas_ok vm_vmas.
Proof.
  assert (Hone : ∀ i v vpn, vm_vmas !! i = Some v → in_vma v vpn → i = O).
  { intros [|i] v vpn; [done|]. cbn. intros [-> _]%(lookup_replicate 99). by intros []. }
  split.
  - apply Forall_cons. split; [by intros _|]. apply Forall_replicate. by intros ?.
  - intros i j v w vpn Hi Hj Hv Hw. by rewrite (Hone _ _ _ Hi Hv), (Hone _ _ _ Hj Hw).
Qed.

Lemma vm_page_table vpn :
  page_table vm_vmas vpn = if decide (5 ≤ vpn < 7) then Some (23 + (vpn - 5)) else None.
Proof.
  case_decide as Hd.
  - exact (page_table_some vm_vmas 0 (Vma 5 23 2 true) vpn vm_vmas_ok eq_refl (conj eq_refl Hd)).
  - apply page_table_none; [exact vm_vmas_ok|]. intros [|i] v; cbn.
    + intros [= <-] [_ Hin]. by apply Hd.
    + intros [-> _]%(lookup_replicate 99). by intros [].
Qed.

Lemma vm_asids : asids_ok {[20480 := Vmm 3 vm_vmas]}.
Proof. intros p q v w [<- <-]%lookup_singleton_Some [<- <-]%lookup_singleton_Some. done. Qed.

Lemma vm_tlb_wf : tlb_wf vm_tlb.
Proof.
  split; [done|split].
  - apply Forall_cons. split; [done|]. by apply Forall_replicate.
  - intros i j e e' Hi Hj Hna [_ Hs].
    assert (Hone : ∀ k x, tlb_entries vm_tlb !! k = Some x → te_asid x ≠ ASID_UNUSED → k = O).
    { intros [|k] x; [done|]. cbn. intros [-> _]%(lookup_replicate 47). by intros []. }
    rewrite (Hone i e) by done. by rewrite (Hone j e') by (done || by rewrite <- Hs).
Qed.

Lemma vm_memory_ok h : memory_ok (vm_kernel h).
Proof.
  split.
  - exact vm_tlb_wf.
  - done.
  - apply Forall_cons. split; [|apply Forall_replicate; by intros []].
    intros [] Hv; [|done]. change (k_vmms (vm_kernel h)) with ({[20480 := Vmm 3 vm_vmas]} : gmap Z vmm).
    change (te_asid vm_page) with (vmm_asid (Vmm 3 vm_vmas)).
    rewrite (spaces_eq _ 20480 (Vmm 3 vm_vmas)) by (exact vm_asids || apply lookup_singleton_eq).
    cbn [vmm_vma]. rewrite vm_page_table. by vm_compute.
  - exact vm_asids.
  - intros p v Hp. change (({[20480 := Vmm 3 vm_vmas]} : gmap Z vmm) !! p = Some v) in Hp.
    apply lookup_singleton_Some in Hp as [<- <-]. exact vm_vmas_ok.
Qed.

Lemma vm_current h : current_space (vm_kernel h) 20480 (Vmm 3 vm_vmas).
Proof.
  split; [|split; [by apply lookup_singleton_eq|done]].
  exists 8192, (sample_thread THREAD_RUNNING 12288 (Context [] 0)). done.
Qed.

(** A heap from which the kernel has taken two frames. *)
Lemma taken_heap n base f :
  frame_alloc 2 (Z.lor VF_VA_AUTO VF_AT_KSEG0) (frame_run 16 n) = (EOK, base * 4096, f) →
  ∃ h, kh_rep h ∅ (in_frames (base * 4096) 2) ∧ mm_inv sample_hl h [] ∧ mm_frames h = f.
Proof.
  intros Hfa. destruct (frames_heap n) as (s & Hrep & Hf & Hinv). rewrite <- Hf in Hfa.
  destruct (km_frame_alloc_law s ∅ (λ _, False) 2 Hrep) as (rc & phys & h' & He & _ & Hres); [done|].
  pose proof (frames_taken sample_hl s [] 2 (base * 4096) f Hinv ltac:(done) Hfa) as Hinv'.
  cbn [km_frame_alloc sample_kernel_heap mm_kernel_heap] in He. unfold call_frame_alloc in He. rewrite Hfa in He.
  injection He as <- <- <-. destruct Hres as [[[] _]|(_ & _ & _ & _ & _ & Hr)]; [done|]. eexists. split_and!.
  - eapply (kh_rep_owned _ _ (λ a, False ∨ in_frames (base * 4096) 2 a)); [|exact Hr]. by right.
  - exact Hinv'.
  - done.
Qed.

(** Of 16 frames these are frames 23 and 24. *)
Definition vm_frames : gset Z := sample_frames ∖ frame_run 23 2.

Lemma vm_heap : ∃ h, kh_rep h ∅ (in_frames (23 * 4096) 2) ∧ mm_inv sample_hl h [] ∧ mm_frames h = vm_frames.
Proof. apply (taken_heap 16). vm_compute. reflexivity. Qed.

Lemma vma_unmap_correct_witness :
  ∃ h s', tlb_translate 0x5000 3 (k_tlb (vm_kernel h)) = Some 23 ∧
    vma_unmap 0x5000 (vm_kernel h) = Ok (EOK, s') ∧ memory_ok s' ∧ tlb_translate 0x5000 3 (k_tlb s') = None.
Proof.
  destruct vm_heap as (h & Hrep & _). exists h.
  destruct (vma_unmap_correct (vm_kernel h) 20480 (Vmm 3 vm_vmas) 0x5000 ∅ (in_frames (23 * 4096) 2))
    as (rc & s' & He & _ & Hmem & Hres).
  - exact (vm_memory_ok h).
  - exact (vm_current h).
  - exact Hrep.
  - intros [|i] w a; cbn; [by intros [= <-] _|]. intros [-> _]%(lookup_replicate 99). done.
  - done.
  - exists s'. destruct Hres as [(_ & _ & [Hn|Hn])|(-> & w & v' & Hin & Hval & Hb & _ & _ & _ & _ & Htr & _)].
    + done.
    + by destruct (Hn (Vma 5 23 2 true)); [left|..].
    + split; [by vm_compute|]. split; [exact He|]. split; [exact Hmem|]. apply Htr; [done|].
      split; [exact Hval|]. apply elem_of_cons in Hin as [->|Hin]; [done|].
      apply elem_of_replicate in Hin as [-> _]. done.
Defined.

(** Two pages at 0x400000; the frame allocator has two frames left in a row. *)
Lemma vma_map_correct_witness :
  ∃ h s' v' pfn, vma_map 0x400000 0x2000 (Z.lor VF_AT_KUSEG VF_VA_USER) (vm_kernel h) = Ok ((EOK, 0x400000), s') ∧
    memory_ok s' ∧ k_vmms s' !! 20480 = Some v' ∧
    page_table (vmm_vma v') 0x400 = Some pfn ∧ page_table (vmm_vma v') 0x401 = Some (pfn + 1) ∧
    page_table (vmm_vma v') 5 = Some 23 ∧ page_table (vmm_vma v') 0x402 = None.
Proof.
  destruct vm_heap as (h & Hrep & _ & Hf). exists h.
  destruct (vma_map_correct (vm_kernel h) 20480 (Vmm 3 vm_vmas) 0x400000 0x2000 (Z.lor VF_AT_KUSEG VF_VA_USER)
    ∅ (in_frames (23 * 4096) 2) (vm_memory_ok h) (vm_current h) Hrep) as (rc & addr & s' & He & Hres); [done..|].
  change (map_target _ 0x400000 _) with (Some 0x400000) in Hres. change (map_full _) with false in Hres.
  change (negb (0x2000 mod 4096 =? 0)) with false in Hres. change (negb (0x400000 mod 4096 =? 0)) with false in Hres.
  destruct Hres as (-> & phys & h' & Ha & _ & _ & Hres).
  assert (Hrc : rc = EOK).
  { cbn [km_frame_alloc sample_kernel_heap mm_kernel_heap] in Ha. unfold call_frame_alloc in Ha.
    change (mm_frames (k_heap (ints_masked (vm_kernel h)))) with (mm_frames h) in Ha. rewrite Hf in Ha.
    replace (frame_alloc _ _ vm_frames) with (EOK, 27 * 4096, vm_frames ∖ frame_run 27 2) in Ha by (vm_compute; reflexivity).
    by injection Ha. }
  subst rc. rewrite bool_decide_eq_true_2 in Hres by done. destruct Hres as [Hv _ _ Htab _].
  destruct Htab as [Hm Hpt].
  { split; [done|]. intros w vpn [->|[-> _]%elem_of_replicate]%elem_of_cons [Hval Hin]; [|done].
    change (5 ≤ vpn < 5 + 2) in Hin. change (¬ 1024 ≤ vpn < 1024 + 2). lia. }
  eexists s', _, (phys / 4096). split; [exact He|]. split; [exact Hm|]. split; [rewrite Hv; apply lookup_insert_eq|].
  cbn [vmm_vma set_vmm_vma]. rewrite !Hpt. cbn [vmm_vma]. rewrite !vm_page_table.
  change (0x400000 / 4096) with 0x400. change (0x2000 / 4096) with 2.
  split_and!; [rewrite decide_True by done; f_equal; lia|rewrite decide_True by done; f_equal; lia|done|done].
Defined.

Definition vm_registers : registers := Registers 0 0 0 0 0 0x400000 0 0x5004 (2 * 8192 + 3).

Lemma tlb_exceptions_correct_witness :
  ∃ h t', tlb_invalid 64 vm_registers (vm_kernel h) = Ok (tt, set_k_tlb t' (vm_kernel h)) ∧
    tlb_translate 0x5004 3 t' = Some 23.
Proof.
  destruct vm_heap as [h _]. exists h.
  assert (Hf : faulting (vm_kernel h) (rg_badva vm_registers)) by (split; [split; done|reflexivity]).
  pose proof (tlb_exceptions_correct (H := mm_state (gset Z)) 64 (vm_kernel h) 20480 (Vmm 3 vm_vmas) vm_registers) as Hex.
  specialize (Hex (vm_memory_ok h)). specialize (Hex (vm_current h)). specialize (Hex Hf). specialize (Hex eq_refl).
  change (page_table (vmm_vma (Vmm 3 vm_vmas)) (rg_badva vm_registers / 4096)) with (page_table vm_vmas 5) in Hex.
  rewrite vm_page_table in Hex. destruct Hex as [(t' & He & _ & _ & Htr) _]. exists t'. split; [exact He|exact Htr].
Defined.
