(* ===== verification/Dorder.v ===== *)
(** * Messages between processors ([kernel/drivers/dorder.c])

    A ring of 128 messages between [dorder_send] and the interrupt handler, with two
    atomic counters that are taken modulo the size of the ring where it is accessed.
    The atomic operations are the sequential ones of [Atomic].  The message that
    [dorder_receive] prints is kept as a log; the two device registers are not
    modelled (the code does not write them). *)
From S2P Require Import Prelude CList Cpu Atomic Malloc KHeap Tlb Kernel Sched SchedExec KernelSample.

Definition MSG_BUF_SIZE : Z := 128.
Definition DORDER_MSG_SIGNAL : Z := 0x0000CAFE.

Record dorder (H : Type) := Dorder {
  msg_head : Z;
  msg_tail : Z;
  msg_buffer : list Z;
  dorder_signal : Z;
  dorder_log : list Z;  (** what has been printed *)
  dorder_kernel : kernel H;
}.
Arguments Dorder {H} _ _ _ _ _ _.
Arguments msg_head {H} _.
Arguments msg_tail {H} _.
Arguments msg_buffer {H} _.
Arguments dorder_signal {H} _.
Arguments dorder_log {H} _.
Arguments dorder_kernel {H} _.

Section code.
  Context {H : Type} `{KernelHeap H}.
  Context (dorder_wait_queue : Z).

(** Atomic operations on the three variables. *)
Definition at_head (c : atomic_code) : KM (dorder H) Z := λ d,
  let '(v, r) := atomic_exec c (msg_head d) in
  Ok (r, Dorder v (msg_tail d) (msg_buffer d) (dorder_signal d) (dorder_log d) (dorder_kernel d)).
Definition at_tail (c : atomic_code) : KM (dorder H) Z := λ d,
  let '(v, r) := atomic_exec c (msg_tail d) in
  Ok (r, Dorder (msg_head d) v (msg_buffer d) (dorder_signal d) (dorder_log d) (dorder_kernel d)).
Definition at_signal (c : atomic_code) : KM (dorder H) Z := λ d,
  let '(v, r) := atomic_exec c (dorder_signal d) in
  Ok (r, Dorder (msg_head d) (msg_tail d) (msg_buffer d) v (dorder_log d) (dorder_kernel d)).

(** [msg_buffer [i]], whose index is always within the bounds. *)
Definition get_msg (i : Z) : KM (dorder H) Z := kload (λ d, msg_buffer d !! Z.to_nat i).
Definition set_msg (i msg : Z) : KM (dorder H) unit := λ d,
  if bool_decide (0 ≤ i < MSG_BUF_SIZE) then
    Ok (tt, Dorder (msg_head d) (msg_tail d) (<[Z.to_nat i := msg]> (msg_buffer d)) (dorder_signal d)
      (dorder_log d) (dorder_kernel d))
  else Fault.

Definition print_msg (msg : Z) : KM (dorder H) unit := λ d,
  Ok (tt, Dorder (msg_head d) (msg_tail d) (msg_buffer d) (dorder_signal d) (dorder_log d ++ [msg]) (dorder_kernel d)).

(** Calls of the rest of the kernel. *)
Definition in_kernel {A} (m : KM (kernel H) A) : KM (dorder H) A := λ d,
  match m (dorder_kernel d) with
  | Ok (a, s) => Ok (a, Dorder (msg_head d) (msg_tail d) (msg_buffer d) (dorder_signal d) (dorder_log d) s)
  | Panic => Panic
  | Fault => Fault
  | NoFuel => NoFuel
  end.

(** The waiter that is taken from the queue is left alone by the code. *)
Definition dorder_receive (msg : Z) : KM (dorder H) unit :=
  print_msg msg ;;
  if bool_decide (msg = DORDER_MSG_SIGNAL) then
    status ← in_kernel query_and_disable_interrupts;
    link ← in_kernel (list_pop dorder_wait_queue);
    in_kernel (conditionally_enable_interrupts status)
  else mret ().

(** [while (atomic_get (&msg_tail) != atomic_get (&msg_head))] *)
Fixpoint dorder_handle (fuel : nat) : KM (dorder H) unit := λ d,
  if msg_tail d =? msg_head d then Ok (tt, d)
  else
    match fuel with
    | O => NoFuel
    | S fuel =>
      (let msg_tail_index := msg_tail d mod MSG_BUF_SIZE in
       msg ← get_msg msg_tail_index;
       at_tail (atomic_add 1) ;;
       dorder_receive msg ;;
       dorder_handle fuel) d
    end.

(** The busy waiting of [dorder_send]. *)
Fixpoint dorder_send_wait (fuel : nat) : KM (dorder H) unit := λ d,
  if msg_tail d =? wrap (msg_head d + 1) then
    match fuel with O => NoFuel | S fuel => dorder_send_wait fuel d end
  else Ok (tt, d).

Definition dorder_send (fuel : nat) (cpuid msg : Z) : KM (dorder H) unit :=
  kassert (bool_decide (cpuid = 0)) ;;
  dorder_send_wait fuel ;;
  head ← at_head (atomic_post_add 1);
  set_msg (head mod MSG_BUF_SIZE) msg.

(** The loop of [dorder_wait] spins until the signal variable is zero. *)
Fixpoint dorder_wait (fuel : nat) : KM (dorder H) unit :=
  match fuel with
  | O => knofuel
  | S fuel =>
    signal ← at_signal atomic_test_and_set;
    if bool_decide (signal ≠ 0) then dorder_wait fuel else mret ()
  end.

Definition dorder_probe : KM (dorder H) Z :=
  let signal := 1 in mret (if bool_decide (signal = 0) then 1 else 0).
End code.

Section theorems.
  Context {H : Type} `{KernelHeapLaws H}.
  Context (dorder_wait_queue : Z).
  Implicit Types (d : dorder H) (ms : list Z).

(** The slot of the [i]-th message from counter [t] on. *)
Definition slot (t : Z) (i : nat) : nat := Z.to_nat ((t + Z.of_nat i) mod MSG_BUF_SIZE).

(** What the handler will read, if the counters are [n] apart. *)
Definition reads d (n : nat) : list Z := (λ i, msg_buffer d !!! slot (msg_tail d) i) <$> seq 0 n.

Definition waiters d (xs : list Z) : Prop := is_list (M := links) (k_links (dorder_kernel d)) dorder_wait_queue xs.

Definition signals ms : nat := length (filter (λ m, m = DORDER_MSG_SIGNAL) ms).

(** The ring holds the messages [ms], oldest first. *)
Definition ring d ms : Prop :=
  u32 (msg_tail d) ∧ msg_head d = wrap (msg_tail d + Z.of_nat (length ms)) ∧ length (msg_buffer d) = 128%nat ∧
  (length ms ≤ 128)%nat ∧ ∀ i m, ms !! i = Some m → msg_buffer d !! slot (msg_tail d) i = Some m.

Lemma slot_bound t i : (slot t i < 128)%nat.
Proof. unfold slot, MSG_BUF_SIZE. Z.div_mod_to_equations. lia. Qed.

Lemma slot_wrap t k i : slot (wrap (t + k)) i = slot (t + k) i.
Proof.
  unfold slot, wrap, MSG_BUF_SIZE. rewrite word_max_eq. f_equal. Z.div_mod_to_equations. lia.
Qed.

Lemma slot_S t i : slot (wrap (t + 1)) i = slot t (S i).
Proof. rewrite slot_wrap. unfold slot. do 2 f_equal. lia. Qed.

Lemma slot_inj t i j : (i < 128)%nat → (j < 128)%nat → slot t i = slot t j → i = j.
Proof. unfold slot, MSG_BUF_SIZE. intros ? ?. Z.div_mod_to_equations. lia. Qed.

Lemma in_kernel_ok {A} (m : KM (kernel H) A) a s d :
  m (dorder_kernel d) = Ok (a, s) →
  in_kernel m d = Ok (a, Dorder (msg_head d) (msg_tail d) (msg_buffer d) (dorder_signal d) (dorder_log d) s).
Proof. intros Hm. unfold in_kernel. by rewrite Hm. Qed.

(** The effect of [dorder_receive] on the queue of waiters. *)
Lemma receive_exec d msg xs :
  waiters d xs →
  ∃ s, dorder_receive dorder_wait_queue msg d =
      Ok (tt, Dorder (msg_head d) (msg_tail d) (msg_buffer d) (dorder_signal d) (dorder_log d ++ [msg]) s) ∧
    is_list (M := links) (k_links s) dorder_wait_queue (drop (signals [msg]) xs).
Proof.
  intros Hw. unfold dorder_receive, signals. erewrite bind_ok by reflexivity. rewrite filter_cons, filter_nil.
  case_bool_decide as Em; [rewrite decide_True by done|rewrite decide_False by done].
  2:{ exists (dorder_kernel d). by split. }
  set (s := dorder_kernel d). assert (Hl : is_list (ints_masked s) dorder_wait_queue xs).
  { apply is_list_status. by apply is_list_kernel. }
  erewrite bind_ok by (apply in_kernel_ok, ints_query_exec).
  assert (Hp : ∃ p l, list_pop dorder_wait_queue (ints_masked s) = Ok (p, set_k_links (λ _, l) (ints_masked s)) ∧
    is_list (M := links) l dorder_wait_queue (drop 1 xs)).
  { destruct xs as [|x xs].
    - exists NULL, (k_links s). split; [by rewrite list_pop_empty by done|]. exact Hw.
    - destruct (list_pop_spec _ _ _ _ Hl) as (s' & He & Hl' & _ & Hwr). apply writes_kernel in Hwr as (l & -> & _).
      exists x, l. split; [exact He|]. by apply is_list_kernel in Hl'. }
  destruct Hp as (p & l & He & Hl'). exists (set_k_links (λ _, l) s). split; [|exact Hl'].
  erewrite bind_ok by (apply in_kernel_ok; exact He).
  erewrite in_kernel_ok by apply status_restored. done.
Qed.

Lemma signals_cons m ms : signals (m :: ms) = (signals [m] + signals ms)%nat.
Proof. unfold signals. rewrite !filter_cons, filter_nil. by case_decide. Qed.

Lemma reads_S d n :
  reads d (S n) = msg_buffer d !!! slot (msg_tail d) 0 ::
    ((λ i, msg_buffer d !!! slot (wrap (msg_tail d + 1)) i) <$> seq 0 n).
Proof.
  unfold reads. cbn [seq fmap list_fmap]. f_equal. rewrite <- fmap_S_seq, <- list_fmap_compose.
  apply list_fmap_ext. intros i x _. cbn. by rewrite slot_S.
Qed.

(** The handler reads what is between the counters. *)
Lemma handle_exec n : ∀ d xs fuel,
  u32 (msg_tail d) → Z.of_nat n < word_max → msg_head d = wrap (msg_tail d + Z.of_nat n) →
  length (msg_buffer d) = 128%nat → waiters d xs → (n ≤ fuel)%nat →
  ∃ d', dorder_handle dorder_wait_queue fuel d = Ok (tt, d') ∧
    msg_tail d' = msg_head d ∧ msg_head d' = msg_head d ∧ msg_buffer d' = msg_buffer d ∧
    dorder_log d' = dorder_log d ++ reads d n ∧ waiters d' (drop (signals (reads d n)) xs).
Proof.
  induction n as [|n IH]; intros d xs fuel Ht Hn Hh Hb Hw Hf.
  - exists d. rewrite Z.add_0_r, wrap_small in Hh by done. rewrite app_nil_r. split_and!; try done.
    destruct fuel; cbn [dorder_handle]; by rewrite (proj2 (Z.eqb_eq _ _)).
  - destruct fuel as [|fuel]; [lia|]. cbn [dorder_handle]. rewrite (proj2 (Z.eqb_neq _ _)).
    2:{ rewrite Hh. unfold wrap, u32 in *. intros E. rewrite word_max_eq in *. Z.div_mod_to_equations. lia. }
    assert (Hget : ∃ m, msg_buffer d !! slot (msg_tail d) 0 = Some m).
    { apply lookup_lt_is_Some. rewrite Hb. apply slot_bound. }
    destruct Hget as [m Hm]. pose proof (list_lookup_total_correct _ _ _ Hm) as Hm'.
    erewrite bind_ok.
    2:{ unfold get_msg, kload. unfold slot in Hm. rewrite Z.add_0_r in Hm. rewrite Hm. reflexivity. }
    erewrite bind_ok by reflexivity.
    set (d1 := Dorder _ _ _ _ _ _).
    destruct (receive_exec d1 m xs) as (s & He & Hl); [exact Hw|]. erewrite bind_ok by exact He.
    set (d2 := Dorder _ _ _ _ _ _).
    destruct (IH d2 (drop (signals [m]) xs) fuel) as (d' & He' & H1' & H2' & H3' & H4' & H5').
    + cbn. apply wrap_range.
    + lia.
    + cbn. rewrite wrap_add_l, Hh. f_equal. lia.
    + exact Hb.
    + exact Hl.
    + lia.
    + rewrite reads_S, Hm'. exists d'. split_and!; try done.
      * rewrite H4'. cbn [dorder_log d2 d1]. by rewrite <- app_assoc.
      * rewrite signals_cons. by rewrite <- drop_drop.
Qed.

Lemma ring_reads d ms : ring d ms → reads d (length ms) = ms.
Proof.
  intros (_ & _ & _ & _ & Hm). apply list_eq. intros i. unfold reads. rewrite list_lookup_fmap.
  destruct (ms !! i) as [m|] eqn:E.
  - rewrite lookup_seq_lt by (by eapply lookup_lt_Some). cbn. f_equal. apply list_lookup_total_correct. by apply Hm.
  - apply lookup_ge_None in E. by rewrite lookup_seq_ge.
Qed.
Lemma send_exec d ms m fuel :
  ring d ms →
  dorder_send (S fuel) 0 m d = Ok (tt, Dorder (wrap (msg_head d + 1)) (msg_tail d)
    (<[slot (msg_tail d) (length ms) := m]> (msg_buffer d)) (dorder_signal d) (dorder_log d) (dorder_kernel d)).
Proof.
  intros (Ht & Hh & Hb & Hl & _). unfold dorder_send. erewrite bind_ok by reflexivity.
  assert (Hw : dorder_send_wait (S fuel) d = Ok (tt, d)).
  { cbn. rewrite (proj2 (Z.eqb_neq _ _)); [done|]. rewrite Hh, wrap_add_l. unfold wrap, u32 in *.
    rewrite word_max_eq in *. intros E. Z.div_mod_to_equations. lia. }
  erewrite bind_ok by exact Hw. erewrite bind_ok by reflexivity.
  assert (Hi : Z.to_nat (msg_head d mod MSG_BUF_SIZE) = slot (msg_tail d) (length ms)).
  { rewrite Hh. pose proof (slot_wrap (msg_tail d) (Z.of_nat (length ms)) 0) as E. unfold slot in *.
    rewrite !Z.add_0_r in E. exact E. }
  unfold set_msg. cbn [ac_ret ac_skip ac_store atomic_post_add msg_head msg_tail msg_buffer dorder_signal dorder_log dorder_kernel]. rewrite bool_decide_eq_true_2; [by rewrite Hi|]. apply Z.mod_pos_bound. done.
Qed.

Lemma ring_send d ms m v k :
  ring d ms → (length ms < 128)%nat →
  ring (Dorder (wrap (msg_head d + 1)) (msg_tail d) (<[slot (msg_tail d) (length ms) := m]> (msg_buffer d)) v (dorder_log d) k)
    (ms ++ [m]).
Proof.
  intros (Ht & Hh & Hb & Hl & Hm) Hlt. split_and!; cbn.
  - apply Ht.
  - rewrite Hh, wrap_add_l, length_app. f_equal. cbn. lia.
  - by rewrite length_insert.
  - rewrite length_app. cbn. lia.
  - intros i x Hx. destruct (decide (i = length ms)) as [->|Hne].
    + rewrite lookup_app_r, Nat.sub_diag in Hx by lia. injection Hx as <-.
      apply list_lookup_insert_eq. rewrite Hb. apply slot_bound.
    + assert (Hi : (i < length ms)%nat) by (apply lookup_lt_Some in Hx; rewrite length_app in Hx; cbn in Hx; lia).
      rewrite lookup_app_l in Hx by done. rewrite list_lookup_insert_ne; [by apply Hm|].
      intros E. apply slot_inj in E; lia.
Qed.

(** One message too many: it takes the place of the oldest. *)
Lemma reads_overrun d m0 ms m v k :
  ring d (m0 :: ms) → length ms = 127%nat →
  reads (Dorder (wrap (msg_head d + 1)) (msg_tail d) (<[slot (msg_tail d) 128 := m]> (msg_buffer d)) v (dorder_log d) k) 129 =
    m :: ms ++ [m].
Proof.
  intros (Ht & Hh & Hb & _ & Hm) Hlen.
  assert (Hs : slot (msg_tail d) 128 = slot (msg_tail d) 0).
  { unfold slot, MSG_BUF_SIZE. f_equal. Z.div_mod_to_equations. lia. }
  assert (Hat : ∀ i, (0 < i < 128)%nat → <[slot (msg_tail d) 128 := m]> (msg_buffer d) !! slot (msg_tail d) i = ms !! pred i).
  { intros i Hi. rewrite Hs, list_lookup_insert_ne by (intros E; apply slot_inj in E; lia).
    destruct i as [|i]; [lia|]. destruct (ms !! i) as [x|] eqn:E; [|apply lookup_ge_None in E; lia].
    cbn [pred]. rewrite E. by apply (Hm (S i)). }
  assert (Hend : <[slot (msg_tail d) 128 := m]> (msg_buffer d) !! slot (msg_tail d) 128 = Some m).
  { apply list_lookup_insert_eq. rewrite Hb. apply slot_bound. }
  apply list_eq. intros i. unfold reads. cbn [msg_buffer msg_tail]. rewrite list_lookup_fmap.
  destruct (decide (i < 129)%nat) as [Hi|Hi].
  2:{ rewrite lookup_seq_ge by lia. cbn. symmetry. apply lookup_ge_None. cbn. rewrite length_app. cbn. lia. }
  rewrite lookup_seq_lt by lia. cbn [fmap option_fmap option_map]. destruct i as [|i].
  { change ((m :: ms ++ [m]) !! 0%nat) with (Some m). change (0 + 0)%nat with 0%nat. rewrite <- Hs.
    f_equal. by apply list_lookup_total_correct. }
  destruct (decide (i = 127%nat)) as [->|Hne].
  - change ((m :: ms ++ [m]) !! 128%nat) with ((ms ++ [m]) !! 127%nat). rewrite lookup_app_r by lia. rewrite Hlen.
    change ([m] !! (127 - 127)%nat) with (Some m). change (0 + 128)%nat with 128%nat. f_equal. by apply list_lookup_total_correct.
  - assert (Hx : is_Some (ms !! i)) by (apply lookup_lt_is_Some; lia). destruct Hx as [x Hx].
    change ((m :: ms ++ [m]) !! S i) with ((ms ++ [m]) !! i). rewrite lookup_app_l by lia. rewrite Hx.
    f_equal. apply list_lookup_total_correct. change (0 + S i)%nat with (S i). rewrite Hat by lia. exact Hx.
Qed.

(** C30. The messages arrive in the order in which they were sent, each once, as long as at
    most 128 of them are under way, and a waiter leaves the queue for every signal; the
    129th message is not held back by [dorder_send] but takes the place of the oldest one,
    so that the handler finds it twice and the oldest never. *)
Theorem dorder_messages d ms xs fuel :
  ring d ms → waiters d xs →
  (∃ d', dorder_handle dorder_wait_queue (length ms) d = Ok (tt, d') ∧ ring d' [] ∧
     dorder_log d' = dorder_log d ++ ms ∧ waiters d' (drop (signals ms) xs)) ∧
  (∀ m, (length ms < 128)%nat →
     ∃ d', dorder_send (S fuel) 0 m d = Ok (tt, d') ∧ ring d' (ms ++ [m]) ∧ waiters d' xs ∧
       dorder_log d' = dorder_log d) ∧
  (∀ m m0 ms', ms = m0 :: ms' → length ms = 128%nat →
     ∃ d' d'', dorder_send (S fuel) 0 m d = Ok (tt, d') ∧ dorder_handle dorder_wait_queue 129 d' = Ok (tt, d'') ∧
       dorder_log d'' = dorder_log d ++ m :: ms' ++ [m]).
Proof.
  intros Hr Hw. pose proof Hr as (Ht & Hh & Hb & Hl & Hm). split_and!.
  - destruct (handle_exec (length ms) d xs (length ms)) as (d' & He & H1' & H2' & H3' & H4' & H5'); try done.
    { rewrite word_max_eq. lia. }
    rewrite (ring_reads d ms Hr) in H4', H5'. exists d'. split; [done|]. split; [|done]. unfold ring. split_and!.
    + rewrite H1', Hh. apply wrap_range.
    + rewrite H1', H2'. cbn. rewrite Z.add_0_r, wrap_small; [done|]. rewrite Hh. apply wrap_range.
    + by rewrite H3'.
    + cbn. lia.
    + done.
  - intros m Hlt. eexists. split; [by apply send_exec|]. split; [by apply ring_send|done].
  - intros m m0 ms' -> H128. injection H128 as H127.
    set (d' := Dorder (wrap (msg_head d + 1)) (msg_tail d) (<[slot (msg_tail d) 128 := m]> (msg_buffer d))
      (dorder_signal d) (dorder_log d) (dorder_kernel d)).
    destruct (handle_exec 129 d' xs 129) as (d'' & He & _ & _ & _ & Hlog & _); try done.
    + cbn [msg_head msg_tail d']. rewrite Hh, wrap_add_l. f_equal. cbn [length]. lia.
    + cbn. by rewrite length_insert.
    + exists d', d''. split_and!; [|exact He|].
      * rewrite (send_exec d (m0 :: ms') m fuel Hr). cbn [length]. by rewrite H127.
      * rewrite Hlog. unfold d'. by rewrite (reads_overrun d m0 ms' m _ _ Hr H127).
Qed.
End theorems.

(** ** Witness: a full ring, and a thread that waits for a signal *)
Definition sample_dorder : dorder (mm_state (gset Z)) :=
  Dorder 128 0 (seqZ 0 128) 1 []
    (set_k_links (λ m, <[72 := Link 12360 12360]> (<[12360 := Link 72 72]> m)) sample_kernel).

Lemma sample_ring : ring sample_dorder (seqZ 0 128).
Proof.
  unfold ring. split_and!; [done|by vm_compute|by vm_compute|by vm_compute; lia|].
  intros i m Hi. assert (Hlt : (i < 128)%nat) by (apply lookup_lt_Some in Hi; by vm_compute in Hi).
  unfold slot. cbn [msg_buffer msg_tail sample_dorder]. unfold MSG_BUF_SIZE. rewrite Z.add_0_l, Z.mod_small by lia.
  by rewrite Nat2Z.id.
Qed.

Lemma sample_waiters : waiters 72 sample_dorder [12360].
Proof.
  split; [by vm_compute|]. split; [by apply (bool_decide_unpack _)|].
  split; [by apply (bool_decide_unpack _)|]. by intros x y _ _ ?.
Qed.

Lemma dorder_messages_witness :
  (∃ d', dorder_handle 72 128 sample_dorder = Ok (tt, d') ∧ dorder_log d' = seqZ 0 128) ∧
  ∃ d' d'', dorder_send 1 0 500 sample_dorder = Ok (tt, d') ∧ dorder_handle 72 129 d' = Ok (tt, d'') ∧
    dorder_log d'' = 500 :: seqZ 1 127 ++ [500].
Proof.
  destruct (dorder_messages (H := mm_state (gset Z)) 72 sample_dorder (seqZ 0 128) [12360] 0 sample_ring sample_waiters)
    as ((d' & He & _ & Hl & _) & _ & Hover).
  split.
  - exists d'. split; [exact He|exact Hl].
  - exact (Hover 500 0 (seqZ 1 127) eq_refl eq_refl).
Defined.
