(* ===== verification/Kbd.v ===== *)
(** * The keyboard driver ([kernel/drivers/kbd.c])

    A ring of 128 characters between the interrupt handler and the readers.  The code is
    exercise code: reading the device, putting readers to sleep and waking them up are
    still to be written.  [adt/plist.h] is not part of the repository, so its functions
    are parameters. *)
From S2P Require Import Prelude CList Cpu Malloc KHeap Kernel SchedExec KernelSample.

Definition KBD_BUF_SIZE : Z := 128.
Definition EAGAIN : Z := -11.

Record kbd (H : Type) := Kbd {
  kbd_head : Z;
  kbd_tail : Z;
  kbd_buffer : list Z;
  kbd_kernel : kernel H;
}.
Arguments Kbd {H} _ _ _ _.
Arguments kbd_head {H} _.
Arguments kbd_tail {H} _.
Arguments kbd_buffer {H} _.
Arguments kbd_kernel {H} _.

Section code.
  Context {H : Type} `{KernelHeap H}.
  Context (kbd_wait_queue : Z).
  (** [adt/plist.h]. *)
  Context (plist_empty : Z → KM (kernel H) bool) (plist_pop : Z → KM (kernel H) Z).

Definition set_kbd_kernel (k : kernel H) (d : kbd H) : kbd H := Kbd (kbd_head d) (kbd_tail d) (kbd_buffer d) k.
Definition set_kbd_head (v : Z) (d : kbd H) : kbd H := Kbd v (kbd_tail d) (kbd_buffer d) (kbd_kernel d).
Definition set_kbd_tail (v : Z) (d : kbd H) : kbd H := Kbd (kbd_head d) v (kbd_buffer d) (kbd_kernel d).

Definition in_kbd_kernel {A} (m : KM (kernel H) A) : KM (kbd H) A := λ d,
  match m (kbd_kernel d) with
  | Ok (a, k) => Ok (a, set_kbd_kernel k d)
  | Panic => Panic
  | Fault => Fault
  | NoFuel => NoFuel
  end.

(** [kbd_buffer [i]]. *)
Definition get_key (i : Z) : KM (kbd H) Z :=
  kload (λ d, if bool_decide (0 ≤ i) then kbd_buffer d !! Z.to_nat i else None).
Definition set_key (i key : Z) : KM (kbd H) unit := λ d,
  if bool_decide (0 ≤ i < KBD_BUF_SIZE)
  then Ok (tt, Kbd (kbd_head d) (kbd_tail d) (<[Z.to_nat i := key]> (kbd_buffer d)) (kbd_kernel d)) else Fault.

(** The key is not read from the device yet. *)
Definition kbd_handle : KM (kbd H) unit :=
  let key := 0 in
  d ← kget;
  let head_next := wrap (kbd_head d + 1) mod KBD_BUF_SIZE in
  if bool_decide (head_next = kbd_tail d) then mret ()
  else
    set_key (kbd_head d) key ;;
    kmodify (set_kbd_head head_next) ;;
    empty ← in_kbd_kernel (plist_empty kbd_wait_queue);
    if negb empty then in_kbd_kernel (plist_pop kbd_wait_queue) ;; mret () else mret ().

(** Waiting for a character is still to be written. *)
Definition getc : KM (kbd H) Z :=
  d ← kget;
  (if bool_decide (kbd_head d = kbd_tail d) then mret () else mret ()) ;;
  chr ← get_key (kbd_tail d);
  kmodify (set_kbd_tail (wrap (kbd_tail d + 1) mod KBD_BUF_SIZE)) ;;
  mret chr.

Definition getc_try : KM (kbd H) Z :=
  let chr := EAGAIN in
  d ← kget;
  if bool_decide (kbd_head d ≠ kbd_tail d) then getc else mret chr.

(** ** The ring as a queue *)

(** The characters in the ring, the oldest first. *)
Record ring_rep (d : kbd H) (q : list Z) : Prop := RingRep {
  rr_head : 0 ≤ kbd_head d < KBD_BUF_SIZE;
  rr_tail : 0 ≤ kbd_tail d < KBD_BUF_SIZE;
  rr_size : length (kbd_buffer d) = 128%nat;
  rr_length : Z.of_nat (length q) = (kbd_head d - kbd_tail d) mod KBD_BUF_SIZE;
  rr_keys i c : q !! i = Some c → kbd_buffer d !! Z.to_nat ((kbd_tail d + Z.of_nat i) mod KBD_BUF_SIZE) = Some c;
}.

Lemma next_index i : 0 ≤ i < KBD_BUF_SIZE → wrap (i + 1) mod KBD_BUF_SIZE = (i + 1) mod KBD_BUF_SIZE.
Proof. unfold KBD_BUF_SIZE. intros Hi. by rewrite wrap_small by word_lia. Qed.

Lemma in_kbd_ok {A} (m : KM (kernel H) A) a k d :
  m (kbd_kernel d) = Ok (a, k) → in_kbd_kernel m d = Ok (a, set_kbd_kernel k d).
Proof. intros He. unfold in_kbd_kernel. by rewrite He. Qed.

Lemma get_key_ok i c d : 0 ≤ i → kbd_buffer d !! Z.to_nat i = Some c → get_key i d = Ok (c, d).
Proof. intros Hi Hc. unfold get_key, kload. rewrite bool_decide_eq_true_2 by done. by rewrite Hc. Qed.

(** Is there room for another character?  One place stays free. *)
Lemma ring_full d q :
  ring_rep d q → (kbd_head d + 1) mod KBD_BUF_SIZE = kbd_tail d ↔ length q = 127%nat.
Proof.
  intros [Hh Ht _ Hl _]. unfold KBD_BUF_SIZE in *. split; intros E.
  - assert (Z.of_nat (length q) = 127) by (rewrite Hl; Z.div_mod_to_equations; lia). lia.
  - rewrite E in Hl. Z.div_mod_to_equations. lia.
Qed.

Lemma ring_push d q c :
  ring_rep d q → length q ≠ 127%nat →
  ring_rep (Kbd ((kbd_head d + 1) mod KBD_BUF_SIZE) (kbd_tail d) (<[Z.to_nat (kbd_head d) := c]> (kbd_buffer d)) (kbd_kernel d))
    (q ++ [c]).
Proof.
  intros Hr Hn. pose proof (ring_full d q Hr) as Hfull. destruct Hr as [Hh Ht Hs Hl Hk]. unfold KBD_BUF_SIZE in *.
  assert (Hlt : Z.of_nat (length q) < 127) by (Z.div_mod_to_equations; lia).
  split; cbn [kbd_head kbd_tail kbd_buffer]; unfold KBD_BUF_SIZE.
  - apply Z.mod_pos_bound. lia.
  - done.
  - by rewrite length_insert.
  - rewrite length_app. cbn. Z.div_mod_to_equations. lia.
  - intros i x Hi. apply lookup_app_Some in Hi as [Hi|[Hge Hi]].
    + pose proof (lookup_lt_Some _ _ _ Hi) as Hb. rewrite list_lookup_insert_ne; [by apply Hk|].
      intros E. assert (kbd_head d = (kbd_tail d + Z.of_nat i) mod 128) by (Z.div_mod_to_equations; lia).
      Z.div_mod_to_equations. lia.
    + apply list_lookup_singleton_Some in Hi as [Hi <-]. assert (i = length q) as -> by lia.
      replace ((kbd_tail d + Z.of_nat (length q)) mod 128) with (kbd_head d) by (Z.div_mod_to_equations; lia).
      apply list_lookup_insert_eq. lia.
Qed.

Lemma ring_pop d c q :
  ring_rep d (c :: q) →
  kbd_head d ≠ kbd_tail d ∧ kbd_buffer d !! Z.to_nat (kbd_tail d) = Some c ∧
  ring_rep (set_kbd_tail ((kbd_tail d + 1) mod KBD_BUF_SIZE) d) q.
Proof.
  intros [Hh Ht Hs Hl Hk]. unfold KBD_BUF_SIZE in *. cbn [length] in Hl. split_and!.
  - intros E. rewrite E, Z.sub_diag in Hl. done.
  - specialize (Hk 0%nat c eq_refl). rewrite Z.add_0_r, Z.mod_small in Hk by done. exact Hk.
  - split; cbn [set_kbd_tail kbd_head kbd_tail kbd_buffer]; unfold KBD_BUF_SIZE; try done.
    + apply Z.mod_pos_bound. lia.
    + Z.div_mod_to_equations. lia.
    + intros i x Hi. specialize (Hk (S i) x Hi). rewrite Zplus_mod_idemp_l.
      by replace (kbd_tail d + 1 + Z.of_nat i) with (kbd_tail d + Z.of_nat (S i)) by lia.
Qed.

Lemma ring_empty d : ring_rep d [] → kbd_head d = kbd_tail d.
Proof. intros [Hh Ht _ Hl _]. unfold KBD_BUF_SIZE in *. cbn in Hl. Z.div_mod_to_equations. lia. Qed.

Lemma getc_exec d c q :
  ring_rep d (c :: q) → ∃ d', getc d = Ok (c, d') ∧ ring_rep d' q ∧ kbd_kernel d' = kbd_kernel d.
Proof.
  intros Hr. destruct (ring_pop d c q Hr) as (Hne & Hc & Hr'). destruct Hr as [_ Ht _ _ _].
  eexists. split; [|split; [exact Hr'|done]]. unfold getc. erewrite bind_ok by reflexivity.
  rewrite bool_decide_eq_false_2 by done. erewrite bind_ok by reflexivity.
  erewrite bind_ok by (apply get_key_ok; [lia|exact Hc]). erewrite bind_ok by reflexivity. by rewrite next_index.
Qed.

(** The wait queue answers, and gives an element if it is not empty. *)
Definition plist_answers : Prop :=
  ∀ k, ∃ b, plist_empty kbd_wait_queue k = Ok (b, k) ∧
    (b = false → ∃ item k', plist_pop kbd_wait_queue k = Ok (item, k')).

(** All that is done about readers: the first of them leaves the wait queue. *)
Definition waiter_popped (k k' : kernel H) : Prop :=
  ∃ b, plist_empty kbd_wait_queue k = Ok (b, k) ∧
    if b then k' = k else ∃ item, plist_pop kbd_wait_queue k = Ok (item, k').

Lemma kbd_handle_exec d q :
  plist_answers → ring_rep d q →
  ∃ d', kbd_handle d = Ok (tt, d') ∧
    if (length q <? 127)%nat then ring_rep d' (q ++ [0]) ∧ waiter_popped (kbd_kernel d) (kbd_kernel d') else d' = d.
Proof.
  intros Hp Hr. pose proof (ring_full d q Hr) as Hfull. unfold kbd_handle. cbv zeta. erewrite bind_ok by reflexivity.
  rewrite next_index by apply Hr. assert (Hle : (length q ≤ 127)%nat).
  { destruct Hr as [_ _ _ Hl _]. unfold KBD_BUF_SIZE in Hl. pose proof (Z.mod_pos_bound (kbd_head d - kbd_tail d) 128). lia. }
  destruct (Nat.ltb_spec (length q) 127) as [Hlt|Hge].
  - rewrite bool_decide_eq_false_2 by (intros E%Hfull; lia).
    set (d1 := Kbd ((kbd_head d + 1) mod KBD_BUF_SIZE) (kbd_tail d) (<[Z.to_nat (kbd_head d) := 0]> (kbd_buffer d)) (kbd_kernel d)).
    assert (Hr1 : ring_rep d1 (q ++ [0])) by (apply ring_push; [done|lia]).
    assert (Hset : set_key (kbd_head d) 0 d = Ok (tt, set_kbd_head (kbd_head d) d1)).
    { unfold set_key. by rewrite bool_decide_eq_true_2 by apply Hr. }
    erewrite bind_ok by exact Hset. erewrite bind_ok by reflexivity.
    change (set_kbd_head _ (set_kbd_head _ d1)) with d1.
    destruct (Hp (kbd_kernel d1)) as (b & He & Hpop).
    erewrite bind_ok by (apply in_kbd_ok; exact He).
    destruct b; cbn [negb]; [exists d1; split; [done|]; split; [by destruct Hr1|by exists true]|].
    destruct (Hpop eq_refl) as (item & k' & He'). exists (set_kbd_kernel k' d1).
    split; [by erewrite bind_ok by (apply in_kbd_ok; exact He')|]. split; [by destruct Hr1|exists false; by eauto].
  - exists d. split; [|done]. rewrite bool_decide_eq_true_2; [done|]. apply Hfull. lia.
Qed.


(** ** What is still to be written *)

(** The handler changes no thread, if removing an element from the wait queue does not: a
    reader that sleeps goes on sleeping. *)
Lemma kbd_handle_threads d q :
  plist_answers → ring_rep d q →
  (∀ k item k', plist_pop kbd_wait_queue k = Ok (item, k') → k_threads k' = k_threads k) →
  ∃ d', kbd_handle d = Ok (tt, d') ∧ k_threads (kbd_kernel d') = k_threads (kbd_kernel d).
Proof.
  intros Hp Hr Hpop. destruct (kbd_handle_exec d q Hp Hr) as (d' & He & Hd). exists d'. split; [done|].
  destruct (length q <? 127)%nat; [|by subst d']. destruct Hd as (_ & [|] & _ & Hk); [by rewrite Hk|].
  destruct Hk as [item Hk]. by eapply Hpop.
Qed.

(** [getc] does not wait for a character: it returns whatever is at its place of the
    buffer, and afterwards the ring is full of 127 characters that nobody has typed. *)
Lemma getc_does_not_wait d :
  ring_rep d [] → ∃ c d' ghosts, getc d = Ok (c, d') ∧ length ghosts = 127%nat ∧ ring_rep d' ghosts.
Proof.
  intros Hr. pose proof (ring_empty d Hr) as E. destruct Hr as [Hh Ht Hs Hl Hk]. unfold KBD_BUF_SIZE in *.
  destruct (lookup_lt_is_Some_2 (kbd_buffer d) (Z.to_nat (kbd_tail d))) as [c Hc]; [lia|].
  set (t' := (kbd_tail d + 1) mod 128).
  exists c, (set_kbd_tail t' d), ((λ i : nat, default 0 (kbd_buffer d !! Z.to_nat ((t' + Z.of_nat i) mod 128))) <$> seq 0 127).
  split_and!; [|by rewrite length_fmap, length_seq|].
  - unfold getc. erewrite bind_ok by reflexivity. rewrite bool_decide_eq_true_2 by done. erewrite bind_ok by reflexivity.
    erewrite bind_ok by (apply get_key_ok; [lia|exact Hc]). erewrite bind_ok by reflexivity. by rewrite next_index.
  - split; cbn [set_kbd_tail kbd_head kbd_tail kbd_buffer]; unfold KBD_BUF_SIZE; try done.
    + apply Z.mod_pos_bound. lia.
    + rewrite length_fmap, length_seq. unfold t'. Z.div_mod_to_equations. lia.
    + intros i x Hi. apply list_lookup_fmap_Some in Hi as (j & -> & [-> Hj]%lookup_seq). cbn [Nat.add].
      pose proof (Z.mod_pos_bound (t' + Z.of_nat i) 128 ltac:(lia)).
      destruct (lookup_lt_is_Some_2 (kbd_buffer d) (Z.to_nat ((t' + Z.of_nat i) mod 128))) as [y Hy]; [lia|].
      by rewrite Hy.
Qed.
End code.

