(* ===== verification/Process.v ===== *)
(** * Processes ([kernel/proc/process.c])

    [process_create], [process_join] and [process_stub].  In the first two the code of
    [process_stub], with which the main thread starts, is an address.  Memory that becomes a
    structure has unknown contents. *)
From S2P Require Import Prelude CList Cpu Cp0 Bytes Malloc KHeap Tlb Kernel Sched Vmm Threads Timers.
From S2P Require Import Exc Paging.

Definition USER_CODE_START : Z := 0x00001000.
Definition sizeof_process : Z := 44.
Definition sizeof_uthread : Z := 28.

(** [&process->uthread_list] and [&process->umutex_list]; both links are at 0. *)
Definition process_uthread_list (process : Z) : Z := process + 28.
Definition process_umutex_list (process : Z) : Z := process + 36.

Section code.
  Context {H : Type} `{KernelHeap H}.
  Context (runnable_list process_stub : Z).
  Context (junk_thread : thread) (junk_timer : timer) (junk_link : link_t).
  Context (junk_process : process) (junk_uthread : uthread).

(** Memory that becomes a structure, and back. *)
Definition malloc_process : KM (kernel H) Z :=
  p ← in_heap (km_malloc sizeof_process);
  if bool_decide (p ≠ NULL) then
    kmodify (set_k_processes <[p := junk_process]>) ;;
    kmodify (set_k_links (λ m, <[p := junk_link]> (<[process_uthread_list p := junk_link]>
      (<[process_umutex_list p := junk_link]> m)))) ;;
    mret p
  else mret p.

Definition free_process (p : Z) : KM (kernel H) unit :=
  kload (λ s, k_processes s !! p) ;;
  kmodify (set_k_processes (delete p)) ;;
  kmodify (set_k_links (λ m, delete p (delete (process_uthread_list p) (delete (process_umutex_list p) m)))) ;;
  in_heap (km_free p).

Definition malloc_uthread : KM (kernel H) Z :=
  u ← in_heap (km_malloc sizeof_uthread);
  if bool_decide (u ≠ NULL) then
    kmodify (set_k_uthreads <[u := junk_uthread]>) ;;
    kmodify (set_k_links <[u := junk_link]>) ;;
    mret u
  else mret u.

Definition free_uthread (u : Z) : KM (kernel H) unit :=
  kload (λ s, k_uthreads s !! u) ;;
  kmodify (set_k_uthreads (delete u)) ;;
  kmodify (set_k_links (delete u)) ;;
  in_heap (km_free u).

(** Stores to the fields. *)
Definition upd_process (f : process → process) (p : Z) : KM (kernel H) unit :=
  kload (λ s, k_processes s !! p) ≫= λ pr, kmodify (set_k_processes <[p := f pr]>).
Definition upd_uthread (f : uthread → uthread) (u : Z) : KM (kernel H) unit :=
  kload (λ s, k_uthreads s !! u) ≫= λ ut, kmodify (set_k_uthreads <[u := f ut]>).

(** The main thread, and what is undone when there is none. *)
Definition process_start (process uthread : Z) : KM (kernel H) (Z * Z) :=
  '(rc, thread) ← thread_create runnable_list junk_thread junk_timer junk_link (CUser process_stub) process TF_NEW_VMM;
  if bool_decide (rc ≠ EOK) then
    list_remove uthread ;;
    free_uthread uthread ;;
    free_process process ;;
    mret (rc, NULL)
  else
    upd_uthread (λ ut, UThread thread (ut_process ut) (ut_entry ut) (ut_data ut) (ut_user_data ut)) uthread ;;
    mret (EOK, process).

(** The fields of both structures, and the list of threads. *)
Definition process_setup (process uthread image size : Z) : KM (kernel H) unit :=
  upd_process (λ pr, Process (pr_ustack_top pr) uthread image size (pr_retval pr)) process ;;
  list_init (process_uthread_list process) ;;
  list_init (process_umutex_list process) ;;
  upd_uthread (λ ut, UThread (ut_thread ut) process USER_CODE_START NULL NULL) uthread ;;
  list_append (process_uthread_list process) uthread.

(** The return code and the new process. *)
Definition process_create (image size : Z) : KM (kernel H) (Z * Z) :=
  process ← malloc_process;
  if bool_decide (process = NULL) then mret (ENOMEM, NULL)
  else
    uthread ← malloc_uthread;
    if bool_decide (uthread = NULL) then
      free_process process ;;
      mret (ENOMEM, NULL)
    else
      process_setup process uthread image size ;;
      process_start process uthread.

Definition process_join (process : Z) : KM (kernel H) unit :=
  state ← query_and_disable_interrupts;
  uthread ← kload (λ s, pr_main_uthread <$> k_processes s !! process);
  thread ← kload (λ s, ut_thread <$> k_uthreads s !! uthread);
  conditionally_enable_interrupts state ;;
  thread_join runnable_list thread NULL.
End code.

(** ** The main thread of a process ([process_stub] of [kernel/proc/process.c])

    It maps the memory of the process, copies the image there through the TLB and leaves
    the kernel.  The registers of a thread in user space are [po_user]. *)

Definition USER_STACK_SIZE : Z := THREAD_STACK_SIZE.
Definition USER_STACK_START : Z := 0x7FFFF000 - USER_STACK_SIZE.

(** Status as [process_stub] computes it: exception level, user mode, interrupts on. *)
Definition stub_status (status : Z) : Z :=
  let status := Z.lor status CP0_STATUS_EXL_MASK in
  let status := Z.land status (wrap (Z.lnot CP0_STATUS_KSU_MASK)) in
  let status := Z.lor status CP0_STATUS_KSU_UM in
  Z.lor status CP0_STATUS_IE_MASK.

Section code.
  Context {H : Type} `{KernelHeap H}.
  Context (runnable_list : Z).
  Context (handlers : list (Z → Z → Z → Z → KM (kernel H) (option Z))) (kbd_handle sched_timer : KM (kernel H) unit).
  Context (saved : registers).

#[local] Instance stub_bytes : ByteMemory (processor H) := processor_bytes runnable_list handlers kbd_handle sched_timer saved.

Definition get_process {A} (f : process → A) (p : Z) : KM (kernel H) A := kload (λ s, f <$> k_processes s !! p).

(** [ERET] behind the moves of the arguments: the exception level is left. *)
Definition uspace_jump (user_stack data user_data : Z) : KM (processor H) unit := λ s,
  let k := po_kernel s in
  Ok (tt, Processor (set_cp0_status (Z.land (cp0_status k) (wrap (Z.lnot CP0_STATUS_EXL_MASK))) k) (po_mem s)
        (Some (UserRegisters (k_epc k) user_stack data user_data))).

(** The user stack: where it begins, or nothing. *)
Definition stub_stack (process : Z) : KM (kernel H) (Z * Z) :=
  state ← query_and_disable_interrupts;
  upd_process (λ pr, Process (ALIGN_DOWN USER_STACK_START PAGE_SIZE) (pr_main_uthread pr) (pr_image pr)
    (pr_size pr) (pr_retval pr)) process ;;
  base ← get_process pr_ustack_top process;
  conditionally_enable_interrupts state ;;
  let size := ALIGN_UP USER_STACK_SIZE PAGE_SIZE in
  vma_map base size (Z.lor VF_AT_KUSEG VF_VA_USER).

(** The last part, with the owner, Status and EPC set. *)
Definition stub_leave (process base : Z) : KM (processor H) unit :=
  on_kernel (
    uthread ← get_process pr_main_uthread process;
    thread_set_process process uthread ;;
    status ← kgets cp0_status;
    kmodify (set_cp0_status (stub_status status)) ;;
    kmodify (set_k_epc USER_CODE_START)) ;;
  uspace_jump (wrap (base + USER_STACK_SIZE)) NULL NULL.

(** The thread's return value, or nothing when it runs in user space. *)
Definition process_stub (process : Z) : KM (processor H) (option Z) :=
  size ← on_kernel (get_process pr_size process);
  '(rc, base) ← on_kernel (vma_map (ALIGN_DOWN USER_CODE_START PAGE_SIZE) (ALIGN_UP size PAGE_SIZE)
                             (Z.lor VF_AT_KUSEG VF_VA_USER));
  if bool_decide (rc ≠ EOK) then mret (Some NULL)
  else
    image ← on_kernel (get_process pr_image process);
    size ← on_kernel (get_process pr_size process);
    memcpy (S (Z.to_nat size)) base image size ;;
    '(rc, base) ← on_kernel (stub_stack process);
    if bool_decide (rc ≠ EOK) then mret (Some NULL)
    else
      stub_leave process base ;;
      mret None.

(** User mode with interrupts on: KSU is 10, the exception level is left. *)
Definition in_user_mode (status : Z) : Prop :=
  Z.land status CP0_STATUS_KSU_MASK = CP0_STATUS_KSU_UM ∧ Z.land status CP0_STATUS_EXL_MASK = 0 ∧
  Z.land status CP0_STATUS_IE_MASK = CP0_STATUS_IE_MASK.
End code.
