(* ===== verification/Typing.v ===== *)
(** * Types of the kernel's memory

    Every block of the heap that the kernel uses holds one object: a thread
    structure, a stack, a memory map, or a control structure of a process or of a
    user thread.  A kernel is well typed if its stores hold exactly the objects of the
    typing, and the pointers between them respect it. *)
From S2P Require Import Prelude CList Cpu Malloc KHeap Tlb Kernel Sched Vmm Threads SchedExec SchedSpec SchedRefine.
From S2P Require Import SchedOps VmmTheorems ThreadCreate TimerSpec Process.

Inductive otype := TThread | TStack (thread : Z) | TVmm | TProcess | TUThread.

#[export] Instance otype_eq_dec : EqDecision otype.
Proof. solve_decision. Defined.

Definition osize (ty : otype) : Z :=
  match ty with
  | TThread => sizeof_thread
  | TStack _ => THREAD_STACK_SIZE
  | TVmm => sizeof_vmm
  | TProcess => sizeof_process
  | TUThread => sizeof_uthread
  end.

(** The parts of a thread structure that links and timers are in. *)
Definition thread_link (t p : Z) : Prop := p = t ∨ p = thread_timer t ∨ p = thread_wait_queue_link t.

Lemma thread_link_range t p : thread_link t p → t ≤ p < t + sizeof_thread.
Proof. unfold thread_link, thread_timer, thread_wait_queue_link, sizeof_thread. lia. Qed.

Section typing.
  Context {H : Type} `{KernelHeapLaws H}.
  Context (runnable_list : Z).
  Implicit Types (s : kernel H) (a : sched) (live : gmap Z Z) (types : gmap Z otype).

Record typed s types live : Prop := Typed {
  ty_blocks p ty : types !! p = Some ty → ∃ n, live !! p = Some n ∧ osize ty ≤ n;
  ty_threads t : is_Some (k_threads s !! t) ↔ types !! t = Some TThread;
  ty_vmms p : is_Some (k_vmms s !! p) ↔ types !! p = Some TVmm;
  ty_processes p : is_Some (k_processes s !! p) ↔ types !! p = Some TProcess;
  ty_uthreads p : is_Some (k_uthreads s !! p) ↔ types !! p = Some TUThread;
  ty_thread t th : k_threads s !! t = Some th →
    types !! th_stack_data th = Some (TStack t) ∧ types !! th_vmm th = Some TVmm;
  ty_links t p : types !! t = Some TThread → thread_link t p → is_Some (k_links s !! p);
  ty_timer t : types !! t = Some TThread → is_Some (k_timers s !! thread_timer t);
  ty_all_links p : is_Some (k_links s !! p) → kh_static p ∨ ∃ t, types !! t = Some TThread ∧ thread_link t p;
  ty_all_timers p : is_Some (k_timers s !! p) → kh_static p ∨ ∃ t, types !! t = Some TThread ∧ p = thread_timer t;
}.

(** Well-typed objects are in memory that is in use. *)
Lemma typed_in_use s types live p ty x :
  typed s types live → types !! p = Some ty → p ≤ x < p + osize ty → in_use live x.
Proof. intros Ht Hp Hx. destruct (ty_blocks _ _ _ Ht p ty Hp) as (n & Hn & Hs). right. exists p, n. split; [done|lia]. Qed.

Lemma osize_pos ty : 0 < osize ty.
Proof. by destruct ty. Qed.

Lemma typed_objects s types live : typed s types live → objects_ok s live.
Proof.
  intros Ht. pose proof Ht as [_ T1 T2 T3 T4 _ _ _ T5 T6].
  assert (Hone : ∀ p ty, types !! p = Some ty → in_use live p).
  { intros p ty Hp. eapply typed_in_use; [done..|]. pose proof (osize_pos ty). lia. }
  split.
  - intros t Hx%T1. by eapply Hone.
  - intros p [?|(t & Hx & Hl)]%T5; [by left|]. eapply typed_in_use; [done..|]. by apply thread_link_range.
  - intros p [?|(t & Hx & ->)]%T6; [by left|]. eapply typed_in_use; [done..|]. apply thread_link_range. by right; left.
  - intros p Hx%T2. by eapply Hone.
  - intros p Hx%T3. by eapply Hone.
  - intros p Hx%T4. by eapply Hone.
Qed.

(** What typing looks at. *)
Definition same_shape s s' : Prop :=
  (∀ t, (λ th, (th_stack_data th, th_vmm th)) <$> k_threads s' !! t = (λ th, (th_stack_data th, th_vmm th)) <$> k_threads s !! t) ∧
  k_vmms s' = k_vmms s ∧ k_processes s' = k_processes s ∧ k_uthreads s' = k_uthreads s ∧
  (∀ p, is_Some (k_links s' !! p) ↔ is_Some (k_links s !! p)) ∧
  (∀ p, is_Some (k_timers s' !! p) ↔ is_Some (k_timers s !! p)).

Lemma same_shape_trans s1 s2 s3 : same_shape s1 s2 → same_shape s2 s3 → same_shape s1 s3.
Proof.
  intros (A1 & A2 & A3 & A4 & A5 & A6) (B1 & B2 & B3 & B4 & B5 & B6). split_and!; try congruence.
  - intros p. by rewrite B5.
  - intros p. by rewrite B6.
Qed.

Lemma same_shape_thread s s' t : same_shape s s' → is_Some (k_threads s' !! t) ↔ is_Some (k_threads s !! t).
Proof. intros (Hs & _). specialize (Hs t). by rewrite <- (fmap_is_Some (λ th, (th_stack_data th, th_vmm th))), Hs, fmap_is_Some. Qed.

Lemma typed_shape s s' types live : same_shape s s' → typed s types live → typed s' types live.
Proof.
  intros Hs [T1 T2 T3 T4 T5 T6 T7 T8 T9 T10]. pose proof Hs as (S1 & S2 & S3 & S4 & S5 & S6).
  split; try done; rewrite ?S2, ?S3, ?S4; try done.
  - intros t. by rewrite (same_shape_thread s s' t Hs).
  - intros t th Ht. specialize (S1 t). rewrite Ht in S1. destruct (k_threads s !! t) as [th0|] eqn:E; [|done].
    injection S1 as -> ->. by apply T6.
  - intros t p Ht Hp. apply S5. by eapply T7.
  - intros t Ht. by apply S6, T8.
  - intros p Hp%S5. by apply T9.
  - intros p Hp%S6. by apply T10.
Qed.

(** Scheduling keeps the shape. *)
Lemma frame_shape s s' a a' :
  sched_rep runnable_list s a → sched_rep runnable_list s' a' → sched_frame runnable_list s s' → same_shape s s'.
Proof.
  intros Hr Hr' (Hl & He & _ & _ & Et & Ev & Ep & Eu & Ec & _). split_and!; try done.
  - intros t. assert (Hx : (erase <$> k_threads s') !! t = (erase <$> k_threads s) !! t) by (by rewrite He).
    rewrite !lookup_fmap in Hx. destruct (k_threads s' !! t), (k_threads s !! t); try done.
    injection Hx as Hx. cbn. f_equal. congruence.
  - intros p. destruct (decide (p = run_queue runnable_list s)) as [->|Hq].
    { split; intros _; [by eapply rep_queue_mapped|]. rewrite <- (run_queue_cpu runnable_list s s' Ec).
      by eapply rep_queue_mapped. }
    destruct (k_threads s !! p) as [th|] eqn:Hp; [|by rewrite Hl].
    split; intros _; [apply (rep_thread_link runnable_list s a); eauto|].
    apply (rep_thread_link runnable_list s' a'); [done|]. apply (erase_some s s'); eauto.
  - intros p. by rewrite Et.
Qed.

(** Blocks that are not live have no type. *)
Lemma typed_fresh s types live p : typed s types live → live !! p = None → types !! p = None.
Proof.
  intros Ht Hp. destruct (types !! p) as [ty|] eqn:E; [|done]. destruct (ty_blocks _ _ _ Ht p ty E) as (n & Hn & _). congruence.
Qed.

(** ** New objects *)

(** The typing with a thread, its stack and perhaps its memory map. *)
Definition with_thread (t stk v : Z) (new : bool) types : gmap Z otype :=
  let types := if new then <[v := TVmm]> types else types in
  <[t := TThread]> (<[stk := TStack t]> types).

Section new_thread.
  Context (s s' : kernel H) (types : gmap Z otype) (live live' : gmap Z Z) (t stk v n : Z) (new : bool) (nv : vmm) (th : thread).
  Context (Ht : typed s types live).
  Context (Hsub : live ⊆ live') (Hstk : live' !! stk = Some n) (Hn : THREAD_STACK_SIZE ≤ n) (Hsn : live !! stk = None).
  Context (Hown : own_blocks live live' t stk v new).
  Context (HT : k_threads s' = <[t := th]> (k_threads s)) (Hth : th_stack_data th = stk ∧ th_vmm th = v).
  Context (HV : if new then k_vmms s' = <[v := nv]> (k_vmms s) else types !! v = Some TVmm ∧ k_vmms s' = k_vmms s).
  Context (HP : k_processes s' = k_processes s ∧ k_uthreads s' = k_uthreads s).
  Context (HL : ∀ p, is_Some (k_links s' !! p) ↔ is_Some (k_links s !! p) ∨ thread_link t p).
  Context (HM : (∀ p, p ≠ thread_timer t → k_timers s' !! p = k_timers s !! p) ∧ is_Some (k_timers s' !! thread_timer t)).

Lemma new_ne : stk ≠ t ∧ types !! t = None ∧ types !! stk = None ∧ (new = true → v ≠ t ∧ v ≠ stk ∧ types !! v = None).
Proof.
  destruct Hown as (O1 & O2 & _ & O3). split_and!; [done|by eapply typed_fresh|by eapply typed_fresh|].
  intros E. destruct (O3 E) as (? & ? & ? & _). split_and!; [done..|by eapply typed_fresh].
Qed.

Lemma with_thread_spec p ty :
  with_thread t stk v new types !! p = Some ty ↔
  p = t ∧ ty = TThread ∨ p = stk ∧ ty = TStack t ∨ (new = true ∧ p = v ∧ ty = TVmm) ∨ types !! p = Some ty.
Proof.
  destruct new_ne as (E1 & E2 & E3 & E4). clear - E1 E2 E3 E4. unfold with_thread.
  destruct (decide (p = t)) as [->|Hpt]; [rewrite lookup_insert_eq; intuition congruence|].
  rewrite (lookup_insert_ne _ t) by done.
  destruct (decide (p = stk)) as [->|Hps]; [rewrite lookup_insert_eq; intuition congruence|].
  rewrite (lookup_insert_ne _ stk) by done. destruct new; [|intuition congruence].
  destruct (E4 eq_refl) as (? & ? & ?).
  destruct (decide (p = v)) as [->|Hpv]; [rewrite lookup_insert_eq|rewrite lookup_insert_ne by done]; intuition congruence.
Qed.

Lemma typed_new_thread : typed s' (with_thread t stk v new types) live'.
Proof.
  destruct Ht as [T1 T2 T3 T4 T5 T6 T7 T8 T9 T10]. destruct new_ne as (E1 & E2 & E3 & E4).
  destruct Hown as (_ & _ & (k & Hk & Hks) & Hnew). destruct HP as [HP1 HP2], Hth as [Hth1 Hth2], HM as [HM1 HM2].
  assert (Hold : ∀ p ty, types !! p = Some ty → with_thread t stk v new types !! p = Some ty).
  { intros p ty Hp. apply with_thread_spec. tauto. }
  assert (Hty : with_thread t stk v new types !! t = Some TThread) by (apply with_thread_spec; tauto).
  assert (Hv : with_thread t stk v new types !! v = Some TVmm).
  { apply with_thread_spec. destruct new; [tauto|]. destruct HV. tauto. }
  split.
  - intros p ty [[-> ->]|[[-> ->]|[(E & -> & ->)|Hp]]]%with_thread_spec; [by exists k|by exists n| |].
    + by destruct (Hnew E) as (_ & _ & _ & Hx).
    + destruct (T1 p ty Hp) as (m & Hm & Hs). exists m. split; [by eapply lookup_weaken|done].
  - intros p. rewrite HT, lookup_insert_is_Some', T2, with_thread_spec. intuition congruence.
  - intros p. rewrite with_thread_spec. destruct new.
    + rewrite HV, lookup_insert_is_Some', T3. intuition congruence.
    + destruct HV as [_ ->]. rewrite T3. naive_solver.
  - intros p. rewrite HP1, with_thread_spec, T4. naive_solver.
  - intros p. rewrite HP2, with_thread_spec, T5. naive_solver.
  - intros u uth. rewrite HT, lookup_insert_Some. intros [[<- <-]|[_ Hu]].
    + rewrite Hth1, Hth2. split; [|done]. apply with_thread_spec. tauto.
    + destruct (T6 u uth Hu). split; by apply Hold.
  - intros u p Hu Hp. apply HL. apply with_thread_spec in Hu as [[-> _]|[[_ E]|[(_ & _ & E)|Hu]]]; [by right|done..|].
    left. by eapply T7.
  - intros u Hu. destruct (decide (thread_timer u = thread_timer t)) as [->|Hne]; [done|]. rewrite HM1 by done.
    apply with_thread_spec in Hu as [[-> _]|[[_ E]|[(_ & _ & E)|Hu]]]; [done..|by apply T8].
  - intros p [Hp|Hp]%HL; [|right; by exists t]. destruct (T9 p Hp) as [?|(u & Hu & Hl)]; [by left|right].
    exists u. split; [by apply Hold|done].
  - intros p Hp. destruct (decide (p = thread_timer t)) as [->|Hne]; [right; by exists t|]. rewrite HM1 in Hp by done.
    destruct (T10 p Hp) as [?|(u & Hu & Hl)]; [by left|right]. exists u. split; [by apply Hold|done].
Qed.
End new_thread.

Lemma typed_created s a types live owned entry data flags cur t s' :
  typed s types live → k_threads s !! sc_current a = Some cur →
  created runnable_list s a live owned entry data flags cur t s' →
  ∃ types' live', typed s' types' live' ∧ kh_rep (k_heap s') live' owned ∧ types ⊆ types' ∧ types' !! t = Some TThread.
Proof.
  intros Ht Hcur [_ _ (_ & _ & Ep & Eu) _ (live' & stk & v & n & Hsub & Hrep & _ & HT & Hstk & Hn & Hsn & HV & Hown)
    (_ & _ & _ & Htm1 & Htm2 & Hl)].
  set (new := bool_decide (Z.land flags TF_NEW_VMM = TF_NEW_VMM)) in *.
  destruct (new_ne s types live live' t stk v new Ht Hsn Hown) as (_ & E2 & E3 & E4).
  exists (with_thread t stk v new types), live'. split_and!.
  - eapply typed_new_thread; try done.
    destruct new; [apply HV|]. destruct HV as [-> HV]. split; [|exact HV]. by destruct (ty_thread _ _ _ Ht _ _ Hcur).
  - exact Hrep.
  - apply map_subseteq_spec. intros p ty Hp. eapply with_thread_spec; [done..|]. tauto.
  - apply lookup_insert_eq.
Qed.

(** ** Objects that are given back *)

(** The links of different threads are different, and none of them is static. *)
Lemma link_owner s types live owned t u p :
  typed s types live → kh_rep (k_heap s) live owned → types !! t = Some TThread → types !! u = Some TThread →
  thread_link t p → thread_link u p → t = u.
Proof.
  intros Ht Hrep Hp Hq Hlp Hlq. destruct (decide (t = u)) as [|Hne]; [done|exfalso].
  destruct (ty_blocks _ _ _ Ht _ _ Hp) as (n & Hn & Hs), (ty_blocks _ _ _ Ht _ _ Hq) as (k & Hk & Hs').
  destruct (kh_rep_apart _ _ _ t n Hrep Hn) as (_ & _ & Hap). specialize (Hap u k Hk Hne).
  apply thread_link_range in Hlp, Hlq. unfold osize in *. lia.
Qed.

Lemma link_not_static s types live owned t p :
  typed s types live → kh_rep (k_heap s) live owned → types !! t = Some TThread → thread_link t p → ¬ kh_static p.
Proof.
  intros Ht Hrep Hp Hl. destruct (ty_blocks _ _ _ Ht _ _ Hp) as (n & Hn & Hs).
  destruct (kh_rep_apart _ _ _ t n Hrep Hn) as (_ & Hst & _). apply Hst. apply thread_link_range in Hl. unfold osize in *. lia.
Qed.

(** The state without thread [t]. *)
Definition without_thread (t : Z) s : kernel H :=
  set_k_threads (delete t) (set_k_timers (delete (thread_timer t))
    (set_k_links (λ m, delete t (delete (thread_timer t) (delete (thread_wait_queue_link t) m))) s)).

Lemma without_links t s p :
  k_links (without_thread t s) !! p = if bool_decide (thread_link t p) then None else k_links s !! p.
Proof.
  cbn. unfold thread_link. case_bool_decide as E.
  - destruct (decide (p = t)) as [->|]; [by rewrite lookup_delete_eq|]. rewrite lookup_delete_ne by done.
    destruct (decide (p = thread_timer t)) as [->|]; [by rewrite lookup_delete_eq|]. rewrite lookup_delete_ne by done.
    destruct (decide (p = thread_wait_queue_link t)) as [->|]; [by rewrite lookup_delete_eq|tauto].
  - rewrite !lookup_delete_ne; [done|..]; intros <-; tauto.
Qed.

Lemma destroy_exec s t th types live owned :
  typed s types live → kh_rep (k_heap s) live owned → k_threads s !! t = Some th →
  ∃ h, thread_destroy t s = Ok (tt, without_thread t (set_k_heap h s)) ∧ cp0_status h = cp0_status s ∧
    kh_rep h (delete t (delete (th_stack_data th) live)) owned.
Proof.
  intros Ht Hrep Hth. destruct (ty_thread _ _ _ Ht t th Hth) as [Hstk _].
  assert (Htt : types !! t = Some TThread) by (apply (ty_threads _ _ _ Ht); by eexists).
  destruct (ty_blocks _ _ _ Ht _ _ Hstk) as (n & Hn & _), (ty_blocks _ _ _ Ht _ _ Htt) as (k & Hk & _).
  destruct (km_free_law (k_heap s) live owned _ n Hrep Hn) as (h1 & He1 & Hst1 & Hr1).
  destruct (km_free_law h1 _ owned t k Hr1) as (h2 & He2 & Hst2 & Hr2).
  { rewrite lookup_delete_ne; [done|]. intros E. rewrite E in Hstk. congruence. }
  exists h2. split_and!; [|cbn; congruence|done].
  unfold thread_destroy. erewrite bind_ok by (by apply get_thread_ok).
  erewrite bind_ok by (by apply in_heap_ok). unfold free_thread.
  erewrite bind_ok by (apply get_thread_ok; exact Hth). do 3 (erewrite bind_ok by reflexivity).
  by erewrite in_heap_ok by exact He2.
Qed.

Lemma typed_reaped s t th types live owned :
  typed s types live → kh_rep (k_heap s) live owned → k_threads s !! t = Some th →
  typed (without_thread t s) (delete t (delete (th_stack_data th) types)) (delete t (delete (th_stack_data th) live)).
Proof.
  intros Ht Hrep Hth. pose proof Ht as [T1 T2 T3 T4 T5 T6 T7 T8 T9 T10]. destruct (T6 t th Hth) as [Hstk _].
  assert (Htt : types !! t = Some TThread) by (apply T2; by eexists).
  set (types' := delete t _).
  assert (Hspec : ∀ p ty, types' !! p = Some ty ↔ p ≠ t ∧ p ≠ th_stack_data th ∧ types !! p = Some ty).
  { intros p ty. unfold types'. rewrite !lookup_delete_Some. naive_solver. }
  assert (Hkeep : ∀ p ty, types !! p = Some ty → ty ≠ TThread → ty ≠ TStack t → types' !! p = Some ty).
  { intros p ty Hp N1 N2. apply Hspec. split_and!; [congruence|congruence|done]. }
  assert (Hthr : ∀ u, types' !! u = Some TThread ↔ u ≠ t ∧ types !! u = Some TThread).
  { intros u. rewrite Hspec. split; [tauto|]. intros [? ?]. split_and!; [done|congruence|done]. }
  split; cbn [k_threads k_timers k_vmms k_processes k_uthreads without_thread set_k_threads set_k_timers set_k_links].
  - intros p ty (? & ? & Hp)%Hspec. rewrite !lookup_delete_ne by done. by apply T1.
  - intros u. rewrite Hthr, lookup_delete_is_Some, T2. naive_solver.
  - intros p. rewrite T3. split; [intros Hp; by apply Hkeep|by intros (_ & _ & ?)%Hspec].
  - intros p. rewrite T4. split; [intros Hp; by apply Hkeep|by intros (_ & _ & ?)%Hspec].
  - intros p. rewrite T5. split; [intros Hp; by apply Hkeep|by intros (_ & _ & ?)%Hspec].
  - intros u uth [Hne Hu]%lookup_delete_Some. destruct (T6 u uth Hu). split; apply Hkeep; try done. congruence.
  - intros u p [Hne Hu]%Hthr Hp. rewrite without_links. rewrite bool_decide_eq_false_2; [by eapply T7|].
    intros Hp'. apply Hne. by eapply (link_owner s types live owned u t p).
  - intros u [Hne Hu]%Hthr. rewrite lookup_delete_ne; [by apply T8|]. unfold thread_timer. lia.
  - intros p. rewrite without_links. case_bool_decide as E; [by intros []|]. intros Hp.
    destruct (T9 p Hp) as [?|(u & Hu & Hl)]; [by left|right]. exists u. split; [|done].
    apply Hthr. split; [|done]. by intros ->.
  - intros p Hp. destruct (decide (p = thread_timer t)) as [->|Hne].
    { rewrite lookup_delete_eq in Hp. by destruct Hp. }
    rewrite lookup_delete_ne in Hp by done. destruct (T10 p Hp) as [?|(u & Hu & ->)]; [by left|right].
    exists u. split; [|done]. apply Hthr. split; [|done]. by intros ->.
Qed.

(** The scheduler does not miss a thread that is not in the run queue. *)
Lemma reaped_rep s a t types live owned :
  sched_rep runnable_list s a → typed s types live → kh_rep (k_heap s) live owned →
  kh_static (run_queue runnable_list s) → is_Some (k_threads s !! t) → t ∉ sc_queue a → t ≠ sc_current a →
  sched_rep runnable_list (without_thread t s) (Scheduler (sc_queue a) (sc_current a) (delete t (sc_state a))).
Proof.
  intros Hr Ht Hrep Hrq Hth Hnq Hnc. pose proof Hr as ((Hnd & Hq & Hrun & Hc & Hnull) & His & Hcur & Hst & Hu & Hv & Hn).
  assert (Htt : types !! t = Some TThread) by (by apply (ty_threads _ _ _ Ht)).
  assert (Hlq : ¬ thread_link t (run_queue runnable_list s)).
  { intros Hl. by apply (link_not_static s types live owned t _ Ht Hrep Htt Hl). }
  assert (Hlu : ∀ u, is_Some (k_threads s !! u) → u ≠ t → k_links (without_thread t s) !! u = k_links s !! u).
  { intros u Hsu Hne. rewrite without_links, bool_decide_eq_false_2; [done|]. intros Hl. apply Hne.
    eapply (link_owner s types live owned u t u); try done; [by apply (ty_threads _ _ _ Ht)|by left]. }
  assert (Hin : ∀ u, u ∈ sc_queue a → u ≠ t ∧ is_Some (k_threads s !! u)).
  { intros u Hu'. split; [by intros ->|by eapply rep_queue]. }
  split_and!; cbn [sc_queue sc_current sc_state].
  - split_and!; cbn [sc_queue sc_current sc_state]; try done.
    + intros u. rewrite Hq. split; intros (st & Hs & Hrn); exists st.
      * split; [|done]. rewrite lookup_delete_ne; [done|]. intros <-. apply Hnq, Hq. eauto.
      * apply lookup_delete_Some in Hs as [_ Hs]. done.
    + intros u [_ Hs]%lookup_delete_Some. by apply Hrun.
    + by rewrite lookup_delete_ne.
    + apply lookup_delete_None. by right.
  - apply (is_list_agree (k_links s)); [|done]. intros p [->|Hp]%elem_of_cons.
    + change (run_queue runnable_list (without_thread t s)) with (run_queue runnable_list s).
      by rewrite without_links, bool_decide_eq_false_2.
    + destruct (Hin p Hp). by apply Hlu.
  - done.
  - cbn. by rewrite Hst, fmap_delete.
  - intros u Hsu Hnin. cbn in Hsu. apply lookup_delete_is_Some in Hsu as [Hne Hsu].
    apply (unlinked_lookup (k_links s)); [by apply Hlu|by apply Hu].
  - intros u uth Hu'. cbn in Hu'. apply lookup_delete_Some in Hu' as [_ Hu']. by eapply Hv.
  - change (run_queue runnable_list (without_thread t s)) with (run_queue runnable_list s).
    apply lookup_delete_None. by right.
Qed.
End typing.
