(* ===== verification/Main.v ===== *)
(** * Start-up ([kernel/main.c], [kernel/drivers/disk.c])

    The entry points of the bootstrap processor and of the application processors.
    The messages on the console are left out.  [frame_init] is a binary, hence a
    parameter; what a variable on the boot stack holds before it is assigned is one,
    too.  [cpu_ready] is shared by the processors: it is an argument and a result. *)
From S2P Require Import Prelude CList Cpu Atomic Malloc KHeap KTime Tlb Kernel Sched Vmm Threads Timers.

Section code.
  Context {H : Type} `{KernelHeap H}.
  (** The addresses of [runnable_list], [timers_list] and [example]. *)
  Context (runnable_list timers_list example : Z).
  Context (junk_thread : thread) (junk_timer : timer) (junk_link : link_t).

Definition disk_init : KM (kernel H) Z := mret EOK.
(** The other functions of the disk driver are empty, too. *)
Definition disk_get_nblocks (nblocks : Z) : KM (kernel H) Z := mret EOK.
Definition disk_read (block data : Z) : KM (kernel H) Z := mret EOK.
Definition disk_write (block data : Z) : KM (kernel H) Z := mret EOK.

(** A thread that has to be there. *)
Definition create_or_panic (entry : code) : KM (kernel H) Z :=
  '(rc, thread) ← thread_create runnable_list junk_thread junk_timer junk_link entry NULL 0;
  if bool_decide (rc ≠ EOK) then kpanic else mret thread.

(** [bsp_start] after the initialisation of the memory management. *)
Definition bsp_threads (cpu_ready : Z) : KM (kernel H) Z :=
  threads_init ;;
  scheduler_init runnable_list ;;
  rc ← timers_init runnable_list timers_list junk_thread junk_timer junk_link;
  (if bool_decide (rc ≠ EOK) then kpanic else mret ()) ;;
  disk_init ;;
  create_or_panic CIdle ;;
  thread ← create_or_panic (CUser example);
  let cpu_ready := fst (atomic_exec (atomic_add 1) cpu_ready) in
  push_frame FBoot ;;
  thread_switch thread ;;
  mret cpu_ready.

(** The loop of [ap_start]: does it go on? *)
Definition ap_wait (cpu_ready cpu : Z) : bool := cpu_ready <? cpu.

(** [ap_start] after the loop; [idle_thread] is what the variable holds before. *)
Definition ap_go (idle_thread cpu_ready : Z) : KM (kernel H) Z :=
  tlb_init ;;
  scheduler_init runnable_list ;;
  '(rc, thread) ← thread_create runnable_list junk_thread junk_timer junk_link CIdle NULL 0;
  let idle_thread := if bool_decide (rc = EOK) then thread else idle_thread in
  let cpu_ready := fst (atomic_exec (atomic_add 1) cpu_ready) in
  push_frame FBoot ;;
  thread_switch idle_thread ;;
  mret cpu_ready.

End code.

(** ** The bootstrap processor, with the heap of [malloc.c] *)
Section bsp.
  Context {F : Type} `{FrameAllocator F}.
  (** The address of [heap_list], and the addresses of the kernel image. *)
  Context (heap_list : Z) (static : Z → Prop) (runnable_list timers_list example : Z).
  Context (frame_init : KM (mm_state F) unit).
  Context (junk_thread : thread) (junk_timer : timer) (junk_link : link_t).

#[local] Instance bsp_heap : KernelHeap (mm_state F) := mm_kernel_heap heap_list static.

Definition bsp_start (cpu_ready : Z) : KM (kernel (mm_state F)) Z :=
  tlb_init ;;
  in_heap frame_init ;;
  in_heap (heap_init heap_list) ;;
  bsp_threads runnable_list timers_list example junk_thread junk_timer junk_link cpu_ready.

End bsp.
