(* ===== verification/Boot.v ===== *)
(** * Start-up: threads before there is a current thread

    While the kernel starts [current_thread] is [NULL]: [thread_create] gives every
    thread a memory map of its own, and the first [thread_switch] saves nothing.
    All threads are ready and in the run queue. *)
From S2P Require Import Prelude CList Cpu Malloc KHeap KTime Tlb TlbTheorems Kernel Sched Vmm PageTable Threads Timers.
From S2P Require Import SchedExec SchedSpec SchedRefine SchedOps VmmTheorems ThreadCreate TimerSpec Process Typing Main.

Section boot.
  Context {H : Type} `{KernelHeapLaws H}.
  Context (runnable_list : Z).
  Context (junk_thread : thread) (junk_timer : timer) (junk_link : link_t).
  Implicit Types (s : kernel H) (q : list Z) (live : gmap Z Z) (types : gmap Z otype).

(** ** The state of the scheduler *)
Record booting s q : Prop := Booting {
  bt_list : is_list (M := links) (k_links s) (run_queue runnable_list s) q;
  bt_current : k_current s !! k_cpu s = Some NULL;
  bt_threads t : t ∈ q ↔ is_Some (k_threads s !! t);
  bt_ready t th : k_threads s !! t = Some th → th_state th = THREAD_READY ∧ is_Some (k_vmms s !! th_vmm th);
  bt_queue : k_threads s !! run_queue runnable_list s = None;
}.

(** The address spaces: as many as threads, all of them empty. *)
Record fresh_spaces (n : Z) s : Prop := FreshSpaces {
  fs_asid : k_last_asid s = n;
  fs_vmms p v : k_vmms s !! p = Some v → ∃ i, v = empty_vmm i ∧ 0 ≤ i < n;
  fs_distinct : asids_ok (k_vmms s);
}.

Lemma booting_ext s s' q :
  k_links s' = k_links s → k_threads s' = k_threads s → k_current s' = k_current s →
  k_cpu s' = k_cpu s → k_vmms s ⊆ k_vmms s' → booting s q → booting s' q.
Proof.
  intros E1 E2 E3 E4 E5 [B1 B2 B3 B4 B5].
  split; rewrite ?E1, ?E2, ?E3, ?E4, ?(run_queue_cpu runnable_list s s' E4); try done.
  intros t th Ht. destruct (B4 t th Ht) as [? [v Hv]]. split; [done|]. exists v. by eapply lookup_weaken.
Qed.

(** A thread structure in fresh memory, set up and entered into the run queue. *)
Lemma boot_enter s q p th tm entry data :
  booting s q → 0 < p → k_threads s !! p = None → k_links s !! p = None →
  k_links s !! thread_timer p = None → k_links s !! thread_wait_queue_link p = None →
  is_Some (k_vmms s !! th_vmm th) →
  ∃ l, (thread_setup p entry data ;; sched_insert runnable_list p)
      (creating p th tm (raw_links junk_link p s) s) = Ok (tt, creating p (started p entry data th) tm l s) ∧
    booting (creating p (started p entry data th) tm l s) (q ++ [p]) ∧
    (∀ x, x ≠ run_queue runnable_list s → x ∉ q → x ≠ p → l !! x = started_links p (raw_links junk_link p s) !! x) ∧
    ∀ x, is_Some (l !! x) ↔ is_Some (k_links s !! x) ∨ thread_link p x.
Proof.
  intros Hb Hp Hpt Hp1 Hp2 Hp3 Hv. pose proof Hb as [B1 B2 B3 B4 B5].
  assert (Hmap : ∀ x, x ∈ run_queue runnable_list s :: q → is_Some (k_links s !! x)).
  { intros x Hx. destruct (is_list_mapped _ _ _ x B1 Hx) as [Hm _]. by apply fmap_is_Some in Hm. }
  set (l0 := started_links p (raw_links junk_link p s)).
  assert (Hold : ∀ x, is_Some (k_links s !! x) → l0 !! x = k_links s !! x).
  { intros x Hx. unfold l0, started_links, raw_links.
    rewrite !lookup_insert_ne; [done|..]; intros <-;
      (rewrite Hp1 in Hx || rewrite Hp2 in Hx || rewrite Hp3 in Hx); by destruct Hx. }
  assert (Hne : Forall (λ y, p ≠ y) (run_queue runnable_list s :: q)).
  { apply Forall_forall. intros y Hy <-. destruct (Hmap p Hy). congruence. }
  set (s0 := creating p (started p entry data th) tm l0 s).
  assert (Hr0 : is_list (M := links) l0 (run_queue runnable_list s) q).
  { apply (is_list_agree (k_links s)); [|done]. intros x Hx. by apply Hold, Hmap. }
  assert (Hm0 : mapped (M := links) l0 p).
  { unfold mapped, l0, started_links. cbn.
    rewrite lookup_insert_ne, lookup_insert_eq by (unfold thread_wait_queue_link; lia). split; by eexists. }
  destruct (sched_insert_exec runnable_list s0 q p) as (l & He & Hl & Hw);
    [by apply is_list_kernel|unfold NULL; lia|exact Hm0|exact Hne|].
  assert (Hlx : ∀ x, x ≠ run_queue runnable_list s → x ∉ q → x ≠ p → l !! x = l0 !! x).
  { intros x Hx1 Hx2 Hx3. change l0 with (k_links s0). apply (writes_links _ _ _ x Hw). rewrite !elem_of_cons. tauto. }
  assert (Hin : ∀ x, x ∈ run_queue runnable_list s :: q ++ [p] → is_Some (l !! x)).
  { intros x Hx. destruct (is_list_mapped _ _ _ x Hl Hx) as [Hm _]. by apply fmap_is_Some in Hm. }
  exists l. split_and!; [..|exact Hlx|].
  - erewrite bind_ok; [exact He|]. unfold raw_links.
    apply setup_exec; [done|by rewrite lookup_insert_eq; eexists|].
    rewrite !lookup_insert_ne, lookup_insert_eq by (unfold thread_wait_queue_link, thread_timer; lia). by eexists.
  - split; cbn -[run_queue].
    + exact Hl.
    + done.
    + intros t. rewrite elem_of_app, list_elem_of_singleton, B3, lookup_insert_is_Some'. naive_solver.
    + intros t uth. rewrite lookup_insert_Some. intros [[<- <-]|[_ Ht]]; [done|by eapply B4].
    + apply Forall_cons in Hne as [Hne _]. by rewrite lookup_insert_ne.
  - apply (started_domain junk_link (λ x, x ∈ run_queue runnable_list s :: q)).
    + intros x Hx. split; [by apply Hmap|]. apply Hin. set_solver.
    + apply Hin. set_solver.
    + intros x Hx Hxp. apply not_elem_of_cons in Hx as [Hx1 Hx2]. by apply Hlx.
Qed.

(** The part of the state that creating a thread leaves alone. *)
Definition boot_same s s' : Prop :=
  k_processes s' = k_processes s ∧ k_uthreads s' = k_uthreads s ∧
  k_current s' = k_current s ∧ k_cpu s' = k_cpu s ∧ k_jiffies s' = k_jiffies s ∧ k_count s' = k_count s ∧
  k_compare s' = k_compare s ∧ k_epc s' = k_epc s ∧ k_tlb s' = k_tlb s ∧
  k_timer_thread s' = k_timer_thread s ∧ k_stack s' = k_stack s ∧ k_ret s' = k_ret s ∧ k_out s' = k_out s ∧
  cp0_status s' = cp0_status s.

(** What a successful [thread_create] leaves behind: thread [t] with map [v]. *)
Record boot_created s q live owned (entry : code) (data t : Z) s' : Prop := BootCreated {
  bc_new : t ≠ NULL ∧ k_threads s !! t = None ∧ k_links s !! t = None;
  bc_booting : booting s' (q ++ [t]);
  bc_same : boot_same s s';
  bc_links x : is_Some (k_links s !! x) → x ∉ run_queue runnable_list s :: q → k_links s' !! x = k_links s !! x;
  bc_memory : ∃ live' stk v, live ⊆ live' ∧ kh_rep (k_heap s') live' owned ∧ objects_ok s' live' ∧
    k_threads s' = <[t := Thread THREAD_STACK_SIZE stk entry data NULL
      (Context [FStub t] (Z.lor CP0_STATUS_IE_MASK CP0_STATUS_IM_MASK)) THREAD_READY 0 NULL v NULL NULL]> (k_threads s) ∧
    k_vmms s !! v = None ∧ k_vmms s' = <[v := empty_vmm (k_last_asid s)]> (k_vmms s) ∧
    k_last_asid s' = (k_last_asid s + 1) mod 256 ∧
    ∀ types, typed s types live → ∃ types', typed s' types' live';
  bc_granted : granted (thread_requests true) (k_heap s) (k_heap s');
}.

Lemma boot_objects s q live : booting s q → objects_ok s live → is_Some (k_links s !! run_queue runnable_list s).
Proof.
  intros [Hl _ _ _ _] _. destruct (is_list_mapped _ _ _ (run_queue runnable_list s) Hl) as [Hm _]; [left|].
  by apply fmap_is_Some in Hm.
Qed.

(** [thread_create] once all memory has been found. *)
Lemma boot_finish s q live owned p n stk n' v nv h th tm entry data :
  booting s q → objects_ok s live → cp0_status h = cp0_status (ints_masked s) →
  fresh_payload live p n → sizeof_thread ≤ n → fresh_payload (<[p := n]> live) stk n' → THREAD_STACK_SIZE ≤ n' →
  sizeof_vmm ≤ nv → fresh_payload (<[stk := n']> (<[p := n]> live)) v nv →
  kh_rep h (<[v := nv]> (<[stk := n']> (<[p := n]> live))) owned →
  th_stack_size th = THREAD_STACK_SIZE → th_stack_data th = stk → granted (thread_requests true) (k_heap s) h →
  ∃ s', (conditionally_enable_interrupts (Z.land (cp0_status s) CP0_STATUS_IE_MASK) ;;
      thread_setup p entry data ;; sched_insert runnable_list p ;; mret (EOK, p))
      (creating p (set_th_vmm v th) tm (raw_links junk_link p s) (with_new_vmm v (set_k_heap h s))) = Ok ((EOK, p), s') ∧
    boot_created s q live owned entry data p s'.
Proof.
  intros Hb Hok Hst Hf Hn Hf' Hn' Hnv Hfv Hrep Esz Edt Hg.
  set (live' := <[v := nv]> _) in *. set (s2 := set_cp0_status (cp0_status s) (with_new_vmm v (set_k_heap h s))).
  assert (Hsub : live ⊆ live') by (unfold live'; repeat (etrans; [|by apply fresh_sub]); done).
  assert (Hlp : live' !! p = Some n).
  { do 2 (eapply lookup_weaken; [|by apply fresh_sub]). apply lookup_insert_eq. }
  assert (Hvn : k_vmms s !! v = None).
  { apply eq_None_not_Some. intros Hs. apply (fresh_not_in_use _ v nv v Hfv); [unfold sizeof_vmm in Hnv; lia|].
    eapply in_use_sub; [|by apply (oo_vmms _ _ Hok)]. by do 2 (etrans; [|by apply fresh_sub]). }
  destruct (thread_parts p n (λ x, k_threads s !! x = None ∧ k_links s !! x = None)) as ([Ht1 Hl1] & [_ Hl2] & [_ Hl3]);
    [done|intros x Hx; destruct (fresh_objects s live p n x) as (? & ? & _); done|].
  assert (Hp0 : 0 < p) by apply Hf.
  assert (Hb2 : booting s2 q) by (apply (booting_ext s); try done; by apply insert_subseteq).
  destruct (boot_enter s2 q p (set_th_vmm v th) tm entry data Hb2 Hp0) as (l & He & Hb' & Hl & Hdom);
    try done; [eexists; apply lookup_insert_eq|].
  eexists. split; [|split].
  - erewrite bind_ok by (apply (ints_restore s); exact Hst).
    change (raw_links junk_link p s) with (raw_links junk_link p s2).
    rewrite <- bind_assoc. by erewrite bind_ok by exact He.
  - split; [unfold NULL; lia|by split].
  - exact Hb'.
  - split_and!; try done. apply cp0_status_set.
  - intros x Hx Hnin. apply not_elem_of_cons in Hnin as [Hnq Hnin].
    assert (Hxp : x ≠ p) by (intros ->; rewrite Hl1 in Hx; by destruct Hx).
    cbn. rewrite Hl by done. unfold started_links, raw_links. cbn.
    rewrite !lookup_insert_ne; [done|..]; intros <-; (rewrite Hl1 in Hx || rewrite Hl2 in Hx || rewrite Hl3 in Hx);
      by destruct Hx.
  - exists live', stk, v. split_and!; try done.
    + by apply kh_rep_status.
    + apply (created_objects runnable_list junk_link s s2 p n _ _ _ live live'); try done.
      * by eapply boot_objects.
      * intros x. cbn. intros [<-|[_ Hx]]%lookup_insert_is_Some.
        -- apply in_use_new. unfold sizeof_vmm in Hnv. lia.
        -- eapply in_use_sub; [exact Hsub|]. by apply (oo_vmms _ _ Hok).
      * intros x. by apply in_use_sub.
      * intros x Hxq Hxp Hxt. apply Hl; [done| |done]. rewrite (bt_threads _ _ Hb). rewrite Hxt. by intros [].
    + cbn. by rewrite <- Edt, <- Esz.
    + intros types Hty. exists (with_thread p stk v true types).
      eapply (typed_new_thread s _ types live live' p stk v n' true (empty_vmm (k_last_asid s))); try done.
      * unfold live'. rewrite lookup_insert_ne, lookup_insert_eq; [done|]. intros ->.
        pose proof (fresh_live _ _ _ Hfv) as E. by rewrite lookup_insert_eq in E.
      * by eapply allocated_stack.
      * by eapply allocated_own.
      * cbn. split; [|by eexists; apply lookup_insert_eq]. intros x Hx. by rewrite lookup_insert_ne.
  - by apply granted_status.
Qed.

(** [thread_create] while there is no current thread. *)
Lemma boot_create s q live owned entry data :
  booting s q → kh_rep (k_heap s) live owned → objects_ok s live →
  ∃ rc t s', thread_create runnable_list junk_thread junk_timer junk_link entry data 0 s = Ok ((rc, t), s') ∧
    (rc = ENOMEM ∧ refused (thread_requests true) (k_heap s) ∨
     rc = EOK ∧ boot_created s q live owned entry data t s').
Proof.
  intros Hb Hrep Hok.
  destruct (create_stack_exec runnable_list junk_thread junk_timer junk_link entry data 0 s live owned Hrep Hok)
    as [(h & He & _ & _ & Hrf)|(p & n & stk & n' & h & He & Hf & Hn & Hf' & Hn' & Hst & Hr1 & Hg)].
  { exists ENOMEM, NULL, (set_k_heap h s). split; [done|left; split; [done|]]. by apply (refused_app_l (thread_requests false)). }
  rewrite He. set (th := set_th_stack_data stk _). unfold thread_create_vmm. kexec_step.
  set (s1 := ints_masked (set_k_heap h s)).
  change (ints_masked (creating p th junk_timer ?l (set_k_heap h s))) with (creating p th junk_timer l s1).
  change (cp0_status (creating p th junk_timer ?l (set_k_heap h s))) with (cp0_status h). rewrite Hst.
  erewrite bind_ok by (apply get_current_ok; apply Hb).
  assert (Hrep1 : kh_rep (k_heap s1) (<[stk := n']> (<[p := n]> live)) owned) by (by apply kh_rep_status).
  assert (Hg1 : granted (thread_requests false) (k_heap s) (k_heap s1)) by (by apply granted_status).
  destruct (choose_new_vmm_exec 0 NULL p th junk_timer (raw_links junk_link p s) s1 _ owned Hrep1)
    as (h2 & Hst2 & [(He2 & Hr2 & Hrf2)|(v & nv & He2 & Hnv & Hfv & Hr2 & Hg2)]); [by left|..];
    erewrite bind_ok by exact He2.
  - destruct (undo_exec junk_link p n stk n' th junk_timer (set_k_heap h2 s1) live owned) as (h3 & He3 & _);
      try done; [by destruct Hok; split|].
    exists ENOMEM, NULL, (set_k_heap h3 (set_k_heap h2 s1)). split; [exact He3|left; split; [done|]].
    exact (refused_app_r (thread_requests false) [_] _ _ Hg1 Hrf2).
  - destruct (boot_finish s q live owned p n stk n' v nv h2 th junk_timer entry data Hb Hok) as (s' & He3 & Hc); try done.
    { rewrite Hst2. unfold s1, ints_masked. cbn. by rewrite !cp0_status_set, Hst. }
    { exact (granted_app (thread_requests false) [_] _ _ _ Hg1 Hg2). }
    exists EOK, p, s'. split; [|by right]. rewrite bool_decide_eq_false_2 by (by intros E). exact He3.
Qed.

(** The new address space is empty and has a number of its own. *)
Lemma created_spaces s q live owned entry data t s' n :
  boot_created s q live owned entry data t s' → fresh_spaces n s → 0 ≤ n < 255 → fresh_spaces (n + 1) s'.
Proof.
  intros [_ _ _ _ (live' & stk & v & _ & _ & _ & _ & Hv & Hvs & Hla & _) _] [F1 F2 F3] Hn. split.
  - rewrite Hla, F1. apply Z.mod_small. lia.
  - intros p w. rewrite Hvs. intros [[_ <-]|[_ Hw]]%lookup_insert_Some.
    + exists (k_last_asid s). split; [done|lia].
    + destruct (F2 p w Hw) as (i & -> & Hi). exists i. split; [done|lia].
  - rewrite Hvs, F1. intros x y w1 w2 Hx Hy Heq.
    apply lookup_insert_Some in Hx as [[<- <-]|[Hx0 Hx]], Hy as [[<- <-]|[Hy0 Hy]]; [done|..].
    + destruct (F2 _ _ Hy) as (i & -> & Hi). cbn in Heq. lia.
    + destruct (F2 _ _ Hx) as (i & -> & Hi). cbn in Heq. lia.
    + by eapply F3.
Qed.

(** ** The first switch *)

(** Nothing is saved, and the context of [new] is loaded. *)
Definition first_state (new : Z) (thn : thread) (asid : Z) s : kernel H :=
  set_k_heap (set_cp0_status (cx_status (th_stack_top thn)) (k_heap s))
    (set_k_stack (cx_frames (th_stack_top thn))
      (set_k_tlb (with_asid asid (k_tlb s))
        (set_k_threads <[new := set_th_state THREAD_RUNNING thn]>
          (set_k_current <[k_cpu s := new]> s)))).

Lemma first_switch_exec s new thn v :
  k_current s !! k_cpu s = Some NULL → k_threads s !! new = Some thn → k_vmms s !! th_vmm thn = Some v →
  thread_switch new s = Ok (tt, first_state new thn (vmm_asid v) s).
Proof.
  intros Hcur Hn Hv. unfold thread_switch. kexec_step. kexec_step.
  rewrite bool_decide_eq_false_2 by (by intros []). do 2 (erewrite bind_ok by reflexivity).
  erewrite bind_ok by (by apply upd_thread_ok).
  erewrite bind_ok by (apply get_thread_ok, lookup_insert_eq).
  erewrite bind_ok by (apply get_vmm_ok; exact Hv). erewrite bind_ok by reflexivity.
  unfold cpu_switch_context. do 2 (erewrite bind_ok by reflexivity).
  rewrite bool_decide_eq_false_2 by (by intros []). unfold disable_interrupts.
  do 4 (erewrite bind_ok by reflexivity).
  erewrite bind_ok by (apply get_thread_ok, lookup_insert_eq).
  erewrite bind_ok by reflexivity. unfold kmodify. do 2 f_equal. apply kernel_ext; try reflexivity.
  cbn. by rewrite !set_cp0_status_set.
Qed.

Lemma first_switch_rep s q new thn asid :
  booting s q → k_threads s !! new = Some thn →
  let a := Scheduler q new (<[new := THREAD_RUNNING]> (th_state <$> k_threads s)) in
  sched_rep runnable_list (first_state new thn asid s) a ∧ running a.
Proof.
  intros [B1 B2 B3 B4 B5] Hn a. pose proof B1 as [_ (Hnd%NoDup_cons & Hnull & _)]. destruct Hnd as [_ Hnd].
  assert (Hst : ∀ t, is_Some (k_threads s !! t) ↔ ∃ st, sc_state a !! t = Some st ∧ runnable st).
  { intros t. cbn. destruct (decide (t = new)) as [->|Hne].
    - rewrite lookup_insert_eq. split; intros _; [|by eexists]. exists THREAD_RUNNING. split; [done|]. by right.
    - rewrite lookup_insert_ne, lookup_fmap by done. split; [|by intros (st & [th [-> _]]%fmap_Some & _); eexists].
      intros [th Ht]. destruct (B4 t th Ht) as [Er _]. rewrite Ht. exists THREAD_READY. split; [by rewrite <- Er|]. by left. }
  assert (Hok : sched_ok a).
  { split_and!; cbn [sc_queue sc_current sc_state a].
    - done.
    - intros t. by rewrite B3, Hst.
    - intros t. destruct (decide (t = new)) as [->|Hne]; [done|]. rewrite lookup_insert_ne, lookup_fmap by done.
      intros [th [Ht Er]]%fmap_Some. by destruct (B4 t th Ht) as [Er' _]; rewrite Er' in Er.
    - rewrite lookup_insert_eq. by eexists.
    - assert (Hn0 : k_threads s !! NULL = None).
      { apply eq_None_not_Some. intros Hx%B3. rewrite Forall_cons, Forall_forall in Hnull. by destruct Hnull as [_ Hx']; apply (Hx' NULL). }
      rewrite lookup_insert_ne by (intros ->; congruence). by rewrite lookup_fmap, Hn0. }
  split; [|apply lookup_insert_eq]. split_and!; try done; cbn -[run_queue].
  - apply lookup_insert_eq.
  - by rewrite fmap_insert.
  - intros t. rewrite lookup_insert_is_Some'. intros Ht Hnin. destruct Hnin. apply B3.
    destruct Ht as [<-|?]; [by eexists|done].
  - intros t th. rewrite lookup_insert_Some. intros [[<- <-]|[_ Ht]]; [by apply (B4 new thn Hn)|by eapply B4].
  - change (run_queue runnable_list (first_state new thn asid s)) with (run_queue runnable_list s).
    rewrite lookup_insert_ne; [done|]. intros ->. congruence.
Qed.

(** The translations of empty address spaces: there are none. *)
Lemma fresh_coherent n s t : fresh_spaces n s → tlb_coherent (λ _ _, None) t → tlb_coherent (spaces (k_vmms s)) t.
Proof. intros _ Hc. eapply coherent_extends; [exact Hc|]. done. Qed.

Lemma empty_vmas asid : vmas_ok (vmm_vma (empty_vmm asid)).
Proof.
  unfold empty_vmm. cbn [vmm_vma]. split.
  - apply Forall_replicate. done.
  - by intros i j v w vpn [-> _]%lookup_replicate _ [? _].
Qed.

Lemma fresh_memory n s :
  fresh_spaces n s → tlb_wf (k_tlb s) → random_ok (k_tlb s) → tlb_coherent (λ _ _, None) (k_tlb s) → memory_ok s.
Proof.
  intros Hf Hwf Hr Hc. split; try done.
  - by eapply fresh_coherent.
  - apply Hf.
  - intros p v Hp. destruct (fs_vmms _ _ Hf p v Hp) as (i & -> & _). apply empty_vmas.
Qed.

(** ** The initialisation of the scheduler *)
Fixpoint null_currents (count : nat) (i : Z) (m : gmap Z Z) : gmap Z Z :=
  match count with O => m | S count => null_currents count (i + 1) (<[i := NULL]> m) end.

Lemma threads_init_loop_exec count i s :
  threads_init_loop count i s = Ok (tt, set_k_current (null_currents count i) s).
Proof.
  revert i s. induction count as [|count IH]; intros i s; cbn [threads_init_loop null_currents].
  - by destruct s.
  - erewrite bind_ok by reflexivity. by rewrite IH.
Qed.

Lemma null_currents_lookup count i m j :
  i ≤ j < i + Z.of_nat count ∨ m !! j = Some NULL → null_currents count i m !! j = Some NULL.
Proof.
  revert i m. induction count as [|count IH]; intros i m Hj; cbn [null_currents].
  - destruct Hj as [?|?]; [lia|done].
  - apply IH. destruct (decide (j = i)) as [->|Hne]; [right; apply lookup_insert_eq|].
    rewrite lookup_insert_ne by done. destruct Hj; [left; lia|by right].
Qed.

(** The kernel before [bsp_threads]: the memory management works, and nothing else is
    there but the static variables. *)
Record reset (timers_list : Z) s : Prop := Reset {
  rs_stores : k_threads s = ∅ ∧ k_timers s = ∅ ∧ k_vmms s = ∅ ∧ k_processes s = ∅ ∧ k_uthreads s = ∅;
  rs_cpu : 0 ≤ k_cpu s < MAX_CPU;
  rs_asid : k_last_asid s = 0;
  rs_heads : let h := run_queue runnable_list s in
    h ≠ NULL ∧ timers_list ≠ NULL ∧ h ≠ timers_list ∧
    mapped (M := links) (k_links s) h ∧ mapped (M := links) (k_links s) timers_list;
  rs_static p : is_Some (k_links s !! p) → kh_static p;
}.

Lemma writes_mapped (P : Z → Prop) (l l' : links) p : writes P l l' → is_Some (l' !! p) → is_Some (l !! p).
Proof.
  induction 1 as [l|l l' q v Hw IH Hq|l l' q v Hw IH Hq]; [done|..]; cbn; intros Hs; apply IH;
    destruct (decide (q = p)) as [->|];
    (rewrite lookup_alter_eq, fmap_is_Some in Hs || rewrite lookup_alter_ne in Hs by done); done.
Qed.

(** Nothing has a type yet. *)
Lemma reset_typed timers_list s (l : links) live :
  reset timers_list s → (∀ p, is_Some (l !! p) → is_Some (k_links s !! p)) → typed (set_k_links (λ _, l) s) ∅ live.
Proof.
  intros [(HT & HM & HV & HP & HU) _ _ _ Hst] Hl. split; cbn; rewrite ?HT, ?HM, ?HV, ?HP, ?HU;
    try (intros ?; rewrite !lookup_empty); try done; try (by intros p []); try (by split; [intros []|]).
  intros p Hp. left. by apply Hst, Hl.
Qed.

(** After the initialisation of the scheduler there are no threads, and the list of
    timers is still untouched. *)
Lemma sched_init_exec timers_list s :
  reset timers_list s →
  ∃ s', (threads_init ;; scheduler_init runnable_list) s = Ok (tt, s') ∧ booting s' [] ∧
    k_heap s' = k_heap s ∧ k_tlb s' = k_tlb s ∧ k_stack s' = k_stack s ∧ reset timers_list s'.
Proof.
  intros [Hs Hcpu Has Hheads Hst]. destruct Hheads as (Hh0 & Ht0 & Hne & Hmh & Hmt).
  set (s1 := set_k_current (null_currents (Z.to_nat MAX_CPU) 0) s).
  destruct (list_init_spec s1 (run_queue runnable_list s)) as (s2 & He & Hl & Hw); [done|exact Hmh|].
  apply writes_kernel in Hw as (l & -> & Hw). apply is_list_kernel in Hl.
  change (k_links s1) with (k_links s) in Hw.
  eexists. split.
  - unfold threads_init. erewrite bind_ok by apply threads_init_loop_exec. unfold scheduler_init.
    erewrite bind_ok by reflexivity. erewrite bind_ok by exact He. reflexivity.
  - destruct Hs as (Hs & ?). split_and!; try done; [split|split; try done]; cbn -[run_queue].
    + exact Hl.
    + apply null_currents_lookup. left. unfold MAX_CPU in *. lia.
    + intros t. rewrite Hs, lookup_empty. split; [by intros ?%elem_of_nil|by intros []].
    + intros t th. by rewrite Hs.
    + by rewrite Hs.
    + split_and!; try done; change (run_queue runnable_list _) with (run_queue runnable_list s).
      * destruct (is_list_mapped _ _ _ (run_queue runnable_list s) Hl) as [? ?]; [left|]. done.
      * unfold mapped. cbn. by rewrite (writes_links _ _ _ timers_list Hw).
    + intros p Hp. apply Hst. by eapply writes_mapped.
Qed.

(** ** The threads of the kernel, one after the other *)

(** Thread [t] is going to start in [entry]. *)
Definition newborn s (t : Z) (entry : code) : Prop :=
  ∃ th, k_threads s !! t = Some th ∧ th_entry_func th = entry ∧ th_entry_data th = NULL ∧ th_joiner th = NULL ∧
    th_stack_top th = Context [FStub t] (Z.lor CP0_STATUS_IE_MASK CP0_STATUS_IM_MASK).

Record boot_inv (timers_list : Z) (es : list (Z * code)) live owned s : Prop := BootInv {
  bi_booting : booting s es.*1;
  bi_timers : is_list (M := links) (k_links s) timers_list [] ∧ k_threads s !! timers_list = None ∧
    timers_list ≠ run_queue runnable_list s;
  bi_heap : kh_rep (k_heap s) live owned;
  bi_objects : objects_ok s live;
  bi_spaces : fresh_spaces (Z.of_nat (length es)) s;
  bi_threads t e : (t, e) ∈ es → newborn s t e;
  bi_types : ∃ types, typed s types live;
  bi_static : kh_static (run_queue runnable_list s) ∧ kh_static timers_list;
}.

Lemma boot_step timers_list es live owned s entry :
  boot_inv timers_list es live owned s → (length es < 255)%nat →
  ∃ rc t s', thread_create runnable_list junk_thread junk_timer junk_link entry NULL 0 s = Ok ((rc, t), s') ∧
    (rc = ENOMEM ∧ refused (thread_requests true) (k_heap s) ∨
     rc = EOK ∧ boot_same s s' ∧ granted (thread_requests true) (k_heap s) (k_heap s') ∧
       ∃ live', boot_inv timers_list (es ++ [(t, entry)]) live' owned s').
Proof.
  intros [Hb (Hti & Htt & Htq) Hrep Hok Hsp Hth [types Hty] Hstat] Hlen.
  destruct (boot_create s _ live owned entry NULL Hb Hrep Hok) as (rc & t & s' & He & Hres).
  exists rc, t, s'. split; [done|]. destruct Hres as [?|[-> Hc]]; [by left|right]. split; [done|].
  pose proof (created_spaces _ _ _ _ _ _ _ _ _ Hc Hsp ltac:(lia)) as Hsp'.
  destruct Hc as [(Ht0 & Htn & Htl) Hb' Hsame Hlinks (live' & stk & v & Hsub & Hrep' & Hok' & HT & Hv & HV & _ & Hty') Hg].
  split; [exact Hsame|]. split; [exact Hg|]. exists live'.
  assert (Hm : is_Some (k_links s !! timers_list)).
  { destruct (is_list_mapped _ _ _ timers_list Hti) as [Hm _]; [left|]. by apply fmap_is_Some in Hm. }
  assert (Hne : t ≠ timers_list) by (intros ->; rewrite Htl in Hm; by destruct Hm).
  split; try done.
  - by rewrite fmap_app.
  - split_and!.
    + apply (is_list_agree (k_links s)); [|done]. intros x ->%list_elem_of_singleton. apply Hlinks; [done|].
      intros [?|Hx%(bt_threads _ _ Hb)]%elem_of_cons; [done|]. rewrite Htt in Hx. by destruct Hx.
    + by rewrite HT, lookup_insert_ne.
    + rewrite (run_queue_cpu runnable_list s s'); [done|apply Hsame].
  - rewrite length_app. cbn. by replace (Z.of_nat (length es + 1)) with (Z.of_nat (length es) + 1) by lia.
  - intros u e [Hu|Hu%list_elem_of_singleton]%elem_of_app.
    + destruct (Hth u e Hu) as (th & Hu' & Hrest). exists th.
      by rewrite HT, lookup_insert_ne by (intros ->; congruence).
    + injection Hu as -> ->. unfold newborn. rewrite HT, lookup_insert_eq. by eexists.
  - by eapply Hty'.
  - rewrite (run_queue_cpu runnable_list s s'); [done|apply Hsame].
Qed.

(** The timer thread comes first. *)
Lemma timers_init_exec timers_list live owned s :
  reset timers_list s → booting s [] → kh_rep (k_heap s) live owned → objects_ok s live →
  ∃ rc s', timers_init runnable_list timers_list junk_thread junk_timer junk_link s = Ok (rc, s') ∧
    (rc = ENOMEM ∧ refused (thread_requests true) (k_heap s) ∨
     rc = EOK ∧ granted (thread_requests true) (k_heap s) (k_heap s') ∧
      ∃ t s1 live', boot_same s s1 ∧ s' = set_k_timer_thread t s1 ∧ boot_inv timers_list [(t, CTimerThread)] live' owned s').
Proof.
  intros Hreset Hb Hrep Hok. pose proof Hreset as [Hs _ Has (Hh0 & Ht0 & Hne & Hmh & Hmt) _].
  destruct (list_init_spec s timers_list) as (s1 & He & Hl & Hw); [done|exact Hmt|].
  apply writes_kernel in Hw as (l & -> & Hw). apply is_list_kernel in Hl.
  set (s1 := set_k_links (λ _, l) s) in *. destruct Hs as (HT & HM & HV & _ & _).
  assert (Hi : boot_inv timers_list [] live owned s1).
  { split; cbn -[run_queue]; try done.
    - destruct Hb as [B1 B2 B3 B4 B5]. split; try done. cbn -[run_queue].
      change (run_queue runnable_list s1) with (run_queue runnable_list s).
      apply (is_list_agree (k_links s)); [|exact B1]. intros p ->%list_elem_of_singleton.
      by apply (writes_links _ _ _ _ Hw).
    - rewrite HT. by split_and!.
    - destruct Hok as [O1 O2 O3 O4 O5 O6]. split; try done. intros p Hp. apply O2. by eapply writes_mapped.
    - by split; [exact Has|intros p v; cbn; rewrite HV|intros p q v w; cbn; rewrite HV].
    - by intros t e ?%elem_of_nil.
    - exists ∅. apply (reset_typed timers_list); [done|]. intros p. by eapply writes_mapped.
    - destruct Hreset as [_ _ _ _ Hst]. destruct Hmh as [Hmh%fmap_is_Some _], Hmt as [Hmt%fmap_is_Some _]. split; by apply Hst. }
  destruct (boot_step timers_list [] live owned s1 CTimerThread Hi ltac:(cbn; lia)) as (rc & t & s2 & He2 & Hres).
  unfold timers_init. erewrite bind_ok by exact He. erewrite bind_ok by exact He2. cbn beta iota.
  destruct Hres as [[-> Hrf]|[-> (Hsame & Hg & live' & Hi2)]].
  - exists ENOMEM, s2. split; [done|by left].
  - eexists EOK, _. split; [done|]. right. split; [done|]. split; [exact Hg|]. exists t, s2, live'. split; [exact Hsame|]. split; [done|].
    destruct Hi2 as [B T R O S E [types Y] St]. split; try done;
      [by apply (booting_ext s2)|by destruct O; split|by destruct S; split|]. exists types. by apply (typed_shape s2).
Qed.

(** ** The kernel when the main thread begins *)
Record booted (timers_list example : Z) (owned : Z → Prop) (timer idle main : Z) s : Prop := Booted {
  bd_sched : let a := Scheduler [timer; idle; main] main
      (<[main := THREAD_RUNNING]> (<[idle := THREAD_READY]> {[timer := THREAD_READY]})) in
    sched_rep runnable_list s a ∧ running a;
  bd_timers : timers_rep runnable_list timers_list s [] ∧ k_timer_thread s = timer;
  bd_entries : (∃ th, k_threads s !! timer = Some th ∧ th_entry_func th = CTimerThread) ∧
    (∃ th, k_threads s !! idle = Some th ∧ th_entry_func th = CIdle) ∧
    (∃ th, k_threads s !! main = Some th ∧ th_entry_func th = CUser example ∧ th_entry_data th = NULL);
  bd_contexts t : t = timer ∨ t = idle ∨ t = main →
    context_of s t = Some (Context [FStub t] (Z.lor CP0_STATUS_IE_MASK CP0_STATUS_IM_MASK));
  bd_running : k_stack s = [FStub main] ∧ cp0_status s = Z.lor CP0_STATUS_IE_MASK CP0_STATUS_IM_MASK;
  bd_heap : ∃ live types, kh_rep (k_heap s) live owned ∧ typed s types live;
  bd_joiners t th : k_threads s !! t = Some th → th_joiner th = NULL;
  bd_static : kh_static (run_queue runnable_list s) ∧ kh_static timers_list;
  bd_memory : memory_ok s ∧ ∃ p asid, current_space s p (empty_vmm asid) ∧ 0 ≤ asid < 3;
}.

Lemma boot_states s timer idle main :
  booting s [timer; idle; main] →
  <[main := THREAD_RUNNING]> (th_state <$> k_threads s) =
    <[main := THREAD_RUNNING]> (<[idle := THREAD_READY]> {[timer := THREAD_READY]}).
Proof.
  intros Hb. apply map_eq. intros t. destruct (decide (t = main)) as [->|Hm]; [by rewrite !lookup_insert_eq|].
  rewrite !(lookup_insert_ne _ main t) by done. rewrite lookup_fmap.
  assert (Hr : t = timer ∨ t = idle → th_state <$> k_threads s !! t = Some THREAD_READY).
  { intros Hc. destruct (proj1 (bt_threads _ _ Hb t)) as [th Ht]; [set_solver|].
    rewrite Ht. cbn. by destruct (bt_ready _ _ Hb t th Ht) as [-> _]. }
  destruct (decide (t = idle)) as [->|Hi]; [rewrite lookup_insert_eq; auto|]. rewrite lookup_insert_ne by done.
  destruct (decide (t = timer)) as [->|Ht]; [rewrite lookup_singleton_eq; auto|]. rewrite lookup_singleton_ne by done.
  assert (Hx : k_threads s !! t = None); [|by rewrite Hx].
  apply eq_None_not_Some. intros Hx%(bt_threads _ _ Hb). set_solver.
Qed.

Lemma with_asid_hi asid t : tlb_hi t = CP0_ENTRYHI_ASID_MASK → tlb_hi (with_asid asid t) = asid.
Proof. intros E. unfold with_asid. cbn. by rewrite E, Z.land_lnot_diag. Qed.

(** The switch to the main thread. *)
Lemma boot_final timers_list example live owned timer idle main s :
  boot_inv timers_list [(timer, CTimerThread); (idle, CIdle); (main, CUser example)] live owned s →
  k_timer_thread s = timer → tlb_wf (k_tlb s) → random_ok (k_tlb s) → tlb_coherent (λ _ _, None) (k_tlb s) →
  tlb_hi (k_tlb s) = CP0_ENTRYHI_ASID_MASK →
  ∃ s', (push_frame FBoot ;; thread_switch main) s = Ok (tt, s') ∧
    booted timers_list example owned timer idle main s' ∧ granted [] (k_heap s) (k_heap s').
Proof.
  intros [Hb (Hti & Htt & Htq) Hrep Hok Hsp Hth [types Hty] Hstat] Htm Hwf Hran Hco Hhi. cbn [fmap list_fmap fst] in Hb.
  destruct (Hth timer CTimerThread ltac:(set_solver)) as (tt' & Ht & Et & _ & _ & Ct).
  destruct (Hth idle CIdle ltac:(set_solver)) as (ti & Hi & Ei & _ & _ & Ci).
  destruct (Hth main (CUser example) ltac:(set_solver)) as (tm & Hm & Em & Dm & _ & Cm).
  destruct (bt_ready _ _ Hb main tm Hm) as [_ [v Hv]].
  destruct (fs_vmms _ _ Hsp _ _ Hv) as (asid & -> & Ha). cbn in Ha.
  set (s1 := set_k_stack (FBoot :: k_stack s) s).
  assert (Hb1 : booting s1 [timer; idle; main]) by (by apply (booting_ext s)).
  exists (first_state main tm asid s1). split.
  { erewrite bind_ok by reflexivity. by apply (first_switch_exec s1 main tm (empty_vmm asid)); [apply Hb|..]. }
  destruct (first_switch_rep s1 _ main tm asid Hb1 Hm) as [Hr Hrun].
  change (k_threads s1) with (k_threads s) in Hr, Hrun. rewrite (boot_states s timer idle main Hb) in Hr, Hrun.
  set (s' := first_state main tm asid s1) in *.
  assert (HT : k_threads s' = <[main := set_th_state THREAD_RUNNING tm]> (k_threads s)) by done.
  assert (Hback : ∀ t th, k_threads s !! t = Some th → ∃ th', k_threads s' !! t = Some th' ∧
    th_entry_func th' = th_entry_func th ∧ th_entry_data th' = th_entry_data th ∧ th_stack_top th' = th_stack_top th).
  { intros t th Ht0. rewrite HT. destruct (decide (t = main)) as [->|Hne].
    - rewrite lookup_insert_eq. eexists. split; [done|]. cbn. split_and!; congruence.
    - rewrite lookup_insert_ne by done. by eexists. }
  split; [|by eexists]. split.
  - by split.
  - split; [|exact Htm]. split_and!; [exact Hti|by intros t ?%elem_of_nil|].
    intros p ->%list_elem_of_singleton. split; [|exact Htq]. rewrite HT, lookup_insert_ne; [done|]. intros ->. congruence.
  - split_and!.
    + destruct (Hback _ _ Ht) as (th & ? & ? & _). exists th. split; congruence.
    + destruct (Hback _ _ Hi) as (th & ? & ? & _). exists th. split; congruence.
    + destruct (Hback _ _ Hm) as (th & ? & ? & ? & _). exists th. split_and!; congruence.
  - intros t Hx. unfold context_of. destruct Hx as [->|[->| ->]].
    + destruct (Hback _ _ Ht) as (th & -> & _ & _ & E). cbn. congruence.
    + destruct (Hback _ _ Hi) as (th & -> & _ & _ & E). cbn. congruence.
    + destruct (Hback _ _ Hm) as (th & -> & _ & _ & E). cbn. congruence.
  - unfold s', first_state. cbn. rewrite Cm. split; [done|]. apply cp0_status_set.
  - exists live, types. split; [by apply kh_rep_status|]. apply (typed_shape s); [|done]. split_and!; try done.
    intros t. rewrite HT. destruct (decide (t = main)) as [->|]; [by rewrite lookup_insert_eq, Hm|by rewrite lookup_insert_ne].
  - intros t th. rewrite HT.
    assert (Hj : ∀ u uth, k_threads s !! u = Some uth → th_joiner uth = NULL).
    { intros u uth Hu. assert (Hin : u ∈ [timer; idle; main]) by (apply (bt_threads _ _ Hb); by eexists).
      assert (Hnb : ∃ e, newborn s u e).
      { apply elem_of_cons in Hin as [->|[->| ->%list_elem_of_singleton]%elem_of_cons]; [eexists; apply Hth; left|eexists; apply Hth; right; left|eexists; apply Hth; right; right; left]. }
      destruct Hnb as (e & th' & Hu' & _ & _ & Hj & _). congruence. }
    intros [[_ <-]|[_ Hu]]%lookup_insert_Some; [exact (Hj main tm Hm)|by apply (Hj t)].
  - exact Hstat.
  - split; [apply (fresh_memory 3 s'); [by destruct Hsp; split|exact Hwf|exact Hran|exact Hco]|]. exists (th_vmm tm), asid. split; [|done]. split_and!.
    + exists main. eexists. split; [apply lookup_insert_eq|]. rewrite HT, lookup_insert_eq. split; [done|]. done.
    + exact Hv.
    + change (k_tlb s') with (with_asid asid (k_tlb s)). rewrite with_asid_hi by done. unfold u32. word_lia.
    + change (k_tlb s') with (with_asid asid (k_tlb s)). rewrite with_asid_hi by done. cbn. apply Z.mod_small. lia.
    + cbn. unfold ASID_UNUSED. lia.
Qed.
End boot.
