(* ===== verification/MainTheorems.v ===== *)
(** * Start-up: the theorems

    [bsp_start] establishes the invariants of all components, on which the theorems
    about the running kernel rest. *)
From S2P Require Import Prelude CList Cpu Atomic Malloc MallocRep MallocScan MallocInv MallocTheorems KHeap KTime Tlb TlbTheorems.
From S2P Require Import Kernel Sched Vmm PageTable Threads Timers SchedExec SchedSpec SchedRefine SchedOps VmmTheorems.
From S2P Require Import KernelSample ThreadCreate TimerSpec Main Boot.

Section threads.
  Context {H : Type} `{KernelHeapLaws H}.
  Context (runnable_list timers_list example : Z).
  Context (junk_thread : thread) (junk_timer : timer) (junk_link : link_t).
  Implicit Types (s : kernel H).
  Abbreviation boot_inv := (boot_inv runnable_list timers_list).

Lemma create_or_panic_exec es live owned s entry :
  boot_inv es live owned s → (length es < 255)%nat →
  create_or_panic runnable_list junk_thread junk_timer junk_link entry s = Panic ∧
    refused (thread_requests true) (k_heap s) ∨
  ∃ t s' live', create_or_panic runnable_list junk_thread junk_timer junk_link entry s = Ok (t, s') ∧
    boot_same s s' ∧ granted (thread_requests true) (k_heap s) (k_heap s') ∧
    boot_inv (es ++ [(t, entry)]) live' owned s'.
Proof.
  intros Hi Hlen. destruct (boot_step runnable_list junk_thread junk_timer junk_link timers_list es live owned s entry Hi Hlen)
    as (rc & t & s' & He & Hres).
  unfold create_or_panic. erewrite bind_ok by exact He. cbn beta iota. destruct Hres as [[-> Hrf]|[-> (Hs & Hg & live' & Hi')]].
  - by left.
  - right. exists t, s', live'. rewrite bool_decide_eq_false_2 by (by intros E). by split.
Qed.

(** What the creation of the timer thread, the idle thread and the main thread asks of
    the allocator: a structure, a stack and a memory map for each. *)
Definition boot_requests : list request := thread_requests true ++ thread_requests true ++ thread_requests true.

(** The threads of the kernel are created, and the main thread runs. *)
Lemma bsp_threads_exec ready owned s :
  reset runnable_list timers_list s → kh_rep (k_heap s) ∅ owned → objects_ok s ∅ →
  tlb_wf (k_tlb s) → random_ok (k_tlb s) → tlb_coherent (λ _ _, None) (k_tlb s) →
  tlb_hi (k_tlb s) = CP0_ENTRYHI_ASID_MASK →
  let start := bsp_threads runnable_list timers_list example junk_thread junk_timer junk_link ready in
  start s = Panic ∧ refused boot_requests (k_heap s) ∨
  ∃ timer idle main s', start s = Ok (wrap (ready + 1), s') ∧
    booted runnable_list timers_list example owned timer idle main s' ∧ granted boot_requests (k_heap s) (k_heap s').
Proof.
  intros Hres Hrep Hok Hwf Hran Hco Hhi start. unfold start, bsp_threads.
  destruct (sched_init_exec runnable_list timers_list s Hres) as (s1 & He1 & Hb1 & Eh & Et & Es & Hres1).
  assert (Hok1 : objects_ok s1 ∅).
  { destruct Hres1 as [(R1 & R2 & R3 & R4 & R5) _ _ _ Hst].
    split; intros x; rewrite ?R1, ?R2, ?R3, ?R4, ?R5, ?lookup_empty; try (by intros []). intros Hx. left. by apply Hst. }
  rewrite <- bind_assoc. erewrite bind_ok by exact He1.
  destruct (timers_init_exec runnable_list junk_thread junk_timer junk_link timers_list ∅ owned s1 Hres1 Hb1)
    as (rc & s2 & He2 & Hc2); [by rewrite Eh|done|].
  erewrite bind_ok by exact He2. rewrite Eh in Hc2.
  destruct Hc2 as [[-> Hrf]|[-> (Hg2 & timer & s2' & live2 & Hsame2 & E2 & Hi2)]].
  { left. split; [done|by apply refused_app_l]. }
  rewrite bool_decide_eq_false_2 by (by intros E). do 2 (erewrite bind_ok by reflexivity).
  destruct (create_or_panic_exec _ _ _ s2 CIdle Hi2) as [[Hp Hrf]|(idle & s3 & live3 & He3 & Hsame3 & Hg3 & Hi3)];
    [cbn; lia|left|].
  { split; [unfold mbind, KM_bind; by rewrite Hp|]. by apply (refused_app_r _ _ _ _ Hg2), refused_app_l. }
  erewrite bind_ok by exact He3.
  destruct (create_or_panic_exec _ _ _ s3 (CUser example) Hi3) as [[Hp Hrf]|(main & s4 & live4 & He4 & Hsame4 & Hg4 & Hi4)];
    [cbn; lia|left|right].
  { split; [unfold mbind, KM_bind; by rewrite Hp|]. by apply (refused_app_r _ _ _ _ Hg2), (refused_app_r _ _ _ _ Hg3). }
  erewrite bind_ok by exact He4.
  assert (Etlb : k_tlb s4 = k_tlb s).
  { transitivity (k_tlb s3); [apply Hsame4|]. transitivity (k_tlb s2); [apply Hsame3|]. subst s2.
    transitivity (k_tlb s1); [apply Hsame2|done]. }
  assert (Etm : k_timer_thread s4 = timer).
  { transitivity (k_timer_thread s3); [apply Hsame4|]. transitivity (k_timer_thread s2); [apply Hsame3|]. by subst s2. }
  destruct (boot_final runnable_list timers_list example live4 owned timer idle main s4 Hi4 Etm) as (s' & He' & Hd & Hg');
    [by rewrite Etlb..|].
  exists timer, idle, main, s'. split; [|split; [done|]].
  2:{ unfold boot_requests. do 2 (eapply granted_app; [eassumption|]). rewrite <- (app_nil_r (thread_requests true)). by eapply granted_app. }
  cbv zeta. rewrite <- bind_assoc. by erewrite bind_ok by exact He'.
Qed.
End threads.

(** ** The bootstrap processor *)
Section bsp.
  Context {F : Type} `{FrameAllocatorLaws F}.
  Context (heap_list : Z) (static : Z → Prop) (runnable_list timers_list example : Z).
  Context (frame_init : KM (mm_state F) unit).
  Context (junk_thread : thread) (junk_timer : timer) (junk_link : link_t).

#[local] Instance main_heap : KernelHeap (mm_state F) := bsp_heap heap_list static.
#[local] Instance main_heap_laws : KernelHeapLaws (mm_state F) := mm_kernel_heap_laws heap_list static.

(** What [frame_init] leaves behind: free frames, all of them mapped memory outside
    the kernel image. *)
Definition frames_ready (m : mm_state F) : Prop :=
  mapped m heap_list ∧ free_mapped heap_list m ∧
  ∀ a, frame_is_free (mm_frames m) (a - ADDR_PREFIX_KSEG0) → ¬ static a.

Lemma frames_ready_status m v : frames_ready m → frames_ready (set_cp0_status v m).
Proof. done. Qed.

Lemma heap_init_rep m :
  heap_list ≠ NULL → frames_ready m →
  ∃ m', heap_init heap_list m = Ok (tt, m') ∧ kh_rep m' ∅ (λ _, False) ∧
    mm_inv heap_list m' [] ∧ mm_frames m' = mm_frames m.
Proof.
  intros Hhl (Hm & Hf & Hst). destruct (heap_init_inv heap_list m Hhl Hm Hf) as (m' & He & Hinv & Hfr).
  exists m'. split; [done|]. split; [|done]. exists []. split_and!; [done| |done|].
  - intros p n. rewrite lookup_empty. split; [done|]. by intros (h & ? & ? & ? & ?%elem_of_nil & _).
  - intros a [(h & ?%elem_of_nil & _)|Ha]; [done|]. split; [|tauto]. rewrite Hfr in Ha. by apply Hst.
Qed.

(** Nine blocks are allocated, the first of them while there is no heap.  They can be had
    when first fit, beginning with no heap and the frames that [frame_init] left free, can
    serve them. *)
Definition boot_served (f : F) : option (list heap * F) := serve_all boot_requests ([], f).

Lemma boot_requests_ok : Forall request_ok boot_requests.
Proof. by repeat constructor. Qed.

(** [bsp_start] as its callers see it. *)
Lemma bsp_started (s : kernel (mm_state F)) ready m :
  reset runnable_list timers_list s → length (tlb_entries (k_tlb s)) = 48%nat → heap_list ≠ NULL →
  frame_init (k_heap s) = Ok (tt, m) → frames_ready m →
  let start := bsp_start heap_list static runnable_list timers_list example frame_init
    junk_thread junk_timer junk_link ready in
  match boot_served (mm_frames m) with
  | None => start s = Panic
  | Some (hs, f) => ∃ timer idle main s', start s = Ok (wrap (ready + 1), s') ∧
    booted runnable_list timers_list example (λ _, False) timer idle main s' ∧
    mm_inv heap_list (k_heap s') hs ∧ mm_frames (k_heap s') = f
  end.
Proof.
  intros Hres Hlen Hhl Hfi Hfr start.
  destruct (tlb_init_correct (λ _ _, None) s) as (t & He & Hwf & Hran & Hco & Hhi & _); [exact Hlen|].
  destruct (heap_init_rep m Hhl Hfr) as (m' & Hh & Hrep & Hinv & Hf).
  set (s1 := set_k_heap m' (set_k_tlb t s)).
  assert (Hs1 : start s = bsp_threads runnable_list timers_list example junk_thread junk_timer junk_link ready s1).
  { unfold start, bsp_start. erewrite bind_ok by exact He.
    erewrite bind_ok by (apply in_heap_ok; exact Hfi). by erewrite bind_ok by (apply in_heap_ok; exact Hh). }
  unfold boot_served. rewrite Hs1, <- Hf.
  destruct (bsp_threads_exec runnable_list timers_list example junk_thread junk_timer junk_link ready
    (λ _, False) s1) as [[Hp Hrf]|(timer & idle & main & s' & Hs' & Hb & Hg)]; try done.
  - by destruct Hres; split.
  - destruct Hres as [(R1 & R2 & R3 & R4 & R5) _ _ _ Hst].
    split; intros x; cbn; rewrite ?R1, ?R2, ?R3, ?R4, ?R5, ?lookup_empty; try (by intros []).
    intros Hx. left. by apply Hst.
  - by rewrite (refused_serve heap_list static boot_requests m' [] Hinv boot_requests_ok Hrf).
  - destruct (granted_serve heap_list static boot_requests m' [] (k_heap s') Hinv boot_requests_ok Hg) as (hs & -> & Hinv').
    by exists timer, idle, main, s'.
Qed.

(** C9. [bsp_start], on a kernel that holds nothing but its static variables and
    whatever the TLB held before.  The frames that [frame_init] leaves free decide what
    happens.  When first fit cannot serve the nine blocks of the three threads (structure,
    stack and memory map of each, in the order of the calls) from them, the kernel panics.
    Otherwise it does not: the main thread is about to start with interrupts enabled, on
    an empty address space of its own; the timer thread and the idle thread wait behind
    their entry functions in the run queue; no timer is pending; the TLB translates nothing;
    the heaps and the free frames are those that first fit leaves; every object is in
    allocated memory or in the kernel image; and the next processor is let go. *)
Theorem bsp_start_correct (s : kernel (mm_state F)) ready m :
  reset runnable_list timers_list s → length (tlb_entries (k_tlb s)) = 48%nat → heap_list ≠ NULL →
  frame_init (k_heap s) = Ok (tt, m) → frames_ready m →
  let start := bsp_start heap_list static runnable_list timers_list example frame_init
    junk_thread junk_timer junk_link ready in
  match boot_served (mm_frames m) with
  | None => start s = Panic
  | Some (hs, f) => ∃ timer idle main s', start s = Ok (wrap (ready + 1), s') ∧
    booted runnable_list timers_list example (λ _, False) timer idle main s' ∧
    mm_inv heap_list (k_heap s') hs ∧ mm_frames (k_heap s') = f
  end.
Proof. exact (bsp_started s ready m). Qed.
End bsp.

(** ** A machine that starts *)
Definition sample_frame_init : KM (mm_state (gset Z)) unit := λ m, Ok (tt, set_cp0_status (mm_status m) sample_mm).

Definition sample_reset : kernel (mm_state (gset Z)) :=
  Kernel (MM ∅ ∅ 0x400000) (list_to_map [(64, Link 0 0); (80, Link 0 0)]) ∅ ∅ ∅ ∅ ∅ ∅ 0 0 500 0 0
    sample_tlb 0 0 [] 0 ∅.

Abbreviation sample_start :=
  (bsp_start sample_hl sample_static 64 80 7 sample_frame_init (sample_thread THREAD_ZOMBIE 0 (Context [] 0))
    (Timer 0 0 false CNull 0) (Link 1 2) 0).

Lemma sample_is_reset : reset 64 80 sample_reset.
Proof.
  split; [done|done|done| |].
  - cbv zeta. do 3 (split; [done|]). split; split; eexists; reflexivity.
  - intros p. cbn. intros [<-|[_ Hx]]%lookup_insert_is_Some; [by right|].
    apply lookup_insert_is_Some in Hx as [<-|[_ Hx]]; [by right|]. by destruct Hx.
Qed.

Lemma sample_ready : frames_ready sample_hl sample_static (set_cp0_status 0x400000 sample_mm).
Proof.
  apply frames_ready_status. split; [exact sample_mapped|split; [exact sample_free_mapped|]].
  intros a Ha. by apply sample_free_static.
Qed.

(** Its 16 free frames are enough. *)
Lemma sample_served : is_Some (boot_served (mm_frames (set_cp0_status 0x400000 sample_mm))).
Proof. vm_compute. by eexists. Qed.

Lemma bsp_start_correct_witness :
  ∃ timer idle main s', sample_start sample_reset = Ok (wrap (0 + 1), s') ∧
    booted (H := mm_state (gset Z)) 64 80 7 (λ _, False) timer idle main s'.
Proof.
  assert (Hhl : sample_hl ≠ NULL) by done. destruct sample_served as [[hs f] E].
  pose proof (bsp_start_correct sample_hl sample_static 64 80 7 sample_frame_init
    (sample_thread THREAD_ZOMBIE 0 (Context [] 0)) (Timer 0 0 false CNull 0) (Link 1 2)
    sample_reset 0 (set_cp0_status 0x400000 sample_mm) sample_is_reset eq_refl Hhl eq_refl sample_ready) as Hs.
  cbv zeta in Hs. rewrite E in Hs.
  destruct Hs as (timer & idle & main & s' & He & Hb & _). exists timer, idle, main, s'. split; [exact He|exact Hb].
Defined.
