(* ===== verification/Handshake.v ===== *)
(** * Start-up: the processors start one after the other

    [cpu_ready] counts the processors that have finished their initialisation; it is
    all that keeps two processors from using the memory management at the same time
    ([bsp_start] and [ap_start] of [kernel/main.c]).  Processors take their steps in
    any order. *)
From S2P Require Import Prelude Cpu Atomic Sched Main.

(** Where a processor is: in the loop of [ap_start], between it and [atomic_add], or
    behind [atomic_add]. *)
Inductive stage := Waiting | Starting | Started.

Record machine := Machine {
  m_ready : Z;  (** [cpu_ready] *)
  m_stages : list stage;  (** by processor *)
}.

(** The bootstrap processor does not wait. *)
Definition power_on (n : nat) : machine := Machine 0 (Starting :: replicate (n - 1) Waiting).

(** The next step of processor [i]: one round of the loop, or the initialisation. *)
Definition cpu_step (i : nat) (m : machine) : option machine :=
  match m_stages m !! i with
  | Some Waiting =>
    Some (if ap_wait (m_ready m) (Z.of_nat i) then m else Machine (m_ready m) (<[i := Starting]> (m_stages m)))
  | Some Starting =>
    Some (Machine (fst (atomic_exec (atomic_add 1) (m_ready m))) (<[i := Started]> (m_stages m)))
  | _ => None
  end.

Inductive machine_step (m m' : machine) : Prop :=
  | MachineStep i : cpu_step i m = Some m' → machine_step m m'.

(** The processors before the [k]-th have started, those after it wait. *)
Definition in_turn (n k : nat) (m : machine) : Prop :=
  m_ready m = Z.of_nat k ∧ (k ≤ n)%nat ∧ length (m_stages m) = n ∧
  (∀ i, (i < k)%nat → m_stages m !! i = Some Started) ∧
  (∀ i, (k < i < n)%nat → m_stages m !! i = Some Waiting) ∧
  ((k < n)%nat → m_stages m !! k = Some Waiting ∨ m_stages m !! k = Some Starting).

Lemma in_turn_init n : (0 < n)%nat → in_turn n 0 (power_on n).
Proof.
  intros Hn. split_and!; cbn; try done; try lia.
  - rewrite length_replicate. lia.
  - intros [|i] Hi; [lia|]. cbn. apply lookup_replicate. split; [done|lia].
  - intros _. by right.
Qed.

Lemma ready_next k n : (k < n)%nat → Z.of_nat n ≤ MAX_CPU → fst (atomic_exec (atomic_add 1) (Z.of_nat k)) = Z.of_nat (S k).
Proof. intros Hk Hn. cbn. unfold MAX_CPU in Hn. rewrite wrap_small; [lia|]. word_lia. Qed.

(** Every step keeps the processors in turn. *)
Lemma in_turn_step n k m m' :
  in_turn n k m → Z.of_nat n ≤ MAX_CPU → machine_step m m' → ∃ k', in_turn n k' m'.
Proof.
  intros Ht Hn [i He]. unfold cpu_step in He. pose proof Ht as (Hr & Hk & Hlen & Hlo & Hhi & Hmid).
  destruct (m_stages m !! i) as [[| |]|] eqn:Ei; try done.
  - injection He as <-. unfold ap_wait. destruct (Z.ltb_spec (m_ready m) (Z.of_nat i)) as [Hlt|Hge];
      [by exists k|].
    assert (i = k) as ->.
    { destruct (decide (i < k)%nat) as [Hik|]; [rewrite (Hlo i Hik) in Ei; done|lia]. }
    pose proof (lookup_lt_Some _ _ _ Ei) as Hkl.
    exists k. split_and!; cbn; try done.
    + by rewrite length_insert.
    + intros j Hj. rewrite list_lookup_insert_ne by lia. by apply Hlo.
    + intros j Hj. rewrite list_lookup_insert_ne by lia. by apply Hhi.
    + intros _. right. by rewrite list_lookup_insert_eq.
  - injection He as <-. pose proof (lookup_lt_Some _ _ _ Ei) as Hil. rewrite Hlen in Hil.
    assert (i = k) as ->.
    { destruct (decide (i < k)%nat) as [Hik|]; [rewrite (Hlo i Hik) in Ei; done|].
      destruct (decide (k < i)%nat) as [Hik|]; [rewrite (Hhi i ltac:(lia)) in Ei; done|lia]. }
    exists (S k). rewrite Hr. split_and!; cbn [m_ready m_stages].
    + by eapply ready_next.
    + lia.
    + by rewrite length_insert.
    + intros j Hj. destruct (decide (j = k)) as [->|]; [by rewrite list_lookup_insert_eq by lia|].
      rewrite list_lookup_insert_ne by lia. apply Hlo. lia.
    + intros j Hj. rewrite list_lookup_insert_ne by lia. apply Hhi. lia.
    + intros Hj. left. rewrite list_lookup_insert_ne by lia. apply Hhi. lia.
Qed.

(** The next processor can always go on. *)
Lemma in_turn_progress n k m :
  in_turn n k m → Z.of_nat n ≤ MAX_CPU → (k < n)%nat →
  ∃ m', rtc machine_step m m' ∧ in_turn n (S k) m'.
Proof.
  intros Ht Hn Hk.
  assert (Hgo : ∀ m0, in_turn n k m0 → m_stages m0 !! k = Some Starting →
    ∃ m', rtc machine_step m0 m' ∧ in_turn n (S k) m').
  { intros m0 Ht0 Es.
    set (m' := Machine (fst (atomic_exec (atomic_add 1) (m_ready m0))) (<[k := Started]> (m_stages m0))).
    assert (Hst : machine_step m0 m') by (apply (MachineStep _ _ k); unfold cpu_step; by rewrite Es).
    destruct (in_turn_step n k m0 m' Ht0 Hn Hst) as [k' Ht']. exists m'. split; [by apply rtc_once|].
    assert (Hk' : Z.of_nat k' = Z.of_nat (S k)).
    { destruct Ht' as [<- _]. destruct Ht0 as [E _]. cbn [m' m_ready]. rewrite E. by eapply ready_next. }
    by assert (k' = S k) as <- by lia. }
  pose proof Ht as (Hr & _ & Hlen & _ & _ & Hmid). destruct (Hmid Hk) as [Ew|Es]; [|by apply Hgo].
  set (m1 := Machine (m_ready m) (<[k := Starting]> (m_stages m))).
  assert (Hst : machine_step m m1).
  { apply (MachineStep _ _ k). unfold cpu_step, ap_wait. unfold m1. by rewrite Ew, Hr, Z.ltb_irrefl. }
  destruct (in_turn_step n k m m1 Ht Hn Hst) as [k' Ht1].
  assert (k' = k) as -> by (destruct Ht1 as [E _]; cbn in E; lia).
  destruct (Hgo m1 Ht1) as (m' & Hm' & Ht'); [cbn; rewrite list_lookup_insert_eq by lia; done|].
  exists m'. split; [|done]. by eapply rtc_l.
Qed.

Lemma in_turn_all n k m :
  in_turn n k m → Z.of_nat n ≤ MAX_CPU → ∃ m', rtc machine_step m m' ∧ in_turn n n m'.
Proof.
  intros Ht Hn. pose proof Ht as (_ & Hk & _). remember (n - k)%nat as d eqn:Ed. revert k m Ht Hk Ed.
  induction d as [|d IH]; intros k m Ht Hk Ed.
  - assert (k = n) as -> by lia. by exists m.
  - destruct (in_turn_progress n k m Ht Hn) as (m1 & H1 & Ht1); [lia|].
    destruct (IH (S k) m1 Ht1) as (m2 & H2 & Ht2); [lia|lia|]. exists m2. split; [by etrans|done].
Qed.

Lemma in_turn_reachable n m :
  (0 < n)%nat → Z.of_nat n ≤ MAX_CPU → rtc machine_step (power_on n) m → ∃ k, in_turn n k m.
Proof.
  intros Hn Hmax Hr. assert (Hgen : ∀ x y, rtc machine_step x y → (∃ k, in_turn n k x) → ∃ k, in_turn n k y).
  { induction 1 as [|x y z Hxy _ IH]; [done|]. intros [k Hk]. apply IH. by eapply in_turn_step. }
  eapply Hgen; [exact Hr|]. exists O. by apply in_turn_init.
Qed.

(** C26. At most one processor at a time is between the loop of [ap_start] and its
    [atomic_add]; processors start in the order of their numbers, and [cpu_ready] is
    the number of those that have started; and however the processors have been
    interleaved so far, there is a way on to the state in which all of them have
    started, so that no processor is ever shut out. *)
Theorem processors_start_in_turn n m :
  (0 < n)%nat → Z.of_nat n ≤ MAX_CPU → rtc machine_step (power_on n) m →
  (∀ i j, m_stages m !! i = Some Starting → m_stages m !! j = Some Starting → i = j) ∧
  (∀ i j, m_stages m !! i = Some Started → (j < i)%nat → m_stages m !! j = Some Started) ∧
  (∀ i, m_stages m !! i = Some Started ↔ Z.of_nat i < m_ready m) ∧
  ∃ m', rtc machine_step m m' ∧ m' = Machine (Z.of_nat n) (replicate n Started).
Proof.
  intros Hn Hmax Hreach. destruct (in_turn_reachable n m Hn Hmax Hreach) as [k Ht].
  destruct (in_turn_all n k m Ht Hmax) as (m' & Hm' & (Hr' & _ & Hl' & Hall & _)).
  destruct Ht as (Hr & Hk & Hlen & Hlo & Hhi & Hmid).
  assert (Hcase : ∀ i x, m_stages m !! i = Some x →
    (i < k)%nat ∧ x = Started ∨ i = k ∧ x ≠ Started ∨ (k < i)%nat ∧ x = Waiting).
  { intros i x Hi. pose proof (lookup_lt_Some _ _ _ Hi). destruct (lt_eq_lt_dec i k) as [[Hlt|Heq]|Hgt].
    - left. rewrite (Hlo i Hlt) in Hi. by injection Hi.
    - right. left. subst i. split; [done|]. destruct Hmid as [E|E]; [lia|..]; rewrite E in Hi; injection Hi as <-; done.
    - right. right. rewrite (Hhi i) in Hi by lia. by injection Hi. }
  split_and!.
  - intros i j Hi%Hcase Hj%Hcase. naive_solver.
  - intros i j Hi%Hcase Hj. apply Hlo. naive_solver lia.
  - intros i. split; [intros Hi%Hcase; naive_solver lia|intros Hi; apply Hlo; lia].
  - exists m'. split; [done|]. destruct m' as [r l]. cbn in *. subst r. f_equal.
    apply list_eq. intros i. destruct (decide (i < n)%nat) as [Hi|Hi].
    + rewrite (Hall i Hi). symmetry. by apply lookup_replicate.
    + rewrite !lookup_ge_None_2; [done|..]; rewrite ?length_replicate; lia.
Qed.

(** Three processors; the second one has polled once and then started. *)
Lemma processors_start_in_turn_witness :
  ∃ m, cpu_step 1 (power_on 3) = Some (power_on 3) ∧ rtc machine_step (power_on 3) m ∧
    m_stages m = [Started; Starting; Waiting] ∧
    rtc machine_step m (Machine 3 [Started; Started; Started]).
Proof.
  set (m := Machine 1 [Started; Starting; Waiting]).
  assert (Hm : rtc machine_step (power_on 3) m).
  { eapply rtc_l; [apply (MachineStep _ _ 1); reflexivity|]. eapply rtc_l; [apply (MachineStep _ _ 0); reflexivity|].
    eapply rtc_l; [apply (MachineStep _ _ 1); reflexivity|]. apply rtc_refl. }
  exists m. split; [reflexivity|]. split; [exact Hm|]. split; [reflexivity|].
  destruct (processors_start_in_turn 3 m) as (_ & _ & _ & m' & Hm' & ->);
    [lia|unfold MAX_CPU; lia|exact Hm|exact Hm'].
Defined.
