(* ===== verification/Join.v ===== *)
(** * Joining threads ([kernel/proc/thread.c])

    [thread_join] refuses, reaps a zombie at once, or waits: then the thread that
    finishes wakes it up, and the zombie is reaped when the waiting thread goes on. *)
From S2P Require Import Prelude CList Cpu Malloc KHeap MallocTheorems Tlb Kernel Sched Vmm Threads Timers SchedExec SchedSpec SchedRefine.
From S2P Require Import SchedOps VmmTheorems KernelSample ThreadCreate TimerSpec Process Typing.

Section join.
  Context {H : Type} `{KernelHeapLaws H}.
  Context (runnable_list : Z).
  Implicit Types (s : kernel H) (a : sched) (live : gmap Z Z) (types : gmap Z otype).

(** The Status register after [conditionally_enable_interrupts]. *)
Definition with_ie (state status : Z) : Z :=
  if bool_decide (state ≠ 0) then Z.lor status CP0_STATUS_IE_MASK else status.

Lemma cond_enable_exec state s :
  conditionally_enable_interrupts state s = Ok (tt, set_cp0_status (with_ie state (cp0_status s)) s).
Proof.
  unfold conditionally_enable_interrupts, with_ie. case_bool_decide; [done|]. by rewrite set_cp0_status_same.
Qed.

(** The thread is gone: its memory is free, the others and the scheduler are as
    before, and its return value is where it was wanted. *)
Record reaped s a (t : Z) (th : thread) (retval : Z) types live owned (status : Z) s' : Prop := Reaped {
  rp_sched : sched_rep runnable_list s' (Scheduler (sc_queue a) (sc_current a) (delete t (sc_state a)));
  rp_threads : k_threads s' = delete t (k_threads s);
  rp_types : typed s' (delete t (delete (th_stack_data th) types)) (delete t (delete (th_stack_data th) live));
  rp_heap : kh_rep (k_heap s') (delete t (delete (th_stack_data th) live)) owned;
  rp_links p : ¬ thread_link t p → k_links s' !! p = k_links s !! p;
  rp_timers p : p ≠ thread_timer t → k_timers s' !! p = k_timers s !! p;
  rp_out : k_out s' = if bool_decide (retval ≠ NULL) then <[retval := th_retval th]> (k_out s) else k_out s;
  rp_ret : k_ret s' = EOK;
  rp_same : k_stack s' = k_stack s ∧ cp0_status s' = status ∧ k_current s' = k_current s ∧ k_cpu s' = k_cpu s ∧
    k_vmms s' = k_vmms s ∧ k_jiffies s' = k_jiffies s ∧ k_timer_thread s' = k_timer_thread s;
}.

Lemma reap_exec s a t th retval types live owned state :
  sched_rep runnable_list s a → running a → typed s types live → kh_rep (k_heap s) live owned →
  kh_static (run_queue runnable_list s) → k_threads s !! t = Some th → th_state th = THREAD_ZOMBIE →
  ∃ s', thread_join_reap t retval state s = Ok (tt, s') ∧
    reaped s a t th retval types live owned (with_ie state (cp0_status s)) s'.
Proof.
  intros Hr Hrun Ht Hrep Hrq Hth Hz.
  pose proof (rep_state _ s a t th Hr Hth) as Hst. rewrite Hz in Hst.
  assert (Hnq : t ∉ sc_queue a).
  { intros Hin. destruct Hr as ((_ & Hq & _) & _). apply Hq in Hin as (st & Hs & Hrn). rewrite Hst in Hs.
    injection Hs as <-. by destruct Hrn. }
  assert (Hnc : t ≠ sc_current a) by (intros ->; unfold running in Hrun; congruence).
  set (s1 := if bool_decide (retval ≠ NULL) then set_k_out <[retval := th_retval th]> s else s).
  assert (He1 : (if bool_decide (retval ≠ NULL) then
      retval' ← get_thread th_retval t; kmodify (set_k_out <[retval := retval']>) else mret ()) s = Ok (tt, s1)).
  { unfold s1. case_bool_decide; [|done]. by erewrite bind_ok by (by apply get_thread_ok). }
  assert (Hsame : k_threads s1 = k_threads s ∧ k_links s1 = k_links s ∧ k_timers s1 = k_timers s ∧ k_vmms s1 = k_vmms s ∧
    k_heap s1 = k_heap s ∧ k_cpu s1 = k_cpu s ∧ k_current s1 = k_current s ∧ k_stack s1 = k_stack s ∧
    k_processes s1 = k_processes s ∧ k_uthreads s1 = k_uthreads s ∧ k_jiffies s1 = k_jiffies s ∧
    k_timer_thread s1 = k_timer_thread s ∧ cp0_status s1 = cp0_status s).
  { unfold s1. by case_bool_decide. }
  destruct Hsame as (E1 & E2 & E3 & E4 & E5 & E6 & E7 & E8 & E9 & E10 & E11 & E12 & E13).
  assert (Ht1 : typed s1 types live).
  { apply (typed_shape s); [|done]. unfold same_shape. by rewrite E1, E2, E3, E4, E9, E10. }
  assert (Hrep1 : kh_rep (k_heap s1) live owned) by (by rewrite E5).
  assert (Hr1 : sched_rep runnable_list s1 a) by (by apply (rep_ext _ s)).
  assert (Hth1 : k_threads s1 !! t = Some th) by (by rewrite E1).
  destruct (destroy_exec s1 t th types live owned Ht1 Hrep1 Hth1) as (h & He2 & Hsth & Hrep2).
  set (s2 := without_thread t (set_k_heap h s1)) in *.
  exists (set_k_ret EOK (set_cp0_status (with_ie state (cp0_status s)) s2)). split.
  - unfold thread_join_reap. erewrite bind_ok by exact He1. erewrite bind_ok by exact He2.
    erewrite bind_ok by apply cond_enable_exec.
    change (cp0_status s2) with (cp0_status h). by rewrite Hsth, E13.
  - assert (Htr : typed (without_thread t s1) (delete t (delete (th_stack_data th) types))
      (delete t (delete (th_stack_data th) live))) by (by eapply typed_reaped).
    split.
    + apply (rep_ext _ (without_thread t s1)); try done. eapply reaped_rep; try done.
      by rewrite (run_queue_cpu runnable_list s s1).
    + cbn. by rewrite E1.
    + by destruct Htr; split.
    + by apply kh_rep_status.
    + intros p Hp. change (k_links (without_thread t s1) !! p = k_links s !! p).
      by rewrite without_links, bool_decide_eq_false_2, E2.
    + intros p Hp. cbn. by rewrite lookup_delete_ne, E3.
    + cbn. unfold s1. by case_bool_decide.
    + done.
    + split_and!; try done. apply cp0_status_set.
Qed.

(** Joining is refused to the thread itself and when another thread waits. *)
Definition joinable (cur t : Z) (th : thread) : bool :=
  negb (bool_decide (t = cur)) && bool_decide (th_joiner th = NULL).

Lemma can_join_exec s cur t th :
  k_current s !! k_cpu s = Some cur → k_threads s !! t = Some th →
  thread_can_join t s = Ok (joinable cur t th, s).
Proof.
  intros Hc Ht. unfold thread_can_join, joinable. do 2 kexec_step. erewrite bind_ok by apply restored.
  case_bool_decide; [done|]. erewrite bind_ok by (by apply get_thread_ok).
  destruct (decide (th_joiner th = NULL)) as [E|E].
  - by rewrite (bool_decide_eq_false_2 (_ ≠ _)), bool_decide_eq_true_2 by tauto.
  - by rewrite (bool_decide_eq_true_2 (_ ≠ _)), bool_decide_eq_false_2.
Qed.

Lemma rejoin_status s : with_ie (Z.land (cp0_status s) CP0_STATUS_IE_MASK) (cp0_status (ints_masked s)) = cp0_status s.
Proof.
  assert (Hr : conditionally_enable_interrupts (Z.land (cp0_status s) CP0_STATUS_IE_MASK) (ints_masked s) = Ok (tt, s)).
  { rewrite (ints_restore s) by done. unfold ints_masked. by rewrite set_cp0_status_set, set_cp0_status_same. }
  rewrite cond_enable_exec in Hr. set (v := with_ie _ _) in *.
  assert (Hs : set_cp0_status v (ints_masked s) = s) by congruence.
  rewrite <- Hs. symmetry. apply cp0_status_set.
Qed.

(** What the call has done when the processor goes to another thread. *)
Definition waiting s a (t : Z) (th : thread) (retval : Z) s' : Prop :=
  sched_rep runnable_list s' (a_schedule (a_block THREAD_SLEEPING a)) ∧
  sched_frame runnable_list (set_k_threads <[t := set_th_joiner (sc_current a) th]> s) s' ∧
  handed_over (FSuspend 0 :: FJoin t retval (Z.land (cp0_status s) CP0_STATUS_IE_MASK) :: k_stack s)
    (Z.land (cp0_status s) (Z.lnot CP0_STATUS_IE_MASK)) s s' (a_block THREAD_SLEEPING a).

Lemma wait_exec s a t th retval :
  sched_rep runnable_list s a → running a → k_threads s !! t = Some th →
  ∃ s', (upd_thread (set_th_joiner (sc_current a)) t ;;
      push_frame (FJoin t retval (Z.land (cp0_status s) CP0_STATUS_IE_MASK)) ;;
      thread_suspend runnable_list) (ints_masked s) = Ok (tt, s') ∧ waiting s a t th retval s'.
Proof.
  intros Hr Hrun Hth. set (st := Z.land (cp0_status s) CP0_STATUS_IE_MASK).
  set (s1 := set_k_threads <[t := set_th_joiner (sc_current a) th]> (ints_masked s)).
  set (s2 := set_k_stack (FJoin t retval st :: k_stack s) s1).
  assert (Hr1 : sched_rep runnable_list s1 a).
  { by apply (rep_upd _ _ _ th). }
  destruct (suspend_rep (runnable_list := runnable_list) s2 a) as (s' & He & Hr' & Hf & Hh); [by apply (rep_ext _ s1)|done|].
  exists s'. split; [|split; [exact Hr'|split]].
  - erewrite bind_ok by (by apply upd_thread_ok). erewrite bind_ok by reflexivity. exact He.
  - eapply sched_frame_trans; [|exact Hf]. split_and!; try done; cbn; by rewrite cp0_status_set.
  - assert (Hc2 : cp0_status s2 = Z.land (cp0_status s) (Z.lnot CP0_STATUS_IE_MASK)) by apply cp0_status_set.
    rewrite Hc2, ie_masked, <- Z.land_assoc, Z.land_diag in Hh.
    apply (handed_over_from _ _ s s2); [|exact Hh]. intros u. unfold context_of. cbn.
    destruct (decide (u = t)) as [->|]; [by rewrite lookup_insert_eq, Hth|by rewrite lookup_insert_ne].
Qed.

(** All cases of [thread_join]. *)
Lemma join_exec s a t th retval types live owned :
  sched_rep runnable_list s a → running a → typed s types live → kh_rep (k_heap s) live owned →
  kh_static (run_queue runnable_list s) → k_threads s !! t = Some th →
  ∃ s', thread_join runnable_list t retval s = Ok (tt, s') ∧
    if joinable (sc_current a) t th then
      if bool_decide (th_state th = THREAD_ZOMBIE)
      then reaped s a t th retval types live owned (cp0_status s) s'
      else waiting s a t th retval s'
    else s' = set_k_ret EINVAL s.
Proof.
  intros Hr Hrun Ht Hrep Hrq Hth. unfold thread_join. kexec_step.
  erewrite bind_ok by (apply get_current_ok; apply Hr).
  erewrite bind_ok by (by apply (can_join_exec _ (sc_current a) t th); [apply Hr|]).
  destruct (joinable (sc_current a) t th).
  - erewrite bind_ok by (by apply get_thread_ok).
    destruct (bool_decide_reflect (th_state th = THREAD_ZOMBIE)) as [E|E].
    + rewrite bool_decide_eq_false_2 by tauto.
      destruct (reap_exec (ints_masked s) a t th retval types live owned (Z.land (cp0_status s) CP0_STATUS_IE_MASK))
        as (s' & He & [P1 P2 P3 P4 P5 P6 P7 P8 P9]); try done; [by apply (typed_shape s)|by apply kh_rep_status|].
      rewrite rejoin_status in P9. exists s'. split; [exact He|]. by split.
    + rewrite bool_decide_eq_true_2 by done. by apply wait_exec.
  - exists (set_k_ret EINVAL s). split; [|done]. by erewrite bind_ok by apply restored.
Qed.

(** C8. [thread_join] in all cases.  A thread cannot join itself, nor a thread that
    another one is waiting for: [EINVAL], and nothing has changed.  A zombie is reaped:
    its stack and its structure are free again and belong to nobody, its return value
    has been stored if the caller wanted it, and everything else is as before.
    Otherwise the caller is recorded as the one that waits and goes to sleep, the
    processor goes to the head of the run queue, and the caller will go on in
    [thread_suspend] and then with the end of [thread_join]. *)
Theorem thread_join_refines s a t th retval types live owned :
  sched_rep runnable_list s a → running a → typed s types live → kh_rep (k_heap s) live owned →
  kh_static (run_queue runnable_list s) → k_threads s !! t = Some th →
  ∃ s', thread_join runnable_list t retval s = Ok (tt, s') ∧
    if joinable (sc_current a) t th then
      if bool_decide (th_state th = THREAD_ZOMBIE)
      then reaped s a t th retval types live owned (cp0_status s) s'
      else waiting s a t th retval s'
    else s' = set_k_ret EINVAL s.
Proof. exact (join_exec s a t th retval types live owned). Qed.

(** C37. What a thread that was waiting in [thread_join] does when it goes on: it leaves
    [thread_suspend], and if the thread it has waited for is a zombie by now, which is
    what [thread_finish] wakes it up for, it reaps it and returns [EOK] to its caller. *)
Theorem thread_join_returns timers_list s a t th retval types live owned state status st :
  sched_rep runnable_list s a → running a → typed s types live → kh_rep (k_heap s) live owned →
  kh_static (run_queue runnable_list s) → k_threads s !! t = Some th → th_state th = THREAD_ZOMBIE →
  k_stack s = FSuspend state :: FJoin t retval status :: st →
  ∃ s', (resume runnable_list timers_list ;; resume runnable_list timers_list) s = Ok (tt, s') ∧
    reaped (set_k_stack st s) a t th retval types live owned (with_ie status (with_ie state (cp0_status s))) s'.
Proof.
  intros Hr Hrun Ht Hrep Hrq Hth Hz Hst.
  set (s1 := set_cp0_status (with_ie state (cp0_status s)) (set_k_stack (FJoin t retval status :: st) s)).
  assert (He1 : resume runnable_list timers_list s = Ok (tt, s1)).
  { unfold resume, pop_frame. erewrite bind_ok by (rewrite Hst; reflexivity). apply cond_enable_exec. }
  set (s2 := set_k_stack st s1).
  destruct (reap_exec s2 a t th retval types live owned status) as (s' & He & [P1 P2 P3 P4 P5 P6 P7 P8 P9]); try done.
  - by apply (typed_shape s).
  - by apply kh_rep_status.
  - exists s'. split.
    + erewrite bind_ok by exact He1. unfold resume, pop_frame. erewrite bind_ok by reflexivity. exact He.
    + replace (cp0_status s2) with (with_ie state (cp0_status s)) in P9 by (symmetry; apply cp0_status_set). by split.
Qed.
End join.
