(* ===== verification/System.v ===== *)
(** * The running kernel

    The calls of threads and the timer interrupt, in any order, on a kernel that has
    started: the invariants of the scheduler, the timers, the heap and the typing of
    the memory hold together, every call returns, and none of them breaks the
    invariants. *)
From S2P Require Import Prelude CList Cpu Malloc KHeap KTime Tlb Kernel Sched Vmm Threads Timers SchedExec SchedSpec.
From S2P Require Import SchedRefine SchedOps VmmTheorems ThreadCreate TimerSpec TimerTheorems Process Typing Join.

(** What the current thread, or the timer interrupt in its place, may do next.
    [CallResume] goes on with what the thread was doing when the processor left it. *)
Inductive kcall :=
  | CallYield
  | CallSuspend
  | CallWakeup (thread : Z)
  | CallFinish (retval : Z)
  | CallSleep (usec : bool) (amount : Z)
  | CallCreate (entry : code) (data flags : Z)
  | CallJoin (thread retval : Z)
  | CallTick
  | CallTimerDestroy (timer : Z)
  | CallResume.

(** What holds besides the state: the abstract scheduler, the pending timers, the
    types of the memory and its live blocks. *)
Record ghost := Ghost {
  g_sched : sched;
  g_timers : list Z;
  g_types : gmap Z otype;
  g_live : gmap Z Z;
}.

Section system.
  Context {H : Type} `{KernelHeapLaws H}.
  Context (runnable_list timers_list idle_thread : Z) (owned : Z → Prop).
  Context (junk_thread : thread) (junk_timer : timer) (junk_link : link_t).
  Implicit Types (s : kernel H) (a : sched) (g : ghost).

Definition exec_call (c : kcall) : KM (kernel H) unit :=
  match c with
  | CallYield => thread_yield runnable_list
  | CallSuspend => thread_suspend runnable_list
  | CallWakeup t => thread_wakeup runnable_list t ;; mret ()
  | CallFinish retval => thread_finish runnable_list retval
  | CallSleep usec amount =>
    if usec then thread_usleep runnable_list timers_list amount else thread_sleep runnable_list timers_list amount
  | CallCreate entry data flags =>
    thread_create runnable_list junk_thread junk_timer junk_link entry data flags ;; mret ()
  | CallJoin t retval => thread_join runnable_list t retval
  | CallTick => sched_timer runnable_list timers_list
  | CallTimerDestroy timer => timer_destroy runnable_list timer
  | CallResume => resume runnable_list timers_list
  end.

(** ** What a call may rely on *)
Definition current s : Z := default NULL (k_current s !! k_cpu s).

Definition pending s (p : Z) : Prop := ∃ ts, is_list (M := links) (k_links s) timers_list ts ∧ p ∈ ts.

(** Nothing but the thread that reaps it refers to thread [t] any more. *)
Definition reapable s (t : Z) : Prop :=
  t ≠ k_timer_thread s ∧ ¬ pending s (thread_timer t) ∧
  ∀ u uth, k_threads s !! u = Some uth → th_joiner uth ≠ t.

Definition zombie s (t : Z) : Prop := th_state <$> k_threads s !! t = Some THREAD_ZOMBIE.

(** A timer that [timer_destroy] may look at. *)
Definition destroyable s (p : Z) : Prop :=
  p ≠ NULL ∧ is_Some (k_timers s !! p) ∧ (pending s p ∨ unlinked (M := links) (k_links s) p).

(** The function of a new thread; the handler of a timer is not called this way. *)
Definition entry_ok (th : thread) s : Prop :=
  match th_entry_func th with
  | CNull => False
  | CTimeout => is_Some (k_threads s !! th_entry_data th)
  | _ => True
  end.

(** What is on top of the stack of a thread that goes on.  A thread that has finished
    and [bsp_start] never do. *)
Definition frame_ok (f : frame) s : Prop :=
  match f with
  | FStub t => ∃ th, k_threads s !! t = Some th ∧ entry_ok th s
  | FStubEnd | FTimerLoop => current s ≠ idle_thread
  | FFinish | FBoot => False
  | FJoin t _ _ => zombie s t ∧ reapable s t
  | FSleep _ t _ => destroyable s (thread_timer t)
  | FDestroy p _ => destroyable s p
  | FTimerRan p => is_Some (k_timers s !! p)
  | FUser _ _ | FIdle | FSwitch _ | FSchedule _ | FSuspend _ | FSleepEnd _ _ _ | FException _ => True
  end.

(** The idle thread only yields; a thread sleeps with its own timer, which is not
    pending then; a thread that is reaped has finished. *)
Definition allowed (c : kcall) s : Prop :=
  match c with
  | CallYield | CallCreate _ _ _ | CallTick => True
  | CallSuspend | CallFinish _ => current s ≠ idle_thread
  | CallWakeup t => is_Some (k_threads s !! t)
  | CallSleep _ _ => current s ≠ idle_thread ∧ ¬ pending s (thread_timer (current s))
  | CallJoin t _ => current s ≠ idle_thread ∧ is_Some (k_threads s !! t) ∧ (zombie s t → reapable s t)
  | CallTimerDestroy p => destroyable s p
  | CallResume => ∃ f st, k_stack s = f :: st ∧ frame_ok f s
  end.

(** ** The invariant *)

(** A pending timer is that of a thread, which it wakes up. *)
Definition timeout_pending s (p : Z) : Prop :=
  ∃ t tm, p = thread_timer t ∧ is_Some (k_threads s !! t) ∧ k_timers s !! p = Some tm ∧
    ti_handler tm = CTimeout ∧ ti_data tm = t.

Record kinv0 g s : Prop := KInv {
  ki_static : kh_static (run_queue runnable_list s) ∧ kh_static timers_list;
  ki_sched : sched_rep runnable_list s (g_sched g);
  ki_idle : idle_thread ∈ sc_queue (g_sched g);
  ki_timers : timers_rep runnable_list timers_list s (g_timers g);
  ki_pending p : p ∈ g_timers g → timeout_pending s p;
  ki_joiner t th : k_threads s !! t = Some th → th_joiner th = NULL ∨ is_Some (k_threads s !! th_joiner th);
  ki_timer_thread : is_Some (k_threads s !! k_timer_thread s);
  ki_types : typed s (g_types g) (g_live g);
  ki_heap : kh_rep (k_heap s) (g_live g) owned;
}.

(** Between two calls the current thread is running. *)
Definition kinv g s : Prop := kinv0 g s ∧ running (g_sched g).

Definition g_with a g : ghost := Ghost a (g_timers g) (g_types g) (g_live g).

Lemma g_with_same g : g_with (g_sched g) g = g.
Proof. by destruct g. Qed.

Lemma kinv_current g s : kinv0 g s → current s = sc_current (g_sched g).
Proof. intros Hk. unfold current. destruct (ki_sched _ _ Hk) as (_ & _ & -> & _). done. Qed.

Lemma kinv_pending g s p : kinv0 g s → pending s p ↔ p ∈ g_timers g.
Proof.
  intros Hk. destruct (ki_timers _ _ Hk) as (Hl & _). split; [|by exists (g_timers g)].
  intros (ts & Hts & Hp). by rewrite (is_list_unique _ _ _ _ Hts Hl) in Hp.
Qed.

(** ** Preservation *)
Lemma erase_joiner s s' :
  erase <$> k_threads s' = erase <$> k_threads s →
  (∀ t th, k_threads s !! t = Some th → th_joiner th = NULL ∨ is_Some (k_threads s !! th_joiner th)) →
  ∀ t th, k_threads s' !! t = Some th → th_joiner th = NULL ∨ is_Some (k_threads s' !! th_joiner th).
Proof.
  intros He Hj t th Ht. destruct (erase_vmm s s' t th He Ht) as (th0 & Ht0 & E).
  apply (f_equal th_joiner) in E. cbn in E. rewrite E.
  destruct (Hj t th0 Ht0) as [?|?]; [by left|right]. by apply (erase_some s s').
Qed.

(** Scheduling. *)
Lemma kinv0_frame g s s' a :
  kinv0 g s → sched_rep runnable_list s' a → idle_thread ∈ sc_queue a → sched_frame runnable_list s s' →
  kinv0 (g_with a g) s'.
Proof.
  intros [K1 K2 K3 K4 K5 K6 K7 K8 K9] Hr Hi Hf.
  pose proof Hf as (_ & Fe & Fh & _ & Fti & _ & _ & _ & Fc & _ & _ & _ & _ & _ & Ftt & _).
  split; cbn [g_sched g_timers g_types g_live g_with]; try done.
  - by rewrite (run_queue_cpu runnable_list s s').
  - by apply (timers_rep_frame s).
  - intros p Hp. destruct (K5 p Hp) as (t & tm & ? & ? & ? & ?). exists t, tm. rewrite Fti.
    split_and!; try tauto. by apply (erase_some s s').
  - by apply (erase_joiner s).
  - rewrite Ftt. by apply (erase_some s s').
  - apply (typed_shape s); [|done]. by eapply frame_shape.
  - rewrite Fh. by apply kh_rep_status.
Qed.

Lemma schedule_idle a : idle_thread ∈ sc_queue a → idle_thread ∈ sc_queue (a_schedule a) ∧ sc_queue a ≠ [].
Proof.
  intros Hi. split; [by apply schedule_queued|]. intros E. rewrite E in Hi. by apply elem_of_nil in Hi.
Qed.

Lemma kinv_schedule g s :
  kinv0 g s → ∃ s', schedule runnable_list s = Ok (tt, s') ∧ kinv (g_with (a_schedule (g_sched g)) g) s'.
Proof.
  intros Hk. pose proof (ki_sched _ _ Hk) as Hr. destruct (schedule_rep s _ Hr) as (s' & He & Hr' & Hf & _).
  destruct (schedule_idle _ (ki_idle _ _ Hk)) as [Hi Hq]. exists s'. split; [done|]. split.
  - by apply (kinv0_frame g s).
  - by apply sched_ok_schedule; [apply Hr|].
Qed.

Lemma same_status (h : H) : ∃ v, h = set_cp0_status v h.
Proof. exists (cp0_status h). symmetry. apply set_cp0_status_same. Qed.

(** The stack, the Status register, the clock and the like do not matter. *)
Lemma kinv0_ext g s s' :
  k_links s' = k_links s → k_threads s' = k_threads s → k_current s' = k_current s → k_cpu s' = k_cpu s →
  k_vmms s' = k_vmms s → k_timers s' = k_timers s → k_processes s' = k_processes s → k_uthreads s' = k_uthreads s →
  k_timer_thread s' = k_timer_thread s → (∃ v, k_heap s' = set_cp0_status v (k_heap s)) → kinv0 g s → kinv0 g s'.
Proof.
  intros E1 E2 E3 E4 E5 E6 E7 E8 E9 [v E10] [K1 K2 K3 K4 K5 K6 K7 K8 K9].
  split; rewrite ?E1, ?E2, ?E9; try done.
  - by rewrite (run_queue_cpu runnable_list s s').
  - by apply (rep_ext _ s).
  - apply (timers_rep_ext _ _ s); try done. intros t. by rewrite E6.
  - intros p Hp. unfold timeout_pending. rewrite E2, E6. by apply K5.
  - apply (typed_shape s); [|done]. unfold same_shape. by rewrite E1, E2, E5, E6, E7, E8.
  - rewrite E10. by apply kh_rep_status.
Qed.

(** A field of a thread that neither scheduling nor typing looks at. *)
Lemma kinv0_thread g s t th th' :
  kinv0 g s → k_threads s !! t = Some th → th_state th' = th_state th → th_vmm th' = th_vmm th →
  th_stack_data th' = th_stack_data th →
  (th_joiner th' = NULL ∨ is_Some (k_threads s !! th_joiner th')) →
  kinv0 g (set_k_threads <[t := th']> s).
Proof.
  intros [K1 K2 K3 K4 K5 K6 K7 K8 K9] Ht Es Ev Ed Ej.
  assert (Hup : ∀ u, is_Some (k_threads s !! u) → is_Some (<[t := th']> (k_threads s) !! u)).
  { intros u Hu. rewrite lookup_insert_is_Some'. by right. }
  split; try done; cbn [k_threads k_timers set_k_threads k_timer_thread].
  - by apply (rep_upd _ _ _ th).
  - destruct K4 as (L1 & L2 & L3). split_and!; try done. intros p Hp. destruct (L3 p Hp) as [E1 E2]. split; [|done].
    cbn. rewrite lookup_insert_ne; [done|]. intros ->. congruence.
  - intros p Hp. destruct (K5 p Hp) as (u & tm & E1 & E2 & E3 & E4). exists u, tm. split_and!; try tauto. by apply Hup.
  - intros u uth [[<- <-]|[_ Hu]]%lookup_insert_Some.
    + destruct Ej; [by left|right]. by apply Hup.
    + destruct (K6 u uth Hu); [by left|right]. by apply Hup.
  - by apply Hup.
  - apply (typed_shape s); [|done]. split_and!; try done. intros u. cbn.
    destruct (decide (u = t)) as [->|]; [rewrite lookup_insert_eq, Ht; cbn; congruence|by rewrite lookup_insert_ne].
Qed.

(** ** The calls *)

(** The computation returns and leaves the invariant. *)
Definition keeps (m : KM (kernel H) unit) s : Prop := ∃ s' g', m s = Ok (tt, s') ∧ kinv g' s'.

Definition safe (c : kcall) s : Prop := keeps (exec_call c) s.

Lemma keeps_after {A} (n : KM (kernel H) A) (k : A → KM (kernel H) unit) s s1 x :
  n s = Ok (x, s1) → keeps (k x) s1 → keeps (n ≫= k) s.
Proof. intros He (s' & g' & Hm & Hk). exists s', g'. split; [|done]. by erewrite bind_ok by exact He. Qed.

Lemma kinv_keeps g s s' m : m s = Ok (tt, s') → kinv g s' → keeps m s.
Proof. intros He Hk. by exists s', g. Qed.

Lemma block_idle st a : sc_current a ≠ idle_thread → idle_thread ∈ sc_queue a → idle_thread ∈ sc_queue (a_block st a).
Proof. intros Hc Hi. cbn. apply list_elem_of_filter. split; [|done]. by intros ->. Qed.

Lemma wakeup_idle t a : idle_thread ∈ sc_queue a → idle_thread ∈ sc_queue (a_wakeup t a).
Proof. intros Hi. unfold a_wakeup. case_bool_decide; [|done]. cbn. apply elem_of_app. by left. Qed.

Lemma safe_yield g s : kinv g s → safe CallYield s.
Proof. intros [Hk _]. destruct (kinv_schedule g s Hk) as (s' & He & Hk'). by exists s', (g_with (a_schedule (g_sched g)) g). Qed.

Lemma safe_suspend g s : kinv g s → current s ≠ idle_thread → safe CallSuspend s.
Proof.
  intros [Hk Hrun] Hne. rewrite (kinv_current g s Hk) in Hne.
  destruct (suspend_rep (runnable_list := runnable_list) s _ (ki_sched _ _ Hk) Hrun) as (s' & He & Hr' & Hf & _).
  destruct (schedule_idle (a_block THREAD_SLEEPING (g_sched g))) as [Hi Hq]; [apply block_idle; [done|apply (ki_idle _ _ Hk)]|].
  exists s', (g_with (a_schedule (a_block THREAD_SLEEPING (g_sched g))) g). split; [done|]. split.
  - by apply (kinv0_frame g s).
  - apply sched_ok_schedule; [|done]. apply sched_ok_block; [apply (ki_sched _ _ Hk)|]. by intros [|].
Qed.

Lemma safe_wakeup g s t : kinv g s → is_Some (k_threads s !! t) → safe (CallWakeup t) s.
Proof.
  intros [Hk Hrun] Ht. destruct (wakeup_rep (runnable_list := runnable_list) s _ t (ki_sched _ _ Hk) Ht) as (s' & He & Hr' & Hf & _).
  exists s', (g_with (a_wakeup t (g_sched g)) g). split; [cbn; by erewrite bind_ok by exact He|]. split.
  - apply (kinv0_frame g s); try done. apply wakeup_idle, (ki_idle _ _ Hk).
  - by apply wakeup_running.
Qed.

(** After the current thread has left the run queue and something woken up, there is
    still a thread to run. *)
Lemma finish_idle joiner a :
  sc_current a ≠ idle_thread → idle_thread ∈ sc_queue a → idle_thread ∈ sc_queue (a_finish joiner a).
Proof.
  intros Hc Hi. unfold a_finish. pose proof (block_idle THREAD_ZOMBIE a Hc Hi). case_bool_decide; [|done]. by apply wakeup_idle.
Qed.

Lemma safe_finish g s retval : kinv g s → current s ≠ idle_thread → safe (CallFinish retval) s.
Proof.
  intros [Hk Hrun] Hne. rewrite (kinv_current g s Hk) in Hne. set (a := g_sched g) in *.
  pose proof (ki_sched _ _ Hk) as Hr. destruct (rep_current _ s a Hr) as (tho & Ho & _).
  destruct (finish_rep s a tho retval Hr Hrun Ho (ki_joiner _ _ Hk _ _ Ho)) as (s4 & He & Hr4 & Hf4 & _).
  assert (Hk0 : kinv0 g (set_k_threads (alter (set_th_retval retval) (sc_current a)) s)).
  { replace (set_k_threads (alter (set_th_retval retval) (sc_current a)) s)
      with (set_k_threads <[sc_current a := set_th_retval retval tho]> s).
    - apply (kinv0_thread g s _ tho); try done. exact (ki_joiner _ _ Hk _ _ Ho).
    - apply kernel_ext; try reflexivity. cbn. apply map_eq. intros u. destruct (decide (u = sc_current a)) as [->|].
      + by rewrite lookup_insert_eq, lookup_alter_eq, Ho.
      + by rewrite lookup_insert_ne, lookup_alter_ne. }
  assert (Hk4 : kinv0 (g_with (a_finish (th_joiner tho) a) g) s4).
  { eapply kinv0_frame; [exact Hk0|done| |done]. apply finish_idle; [done|apply (ki_idle _ _ Hk)]. }
  destruct (kinv_schedule (g_with (a_finish (th_joiner tho) a) g) (set_k_stack (FFinish :: k_stack s4) s4)) as (s' & He' & Hk').
  { apply (kinv0_ext _ s4); try done. exact (same_status (k_heap s4)). }
  exists s', (g_with (a_schedule (a_finish (th_joiner tho) a)) (g_with (a_finish (th_joiner tho) a) g)).
  split; [|exact Hk']. cbn [exec_call]. rewrite He. by erewrite bind_ok by reflexivity.
Qed.

(** *** Joining *)
Lemma reaped_kinv g s t th retval status s' :
  kinv g s → k_threads s !! t = Some th → th_state th = THREAD_ZOMBIE → reapable s t →
  reaped runnable_list s (g_sched g) t th retval (g_types g) (g_live g) owned status s' →
  ∃ g', kinv g' s'.
Proof.
  intros [Hk Hrun] Hth Hz (Htt & Hnp & Hj) [R1 R2 R3 R4 R5 R6 R7 R8 (_ & _ & _ & Ec & _ & _ & Et)].
  rewrite (kinv_pending g s _ Hk) in Hnp. pose proof Hk as [[K1 K1'] K2 K3 K4 K5 K6 K7 K8 K9].
  assert (Hty : g_types g !! t = Some TThread) by (apply (ty_threads _ _ _ K8); by eexists).
  assert (Hkeep : ∀ u, is_Some (k_threads s !! u) → u ≠ t → is_Some (k_threads s' !! u)).
  { intros u Hu Hne. rewrite R2. by rewrite lookup_delete_ne. }
  assert (Hlink : ∀ p, p ∈ timers_list :: g_timers g → ¬ thread_link t p).
  { intros p [->|Hp]%elem_of_cons Hl.
    - by apply (link_not_static s _ _ owned t timers_list K8 K9 Hty Hl).
    - destruct (K5 p Hp) as (u & tm & -> & Hu & _). apply (ty_threads _ _ _ K8) in Hu.
      assert (t = u) as <- by (eapply (link_owner s); [exact K8|exact K9|done|done|exact Hl|]; by right; left). done. }
  exists (Ghost (Scheduler (sc_queue (g_sched g)) (sc_current (g_sched g)) (delete t (sc_state (g_sched g)))) (g_timers g)
    (delete t (delete (th_stack_data th) (g_types g))) (delete t (delete (th_stack_data th) (g_live g)))).
  split.
  - split; cbn [g_sched g_timers g_types g_live]; try done.
    + by rewrite (run_queue_cpu runnable_list s s').
    + destruct K4 as (L1 & L2 & L3). split_and!.
      * apply (is_list_agree (k_links s)); [|done]. intros p Hp. by apply R5, Hlink.
      * intros p Hp. rewrite R6 by (intros ->; by apply Hnp). by apply L2.
      * intros p Hp. destruct (L3 p Hp) as [E1 E2]. rewrite (run_queue_cpu runnable_list s s') by done. split; [|done].
        rewrite R2. apply lookup_delete_None. by right.
    + intros p Hp. destruct (K5 p Hp) as (u & tm & -> & Hu & E3 & E4). exists u, tm.
      assert (thread_timer u ≠ thread_timer t) by (intros E; rewrite E in Hp; by apply Hnp).
      split_and!; try tauto; [|by rewrite R6]. apply Hkeep; [done|]. by intros ->.
    + intros u uth. rewrite R2. intros [_ Hu]%lookup_delete_Some.
      destruct (K6 u uth Hu) as [?|?]; [by left|right]. rewrite <- R2. apply Hkeep; [done|]. by eapply Hj.
    + rewrite Et. by apply Hkeep.
  - unfold running in *. cbn. rewrite lookup_delete_ne; [done|]. intros ->.
    pose proof (rep_state _ s _ _ th K2 Hth). congruence.
Qed.

Lemma zombie_thread s t : zombie s t → ∃ th, k_threads s !! t = Some th ∧ th_state th = THREAD_ZOMBIE.
Proof. unfold zombie. destruct (k_threads s !! t) as [th|]; [|done]. intros [= Hz]. by exists th. Qed.

Lemma keeps_reap g s t retval state :
  kinv g s → zombie s t → reapable s t → keeps (thread_join_reap t retval state) s.
Proof.
  intros Hk (th & Hth & Hz)%zombie_thread Hr. pose proof Hk as [[[K1 K1'] K2 K3 K4 K5 K6 K7 K8 K9] Hrun].
  destruct (reap_exec runnable_list s _ t th retval _ _ owned state K2 Hrun K8 K9 K1 Hth Hz) as (s' & He & Hreap).
  destruct (reaped_kinv g s t th retval _ s' Hk Hth Hz Hr Hreap) as [g' Hk']. by exists s', g'.
Qed.

Lemma safe_join g s t retval :
  kinv g s → current s ≠ idle_thread → is_Some (k_threads s !! t) → (zombie s t → reapable s t) →
  safe (CallJoin t retval) s.
Proof.
  intros Hk Hne [th Hth] Hz. pose proof Hk as [Hk0 Hrun]. pose proof Hk0 as [[K1 K1'] K2 K3 K4 K5 K6 K7 K8 K9].
  rewrite (kinv_current g s Hk0) in Hne. set (a := g_sched g) in *.
  destruct (join_exec runnable_list s a t th retval _ _ owned K2 Hrun K8 K9 K1 Hth) as (s' & He & Hs').
  exists s'. destruct (joinable (sc_current a) t th).
  - case_bool_decide as E.
    + destruct (reaped_kinv g s t th retval (cp0_status s) s' Hk Hth E) as [g' Hk']; [|exact Hs'|by exists g'].
      apply Hz. unfold zombie. rewrite Hth. cbn. congruence.
    + destruct Hs' as (Hr' & Hf & _).
      destruct (schedule_idle (a_block THREAD_SLEEPING a)) as [Hi Hq]; [by apply block_idle|].
      exists (g_with (a_schedule (a_block THREAD_SLEEPING a)) g). split; [done|]. split.
      * eapply (kinv0_frame g (set_k_threads <[t := set_th_joiner (sc_current a) th]> s)); try done.
        apply (kinv0_thread g s _ th); try done. right. destruct (rep_current _ s a K2) as (tho & Ho & _). by exists tho.
      * apply sched_ok_schedule; [|done]. apply sched_ok_block; [apply K2|]. by intros [|].
  - exists g. split; [done|]. split; [|done]. subst s'. apply (kinv0_ext g s); try done.
    exact (same_status (k_heap s)).
Qed.
End system.
