(* ===== verification/SystemTheorems.v ===== *)
(** * The running kernel: timers, creation of threads, and all calls together *)
From S2P Require Import Prelude CList Cpu Malloc KHeap KTime Tlb Kernel Sched Vmm Threads Timers SchedExec SchedSpec.
From S2P Require Import SchedRefine SchedOps VmmTheorems ThreadCreate TimerSpec TimerTheorems Process Typing Join System.

Section system.
  Context {H : Type} `{KernelHeapLaws H}.
  Context (runnable_list timers_list idle_thread : Z) (owned : Z → Prop).
  Context (junk_thread : thread) (junk_timer : timer) (junk_link : link_t).
  Implicit Types (s : kernel H) (a : sched) (g : ghost).
  Abbreviation kinv0 := (kinv0 runnable_list timers_list idle_thread owned).
  Abbreviation kinv := (kinv runnable_list timers_list idle_thread owned).
  Abbreviation keeps := (keeps runnable_list timers_list idle_thread owned).
  Abbreviation safe := (safe runnable_list timers_list idle_thread owned junk_thread junk_timer junk_link).
  Abbreviation pending := (pending timers_list).
  Abbreviation timer_links := (timer_links timers_list).

(** ** Changes of the pending timers *)
Definition with_timers (ts : list Z) g : ghost := Ghost (g_sched g) ts (g_types g) (g_live g).

Definition retimed (l : links) (tms : gmap Z timer) s : kernel H := set_k_timers (λ _, tms) (set_k_links (λ _, l) s).

Lemma kinv0_retimed g s l tms ts :
  kinv0 g s → let s' := retimed l tms s in
  sched_rep runnable_list s' (g_sched g) → timers_rep runnable_list timers_list s' ts →
  (∀ p, is_Some (l !! p) ↔ is_Some (k_links s !! p)) → (∀ p, is_Some (tms !! p) ↔ is_Some (k_timers s !! p)) →
  (∀ p, p ∈ ts → timeout_pending s' p) → kinv0 (with_timers ts g) s'.
Proof.
  intros [K1 K2 K3 K4 K5 K6 K7 K8 K9] s' Hr Ht Hl Htm Hp. split; try done. by apply (typed_shape s).
Qed.

Lemma timer_links_domain s ts ts' l p :
  timers_rep runnable_list timers_list s ts → (∀ q, q ∈ ts' → is_Some (k_links s !! q)) →
  timer_links s ts' l → (∀ q, q ∈ timers_list :: ts' → is_Some (l !! q)) →
  is_Some (l !! p) ↔ is_Some (k_links s !! p).
Proof.
  intros (Hl & _) Hts Htl Hin. destruct (decide (p ∈ timers_list :: ts')) as [Hp|Hp]; [|by rewrite Htl].
  split; intros _; [|by apply Hin]. apply elem_of_cons in Hp as [->|Hp]; [|by apply Hts].
  destruct (is_list_mapped _ _ _ timers_list Hl) as [Hm _]; [left|]. by apply fmap_is_Some in Hm.
Qed.

Lemma timers_rep_link s ts p : timers_rep runnable_list timers_list s ts → p ∈ timers_list :: ts → is_Some (k_links s !! p).
Proof. intros (Hl & _) Hp. destruct (is_list_mapped _ _ _ p Hl Hp) as [Hm _]. by apply fmap_is_Some in Hm. Qed.

(** *** Sleeping *)
Lemma own_timer g s :
  kinv g s → ¬ pending s (thread_timer (current s)) →
  idle_timer runnable_list timers_list s (g_timers g) (thread_timer (sc_current (g_sched g))).
Proof.
  intros [Hk Hrun] Hp. rewrite (kinv_current _ _ _ _ g s Hk), (kinv_pending _ _ _ _ g s _ Hk) in Hp.
  pose proof Hk as [[K1 K1'] K2 K3 K4 K5 K6 K7 K8 K9]. set (t := sc_current (g_sched g)) in *.
  destruct (rep_current _ s _ K2) as (th & Hth & _). fold t in Hth.
  assert (Hty : g_types g !! t = Some TThread) by (apply (ty_threads _ _ _ K8); by eexists).
  assert (Hlk : thread_link t (thread_timer t)) by (by right; left).
  assert (Hst : ∀ x, kh_static x → thread_timer t ≠ x).
  { intros x Hx E. rewrite E in Hlk. by apply (link_not_static s _ _ owned t x K8 K9 Hty Hlk). }
  destruct (ty_blocks _ _ _ K8 _ _ Hty) as (n & Hn & _). destruct (kh_rep_apart _ _ _ t n K9 Hn) as (Ht0 & _).
  split_and!.
  - unfold thread_timer, NULL. lia.
  - by apply (ty_timer _ _ _ K8).
  - by apply (ty_links _ _ _ K8 t).
  - intros [Hx|Hx]%elem_of_cons; [by apply (Hst timers_list)|done].
  - apply eq_None_not_Some. intros Hx. apply (ty_threads _ _ _ K8) in Hx.
    assert (Heq : t = thread_timer t) by (by eapply (link_owner s); [..|left]). unfold thread_timer in Heq. lia.
  - by apply Hst.
Qed.

Lemma safe_sleep g s usec amount :
  kinv g s → current s ≠ idle_thread → ¬ pending s (thread_timer (current s)) → safe (CallSleep usec amount) s.
Proof.
  intros Hk Hne Hp. pose proof (own_timer g s Hk Hp) as Hidle. pose proof Hk as [Hk0 Hrun].
  rewrite (kinv_current _ _ _ _ g s Hk0) in Hne. pose proof Hk0 as [_ K2 K3 K4 K5 _ _ _ _]. set (a := g_sched g) in *.
  destruct (sleep_blocked runnable_list timers_list s a (g_timers g) usec amount K2 Hrun K4 Hidle)
    as (s1 & s3 & l & He & Hr1 & Hf1 & _ & E3 & _ & Hr3 & Ht3 & Hl).
  set (t := thread_timer (sc_current a)) in *. set (tm := Timer _ _ false CTimeout (sc_current a)) in E3.
  assert (Hk1 : kinv0 (g_with (a_block THREAD_SLEEPING a) g) s1) by (eapply kinv0_frame; try done; by apply block_idle).
  assert (Hti : k_timers s1 = k_timers s) by apply Hf1.
  set (s2 := retimed l (<[t := tm]> (k_timers s1)) s1).
  assert (Hk2 : kinv0 (with_timers (g_timers g ++ [t]) (g_with (a_block THREAD_SLEEPING a) g)) s2).
  { apply kinv0_retimed; [done|..].
    - apply (rep_ext _ s3); [by rewrite E3..|done].
    - apply (timers_rep_ext _ _ s3); [by rewrite E3..| |done]. intros p. by rewrite E3.
    - intros p. apply (timer_links_domain s1 (g_timers g) (t :: g_timers g)); [apply Hk1| |done|].
      + intros q [->|Hq]%elem_of_cons; [|eapply timers_rep_link; [apply (ki_timers _ _ _ _ _ _ Hk1)|by right]].
        destruct Hidle as (_ & _ & Hlk & _ & Hnt & Hnq). destruct Hf1 as (F1 & _). by rewrite F1.
      + intros q Hq. change l with (k_links (set_k_links (λ _, l) s1)). replace l with (k_links s3) by (by rewrite E3).
        apply (timers_rep_link s3 (g_timers g ++ [t])); [done|]. set_solver.
    - intros p. rewrite lookup_insert_is_Some'. split; [|by right]. intros [<-|?]; [|done]. rewrite Hti. apply Hidle.
    - intros p. rewrite elem_of_app, list_elem_of_singleton. intros [Hin| ->].
      + destruct (ki_pending _ _ _ _ _ _ Hk1 p Hin) as (u & tmu & Hx). exists u, tmu. cbn.
        rewrite lookup_insert_ne; [exact Hx|]. intros <-. destruct Hidle as (_ & _ & _ & Hn & _). apply Hn. by right.
      + destruct (rep_current _ s1 _ Hr1) as (th & Hth & _). exists (sc_current a), tm.
        split_and!; [done|by eexists|apply lookup_insert_eq|done..]. }
  destruct (kinv_schedule runnable_list timers_list idle_thread owned (with_timers (g_timers g ++ [t]) (g_with (a_block THREAD_SLEEPING a) g)) s3)
    as (s' & He' & Hk').
  { apply (kinv0_ext _ _ _ _ _ s2); try (by rewrite E3); try done. rewrite E3. exact (same_status (k_heap s1)). }
  eexists s', _. split; [|exact Hk']. cbn [exec_call]. by rewrite He.
Qed.

(** *** Creation *)
Lemma safe_create g s entry data flags : kinv g s → safe (CallCreate entry data flags) s.
Proof.
  intros [Hk Hrun]. pose proof Hk as [[K1 K1'] K2 K3 K4 K5 K6 K7 K8 K9]. set (a := g_sched g) in *.
  destruct (rep_current _ s a K2) as (cur & Hcur & _).
  destruct (create_exec runnable_list junk_thread junk_timer junk_link s a cur _ owned entry data flags K2 Hcur K9
    (typed_objects s _ _ K8)) as (rc & t & s' & He & [(_ & _ & _ & h & -> & Hrep & _)|(_ & Hcr)]).
  - exists (set_k_heap h s), g. split; [cbn; by erewrite bind_ok by exact He|]. split; [|done].
    split; try done. by apply (typed_shape s).
  - destruct (typed_created runnable_list s a _ _ owned entry data flags cur t s' K8 Hcur Hcr)
      as (types' & live' & Hty & Hrep & Hsub & Htt).
    destruct Hcr as [[Ht0 Htn] Hr' _ Hlk (live2 & stk & v & n & _ & _ & _ & HT & _) (Ec & Ett & _ & Htm & _ & _)].
    assert (Hup : ∀ u, is_Some (k_threads s !! u) → is_Some (k_threads s' !! u)).
    { intros u Hu. rewrite HT. rewrite lookup_insert_is_Some'. by right. }
    assert (Hold : ∀ p, p ∈ timers_list :: g_timers g → ¬ thread_link t p).
    { intros p [->|Hp]%elem_of_cons Hl; [by eapply (link_not_static s'); [exact Hty|exact Hrep|exact Htt|exact Hl|]|].
      destruct (K5 p Hp) as (u & tm & -> & Hu & _).
      assert (t = u) as <-.
      { eapply (link_owner s'); [exact Hty|exact Hrep|done| |exact Hl|by right; left].
        by apply (ty_threads _ _ _ Hty), Hup. }
      rewrite Htn in Hu. by destruct Hu. }
    exists s', (Ghost (a_create t a) (g_timers g) types' live'). split; [cbn; by erewrite bind_ok by exact He|]. split.
    + split; try done; cbn [g_sched g_timers g_types g_live].
      * by rewrite (run_queue_cpu runnable_list s s').
      * apply elem_of_app. by left.
      * destruct K4 as (L1 & L2 & L3). split_and!.
        -- apply (is_list_agree (k_links s)); [|done]. intros p Hp. destruct (L3 p Hp) as [? ?].
           apply Hlk; [|done..]. by apply (timers_rep_link s (g_timers g)).
        -- intros p Hp. rewrite Htm; [by apply L2|]. intros ->. eapply Hold; [by right|by right; left].
        -- intros p Hp. destruct (L3 p Hp) as [E1 E2]. rewrite (run_queue_cpu runnable_list s s') by done.
           split; [|done]. rewrite HT, lookup_insert_ne; [done|]. intros <-. by eapply Hold; [|left].
      * intros p Hp. destruct (K5 p Hp) as (u & tm & -> & Hu & Hx). exists u, tm.
        split_and!; [done|by apply Hup| |apply Hx..]. rewrite Htm; [apply Hx|]. intros E. eapply Hold; [by right|].
        rewrite E. by right; left.
      * intros u uth. rewrite HT. intros [[<- <-]|[_ Hu]]%lookup_insert_Some; [by left|].
        destruct (K6 u uth Hu) as [?|?]; [by left|right]. rewrite <- HT. by apply Hup.
      * rewrite Ett. by apply Hup.
    + unfold running in *. cbn. rewrite lookup_insert_ne; [done|]. intros ->. congruence.
Qed.

(** *** The timer interrupt and the timer thread *)
Lemma timers_run_idle t found a : idle_thread ∈ sc_queue a → idle_thread ∈ sc_queue (a_timers_run t found a).
Proof. intros Hi. destruct found; [|done]. by apply wakeup_idle. Qed.

Lemma timers_run_running t found a : running a → running (a_timers_run t found a).
Proof. intros Hr. destruct found; [|done]. by apply wakeup_running. Qed.

Lemma timers_run_ok t found a : sched_ok a → sched_ok (a_timers_run t found a).
Proof. intros Hr. destruct found; [|done]. by apply sched_ok_wakeup. Qed.

Lemma safe_tick g s : kinv g s → safe CallTick s.
Proof.
  intros [Hk Hrun]. pose proof (ki_sched _ _ _ _ _ _ Hk) as Hr. destruct (rep_current _ s _ Hr) as (cur & Hcur & _).
  destruct (sched_timer_exec runnable_list timers_list s _ (g_timers g) cur Hr (ki_timers _ _ _ _ _ _ Hk)
    (ki_timer_thread _ _ _ _ _ _ Hk) Hcur) as (s' & He & Hr' & Hf & _).
  set (s1 := set_k_compare _ _) in *. set (a1 := a_timers_run _ _ _) in *. set (expired := THREAD_QUANTUM <=? _) in *.
  assert (Hi : idle_thread ∈ sc_queue a1) by (apply timers_run_idle, (ki_idle _ _ _ _ _ _ Hk)).
  destruct (schedule_idle idle_thread a1 Hi) as [Hi' Hq].
  assert (Hk1 : kinv0 g s1) by (apply (kinv0_ext _ _ _ _ g s); try done; exact (same_status (k_heap s))).
  exists s', (g_with (if expired then a_schedule a1 else a1) g). split; [exact He|]. split.
  - apply (kinv0_frame _ _ _ _ g s1); try done. by destruct expired.
  - destruct expired; cbn [g_sched g_with].
    + apply sched_ok_schedule; [|done]. apply timers_run_ok, Hr.
    + by apply timers_run_running.
Qed.

Lemma links_of s a ts l :
  sched_rep runnable_list s a → timers_rep runnable_list timers_list s ts → timer_links s ts l →
  sched_rep runnable_list (set_k_links (λ _, l) s) a.
Proof. intros Hr Ht Hl. apply (timer_links_rep (timers_list := timers_list) s a ts l Hr); [apply Ht|exact Hl]. Qed.

Lemma timer_update (m : gmap Z timer) t v p : is_Some (m !! t) → is_Some (<[t := v]> m !! p) ↔ is_Some (m !! p).
Proof. intros Ht. rewrite lookup_insert_is_Some'. split; [by intros [<-|?]|by right]. Qed.

(** A timer is removed. *)
Lemma kinv0_removed g s l p tms :
  kinv0 g s → p ∈ g_timers g → timer_links s (g_timers g) l → unlinked (M := links) l p →
  timers_rep runnable_list timers_list (set_k_links (λ _, l) s) (filter (λ u, u ≠ p) (g_timers g)) →
  (∀ q, q ≠ p → tms !! q = k_timers s !! q) → is_Some (tms !! p) →
  kinv0 (with_timers (filter (λ u, u ≠ p) (g_timers g)) g) (retimed l tms s).
Proof.
  intros Hk Hin Hl Hun Ht Htm Hp. pose proof Hk as [K1 K2 K3 K4 K5 K6 K7 K8 K9].
  assert (Hdom : ∀ q, is_Some (k_timers s !! q) ↔ is_Some (tms !! q)).
  { intros q. destruct (decide (q = p)) as [->|]; [|by rewrite Htm]. split; [done|]. intros _. by apply K4. }
  apply kinv0_retimed; [done|..].
  - apply (rep_ext _ (set_k_links (λ _, l) s)); try done. by apply (links_of s _ (g_timers g)).
  - apply (timers_rep_ext _ _ (set_k_links (λ _, l) s)); try done. intros q. apply Hdom.
  - intros q. apply (timer_links_domain s (g_timers g) (g_timers g)); try done.
    + intros u Hu. eapply timers_rep_link; [done|by right].
    + intros u Hu. destruct (decide (u = p)) as [->|Hne].
      * destruct Hun as [Hpr _]. cbn in Hpr. by apply fmap_Some in Hpr as (x & -> & _).
      * change l with (k_links (set_k_links (λ _, l) s)). apply (timers_rep_link _ _ _ Ht).
        apply elem_of_cons. apply elem_of_cons in Hu as [?|Hu]; [by left|right]. by apply list_elem_of_filter.
  - intros q. by rewrite Hdom.
  - intros q [Hne Hq]%list_elem_of_filter. destruct (K5 q Hq) as (t & tm & ? & ? & ? & ?). exists t, tm. cbn. by rewrite Htm.
Qed.

Lemma keeps_round g s :
  kinv g s → current s ≠ idle_thread → keeps (timer_thread_round runnable_list timers_list) s.
Proof.
  intros [Hk Hrun] Hne. pose proof Hk as [K1 K2 K3 K4 K5 K6 K7 K8 K9].
  destruct (List.find (due s) (g_timers g)) as [p|] eqn:Hfind.
  - destruct (find_split _ _ _ Hfind) as (xs & ys & Ets & _).
    assert (Hin : p ∈ g_timers g) by (rewrite Ets; set_solver).
    destruct (K5 p Hin) as (t & tm & Hp & Ht & Htm & Hh & Hd).
    destruct (round_found runnable_list timers_list s (g_timers g) p tm K4 Hfind) as (l & He & Hl & Hun & Ht').
    { split_and!; [done..|by rewrite Hd]. }
    assert (Hk2 : kinv0 (with_timers (filter (λ u, u ≠ p) (g_timers g)) g) (taken l p tm (k_stack s) s)).
    { eapply (kinv0_ext _ _ _ _ _ (retimed l (<[p := set_ti_running true tm]> (k_timers s)) s)); try done.
      - exact (same_status (k_heap s)).
      - apply kinv0_removed; try done; [|by rewrite lookup_insert_eq].
        intros q Hq. by rewrite lookup_insert_ne. }
    destruct (safe_wakeup _ _ _ _ junk_thread junk_timer junk_link _ _ (ti_data tm) (conj Hk2 Hrun)) as (s' & g' & He' & Hk').
    { by rewrite Hd. }
    exists s', g'. split; [|done]. by rewrite He.
  - assert (Hk2 : kinv0 g (set_k_stack (FTimerLoop :: k_stack s) s)).
    { apply (kinv0_ext _ _ _ _ g s); try done. exact (same_status (k_heap s)). }
    destruct (safe_suspend _ _ _ _ junk_thread junk_timer junk_link _ _ (conj Hk2 Hrun) Hne) as (s' & g' & He & Hk').
    exists s', g'. split; [|done]. by rewrite (round_none runnable_list timers_list s (g_timers g)).
Qed.

Lemma keeps_ran g s p : kinv g s → is_Some (k_timers s !! p) → keeps (timer_thread_ran p) s.
Proof.
  intros [Hk Hrun] [tm Htm]. pose proof Hk as [K1 K2 K3 K4 K5 K6 K7 K8 K9].
  eexists _, (with_timers (g_timers g) g). split; [by eapply timer_ran_exec|]. split; [|done].
  apply (kinv0_ext _ _ _ _ _ (retimed (k_links s) (<[p := set_ti_running false tm]> (k_timers s)) s)); try done.
  { exact (same_status (k_heap s)). }
  assert (Hup : ∀ q, is_Some (<[p := set_ti_running false tm]> (k_timers s) !! q) ↔ is_Some (k_timers s !! q)).
  { intros q. apply timer_update. by exists tm. }
  apply kinv0_retimed; try done.
  - apply (timers_rep_ext _ _ s); try done. intros q. apply Hup.
  - intros q Hq. destruct (K5 q Hq) as (t & tmq & Hx & Ht & Hq' & Hh). exists t. cbn.
    destruct (decide (p = q)) as [->|]; [|rewrite lookup_insert_ne by done; exists tmq; tauto].
    rewrite lookup_insert_eq. exists (set_ti_running false tm). replace tm with tmq by congruence. by destruct Hh.
Qed.

(** *** [timer_destroy] *)
Lemma pending_exec g s p :
  kinv0 g s → destroyable timers_list s p → timer_pending p s = Ok (bool_decide (p ∈ g_timers g), s).
Proof.
  intros Hk (Hp0 & _ & Hp). rewrite (kinv_pending _ _ _ _ g s p Hk) in Hp. unfold timer_pending.
  destruct (decide (p ∈ g_timers g)) as [Hin|Hn].
  - rewrite bool_decide_eq_true_2 by done. apply (link_connected_spec s timers_list (g_timers g)); [|by right].
    apply is_list_kernel, (ki_timers _ _ _ _ _ _ Hk).
  - rewrite bool_decide_eq_false_2 by done. destruct Hp as [?|[H1' H2']]; [done|].
    erewrite link_connected_exec; [|done|exact H1'|exact H2']. done.
Qed.

Lemma remove_exec g s p :
  kinv0 g s → destroyable timers_list s p → p ∈ g_timers g →
  ∃ s' g', timer_remove p s = Ok (tt, s') ∧ kinv0 g' s' ∧ g_sched g' = g_sched g ∧ p ∉ g_timers g' ∧
    destroyable timers_list s' p ∧ k_timers s' = k_timers s ∧ k_stack s' = k_stack s ∧ cp0_status s' = cp0_status s.
Proof.
  intros Hk (Hp0 & Htm & _) Hin.
  destruct (timer_remove_exec s (g_timers g) p (ki_timers _ _ _ _ _ _ Hk) Hin) as (l & He & Hl & Hun & Ht).
  eexists _, (with_timers (filter (λ u, u ≠ p) (g_timers g)) g). split; [exact He|]. split_and!; try done.
  - apply (kinv0_ext _ _ _ _ _ (retimed l (k_timers s) s)); try done; [exact (same_status (k_heap s))|].
    by apply kinv0_removed.
  - cbn. by intros [? _]%list_elem_of_filter.
  - split_and!; [done|done|by right].
Qed.

Lemma kinv_status g s v : kinv g s → kinv g (set_cp0_status v s).
Proof. intros [Hk Hrun]. split; [|done]. apply (kinv0_ext _ _ _ _ g s); try done. by exists v. Qed.

Lemma keeps_enable g s state : kinv g s → keeps (conditionally_enable_interrupts state) s.
Proof. intros Hk. eapply kinv_keeps; [apply cond_enable_exec|by apply kinv_status]. Qed.

Lemma kinv_stack g s st : kinv g s → kinv g (set_k_stack st s).
Proof. intros [Hk Hrun]. split; [|done]. apply (kinv0_ext _ _ _ _ g s); try done. exact (same_status (k_heap s)). Qed.

Lemma keeps_yield g s f : kinv g s → keeps (push_frame f ;; thread_yield runnable_list) s.
Proof.
  intros Hk. eapply keeps_after; [reflexivity|]. exact (safe_yield _ _ _ _ junk_thread junk_timer junk_link g _ (kinv_stack g s _ Hk)).
Qed.

Lemma destroy_idle fuel g s p status :
  kinv g s → destroyable timers_list s p → p ∉ g_timers g →
  timer_destroy_wait runnable_list fuel p status s =
    (running ← get_timer ti_running p;
     if (running : bool) then push_frame (FDestroy p status) ;; thread_yield runnable_list
     else conditionally_enable_interrupts status) s.
Proof.
  intros [Hk _] Hp Hn. assert (Hp' := Hp). destruct Hp' as (_ & [tm Htm] & _).
  assert (Hg : get_timer ti_running p s = Ok (ti_running tm, s)) by (by apply get_timer_ok).
  destruct fuel; cbn [timer_destroy_wait]; rewrite !(bind_ok _ _ _ _ _ Hg); destruct (ti_running tm); try done;
    (erewrite bind_ok by (by apply pending_exec)); by rewrite bool_decide_eq_false_2.
Qed.

Lemma keeps_destroy_idle fuel g s p status :
  kinv g s → destroyable timers_list s p → p ∉ g_timers g → keeps (timer_destroy_wait runnable_list fuel p status) s.
Proof.
  intros Hk Hp Hn. unfold System.keeps. rewrite (destroy_idle fuel g) by done. destruct Hp as (_ & [tm Htm] & _).
  erewrite bind_ok by (by apply get_timer_ok). destruct (ti_running tm); [by eapply keeps_yield|by eapply keeps_enable].
Qed.

Lemma keeps_destroy_wait g s p status :
  kinv g s → destroyable timers_list s p → keeps (timer_destroy_wait runnable_list 1 p status) s.
Proof.
  intros Hk Hp. destruct (decide (p ∈ g_timers g)) as [Hin|Hn]; [|by eapply keeps_destroy_idle].
  assert (Hp' := Hp). destruct Hp' as (_ & [tm Htm] & _). destruct Hk as [Hk Hrun].
  assert (Hg : get_timer ti_running p s = Ok (ti_running tm, s)) by (by apply get_timer_ok).
  unfold System.keeps. cbn [timer_destroy_wait]. rewrite !(bind_ok _ _ _ _ _ Hg). destruct (ti_running tm).
  - eapply keeps_yield. by split.
  - erewrite bind_ok by (by apply pending_exec). rewrite bool_decide_eq_true_2 by done.
    destruct (remove_exec g s p Hk Hp Hin) as (s1 & g1 & He & Hk1 & Hs1 & Hn1 & Hp1 & _).
    eapply keeps_after; [exact He|]. eapply (keeps_destroy_idle 0 g1); try done. split; [done|by rewrite Hs1].
Qed.

Lemma destroyable_ext s s' p :
  k_links s' = k_links s → k_timers s' = k_timers s → destroyable timers_list s p → destroyable timers_list s' p.
Proof. intros E1 E2. unfold destroyable, System.pending. by rewrite E1, E2. Qed.

Lemma keeps_destroy g s p : kinv g s → destroyable timers_list s p → keeps (timer_destroy runnable_list p) s.
Proof.
  intros Hk Hp. unfold System.keeps, timer_destroy. kexec_step.
  assert (Hkm : kinv g (ints_masked s)) by (by apply kinv_status).
  assert (Hpm : destroyable timers_list (ints_masked s) p) by (by apply (destroyable_ext s)).
  erewrite bind_ok by (apply (pending_exec g); [apply Hkm|done]). case_bool_decide as Hin.
  - destruct (remove_exec g (ints_masked s) p (proj1 Hkm) Hpm Hin) as (s1 & g1 & He & Hk1 & Hs1 & Hn1 & Hp1 & _).
    eapply keeps_after; [exact He|]. eapply (keeps_destroy_idle 1 g1); try done. split; [done|]. rewrite Hs1. apply Hkm.
  - eapply keeps_after; [reflexivity|]. by eapply keeps_destroy_idle.
Qed.

(** ** Going on *)
Lemma keeps_stub g s t th :
  kinv g s → k_threads s !! t = Some th → entry_ok th s → keeps (thread_stub runnable_list t) s.
Proof.
  intros Hk Ht Hen. unfold System.keeps, thread_stub. do 2 (erewrite bind_ok by (by apply get_thread_ok)).
  assert (Hk1 : kinv g (set_k_stack (FStubEnd :: k_stack s) s)) by (by apply kinv_stack).
  eapply keeps_after; [reflexivity|]. unfold entry_ok in Hen. destruct (th_entry_func th); [done| | | |].
  - eapply kinv_keeps; [reflexivity|]. by apply kinv_stack.
  - exact (safe_wakeup _ _ _ _ junk_thread junk_timer junk_link g _ _ Hk1 Hen).
  - eapply kinv_keeps; [reflexivity|]. by apply kinv_stack.
  - eapply kinv_keeps; [reflexivity|]. by apply kinv_stack.
Qed.

Lemma keeps_frame g s f :
  kinv g s → frame_ok timers_list idle_thread f s → keeps (run_frame runnable_list timers_list f) s.
Proof.
  intros Hk Hf. destruct f as [e d|t| | |st|st|st| | |t r st|u t st|u rem st|p st| |p|st]; cbn [run_frame]; cbn in Hf.
  - by eapply kinv_keeps.
  - destruct Hf as (th & Ht & Hen). by eapply keeps_stub.
  - eapply keeps_after; [reflexivity|]. exact (safe_finish _ _ _ _ junk_thread junk_timer junk_link g _ _ Hk Hf).
  - by eapply keeps_yield.
  - by eapply keeps_enable.
  - by eapply keeps_enable.
  - by eapply keeps_enable.
  - done.
  - done.
  - destruct Hf. by eapply keeps_reap.
  - assert (Hp := Hf). destruct Hp as (_ & [tm Htm] & _). unfold thread_sleep_woken.
    eapply keeps_after; [by apply get_timer_ok|]. do 2 (eapply keeps_after; [reflexivity|]).
    eapply keeps_destroy; [by apply kinv_stack|by apply (destroyable_ext s)].
  - unfold thread_sleep_end. eapply keeps_after; [apply cond_enable_exec|]. eapply kinv_keeps; [reflexivity|].
    destruct Hk as [Hk Hrun]. split; [|done]. apply (kinv0_ext _ _ _ _ g s); try done. by exists (with_ie st (cp0_status s)).
  - by eapply keeps_destroy_wait.
  - by eapply keeps_round.
  - by eapply keeps_ran.
  - eapply kinv_keeps; [reflexivity|by apply kinv_status].
Qed.

Lemma safe_resume g s f st :
  kinv g s → k_stack s = f :: st → frame_ok timers_list idle_thread f s → safe CallResume s.
Proof.
  intros Hk Hst Hf. unfold System.safe. cbn [exec_call]. unfold resume, pop_frame.
  eapply keeps_after; [rewrite Hst; reflexivity|]. eapply keeps_frame; [by apply kinv_stack|exact Hf].
Qed.

(** ** All calls *)
Lemma calls_safe g s c : kinv g s → allowed timers_list idle_thread c s → safe c s.
Proof.
  intros Hk Hc. destruct c; cbn in Hc.
  - by eapply safe_yield.
  - by eapply safe_suspend.
  - by eapply safe_wakeup.
  - by eapply safe_finish.
  - destruct Hc. by eapply safe_sleep.
  - by eapply safe_create.
  - destruct Hc as (? & ? & ?). by eapply safe_join.
  - by eapply safe_tick.
  - by eapply keeps_destroy.
  - destruct Hc as (f & st & Hst & Hf). by eapply safe_resume.
Qed.

(** The states that a kernel comes to by allowed calls. *)
Inductive krun s : kernel H → Prop :=
  | krun_start : krun s s
  | krun_call s1 s2 c : krun s s1 → allowed timers_list idle_thread c s1 →
      exec_call runnable_list timers_list junk_thread junk_timer junk_link c s1 = Ok (tt, s2) → krun s s2.

Lemma krun_kinv g s s' : kinv g s → krun s s' → ∃ g', kinv g' s'.
Proof.
  intros Hk. induction 1 as [|s1 s2 c _ [g1 Hk1] Hc He]; [by exists g|].
  destruct (calls_safe g1 s1 c Hk1 Hc) as (s2' & g2 & He2 & Hk2). exists g2.
  assert (s2 = s2') as -> by congruence. done.
Qed.

(** C2. Any sequence of calls by any threads, with timer interrupts in between and
    threads that go on where they were interrupted, started in a kernel in which all
    objects are in allocated memory of their type: the kernel stays so, its run
    queue, its timers and its heap stay well-formed, the current thread is a running
    thread, and the next call, whichever of the allowed ones it is, returns: no
    assertion fails, no memory outside of live objects is accessed. *)
Theorem kernel_calls_safe g s s' :
  kinv g s → krun s s' →
  (∃ g', kinv g' s') ∧
  ∀ c, allowed timers_list idle_thread c s' →
    ∃ s'', exec_call runnable_list timers_list junk_thread junk_timer junk_link c s' = Ok (tt, s'').
Proof.
  intros Hk Hrun. destruct (krun_kinv g s s' Hk Hrun) as [g' Hk']. split; [by exists g'|].
  intros c Hc. destruct (calls_safe g' s' c Hk' Hc) as (s'' & _ & He & _). by exists s''.
Qed.
End system.
