(* ===== verification/SysSample.v ===== *)
(** * A running kernel in allocated memory

    A small kernel whose objects are in blocks that the allocator has handed out:
    the current thread, the idle thread, a zombie, a sleeping thread, their stacks,
    and a memory map. *)
From S2P Require Import Prelude CList Cpu Malloc MallocRep MallocScan MallocInv MallocAlloc MallocTop MallocSafe.
From S2P Require Import MallocTheorems KHeap KTime Tlb TlbTheorems Kernel Sched Vmm Threads Timers SchedExec SchedSpec SchedRefine.
From S2P Require Import SchedOps VmmTheorems KernelSample ThreadCreate TimerSpec Process Typing Join System SystemTheorems.

(** ** The heap *)
(** What [malloc] of [size] bytes does to heaps that have a block for them. *)
Definition grow (hs : list heap) (size : Z) : list heap :=
  match find_heap (real_size size) hs with
  | Some (hs1, h, pre, b, post, hs2) =>
    hs1 ++ Heap (h_addr h) (h_frames h) (pre ++ carve (real_size size) b ++ post) :: hs2
  | None => hs
  end.

Definition grown (s : mm_state (gset Z)) (hs : list heap) : Prop :=
  mm_inv sample_hl s hs ∧ ∀ a, managed s hs a → ¬ sample_static a.

Lemma grown_step s hs size :
  grown s hs → 0 ≤ size ≤ HEAP_BLOCK_SIZE_MAX → is_Some (find_heap (real_size size) hs) →
  ∃ s', grown s' (grow hs size).
Proof.
  intros [Hinv Hst] Hsz Hf.
  destruct (malloc_exec sample_hl (fuel_for hs) s hs size Hinv Hsz) as (p & s' & hs' & _ & Hspec & _).
  { apply fuel_for_ok. lia. }
  exists s'. assert (hs' = grow hs size) as <-.
  { destruct Hspec as [_ Hspec], Hf as [[[[[[? ?] ?] ?] ?] ?] Hf]. unfold grow. rewrite Hf in *.
    by destruct Hspec as (_ & -> & _). }
  split; [apply Hspec|]. intros a Ha. apply Hst. exact (malloc_managed sample_hl sample_static size s hs p s' _ a Hinv Hsz Hspec Ha).
Qed.

Lemma grown_first : ∃ s, grown s [MallocTheorems.sample_heap].
Proof.
  destruct sample_init as (s & _ & Hinv & Hf). assert (Hsz : 0 ≤ 100 ≤ HEAP_BLOCK_SIZE_MAX) by by vm_compute.
  destruct (malloc_exec sample_hl 4 s [] 100 Hinv Hsz) as (p & s' & hs' & _ & Hspec & _).
  { split; [cbn; lia|constructor]. }
  exists s'. assert (Hhs : hs' = [MallocTheorems.sample_heap]).
  { destruct Hspec as [_ Hspec]. cbn [find_heap] in Hspec. rewrite Hf in Hspec.
    destruct sample_alloc as [f Hfa]. rewrite Hfa in Hspec. by destruct Hspec as (_ & _ & -> & _). }
  rewrite Hhs in Hspec. split; [apply Hspec|]. intros a Ha%(malloc_managed sample_hl sample_static 100 s [] p); [|done..].
  destruct Ha as [(h & ?%elem_of_nil & _)|Ha]; [done|]. rewrite Hf in Ha. by apply sample_free_static.
Qed.

Definition sys_sizes : list Z := [4096; 92; 4096; 92; 4096; 92; 4096; 1604].

Definition sys_heap : heap :=
  Eval vm_compute in List.hd MallocTheorems.sample_heap (foldl grow [MallocTheorems.sample_heap] sys_sizes).

Lemma grown_sizes sizes s hs :
  grown s hs → Forall (λ n, 0 ≤ n ≤ HEAP_BLOCK_SIZE_MAX) sizes →
  (fix ok hs sizes := match sizes with
    | [] => True | n :: sizes => is_Some (find_heap (real_size n) hs) ∧ ok (grow hs n) sizes end) hs sizes →
  ∃ s', grown s' (foldl grow hs sizes).
Proof.
  revert s hs. induction sizes as [|n sizes IH]; intros s hs Hg Hsz Hok; [by exists s|].
  apply Forall_cons in Hsz as [Hn Hsz]. destruct Hok as [Hf Hok].
  destruct (grown_step s hs n Hg Hn Hf) as [s1 Hg1]. by apply (IH s1).
Qed.

Lemma grown_sys : ∃ s, grown s [sys_heap].
Proof.
  destruct grown_first as [s Hs]. apply (grown_sizes sys_sizes s _ Hs).
  - by apply (bool_decide_unpack _).
  - split_and!; vm_compute; by eexists.
Qed.

(** The blocks of it. *)
Fixpoint payloads (p : Z) (bs : list block) : list (Z * Z) :=
  match bs with
  | [] => []
  | b :: bs => (if b_free b then [] else [(p + sizeof_head, b_size b - sizeof_head - sizeof_foot)]) ++ payloads (p + b_size b) bs
  end.

Lemma payloads_spec bs p q n :
  (q, n) ∈ payloads p bs ↔ ∃ pre b post, bs = pre ++ b :: post ∧ b_free b = false ∧
    q = p + total pre + sizeof_head ∧ n = b_size b - sizeof_head - sizeof_foot.
Proof.
  revert p. induction bs as [|b bs IH]; intros p; cbn [payloads].
  { rewrite elem_of_nil. split; [done|]. by intros ([|] & ? & ? & ? & _). }
  rewrite elem_of_app, IH. split.
  - intros [Hin|(pre & c & post & -> & Hc & -> & ->)].
    + destruct (b_free b) eqn:E; [by apply elem_of_nil in Hin|]. apply list_elem_of_singleton in Hin as [= -> ->].
      exists [], b, bs. split_and!; try done. cbn. lia.
    + exists (b :: pre), c, post. split_and!; try done. cbn. lia.
  - intros ([|c pre] & d & post & Hbs & Hd & -> & ->).
    + injection Hbs as <- <-. left. rewrite Hd. apply list_elem_of_singleton. cbn. f_equal. lia.
    + injection Hbs as <- ->. right. exists pre, d, post. split_and!; try done. cbn. lia.
Qed.

Definition sys_live : gmap Z Z := Eval cbn in list_to_map (payloads (heap_start sys_heap) (h_blocks sys_heap)).

Lemma sys_heap_rep : ∃ h, kh_rep (KernelHeap := sample_kernel_heap) h sys_live (λ _, False).
Proof.
  destruct grown_sys as (s & Hinv & Hst). exists s, [sys_heap]. split_and!; [done| |done|].
  - intros p n. change sys_live with (list_to_map (M := gmap Z Z) (payloads (heap_start sys_heap) (h_blocks sys_heap))).
    rewrite <- elem_of_list_to_map by by apply (bool_decide_unpack _). rewrite payloads_spec. split.
    + intros (pre & b & post & Hb & Hx). exists sys_heap, pre, b, post. split; [by left|done].
    + intros (h & pre & b & post & ->%list_elem_of_singleton & Hb & Hx). by exists pre, b, post.
  - intros a Ha. split; [by apply Hst|tauto].
Qed.

(** ** The kernel *)
Definition sys_current : Z := 2147549220.
Definition sys_idle : Z := 2147553464.
Definition sys_zombie : Z := 2147557700.
Definition sys_sleeper : Z := 2147561936.
Definition sys_vmm : Z := 2147566172.
(** The list of the timers; the run queue of processor 0 is at 64. *)
Definition sys_timers : Z := 96.

Definition sys_thread (stack : Z) (st : thread_state) (top : context) : thread :=
  Thread 4096 stack (CUser 7) 8 9 top st 100 0 sys_vmm 0 0.

Definition sys_links : links :=
  list_to_map [(64, Link sys_current sys_idle); (sys_idle, Link 64 sys_current); (sys_current, Link sys_idle 64);
    (sys_zombie, Link 0 0); (sys_sleeper, Link 0 0);
    (thread_wait_queue_link sys_current, Link 0 0); (thread_wait_queue_link sys_idle, Link 0 0);
    (thread_wait_queue_link sys_zombie, Link 0 0); (thread_wait_queue_link sys_sleeper, Link 0 0);
    (thread_timer sys_current, Link 0 0); (thread_timer sys_idle, Link 0 0); (thread_timer sys_zombie, Link 0 0);
    (sys_timers, Link (thread_timer sys_sleeper) (thread_timer sys_sleeper));
    (thread_timer sys_sleeper, Link sys_timers sys_timers)].

Definition sys_threads : gmap Z thread :=
  list_to_map [(sys_current, sys_thread 2147549344 THREAD_RUNNING (Context [] 0));
    (sys_idle, sys_thread 2147553580 THREAD_READY sample_context);
    (sys_zombie, sys_thread 2147557816 THREAD_ZOMBIE (Context [FFinish] 0));
    (sys_sleeper, sys_thread 2147562052 THREAD_SLEEPING sample_context)].

Definition sys_tms : gmap Z timer :=
  list_to_map [(thread_timer sys_current, Timer 0 0 false CNull 0); (thread_timer sys_idle, Timer 0 0 false CNull 0);
    (thread_timer sys_zombie, Timer 0 0 false CNull 0);
    (thread_timer sys_sleeper, Timer 5 12 false CTimeout sys_sleeper)].

(** The stack of the current thread is given. *)
Definition sys_kernel (stack : list frame) (h : mm_state (gset Z)) : kernel (mm_state (gset Z)) :=
  Kernel h sys_links sys_threads sys_tms (list_to_map [(sys_vmm, Vmm 3 [Vma 5 9 2 true; Vma 0 0 0 false])])
    ∅ ∅ (list_to_map [(0, sys_current)]) 0 10 500 4000 0 sample_tlb 4 sys_sleeper stack 0 ∅.

Definition sys_sched : sched :=
  Scheduler [sys_idle; sys_current] sys_current (th_state <$> sys_threads).

Definition sys_types : gmap Z otype :=
  list_to_map [(sys_current, TThread); (2147549344, TStack sys_current); (sys_idle, TThread);
    (2147553580, TStack sys_idle); (sys_zombie, TThread); (2147557816, TStack sys_zombie);
    (sys_sleeper, TThread); (2147562052, TStack sys_sleeper); (sys_vmm, TVmm)].

Lemma sys_threads_inv t th :
  sys_threads !! t = Some th → t = sys_current ∨ t = sys_idle ∨ t = sys_zombie ∨ t = sys_sleeper.
Proof.
  intros Ht. unfold sys_threads in Ht. cbn in Ht.
  repeat (apply lookup_insert_Some in Ht as [[<- _]|[_ Ht]]; [tauto|]). by rewrite lookup_empty in Ht.
Qed.

(** A statement about all elements of a concrete map. *)
Lemma map_all {A} (f : Z → A → bool) (m : gmap Z A) p x :
  bool_decide (map_Forall (λ p x, f p x = true) m) = true → m !! p = Some x → f p x = true.
Proof. intros Hb%bool_decide_eq_true Hp. exact (map_Forall_lookup_1 _ m p x Hb Hp). Qed.

Lemma sys_sched_rep stack h : sched_rep 64 (sys_kernel stack h) sys_sched.
Proof.
  split_and!; try done.
  - split_and!.
    + by apply (bool_decide_unpack _).
    + intros t. split.
      * intros [->|[->|[]%elem_of_nil]%elem_of_cons]%elem_of_cons; eexists; (split; [reflexivity|]); [left|right]; done.
      * intros (st & Hst & Hr). cbn in Hst. apply lookup_fmap_Some in Hst as (th & <- & Ht).
        apply (map_all (λ t th, bool_decide (runnable (th_state th) → t ∈ [sys_idle; sys_current])) sys_threads t th),
          bool_decide_eq_true in Ht; [by apply Ht|by vm_compute].
    + intros t Hst. cbn in Hst. apply lookup_fmap_Some in Hst as (th & Hr & Ht).
      apply (map_all (λ t th, bool_decide (th_state th = THREAD_RUNNING → t = sys_current)) sys_threads t th),
        bool_decide_eq_true in Ht; [by apply Ht|by vm_compute].
    + by eexists.
    + done.
  - split; [by vm_compute|]. split; [by apply (bool_decide_unpack _)|].
    split; [by apply (bool_decide_unpack _)|]. intros x y _ _ ?. done.
  - intros t [th Ht]. destruct (sys_threads_inv t th Ht) as [->|[->|[->| ->]]]; intros Hn; try done.
    + destruct Hn. right. left.
    + destruct Hn. left.
  - intros t th Ht. destruct (sys_threads_inv t th Ht) as [->|[->|[->| ->]]]; injection Ht as <-; by eexists.
Qed.

(** The objects of a store are those of a type. *)
Lemma same_domain {A} (m : gmap Z A) ty :
  bool_decide (map_Forall (λ p _, bool_decide (sys_types !! p = Some ty) = true) m) = true →
  bool_decide (map_Forall (λ p ty', bool_decide (ty' = ty → is_Some (m !! p)) = true) sys_types) = true →
  ∀ p, is_Some (m !! p) ↔ sys_types !! p = Some ty.
Proof.
  intros H1 H2 p. split; [intros [x Hx]|intros Hp].
  - by apply (map_all _ _ _ _ H1), bool_decide_eq_true in Hx.
  - apply (map_all _ _ _ _ H2), bool_decide_eq_true in Hp. by apply Hp.
Qed.

(** Where a link is. *)
Definition link_place (p : Z) : Prop :=
  0 ≤ p < 0x10000 ∨ sys_types !! p = Some TThread ∨ sys_types !! (p - 44) = Some TThread ∨
  sys_types !! (p - 72) = Some TThread.

#[export] Instance link_place_dec p : Decision (link_place p).
Proof. unfold link_place. apply _. Defined.

(** What belongs to a thread. *)
Definition thread_parts_mapped (t : Z) : Prop :=
  is_Some (sys_links !! t) ∧ is_Some (sys_links !! thread_timer t) ∧ is_Some (sys_links !! thread_wait_queue_link t) ∧
  is_Some (sys_tms !! thread_timer t).

#[export] Instance thread_parts_mapped_dec t : Decision (thread_parts_mapped t).
Proof. unfold thread_parts_mapped. apply _. Defined.

Lemma sys_parts t : sys_types !! t = Some TThread → thread_parts_mapped t.
Proof.
  intros Ht. apply (map_all (λ t ty, bool_decide (ty = TThread → thread_parts_mapped t))), bool_decide_eq_true in Ht;
    [by apply Ht|by vm_compute].
Qed.

Lemma sys_typed stack h : typed (sys_kernel stack h) sys_types sys_live.
Proof.
  split.
  - intros p ty Hp. pose proof (osize_pos ty).
    apply (map_all (λ p ty, osize ty <=? default 0 (sys_live !! p))), Z.leb_le in Hp; [|by vm_compute].
    destruct (sys_live !! p) as [n|]; cbn in Hp; [by exists n|lia].
  - by apply same_domain; vm_compute.
  - by apply same_domain; vm_compute.
  - by apply same_domain; vm_compute.
  - by apply same_domain; vm_compute.
  - intros t th Ht. destruct (sys_threads_inv t th Ht) as [->|[->|[->| ->]]]; injection Ht as <-; by vm_compute.
  - intros t p Ht%sys_parts [->|[->| ->]]; apply Ht.
  - intros t Ht%sys_parts. apply Ht.
  - intros p [l Hp]. apply (map_all (λ p _, bool_decide (link_place p))), bool_decide_eq_true in Hp; [|by vm_compute].
    destruct Hp as [Hx|[Hx|[Hx|Hx]]]; [by left; right|right; eexists; (split; [exact Hx|])..].
    + by left.
    + right; left. unfold thread_timer. lia.
    + right; right. unfold thread_wait_queue_link. lia.
  - intros p [l Hp]. right. exists (p - 44). split; [|unfold thread_timer; lia].
    by apply (map_all (λ p _, bool_decide (sys_types !! (p - 44) = Some TThread))), bool_decide_eq_true in Hp; [|vm_compute].
Qed.

Lemma sys_timers_rep stack h : timers_rep 64 sys_timers (sys_kernel stack h) [thread_timer sys_sleeper].
Proof.
  split_and!.
  - split; [by vm_compute|]. split; [by apply (bool_decide_unpack _)|].
    split; [by apply (bool_decide_unpack _)|]. intros x y _ _ ?. done.
  - intros t ->%list_elem_of_singleton. by eexists.
  - by intros p [-> | ->%list_elem_of_singleton]%elem_of_cons.
Qed.

Definition sys_ghost : ghost := Ghost sys_sched [thread_timer sys_sleeper] sys_types sys_live.

Lemma sys_kinv stack h :
  kh_rep h sys_live (λ _, False) → kinv 64 sys_timers sys_idle (λ _, False) sys_ghost (sys_kernel stack h).
Proof.
  intros Hrep. split; [|reflexivity]. split.
  - split; right; by vm_compute.
  - apply sys_sched_rep.
  - left.
  - apply sys_timers_rep.
  - intros p ->%list_elem_of_singleton. exists sys_sleeper. eexists. split_and!; [done|by eexists|reflexivity|done..].
  - intros t th Ht. left. destruct (sys_threads_inv t th Ht) as [->|[->|[->| ->]]]; by injection Ht as <-.
  - by eexists.
  - apply sys_typed.
  - exact Hrep.
Qed.

(** ** Witnesses *)
(** The thread joins the zombie, and then a thread that sleeps. *)
Lemma thread_join_refines_witness :
  ∃ h s1 s2,
    thread_join 64 sys_zombie NULL (sys_kernel [FUser 3 4] h) = Ok (tt, s1) ∧ k_threads s1 !! sys_zombie = None ∧
    thread_join 64 sys_sleeper NULL (sys_kernel [FUser 3 4] h) = Ok (tt, s2) ∧
    sched_rep 64 s2 (a_schedule (a_block THREAD_SLEEPING sys_sched)).
Proof.
  destruct sys_heap_rep as [h Hrep]. exists h. set (s := sys_kernel [FUser 3 4] h).
  assert (Hst : kh_static (run_queue 64 s)) by (right; by vm_compute).
  destruct (thread_join_refines 64 s sys_sched sys_zombie (sys_thread 2147557816 THREAD_ZOMBIE (Context [FFinish] 0)) NULL
    sys_types sys_live (λ _, False) (sys_sched_rep _ h) eq_refl (sys_typed _ h) Hrep Hst eq_refl) as (s1 & He1 & Hs1).
  destruct (thread_join_refines 64 s sys_sched sys_sleeper (sys_thread 2147562052 THREAD_SLEEPING sample_context) NULL
    sys_types sys_live (λ _, False) (sys_sched_rep _ h) eq_refl (sys_typed _ h) Hrep Hst eq_refl) as (s2 & He2 & Hs2).
  exists s1, s2. split_and!; [exact He1| |exact He2|].
  - change (if bool_decide (THREAD_ZOMBIE = THREAD_ZOMBIE) then reaped 64 s sys_sched sys_zombie
      (sys_thread 2147557816 THREAD_ZOMBIE (Context [FFinish] 0)) NULL sys_types sys_live (λ _, False) (cp0_status s) s1
      else waiting 64 s sys_sched sys_zombie (sys_thread 2147557816 THREAD_ZOMBIE (Context [FFinish] 0)) NULL s1) in Hs1.
    rewrite bool_decide_eq_true_2 in Hs1 by done. rewrite (rp_threads _ _ _ _ _ _ _ _ _ _ _ Hs1). apply lookup_delete_eq.
  - apply Hs2.
Defined.

Lemma thread_join_returns_witness :
  ∃ h s', let s := sys_kernel [FSuspend 1; FJoin sys_zombie NULL 1; FUser 3 4] h in
    (resume 64 sys_timers ;; resume 64 sys_timers) s = Ok (tt, s') ∧ k_threads s' !! sys_zombie = None.
Proof.
  destruct sys_heap_rep as [h Hrep]. set (s := sys_kernel [FSuspend 1; FJoin sys_zombie NULL 1; FUser 3 4] h).
  destruct (thread_join_returns 64 sys_timers s sys_sched sys_zombie
    (sys_thread 2147557816 THREAD_ZOMBIE (Context [FFinish] 0)) NULL sys_types sys_live (λ _, False) 1 1 [FUser 3 4])
    as (s' & He & Hs').
  - apply sys_sched_rep.
  - reflexivity.
  - apply sys_typed.
  - exact Hrep.
  - right. by vm_compute.
  - reflexivity.
  - reflexivity.
  - reflexivity.
  - exists h, s'. split; [exact He|]. rewrite (rp_threads _ _ _ _ _ _ _ _ _ _ _ Hs'). apply lookup_delete_eq.
Defined.

(** The current thread joins the zombie, then there is a timer interrupt, and then it
    yields. *)
Lemma kernel_calls_safe_witness :
  ∃ h s1 s2 s3, thread_join 64 sys_zombie NULL (sys_kernel [FUser 3 4] h) = Ok (tt, s1) ∧
    sched_timer 64 sys_timers s1 = Ok (tt, s2) ∧ thread_yield 64 s2 = Ok (tt, s3) ∧
    ∃ g, kinv 64 sys_timers sys_idle (λ _, False) g s2.
Proof.
  destruct sys_heap_rep as [h Hrep]. exists h. set (s := sys_kernel [FUser 3 4] h).
  assert (Hsafe := λ s', kernel_calls_safe 64 sys_timers sys_idle (λ _, False) (sys_thread 0 THREAD_ZOMBIE (Context [] 0))
    (Timer 0 0 false CNull 0) (Link 1 2) sys_ghost s s' (sys_kinv _ h Hrep)).
  assert (Ha : allowed sys_timers sys_idle (CallJoin sys_zombie NULL) s).
  { split; [done|]. split; [by eexists|]. intros _. split; [done|]. split.
    - intros (ts & Hts & Hp). rewrite (is_list_unique _ _ _ _ Hts (proj1 (sys_timers_rep _ h))) in Hp.
      by apply list_elem_of_singleton in Hp.
    - intros u uth Hu. destruct (sys_threads_inv u uth Hu) as [->|[->|[->| ->]]]; by injection Hu as <-. }
  destruct (proj2 (Hsafe s (krun_start _ _ _ _ _ _ _)) _ Ha) as [s1 He1].
  assert (Hr1 : krun 64 sys_timers sys_idle (sys_thread 0 THREAD_ZOMBIE (Context [] 0)) (Timer 0 0 false CNull 0) (Link 1 2) s s1)
    by exact (krun_call _ _ _ _ _ _ _ _ _ _ (krun_start _ _ _ _ _ _ _) Ha He1).
  destruct (proj2 (Hsafe s1 Hr1) CallTick I) as [s2 He2].
  destruct (Hsafe s2 (krun_call _ _ _ _ _ _ _ _ _ _ Hr1 (I : allowed sys_timers sys_idle CallTick s1) He2)) as [Hk2 Hc2].
  destruct (Hc2 CallYield I) as [s3 He3]. by exists s1, s2, s3.
Defined.
