(* ===== verification/Synch.v ===== *)
(** * Synchronisation primitives ([kernel/synch])

    [rmutex.c], [rwlock.c], [mutex.c], [condvar.c] and [sys_mutex.c] as they are: exercise
    code in which much of the queueing is still to be written.  [adt/plist.h], which
    [mutex.c] includes, is not part of the repository: its functions are parameters.
    A thread that waits for a read/write lock leaves a frame whose code is the rest of
    [rwlock_write_lock]. *)
From S2P Require Import Prelude CList Cpu Malloc KHeap Tlb Kernel Sched Vmm Threads Timers.

(** ** Control structures *)
Record mutex := Mutex { mx_owner : Z; mx_num_waiting : Z }.

Record rmutex := RMutex { rm_owner : Z; rm_num_locked : Z; rm_num_waiting : Z }.

Inductive rwlock_state := RWLOCK_UNLOCKED | RWLOCK_LOCKED_READ | RWLOCK_LOCKED_WRITE.

#[export] Instance rwlock_state_eq_dec : EqDecision rwlock_state.
Proof. solve_decision. Defined.

Record rwlock := RwLock {
  rw_state : rwlock_state;
  rw_num_readers : Z;
  rw_num_read_waiting : Z;
  rw_num_write_waiting : Z;
}.

Definition set_rw_state (v : rwlock_state) (x : rwlock) : rwlock :=
  RwLock v (rw_num_readers x) (rw_num_read_waiting x) (rw_num_write_waiting x).
Definition set_rw_num_readers (v : Z) (x : rwlock) : rwlock :=
  RwLock (rw_state x) v (rw_num_read_waiting x) (rw_num_write_waiting x).
Definition set_rw_num_write_waiting (v : Z) (x : rwlock) : rwlock :=
  RwLock (rw_state x) (rw_num_readers x) (rw_num_read_waiting x) v.

(** Their lists, by address. *)
Definition mutex_wait_queue (mtx : Z) : Z := mtx + 8.
Definition rmutex_wait_queue (mtx : Z) : Z := mtx + 12.
Definition read_wait_queue (rwl : Z) : Z := rwl + 16.
Definition write_wait_queue (rwl : Z) : Z := rwl + 24.
(** [&umutex->mtx]; [umutex->link] is at 0. *)
Definition umutex_mtx (umutex : Z) : Z := umutex + 8.

(** The kernel and the locks in its memory. *)
Record synch (H : Type) := Synch {
  sy_kernel : kernel H;
  sy_mutexes : gmap Z mutex;
  sy_rmutexes : gmap Z rmutex;
  sy_rwlocks : gmap Z rwlock;
}.
Arguments Synch {H} _ _ _ _.
Arguments sy_kernel {H} _.
Arguments sy_mutexes {H} _.
Arguments sy_rmutexes {H} _.
Arguments sy_rwlocks {H} _.

Section code.
  Context {H : Type} `{KernelHeap H}.
  (** The run queue, and the code of [rwlock_write_lock] behind [thread_suspend]. *)
  Context (runnable_list timers_list rwlock_write_woken : Z).

Definition set_sy_kernel (k : kernel H) (s : synch H) : synch H := Synch k (sy_mutexes s) (sy_rmutexes s) (sy_rwlocks s).
Definition set_sy_mutexes (f : gmap Z mutex → gmap Z mutex) (s : synch H) : synch H :=
  Synch (sy_kernel s) (f (sy_mutexes s)) (sy_rmutexes s) (sy_rwlocks s).
Definition set_sy_rmutexes (f : gmap Z rmutex → gmap Z rmutex) (s : synch H) : synch H :=
  Synch (sy_kernel s) (sy_mutexes s) (f (sy_rmutexes s)) (sy_rwlocks s).
Definition set_sy_rwlocks (f : gmap Z rwlock → gmap Z rwlock) (s : synch H) : synch H :=
  Synch (sy_kernel s) (sy_mutexes s) (sy_rmutexes s) (f (sy_rwlocks s)).

(** A call of the rest of the kernel. *)
Definition in_kernel {A} (m : KM (kernel H) A) : KM (synch H) A := λ s,
  match m (sy_kernel s) with
  | Ok (a, k) => Ok (a, set_sy_kernel k s)
  | Panic => Panic
  | Fault => Fault
  | NoFuel => NoFuel
  end.

Definition get_mutex {A} (f : mutex → A) (p : Z) : KM (synch H) A := kload (λ s, f <$> sy_mutexes s !! p).
Definition upd_mutex (f : mutex → mutex) (p : Z) : KM (synch H) unit :=
  x ← get_mutex id p; kmodify (set_sy_mutexes <[p := f x]>).
Definition get_rmutex {A} (f : rmutex → A) (p : Z) : KM (synch H) A := kload (λ s, f <$> sy_rmutexes s !! p).
Definition upd_rmutex (f : rmutex → rmutex) (p : Z) : KM (synch H) unit :=
  x ← get_rmutex id p; kmodify (set_sy_rmutexes <[p := f x]>).
Definition get_rwlock {A} (f : rwlock → A) (p : Z) : KM (synch H) A := kload (λ s, f <$> sy_rwlocks s !! p).
Definition upd_rwlock (f : rwlock → rwlock) (p : Z) : KM (synch H) unit :=
  x ← get_rwlock id p; kmodify (set_sy_rwlocks <[p := f x]>).

(** ** Recursive mutexes ([rmutex.c]) *)
Definition rmutex_init (mtx : Z) : KM (synch H) unit :=
  kassert (bool_decide (mtx ≠ NULL)) ;;
  upd_rmutex (λ x, RMutex NULL (rm_num_locked x) (rm_num_waiting x)) mtx ;;
  upd_rmutex (λ x, RMutex (rm_owner x) 0 (rm_num_waiting x)) mtx ;;
  upd_rmutex (λ x, RMutex (rm_owner x) (rm_num_locked x) 0) mtx ;;
  in_kernel (list_init (rmutex_wait_queue mtx)).

Definition rmutex_destroy (mtx : Z) : KM (synch H) unit :=
  kassert (bool_decide (mtx ≠ NULL)) ;;
  owner ← get_rmutex rm_owner mtx;
  if bool_decide (owner ≠ NULL) then kpanic else mret ().

Definition rmutex_lock (mtx : Z) : KM (synch H) unit :=
  kassert (bool_decide (mtx ≠ NULL)) ;;
  owner ← get_rmutex rm_owner mtx;
  if bool_decide (owner ≠ NULL) then
    thread ← in_kernel thread_get_current;
    owner ← get_rmutex rm_owner mtx;
    if bool_decide (owner = thread) then mret ()
    else upd_rmutex (λ x, RMutex (rm_owner x) (rm_num_locked x) (wrap (rm_num_waiting x + 1))) mtx
  else
    thread ← in_kernel thread_get_current;
    upd_rmutex (λ x, RMutex thread (rm_num_locked x) (rm_num_waiting x)) mtx ;;
    upd_rmutex (λ x, RMutex (rm_owner x) 1 (rm_num_waiting x)) mtx.

Definition rmutex_unlock (mtx : Z) : KM (synch H) unit :=
  kassert (bool_decide (mtx ≠ NULL)) ;;
  owner ← get_rmutex rm_owner mtx;
  if bool_decide (owner ≠ NULL) then
    num_locked ← get_rmutex rm_num_locked mtx;
    kassert (0 <? num_locked) ;;
    upd_rmutex (λ x, RMutex (rm_owner x) (wrap (rm_num_locked x - 1)) (rm_num_waiting x)) mtx ;;
    num_locked ← get_rmutex rm_num_locked mtx;
    if bool_decide (num_locked = 0) then
      link ← in_kernel (list_pop (rmutex_wait_queue mtx));
      if bool_decide (link ≠ NULL) then
        num_waiting ← get_rmutex rm_num_waiting mtx;
        kassert (0 <? num_waiting) ;;
        upd_rmutex (λ x, RMutex (rm_owner x) (rm_num_locked x) (wrap (rm_num_waiting x - 1))) mtx
      else mret ()
    else mret ()
  else mret ().

(** ** Read/write locks ([rwlock.c]) *)
Definition rwlock_init (rwl : Z) : KM (synch H) unit :=
  kassert (bool_decide (rwl ≠ NULL)) ;;
  in_kernel (list_init (read_wait_queue rwl)) ;;
  in_kernel (list_init (write_wait_queue rwl)).

Definition rwlock_destroy (rwl : Z) : KM (synch H) unit :=
  kassert (bool_decide (rwl ≠ NULL)) ;;
  state ← get_rwlock rw_state rwl;
  if bool_decide (state ≠ RWLOCK_UNLOCKED) then kpanic else mret ().

(** Still to be written. *)
Definition rwlock_wakeup (wait_queue num_waiting : Z) : KM (synch H) unit := mret ().

(** The loop of [rwlock_write_lock], up to the next [thread_suspend]. *)
Definition rwlock_write_wait (rwl : Z) : KM (synch H) unit :=
  state ← get_rwlock rw_state rwl;
  if bool_decide (state ≠ RWLOCK_UNLOCKED) then
    thread ← in_kernel thread_get_current;
    in_kernel (list_append (write_wait_queue rwl) (thread_wait_queue_link thread)) ;;
    upd_rwlock (λ x, set_rw_num_write_waiting (wrap (rw_num_write_waiting x + 1)) x) rwl ;;
    in_kernel (push_frame (FUser rwlock_write_woken rwl) ;; thread_suspend runnable_list)
  else upd_rwlock (set_rw_state RWLOCK_LOCKED_WRITE) rwl.

Definition rwlock_write_lock (rwl : Z) : KM (synch H) unit :=
  kassert (bool_decide (rwl ≠ NULL)) ;;
  rwlock_write_wait rwl.

Definition rwlock_write_unlock (rwl : Z) : KM (synch H) unit :=
  kassert (bool_decide (rwl ≠ NULL)) ;;
  state ← get_rwlock rw_state rwl;
  if bool_decide (state ≠ RWLOCK_LOCKED_WRITE) then kpanic
  else upd_rwlock (set_rw_state RWLOCK_UNLOCKED) rwl.

(** Still to be written. *)
Definition rwlock_read_lock (rwl : Z) : KM (synch H) unit := mret ().

Definition rwlock_read_unlock (rwl : Z) : KM (synch H) unit :=
  kassert (bool_decide (rwl ≠ NULL)) ;;
  state ← get_rwlock rw_state rwl;
  if bool_decide (state ≠ RWLOCK_LOCKED_READ) then kpanic
  else
    num_readers ← get_rwlock rw_num_readers rwl;
    kassert (0 <? num_readers) ;;
    upd_rwlock (λ x, set_rw_num_readers (wrap (rw_num_readers x - 1)) x) rwl ;;
    num_readers ← get_rwlock rw_num_readers rwl;
    if bool_decide (num_readers = 0) then
      upd_rwlock (set_rw_state RWLOCK_UNLOCKED) rwl ;;
      rwlock_wakeup (write_wait_queue rwl) (rwl + 12)
    else mret ().

(** A thread that goes on, in [rwlock_write_lock] or elsewhere. *)
Definition resume_synch : KM (synch H) unit :=
  frames ← in_kernel (kgets k_stack);
  match frames with
  | FUser entry rwl :: _ =>
    if bool_decide (entry = rwlock_write_woken) then in_kernel pop_frame ;; rwlock_write_wait rwl
    else in_kernel (resume runnable_list timers_list)
  | _ => in_kernel (resume runnable_list timers_list)
  end.

(** ** Condition variables ([condvar.c]): all of it is still to be written *)
Definition condvar_init (cvar : Z) : KM (synch H) unit := mret ().
Definition condvar_destroy (cvar : Z) : KM (synch H) unit := mret ().
Definition condvar_wakeup (cvar : Z) : KM (synch H) unit := mret ().
Definition condvar_signal (cvar : Z) : KM (synch H) unit := mret ().
Definition condvar_broadcast (cvar : Z) : KM (synch H) unit := mret ().
Definition condvar_wait (cvar mtx : Z) : KM (synch H) unit := mret ().

Section plist.
  (** [adt/plist.h]. *)
  Context (plist_init : Z → KM (kernel H) unit) (plist_empty : Z → KM (kernel H) bool) (plist_pop : Z → KM (kernel H) Z).

(** ** Mutexes ([mutex.c]) *)
Definition mutex_init (mtx : Z) : KM (synch H) unit :=
  kassert (bool_decide (mtx ≠ NULL)) ;;
  upd_mutex (λ x, Mutex NULL (mx_num_waiting x)) mtx ;;
  upd_mutex (λ x, Mutex (mx_owner x) 0) mtx ;;
  in_kernel (plist_init (mutex_wait_queue mtx)).

Definition mutex_destroy (mtx : Z) : KM (synch H) unit :=
  kassert (bool_decide (mtx ≠ NULL)) ;;
  owner ← get_mutex mx_owner mtx;
  if bool_decide (owner ≠ NULL) then kpanic else mret ().

Definition mutex_lock (mtx : Z) : KM (synch H) unit :=
  kassert (bool_decide (mtx ≠ NULL)) ;;
  owner ← get_mutex mx_owner mtx;
  if bool_decide (owner ≠ NULL) then upd_mutex (λ x, Mutex (mx_owner x) (wrap (mx_num_waiting x + 1))) mtx
  else
    thread ← in_kernel thread_get_current;
    upd_mutex (λ x, Mutex thread (mx_num_waiting x)) mtx.

Definition mutex_unlock (mtx : Z) : KM (synch H) unit :=
  kassert (bool_decide (mtx ≠ NULL)) ;;
  owner ← get_mutex mx_owner mtx;
  if bool_decide (owner ≠ NULL) then
    empty ← in_kernel (plist_empty (mutex_wait_queue mtx));
    if negb empty then
      num_waiting ← get_mutex mx_num_waiting mtx;
      kassert (0 <? num_waiting) ;;
      in_kernel (plist_pop (mutex_wait_queue mtx)) ;;
      upd_mutex (λ x, Mutex (mx_owner x) (wrap (mx_num_waiting x - 1))) mtx
    else mret ()
  else mret ().

(** ** Mutexes for user programs ([sys_mutex.c]) *)

(** The search is still to be written: the result is that of the initialisation. *)
Definition umutex_get (mid : Z) : KM (synch H) Z :=
  process ← in_kernel thread_get_process;
  let umutex := NULL in
  state ← in_kernel query_and_disable_interrupts;
  in_kernel (conditionally_enable_interrupts state) ;;
  mret umutex.

Definition sys_mutex_init (mid : Z) : KM (synch H) (option Z) :=
  let umutex := NULL in
  if bool_decide (umutex = NULL) then mret (Some ENOMEM)
  else
    process ← in_kernel thread_get_process;
    mutex_init (umutex_mtx umutex) ;;
    state ← in_kernel query_and_disable_interrupts;
    in_kernel (conditionally_enable_interrupts state) ;;
    in_kernel (kmodify (set_k_out <[mid := umutex]>)) ;;
    mret (Some EOK).

Definition sys_mutex_lock (mid : Z) : KM (synch H) (option Z) := mret (Some EOK).

(** A thread that unlocks the mutex of another is finished. *)
Definition sys_mutex_unlock (mid : Z) : KM (synch H) (option Z) :=
  umutex ← umutex_get mid;
  if bool_decide (umutex = NULL) then mret (Some EINVAL)
  else
    state ← in_kernel query_and_disable_interrupts;
    owner ← get_mutex mx_owner (umutex_mtx umutex);
    foreign ← (if bool_decide (owner ≠ NULL)
      then current ← in_kernel thread_get_current; mret (bool_decide (owner ≠ current)) else mret false);
    if (foreign : bool) then
      in_kernel (conditionally_enable_interrupts state) ;;
      in_kernel (thread_finish runnable_list NULL) ;;
      mret None
    else
      in_kernel (conditionally_enable_interrupts state) ;;
      mret (Some EOK).

Definition sys_mutex_destroy (mid : Z) : KM (synch H) (option Z) :=
  umutex ← umutex_get mid;
  if bool_decide (umutex = NULL) then mret (Some EINVAL)
  else
    state ← in_kernel query_and_disable_interrupts;
    owner ← get_mutex mx_owner (umutex_mtx umutex);
    if bool_decide (owner ≠ NULL) then
      in_kernel (conditionally_enable_interrupts state) ;;
      in_kernel (thread_finish runnable_list NULL) ;;
      mret None
    else
      in_kernel (list_remove umutex) ;;
      in_kernel (conditionally_enable_interrupts state) ;;
      kmodify (set_sy_mutexes (delete (umutex_mtx umutex))) ;;
      in_kernel (kmodify (set_k_links (delete umutex)) ;; in_heap (km_free umutex)) ;;
      mret (Some EOK).
End plist.
End code.
