(* ===== verification/SynchTheorems.v ===== *)
(** * Synchronisation primitives: what they do

    What a recursive mutex does in any sequence of calls, how a writer waits for a
    read/write lock, and which system calls on mutexes are refused. *)
From S2P Require Import Prelude CList Cpu Malloc KHeap Tlb Kernel Sched Vmm Threads Timers SchedExec SchedSpec SchedRefine.
From S2P Require Import SchedOps VmmTheorems KernelSample TimerSpec Typing System SystemTheorems SysSample Synch.

Section exec.
  Context {H : Type} `{KernelHeapLaws H}.
  Implicit Types (s : synch H) (k : kernel H).

Lemma synch_kernel_ok {A} (m : KM (kernel H) A) s a k :
  m (sy_kernel s) = Ok (a, k) → in_kernel m s = Ok (a, set_sy_kernel k s).
Proof. unfold in_kernel. by intros ->. Qed.

Lemma synch_kernel_same {A} (m : KM (kernel H) A) s a : m (sy_kernel s) = Ok (a, sy_kernel s) → in_kernel m s = Ok (a, s).
Proof. intros He. erewrite synch_kernel_ok by done. by destruct s. Qed.

Lemma get_rmutex_ok {A} (f : rmutex → A) p x s : sy_rmutexes s !! p = Some x → get_rmutex f p s = Ok (f x, s).
Proof. intros Hp. unfold get_rmutex, kload. by rewrite Hp. Qed.

Lemma upd_rmutex_ok f p x s :
  sy_rmutexes s !! p = Some x → upd_rmutex f p s = Ok (tt, set_sy_rmutexes <[p := f x]> s).
Proof. intros Hp. unfold upd_rmutex. by erewrite bind_ok by (by apply get_rmutex_ok). Qed.

Lemma get_rwlock_ok {A} (f : rwlock → A) p x s : sy_rwlocks s !! p = Some x → get_rwlock f p s = Ok (f x, s).
Proof. intros Hp. unfold get_rwlock, kload. by rewrite Hp. Qed.

Lemma upd_rwlock_ok f p x s :
  sy_rwlocks s !! p = Some x → upd_rwlock f p s = Ok (tt, set_sy_rwlocks <[p := f x]> s).
Proof. intros Hp. unfold upd_rwlock. by erewrite bind_ok by (by apply get_rwlock_ok). Qed.

Lemma rmutexes_twice p x y s :
  set_sy_rmutexes <[p := x]> (set_sy_rmutexes <[p := y]> s) = set_sy_rmutexes <[p := x]> s.
Proof. unfold set_sy_rmutexes. cbn. by rewrite insert_insert_eq. Qed.

(** ** Recursive mutexes *)
Inductive rcall := RLock | RUnlock.

#[export] Instance rcall_eq_dec : EqDecision rcall.
Proof. solve_decision. Defined.

(** One call by thread [t]: what becomes of the mutex, or [None] for a panic. *)
Definition rmutex_step (t : Z) (c : rcall) (x : rmutex) : option rmutex :=
  match c with
  | RLock =>
    if bool_decide (rm_owner x = NULL) then Some (RMutex t 1 (rm_num_waiting x))
    else if bool_decide (rm_owner x = t) then Some x
    else Some (RMutex (rm_owner x) (rm_num_locked x) (wrap (rm_num_waiting x + 1)))
  | RUnlock =>
    if bool_decide (rm_owner x = NULL) then Some x
    else if 0 <? rm_num_locked x then Some (RMutex (rm_owner x) (wrap (rm_num_locked x - 1)) (rm_num_waiting x))
    else None
  end.

(** Thread [t] has the processor. *)
Definition on_processor (t : Z) s : synch H :=
  set_sy_kernel (set_k_current <[k_cpu (sy_kernel s) := t]> (sy_kernel s)) s.

Definition rmutex_call (mtx : Z) (tc : Z * rcall) : KM (synch H) unit :=
  kmodify (on_processor (fst tc)) ;;
  match snd tc with RLock => rmutex_lock mtx | RUnlock => rmutex_unlock mtx end.

Fixpoint rmutex_calls (mtx : Z) (tcs : list (Z * rcall)) : KM (synch H) unit :=
  match tcs with [] => mret () | tc :: tcs => rmutex_call mtx tc ;; rmutex_calls mtx tcs end.

(** A mutex in memory; nobody is in its queue. *)
Definition rmutex_rep (mtx : Z) (x : rmutex) s : Prop :=
  mtx ≠ NULL ∧ sy_rmutexes s !! mtx = Some x ∧ is_list (M := links) (k_links (sy_kernel s)) (rmutex_wait_queue mtx) [].

Lemma rmutex_call_exec mtx t c x s :
  rmutex_rep mtx x s →
  match rmutex_step t c x with
  | None => rmutex_call mtx (t, c) s = Panic
  | Some x' => rmutex_call mtx (t, c) s = Ok (tt, set_sy_rmutexes <[mtx := x']> (on_processor t s))
  end.
Proof.
  intros (Hm & Hx & Hl). set (s1 := on_processor t s). assert (Hx1 : sy_rmutexes s1 !! mtx = Some x) by done.
  assert (Hid : set_sy_rmutexes <[mtx := x]> s1 = s1).
  { unfold set_sy_rmutexes. rewrite insert_id by done. by destruct s1. }
  assert (Hc : in_kernel thread_get_current s1 = Ok (t, s1)).
  { apply synch_kernel_same, thread_get_current_ok. apply lookup_insert_eq. }
  unfold rmutex_call. erewrite bind_ok by reflexivity. fold s1. cbn [fst snd]. destruct c; cbn [rmutex_step].
  - unfold rmutex_lock. rewrite (bool_decide_eq_true_2 (mtx ≠ NULL)) by done. erewrite bind_ok by reflexivity.
    rewrite !(bind_ok _ _ _ _ _ (get_rmutex_ok rm_owner _ _ _ Hx1)).
    destruct (decide (rm_owner x = NULL)) as [E|E].
    + rewrite (bool_decide_eq_true_2 (_ = NULL)), (bool_decide_eq_false_2 (_ ≠ NULL)) by tauto.
      erewrite bind_ok by exact Hc. erewrite bind_ok by (by apply upd_rmutex_ok).
      rewrite (upd_rmutex_ok _ _ _ _ (lookup_insert_eq _ _ _)). by rewrite rmutexes_twice.
    + rewrite (bool_decide_eq_false_2 (_ = NULL)), (bool_decide_eq_true_2 (_ ≠ NULL)) by done.
      erewrite bind_ok by exact Hc. rewrite (bind_ok _ _ _ _ _ (get_rmutex_ok rm_owner _ _ _ Hx1)).
      destruct (decide (rm_owner x = t)) as [Et|Et].
      * rewrite bool_decide_eq_true_2 by done. by rewrite Hid.
      * rewrite bool_decide_eq_false_2 by done. by rewrite (upd_rmutex_ok _ _ _ _ Hx1).
  - unfold rmutex_unlock. rewrite (bool_decide_eq_true_2 (mtx ≠ NULL)) by done. erewrite bind_ok by reflexivity.
    rewrite (bind_ok _ _ _ _ _ (get_rmutex_ok rm_owner _ _ _ Hx1)).
    destruct (decide (rm_owner x = NULL)) as [E|E].
    { rewrite (bool_decide_eq_true_2 (_ = NULL)), (bool_decide_eq_false_2 (_ ≠ NULL)) by tauto. by rewrite Hid. }
    rewrite (bool_decide_eq_false_2 (_ = NULL)), (bool_decide_eq_true_2 (_ ≠ NULL)) by done.
    rewrite (bind_ok _ _ _ _ _ (get_rmutex_ok rm_num_locked _ _ _ Hx1)). destruct (0 <? rm_num_locked x); [|done].
    erewrite bind_ok by reflexivity. rewrite (bind_ok _ _ _ _ _ (upd_rmutex_ok _ _ _ _ Hx1)).
    erewrite bind_ok by (apply get_rmutex_ok, lookup_insert_eq). cbn [rm_num_locked]. case_bool_decide; [|done].
    erewrite bind_ok; [|apply synch_kernel_same, list_pop_empty, is_list_kernel; exact Hl].
    by rewrite bool_decide_eq_false_2 by tauto.
Qed.

(** All of a history: the first thread to lock the mutex keeps it for ever; the second
    unlocking call after that, by whichever thread, fails an assertion. *)
Definition unlocks (tcs : list (Z * rcall)) : nat := length (filter (λ tc, snd tc = RUnlock) tcs).
Definition foreign_locks (t : Z) (tcs : list (Z * rcall)) : nat :=
  length (filter (λ tc, snd tc = RLock ∧ fst tc ≠ t) tcs).

Fixpoint rmutex_history (tcs : list (Z * rcall)) : option rmutex :=
  match tcs with
  | [] => Some (RMutex NULL 0 0)
  | (t, RLock) :: tcs =>
    if (2 <=? unlocks tcs)%nat then None
    else Some (RMutex t (1 - Z.of_nat (unlocks tcs)) (wrap (Z.of_nat (foreign_locks t tcs))))
  | (_, RUnlock) :: tcs => rmutex_history tcs
  end.

Lemma rmutex_rep_next mtx x x' t s :
  rmutex_rep mtx x s → rmutex_rep mtx x' (set_sy_rmutexes <[mtx := x']> (on_processor t s)).
Proof. intros (Hm & _ & Hl). split_and!; [done|apply lookup_insert_eq|exact Hl]. Qed.

(** The kernel up to the current thread. *)
Definition same_threads s s' : Prop :=
  k_threads (sy_kernel s') = k_threads (sy_kernel s) ∧ k_links (sy_kernel s') = k_links (sy_kernel s) ∧
  k_stack (sy_kernel s') = k_stack (sy_kernel s).

(** The mutex is taken: [n] is 1 or 0, and [w] calls have been counted as waiting. *)
Lemma rmutex_taken mtx o n w tcs s :
  o ≠ NULL → (n = 0 ∨ n = 1) → rmutex_rep mtx (RMutex o n w) s → w = wrap w →
  if (Z.to_nat n <? unlocks tcs)%nat then rmutex_calls mtx tcs s = Panic
  else ∃ s', rmutex_calls mtx tcs s = Ok (tt, s') ∧ same_threads s s' ∧
    sy_rmutexes s' !! mtx = Some (RMutex o (n - Z.of_nat (unlocks tcs)) (wrap (w + Z.of_nat (foreign_locks o tcs)))).
Proof.
  intros Ho. revert n w s. induction tcs as [|[t c] tcs IH]; intros n w s Hn Hrep Hw.
  { cbn. exists s. split; [done|]. split; [done|]. cbn. rewrite Z.sub_0_r, Z.add_0_r, <- Hw. apply Hrep. }
  pose proof (rmutex_call_exec mtx t c _ s Hrep) as He. cbn [rmutex_calls].
  destruct c; cbn [rmutex_step rm_owner rm_num_locked rm_num_waiting] in He; rewrite (bool_decide_eq_false_2 (o = NULL)) in He by done.
  - assert (Hu : unlocks ((t, RLock) :: tcs) = unlocks tcs) by done. rewrite Hu.
    case_bool_decide as E.
    + subst t. assert (Hf : foreign_locks o ((o, RLock) :: tcs) = foreign_locks o tcs).
      { unfold foreign_locks. rewrite filter_cons_False; [done|]. by intros [_ []]. }
      rewrite Hf. specialize (IH n w _ Hn (rmutex_rep_next mtx _ (RMutex o n w) o s Hrep) Hw).
      destruct (_ <? _)%nat; [by erewrite bind_ok by exact He|].
      destruct IH as (s' & He' & Hs' & Hx'). exists s'. split; [by erewrite bind_ok by exact He|]. by split.
    + assert (Hf : foreign_locks o ((t, RLock) :: tcs) = S (foreign_locks o tcs)).
      { unfold foreign_locks. rewrite filter_cons_True; [done|]. split; [done|]. cbn. congruence. }
      rewrite Hf. assert (Hww : wrap (w + 1) = wrap (wrap (w + 1))) by (symmetry; apply Z.mod_mod; by vm_compute).
      specialize (IH n (wrap (w + 1)) _ Hn (rmutex_rep_next mtx _ (RMutex o n (wrap (w + 1))) t s Hrep) Hww).
      destruct (_ <? _)%nat; [by erewrite bind_ok by exact He|].
      destruct IH as (s' & He' & Hs' & Hx'). exists s'. split; [by erewrite bind_ok by exact He|]. split; [done|].
      rewrite Hx'. do 2 f_equal. unfold wrap. rewrite Zplus_mod_idemp_l. f_equal. lia.
  - assert (Hu : unlocks ((t, RUnlock) :: tcs) = S (unlocks tcs)) by done. rewrite Hu.
    assert (Hf : foreign_locks o ((t, RUnlock) :: tcs) = foreign_locks o tcs).
    { unfold foreign_locks. rewrite filter_cons_False; [done|]. by intros [? _]. }
    rewrite Hf. destruct Hn as [->| ->].
    + cbn [Z.to_nat Nat.ltb Nat.leb]. unfold mbind, KM_bind. by rewrite He.
    + change (0 <? 1) with true in He. cbn iota in He. change (wrap (1 - 1)) with 0 in He.
      specialize (IH 0 w _ (or_introl eq_refl) (rmutex_rep_next mtx _ (RMutex o 0 w) t s Hrep) Hw).
      change (Z.to_nat 1 <? S (unlocks tcs))%nat with (Z.to_nat 0 <? unlocks tcs)%nat.
      destruct (_ <? _)%nat; [by erewrite bind_ok by exact He|].
      destruct IH as (s' & He' & Hs' & Hx'). exists s'. split; [by erewrite bind_ok by exact He|]. split; [done|].
      rewrite Hx'. do 2 f_equal. lia.
Qed.

(** No thread has locked the mutex yet. *)
Lemma rmutex_untaken mtx tcs s :
  rmutex_rep mtx (RMutex NULL 0 0) s → Forall (λ tc, fst tc ≠ NULL) tcs →
  match rmutex_history tcs with
  | None => rmutex_calls mtx tcs s = Panic
  | Some x => ∃ s', rmutex_calls mtx tcs s = Ok (tt, s') ∧ same_threads s s' ∧ sy_rmutexes s' !! mtx = Some x
  end.
Proof.
  revert s. induction tcs as [|[t c] tcs IH]; intros s Hrep Ht; [exists s; split; [done|]; split; [done|]; apply Hrep|].
  apply Forall_cons in Ht as [Ht Hts]. pose proof (rmutex_call_exec mtx t c _ s Hrep) as He. destruct c; cbn in He.
  - cbn [rmutex_history rmutex_calls].
    pose proof (rmutex_taken mtx t 1 0 tcs _ Ht (or_intror eq_refl) (rmutex_rep_next mtx _ (RMutex t 1 0) t s Hrep) eq_refl) as Hr.
    change (Z.to_nat 1 <? unlocks tcs)%nat with (2 <=? unlocks tcs)%nat in Hr. destruct (2 <=? unlocks tcs)%nat.
    + by erewrite bind_ok by exact He.
    + destruct Hr as (s' & He' & Hs & Hx). exists s'. split; [by erewrite bind_ok by exact He|]. by split.
  - cbn [rmutex_history rmutex_calls]. specialize (IH _ (rmutex_rep_next mtx _ (RMutex NULL 0 0) t s Hrep) Hts).
    destruct (rmutex_history tcs).
    + destruct IH as (s' & He' & Hs & Hx). exists s'. split; [by erewrite bind_ok by exact He|]. by split.
    + by erewrite bind_ok by exact He.
Qed.

Lemma rmutex_init_exec mtx x s :
  mtx ≠ NULL → sy_rmutexes s !! mtx = Some x → rmutex_wait_queue mtx ≠ NULL →
  mapped (M := links) (k_links (sy_kernel s)) (rmutex_wait_queue mtx) →
  ∃ s', rmutex_init mtx s = Ok (tt, s') ∧ rmutex_rep mtx (RMutex NULL 0 0) s' ∧
    k_threads (sy_kernel s') = k_threads (sy_kernel s) ∧
    ∀ p, p ≠ rmutex_wait_queue mtx → k_links (sy_kernel s') !! p = k_links (sy_kernel s) !! p.
Proof.
  intros Hm Hx Hq Hmap. set (s1 := set_sy_rmutexes <[mtx := RMutex NULL 0 0]> s).
  destruct (list_init_spec (sy_kernel s1) (rmutex_wait_queue mtx)) as (k & He & Hl & Hw); [done|exact Hmap|].
  exists (set_sy_kernel k s1). split_and!.
  - unfold rmutex_init. rewrite bool_decide_eq_true_2 by done. erewrite bind_ok by reflexivity.
    rewrite (bind_ok _ _ _ _ _ (upd_rmutex_ok _ _ _ _ Hx)).
    do 2 (rewrite (bind_ok _ _ _ _ _ (upd_rmutex_ok _ _ _ _ (lookup_insert_eq _ _ _)))).
    rewrite !rmutexes_twice. by apply synch_kernel_ok.
  - split_and!; [done|apply lookup_insert_eq|by apply is_list_kernel].
  - by apply writes_kernel in Hw as (l & -> & _).
  - intros p Hp. apply writes_kernel in Hw as (l & -> & Hw). by apply (writes_links _ _ _ p Hw).
Qed.

(** A recursive mutex in any history of calls after [rmutex_init], by any threads:
    the history tells what is in its fields.  The first thread to lock it owns it for
    ever, nested calls of that thread are not counted, and the second unlocking call
    fails the assertion on the count.  No call blocks or wakes up a thread: calls of
    other threads return without the mutex, and are only counted. *)
Theorem rmutex_histories mtx x s tcs :
  mtx ≠ NULL → sy_rmutexes s !! mtx = Some x → rmutex_wait_queue mtx ≠ NULL →
  mapped (M := links) (k_links (sy_kernel s)) (rmutex_wait_queue mtx) → Forall (λ tc, fst tc ≠ NULL) tcs →
  match rmutex_history tcs with
  | None => (rmutex_init mtx ;; rmutex_calls mtx tcs) s = Panic
  | Some y => ∃ s', (rmutex_init mtx ;; rmutex_calls mtx tcs) s = Ok (tt, s') ∧ sy_rmutexes s' !! mtx = Some y ∧
      k_threads (sy_kernel s') = k_threads (sy_kernel s) ∧
      (∀ p, p ≠ rmutex_wait_queue mtx → k_links (sy_kernel s') !! p = k_links (sy_kernel s) !! p)
  end.
Proof.
  intros Hm Hx Hq Hmap Hts. destruct (rmutex_init_exec mtx x s Hm Hx Hq Hmap) as (s1 & He1 & Hrep & Ht1 & Hl1).
  pose proof (rmutex_untaken mtx tcs s1 Hrep Hts) as Hc. destruct (rmutex_history tcs) as [y|].
  - destruct Hc as (s' & He & (Et & El & _) & Hy). exists s'. split; [by erewrite bind_ok by exact He1|].
    rewrite Et, El. by split_and!.
  - by erewrite bind_ok by exact He1.
Qed.

(** ** Read/write locks *)
Section rwlock.
  Context (runnable_list rwlock_write_woken : Z).
  Abbreviation write_lock := (rwlock_write_lock runnable_list rwlock_write_woken).

(** The link with which a thread waits, when it does not wait. *)
Definition wait_link_free k (ws : list Z) (h p : Z) : Prop :=
  p ≠ NULL ∧ mapped (M := links) (k_links k) p ∧ p ∉ h :: ws ∧
  ∀ q, q ∈ p :: h :: ws → k_threads k !! q = None ∧ q ≠ run_queue runnable_list k.

Lemma queue_exec k a h ws p :
  sched_rep runnable_list k a → is_list (M := links) (k_links k) h ws → wait_link_free k ws h p →
  ∃ l, list_append h p k = Ok (tt, set_k_links (λ _, l) k) ∧ sched_rep runnable_list (set_k_links (λ _, l) k) a ∧
    is_list (M := links) l h (ws ++ [p]).
Proof.
  intros Hr Hl (Hp0 & Hpm & Hn & Hs).
  destruct (list_append_spec k h ws p) as (k' & He & Hl' & Hw); [by apply is_list_kernel|done|exact Hpm| |].
  { apply Forall_forall. intros q Hq. cbn. by intros <-. }
  apply writes_kernel in Hw as (l & -> & Hw). apply is_list_kernel in Hl'. exists l. split_and!; [exact He| |exact Hl'].
  apply (sched_rep_links runnable_list k a l Hr). intros q Hq. apply (writes_links _ _ _ q Hw). intros Hin.
  destruct (Hs q Hin) as [E1 E2]. destruct Hq as [|[x Hx]]; congruence.
Qed.

(** [rwlock_write_lock] in both cases.  A lock that is free is locked for writing, and
    nothing else happens.  Otherwise the thread is the last one in the queue of the
    writers, it is counted, and it goes to sleep: the processor goes to the head of the
    run queue, and the thread will look at the lock again when it goes on.  The lock
    stays as it is. *)
Theorem rwlock_write_lock_refines s a rwl x ws :
  let k := sy_kernel s in let p := thread_wait_queue_link (sc_current a) in
  rwl ≠ NULL → sy_rwlocks s !! rwl = Some x →
  sched_rep runnable_list k a → running a → is_list (M := links) (k_links k) (write_wait_queue rwl) ws →
  wait_link_free k ws (write_wait_queue rwl) p →
  ∃ s', write_lock rwl s = Ok (tt, s') ∧
    if bool_decide (rw_state x = RWLOCK_UNLOCKED)
    then s' = set_sy_rwlocks <[rwl := set_rw_state RWLOCK_LOCKED_WRITE x]> s
    else sy_rwlocks s' = <[rwl := set_rw_num_write_waiting (wrap (rw_num_write_waiting x + 1)) x]> (sy_rwlocks s) ∧
      sched_rep runnable_list (sy_kernel s') (a_schedule (a_block THREAD_SLEEPING a)) ∧
      is_list (M := links) (k_links (sy_kernel s')) (write_wait_queue rwl) (ws ++ [p]) ∧
      handed_over (FSuspend (Z.land (cp0_status k) CP0_STATUS_IE_MASK) :: FUser rwlock_write_woken rwl :: k_stack k)
        (Z.land (cp0_status k) (Z.lnot CP0_STATUS_IE_MASK)) k (sy_kernel s') (a_block THREAD_SLEEPING a).
Proof.
  intros k p Hm Hx Hr Hrun Hl Hfree. unfold rwlock_write_lock, rwlock_write_wait.
  rewrite (bool_decide_eq_true_2 (rwl ≠ NULL)) by done. erewrite bind_ok by reflexivity.
  rewrite (bind_ok _ _ _ _ _ (get_rwlock_ok _ _ _ _ Hx)). destruct (decide (rw_state x = RWLOCK_UNLOCKED)) as [E|E].
  - rewrite (bool_decide_eq_true_2 (_ = _)), (bool_decide_eq_false_2 (_ ≠ _)) by tauto.
    eexists. split; [by apply upd_rwlock_ok|done].
  - rewrite (bool_decide_eq_false_2 (_ = _)), (bool_decide_eq_true_2 (_ ≠ _)) by done.
    erewrite bind_ok by (apply synch_kernel_same, thread_get_current_ok; apply Hr).
    destruct (queue_exec k a _ ws p Hr Hl Hfree) as (l & He1 & Hr1 & Hl1). set (k1 := set_k_links (λ _, l) k) in *.
    erewrite bind_ok by (apply synch_kernel_ok; exact He1).
    rewrite (bind_ok _ _ _ _ _ (upd_rwlock_ok _ _ x (set_sy_kernel k1 s) Hx)).
    set (k2 := set_k_stack (FUser rwlock_write_woken rwl :: k_stack k1) k1).
    destruct (suspend_rep (runnable_list := runnable_list) k2 a) as (k3 & He3 & Hr3 & Hf3 & Hh3); [by apply (rep_ext _ k1)|done|].
    eexists. split.
    { apply synch_kernel_ok. erewrite bind_ok by reflexivity. exact He3. }
    split_and!; [done|exact Hr3| |].
    + apply (is_list_agree l); [|exact Hl1]. intros q Hq. destruct Hfree as (_ & _ & _ & Hs).
      destruct (Hs q) as [E1 E2]; [set_solver|]. by apply (proj1 Hf3).
    + by apply (handed_over_from _ _ k k2).
Qed.

(** Nobody who waits is woken up when the lock is given back. *)
Lemma rwlock_write_unlock_exec s rwl x :
  rwl ≠ NULL → sy_rwlocks s !! rwl = Some x →
  rwlock_write_unlock rwl s =
    if bool_decide (rw_state x = RWLOCK_LOCKED_WRITE)
    then Ok (tt, set_sy_rwlocks <[rwl := set_rw_state RWLOCK_UNLOCKED x]> s) else Panic.
Proof.
  intros Hm Hx. unfold rwlock_write_unlock. rewrite (bool_decide_eq_true_2 (rwl ≠ NULL)) by done.
  erewrite bind_ok by reflexivity. rewrite (bind_ok _ _ _ _ _ (get_rwlock_ok _ _ _ _ Hx)).
  destruct (decide (rw_state x = RWLOCK_LOCKED_WRITE)) as [E|E].
  - rewrite (bool_decide_eq_true_2 (_ = _)), (bool_decide_eq_false_2 (_ ≠ _)) by tauto. by apply upd_rwlock_ok.
  - by rewrite (bool_decide_eq_false_2 (_ = _)), (bool_decide_eq_true_2 (_ ≠ _)).
Qed.
End rwlock.

(** ** The mutexes of user programs: there are none *)
Section user.
  Context (runnable_list : Z) (plist_init : Z → KM (kernel H) unit).

Lemma umutex_get_exec s cur th mid :
  k_current (sy_kernel s) !! k_cpu (sy_kernel s) = Some cur → k_threads (sy_kernel s) !! cur = Some th →
  umutex_get mid s = Ok (NULL, s).
Proof.
  intros Hc Ht. unfold umutex_get.
  assert (Hp : thread_get_process (sy_kernel s) = Ok (th_process th, sy_kernel s)).
  { unfold thread_get_process. do 2 kexec_step. erewrite bind_ok by (by apply get_thread_ok). by erewrite bind_ok by apply restored. }
  erewrite bind_ok by (by apply synch_kernel_same). cbv zeta.
  erewrite bind_ok by (apply synch_kernel_ok; reflexivity).
  erewrite bind_ok by (apply synch_kernel_ok; exact (restored (sy_kernel s))). by destruct s.
Qed.

(** All of them are refused, but for the one that says that it has the mutex. *)
Lemma sys_mutex_calls s cur th mid :
  k_current (sy_kernel s) !! k_cpu (sy_kernel s) = Some cur → k_threads (sy_kernel s) !! cur = Some th →
  sys_mutex_init plist_init mid s = Ok (Some ENOMEM, s) ∧ sys_mutex_lock mid s = Ok (Some EOK, s) ∧
  sys_mutex_unlock runnable_list mid s = Ok (Some EINVAL, s) ∧ sys_mutex_destroy runnable_list mid s = Ok (Some EINVAL, s).
Proof.
  intros Hc Ht. split_and!; [done|done|..].
  - unfold sys_mutex_unlock. by erewrite bind_ok by (by eapply umutex_get_exec).
  - unfold sys_mutex_destroy. by erewrite bind_ok by (by eapply umutex_get_exec).
Qed.
End user.
End exec.

(** ** Witnesses *)
(** The sample kernel with the links of the locks: a recursive mutex at 512, a
    read/write lock at 768 that is taken. *)
Definition lock_links : links :=
  <[524 := Link 0 0]> (<[792 := Link 792 792]> (<[thread_wait_queue_link 8192 := Link 0 0]> (k_links sample_kernel))).

Definition sample_synch (state : rwlock_state) : synch (mm_state (gset Z)) :=
  Synch (set_k_links (λ _, lock_links) sample_kernel) ∅ {[512 := RMutex 3 4 5]} {[768 := RwLock state 0 0 0]}.

Lemma sample_synch_rep state : sched_rep 64 (sy_kernel (sample_synch state)) sample_sched.
Proof.
  apply (sched_rep_links 64 sample_kernel sample_sched lock_links sample_sched_rep).
  intros p [->|[th Hp]]; [done|]. by destruct (sample_threads_inv p th Hp) as [->|[->| ->]].
Qed.

(** Three threads lock the mutex, its owner twice; it is unlocked once, then again. *)
Lemma rmutex_histories_witness :
  let s := sample_synch RWLOCK_UNLOCKED in
  let tcs := [(8192, RUnlock); (8192, RLock); (8192, RLock); (4096, RLock); (12288, RLock); (8192, RUnlock)] in
  (∃ s', (rmutex_init 512 ;; rmutex_calls 512 tcs) s = Ok (tt, s') ∧ sy_rmutexes s' !! 512 = Some (RMutex 8192 0 2)) ∧
  (rmutex_init 512 ;; rmutex_calls 512 (tcs ++ [(8192, RUnlock)])) s = Panic.
Proof.
  intros s tcs. assert (Hm : mapped (M := links) (k_links (sy_kernel s)) (rmutex_wait_queue 512)) by (split; by eexists).
  split.
  - destruct (rmutex_histories 512 (RMutex 3 4 5) s tcs) as (s' & He & Hx & _); [done|reflexivity|done|exact Hm|..].
    + by apply (bool_decide_unpack _).
    + by exists s'.
  - apply (rmutex_histories 512 (RMutex 3 4 5) s (tcs ++ [(8192, RUnlock)])); [done|reflexivity|done|exact Hm|].
    by apply (bool_decide_unpack _).
Defined.

(** A writer waits for a lock that is taken, and takes one that is free. *)
Lemma rwlock_write_lock_refines_witness :
  (∃ s', rwlock_write_lock 64 99 768 (sample_synch RWLOCK_LOCKED_WRITE) = Ok (tt, s') ∧
    is_list (M := links) (k_links (sy_kernel s')) (write_wait_queue 768) [thread_wait_queue_link 8192] ∧
    sched_rep 64 (sy_kernel s') (a_schedule (a_block THREAD_SLEEPING sample_sched))) ∧
  ∃ s', rwlock_write_lock 64 99 768 (sample_synch RWLOCK_UNLOCKED) = Ok (tt, s') ∧
    rw_state <$> sy_rwlocks s' !! 768 = Some RWLOCK_LOCKED_WRITE.
Proof.
  assert (Hl : ∀ st, is_list (M := links) (k_links (sy_kernel (sample_synch st))) (write_wait_queue 768) []).
  { intros st. split; [by vm_compute|]. split; [by apply (bool_decide_unpack _)|].
    split; [by apply (bool_decide_unpack _)|]. intros x y _ _ ?. done. }
  assert (Hf : ∀ st, wait_link_free 64 (sy_kernel (sample_synch st)) [] (write_wait_queue 768) (thread_wait_queue_link 8192)).
  { intros st. split_and!; [done|split; by eexists| |].
    - by apply (bool_decide_unpack _).
    - intros q Hq. apply elem_of_cons in Hq as [->|[->|[]%elem_of_nil]%elem_of_cons]; by split. }
  split.
  - destruct (rwlock_write_lock_refines 64 99 (sample_synch RWLOCK_LOCKED_WRITE) sample_sched 768
      (RwLock RWLOCK_LOCKED_WRITE 0 0 0) []) as (s' & He & Hs); [done|reflexivity|apply sample_synch_rep|reflexivity|apply Hl|apply Hf|].
    exists s'. split; [exact He|]. destruct Hs as (_ & Hr & Hq & _). by split.
  - destruct (rwlock_write_lock_refines 64 99 (sample_synch RWLOCK_UNLOCKED) sample_sched 768
      (RwLock RWLOCK_UNLOCKED 0 0 0) []) as (s' & He & Hs); [done|reflexivity|apply sample_synch_rep|reflexivity|apply Hl|apply Hf|].
    exists s'. split; [exact He|]. rewrite bool_decide_eq_true_2 in Hs by done. by rewrite Hs.
Defined.
