(* ===== verification/Safety.v ===== *)
(** * From power-on on

    The kernel that [bsp_start] leaves behind satisfies the invariant of the running
    kernel, so that no sequence of calls makes it fail. *)
From S2P Require Import Prelude CList Cpu Malloc MallocTheorems KHeap KTime Tlb TlbTheorems Kernel Sched Vmm PageTable Threads Timers.
From S2P Require Import SchedExec SchedSpec SchedRefine SchedOps VmmTheorems KernelSample ThreadCreate TimerSpec Process.
From S2P Require Import Typing Main Boot MainTheorems Join System SystemTheorems.

Section started.
  Context {H : Type} `{KernelHeapLaws H}.
  Context (runnable_list timers_list example : Z) (owned : Z → Prop).
  Implicit Types (s : kernel H).

(** What holds when the main thread begins is the invariant. *)
Lemma booted_kinv timer idle main s :
  booted runnable_list timers_list example owned timer idle main s →
  ∃ g, kinv runnable_list timers_list idle owned g s.
Proof.
  intros [[Hr Hrun] [Ht Htt] (Htm & _) _ _ (live & types & Hrep & Hty) Hj Hst _].
  eexists (Ghost _ [] types live). split; [|exact Hrun]. split; cbn [g_sched g_timers g_types g_live]; try done.
  - right. left.
  - intros p Hp. by apply elem_of_nil in Hp.
  - intros t th Hth. left. by eapply Hj.
  - rewrite Htt. destruct Htm as (th & Hth & _). by exists th.
Qed.

(** And the main thread may begin. *)
Lemma booted_starts timer idle main s :
  booted runnable_list timers_list example owned timer idle main s → allowed timers_list idle CallResume s.
Proof.
  intros [_ _ (_ & _ & th & Hth & He & _) _ [Hstk _] _ _ _ _]. exists (FStub main), []. split; [done|].
  exists th. split; [done|]. unfold entry_ok. by rewrite He.
Qed.
End started.

Section power_on.
  Context {F : Type} `{FrameAllocatorLaws F}.
  Context (heap_list : Z) (static : Z → Prop) (runnable_list timers_list example : Z).
  Context (frame_init : KM (mm_state F) unit).
  Context (junk_thread : thread) (junk_timer : timer) (junk_link : link_t).

#[local] Instance safe_heap : KernelHeap (mm_state F) := bsp_heap heap_list static.
#[local] Instance safe_heap_laws : KernelHeapLaws (mm_state F) := mm_kernel_heap_laws heap_list static.

(** C1. The kernel from power-on on, over the allocator of [malloc.c].  Provided that the
    frames [frame_init] leaves free hold the nine blocks of the first three threads (first
    fit can serve them), [bsp_start] returns the next value of [cpu_ready] with the main
    thread ready to begin: no assertion fails and there is no panic; if they do not, it
    panics, for then a thread could not be created.  After the start, whatever calls the
    threads make, in whatever order, with timer interrupts and switches in between,
    every call that is allowed returns: no assertion fails, there is no access outside
    of live objects and no loop without an end. *)
Theorem kernel_safe_from_power_on (s : kernel (mm_state F)) ready m :
  reset runnable_list timers_list s → length (tlb_entries (k_tlb s)) = 48%nat → heap_list ≠ NULL →
  frame_init (k_heap s) = Ok (tt, m) → frames_ready heap_list static m →
  let start := bsp_start heap_list static runnable_list timers_list example frame_init
    junk_thread junk_timer junk_link ready in
  if boot_served (mm_frames m) then
    ∃ idle s1, start s = Ok (wrap (ready + 1), s1) ∧ allowed timers_list idle CallResume s1 ∧
      ∀ s2 c, krun runnable_list timers_list idle junk_thread junk_timer junk_link s1 s2 → allowed timers_list idle c s2 →
        ∃ s3, exec_call runnable_list timers_list junk_thread junk_timer junk_link c s2 = Ok (tt, s3)
  else start s = Panic.
Proof.
  intros Hres Hlen Hhl Hfi Hfr start.
  pose proof (bsp_started heap_list static runnable_list timers_list example frame_init junk_thread junk_timer junk_link
    s ready m Hres Hlen Hhl Hfi Hfr) as Hs. cbv zeta in Hs. fold start in Hs.
  destruct (boot_served (mm_frames m)) as [[hs f]|]; [|exact Hs]. destruct Hs as (timer & idle & main & s1 & He & Hb & _).
  exists idle, s1. split; [done|]. split; [by eapply booted_starts|]. intros s2 c Hrun Hc.
  destruct (booted_kinv runnable_list timers_list example (λ _, False) timer idle main s1 Hb) as [g Hk].
  destruct (krun_kinv _ _ _ _ _ _ _ g s1 s2 Hk Hrun) as [g2 Hk2].
  destruct (calls_safe _ _ _ _ junk_thread junk_timer junk_link g2 s2 c Hk2 Hc) as (s3 & _ & He3 & _). by exists s3.
Qed.
End power_on.

Lemma kernel_safe_from_power_on_witness :
  ∃ idle s1, sample_start sample_reset = Ok (wrap (0 + 1), s1) ∧ allowed 80 idle CallResume s1 ∧
    ∃ s3, resume (H := mm_state (gset Z)) 64 80 s1 = Ok (tt, s3).
Proof.
  assert (Hhl : sample_hl ≠ NULL) by done. destruct sample_served as [[hs f] E].
  pose proof (kernel_safe_from_power_on sample_hl sample_static 64 80 7 sample_frame_init
    (sample_thread THREAD_ZOMBIE 0 (Context [] 0)) (Timer 0 0 false CNull 0) (Link 1 2)
    sample_reset 0 (set_cp0_status 0x400000 sample_mm) sample_is_reset eq_refl Hhl eq_refl sample_ready) as Hs.
  cbv zeta in Hs. rewrite E in Hs. destruct Hs as (idle & s1 & He & Ha & Hc).
  exists idle, s1. split; [exact He|]. split; [exact Ha|].
  destruct (Hc s1 CallResume) as (s3 & He3); [apply krun_start|exact Ha|]. exists s3. exact He3.
Defined.
