(* ===== verification/Layout.v ===== *)
(** * The layout of structures ([include/gen_offset.c], and the headers)

    C types as the o32 ABI lays them out, the structures of the kernel as their headers
    declare them, and the offsets and sizes that the other files of this library use.
    [gen_offset.c] prints those of [context_t] for the assembler code. *)
From stdpp Require Import strings.
From S2P Require Import Prelude Mips.
From S2P Require CList Malloc Vmm Threads Sched Timers Process Synch.

(** ** C types *)
Inductive ctype :=
  | Scalar (size : Z)
  | Array (count : Z) (elem : ctype)
  | Struct (ms : members)
with members :=
  | MNil
  | MCons (name : string) (t : ctype) (ms : members).

Scheme ctype_mut := Induction for ctype Sort Prop
with members_mut := Induction for members Sort Prop.
Combined Scheme ctype_members_ind from ctype_mut, members_mut.

Definition pad (o align : Z) : Z := (o + (align - 1)) / align * align.

(** A scalar is aligned to its size, a structure to the largest alignment of a member. *)
Fixpoint alignof (t : ctype) : Z :=
  match t with
  | Scalar size => size
  | Array _ elem => alignof elem
  | Struct ms => align_members ms
  end
with align_members (ms : members) : Z :=
  match ms with MNil => 1 | MCons _ t ms => Z.max (alignof t) (align_members ms) end.

(** [end_of o ms]: where the members [ms] end when they are laid out from [o] on. *)
Fixpoint sizeof (t : ctype) : Z :=
  match t with
  | Scalar size => size
  | Array count elem => count * sizeof elem
  | Struct ms => pad (end_of 0 ms) (align_members ms)
  end
with end_of (o : Z) (ms : members) : Z :=
  match ms with MNil => o | MCons _ t ms => end_of (pad o (alignof t) + sizeof t) ms end.

Fixpoint member_at (o : Z) (name : string) (ms : members) : option (Z * ctype) :=
  match ms with
  | MNil => None
  | MCons n t ms =>
    let o := pad o (alignof t) in
    if bool_decide (n = name) then Some (o, t) else member_at (o + sizeof t) name ms
  end.

(** [offset_of (type, member)], and the same macro of [list.h] and [rbtree.h]. *)
Definition offset_of (t : ctype) (member : string) : option Z :=
  match t with Struct ms => fst <$> member_at 0 member ms | _ => None end.

(** [list_container_of (ptr, type, member)], [list_item] and the same of [rbtree.h]. *)
Definition container_of (ptr : Z) (t : ctype) (member : string) : option Z :=
  (λ off, wrap (ptr - off)) <$> offset_of t member.

Fixpoint struct (l : list (string * ctype)) : members :=
  match l with [] => MNil | (name, t) :: l => MCons name t (struct l) end.

(** ** The structures of the kernel *)
Definition unative_t : ctype := Scalar 4.
Definition pointer : ctype := Scalar 4.
Definition unsigned_int : ctype := Scalar 4.
Definition enum : ctype := Scalar 4.
Definition uint8_t : ctype := Scalar 1.
Definition bool_t : ctype := uint8_t.

Definition context_members : list (string * ctype) := (λ name, (name, unative_t)) <$> [
  "zero"; "at"; "v0"; "v1"; "a0"; "a1"; "a2"; "a3";
  "t0"; "t1"; "t2"; "t3"; "t4"; "t5"; "t6"; "t7"; "t8"; "t9";
  "s0"; "s1"; "s2"; "s3"; "s4"; "s5"; "s6"; "s7";
  "k0"; "k1"; "gp"; "fp"; "sp"; "ra"; "lo"; "hi";
  "epc"; "cause"; "badva"; "entryhi"; "status"].
Definition context_t : ctype := Struct (struct context_members).

Definition struct_link : ctype := Struct (struct [("prev", pointer); ("next", pointer)]).
Definition struct_list : ctype := Struct (struct [("head", struct_link)]).
Definition struct_heap : ctype := Struct (struct [("link", struct_link); ("heap_start", pointer); ("heap_end", pointer); ("frames", unsigned_int)]).
Definition struct_block_head : ctype := Struct (struct [("size", unsigned_int); ("free", bool_t); ("heap", pointer); ("magic", unsigned_int)]).
Definition struct_block_foot : ctype := Struct (struct [("magic", unsigned_int); ("size", unsigned_int)]).
Definition struct_vma : ctype := Struct (struct [("vpn_base", pointer); ("pfn_base", pointer); ("count", unsigned_int); ("valid", bool_t)]).
Definition struct_vmm : ctype := Struct (struct [("asid", uint8_t); ("vma", Array 100 struct_vma)]).
Definition struct_timer : ctype := Struct (struct [
  ("link", struct_link); ("timeout", unsigned_int); ("expires", unsigned_int); ("running", bool_t); ("handler", pointer); ("data", pointer)]).
Definition struct_thread : ctype := Struct (struct [
  ("link", struct_link); ("stack_size", unsigned_int); ("stack_data", pointer); ("entry_func", pointer); ("entry_data", pointer);
  ("retval", pointer); ("stack_top", pointer); ("state", enum); ("scheduled", unative_t); ("joiner", pointer);
  ("timer", struct_timer); ("wait_queue_link", struct_link); ("vmm", pointer); ("process", pointer); ("uthread", pointer)]).
Definition struct_process : ctype := Struct (struct [
  ("link", struct_link); ("ustack_top", pointer); ("main_uthread", pointer); ("image", pointer); ("size", unsigned_int);
  ("retval", unsigned_int); ("uthread_list", struct_list); ("umutex_list", struct_list)]).
Definition struct_uthread : ctype := Struct (struct [
  ("link", struct_link); ("thread", pointer); ("process", pointer); ("entry", pointer); ("data", pointer); ("user_data", pointer)]).
Definition struct_mutex : ctype := Struct (struct [("owner", pointer); ("num_waiting", unsigned_int); ("wait_queue", struct_list)]).
Definition struct_rmutex : ctype := Struct (struct [
  ("owner", pointer); ("num_locked", unsigned_int); ("num_waiting", unsigned_int); ("wait_queue", struct_list)]).
Definition struct_rwlock : ctype := Struct (struct [
  ("state", enum); ("num_readers", unsigned_int); ("num_read_waiting", unsigned_int); ("num_write_waiting", unsigned_int);
  ("read_wait_queue", struct_list); ("write_wait_queue", struct_list)]).
Definition struct_umutex : ctype := Struct (struct [("link", struct_link); ("mtx", struct_mutex)]).

(** ** [gen_offset.c]

    Each macro adds a definition to the output; [size_t] values are printed. *)
Definition ASM_DECLARE (sym : string) (val : option Z) : option (list (string * Z)) := (λ v, [(sym, v)]) <$> val.
Definition OFFSET_DECLARE (name reg : string) : option (list (string * Z)) :=
  ASM_DECLARE ("REGS_OFFSET_" +:+ name) (offset_of context_t reg).

Definition gen_offset_main : option (list (string * Z)) :=
  offsets ← mapM (λ '(name, reg), OFFSET_DECLARE name reg) [
    ("ZERO", "zero"); ("AT", "at"); ("V0", "v0"); ("V1", "v1");
    ("A0", "a0"); ("A1", "a1"); ("A2", "a2"); ("A3", "a3");
    ("T0", "t0"); ("T1", "t1"); ("T2", "t2"); ("T3", "t3"); ("T4", "t4"); ("T5", "t5"); ("T6", "t6"); ("T7", "t7");
    ("T8", "t8"); ("T9", "t9");
    ("S0", "s0"); ("S1", "s1"); ("S2", "s2"); ("S3", "s3"); ("S4", "s4"); ("S5", "s5"); ("S6", "s6"); ("S7", "s7");
    ("K0", "k0"); ("K1", "k1"); ("GP", "gp"); ("FP", "fp"); ("SP", "sp"); ("RA", "ra"); ("HI", "hi"); ("LO", "lo");
    ("EPC", "epc"); ("CAUSE", "cause"); ("BADVA", "badva"); ("STATUS", "status"); ("ENTRYHI", "entryhi")];
  size ← ASM_DECLARE "CONTEXT_SIZE" (Some (sizeof context_t));
  Some (concat offsets ++ size).

(** ** Members do not overlap *)

(** Types as C has them here: scalars of 1, 2, 4 or 8 bytes. *)
Fixpoint ctype_ok (t : ctype) : Prop :=
  match t with
  | Scalar size => size ∈ [1; 2; 4; 8]
  | Array count elem => 0 ≤ count ∧ ctype_ok elem
  | Struct ms => members_ok ms
  end
with members_ok (ms : members) : Prop :=
  match ms with MNil => True | MCons _ t ms => ctype_ok t ∧ members_ok ms end.

Lemma pad_spec o a : 0 < a → o ≤ pad o a ∧ (a | pad o a).
Proof.
  intros Ha. unfold pad. pose proof (Z.div_mod (o + (a - 1)) a ltac:(lia)).
  pose proof (Z.mod_pos_bound (o + (a - 1)) a Ha). split; [lia|]. by exists ((o + (a - 1)) / a).
Qed.

Lemma sizeof_spec :
  (∀ t, ctype_ok t → 0 < alignof t ∧ 0 ≤ sizeof t) ∧
  (∀ ms, members_ok ms → 0 < align_members ms ∧ ∀ o, 0 ≤ o → o ≤ end_of o ms).
Proof.
  apply ctype_members_ind; cbn.
  - intros size Hs. set_unfold. lia.
  - intros count elem IH [Hc [Ha Hs]%IH]. split; [done|lia].
  - intros ms IH [Ha He]%IH. split; [done|]. pose proof (pad_spec (end_of 0 ms) _ Ha). specialize (He 0). lia.
  - intros _. split; [lia|]. lia.
  - intros _ t IHt ms IHms [[Ha Hs]%IHt [Ha' He]%IHms]. split; [lia|]. intros o Ho.
    pose proof (pad_spec o _ Ha). specialize (He (pad o (alignof t) + sizeof t)). lia.
Qed.

(** A member is at an aligned place between the start and the end of the members. *)
Lemma member_at_spec name ms : members_ok ms → ∀ o off t, 0 ≤ o → member_at o name ms = Some (off, t) →
  o ≤ off ∧ (alignof t | off) ∧ off + sizeof t ≤ end_of o ms.
Proof.
  induction ms as [|n t ms IH]; cbn; [done|]. intros [Ht Hms] o off t' Ho.
  destruct (proj1 sizeof_spec t Ht) as [Ha Hs]. destruct (proj2 sizeof_spec ms Hms) as [_ He].
  pose proof (pad_spec o _ Ha) as [Hp Hd]. case_bool_decide.
  - intros [= <- <-]. split_and!; [lia|done|]. apply He. lia.
  - intros (H1 & H2 & H3)%(IH Hms); [|lia]. split_and!; [lia|done|done].
Qed.

Lemma members_disjoint n1 n2 ms : members_ok ms → n1 ≠ n2 → ∀ o o1 t1 o2 t2, 0 ≤ o →
  member_at o n1 ms = Some (o1, t1) → member_at o n2 ms = Some (o2, t2) →
  o1 + sizeof t1 ≤ o2 ∨ o2 + sizeof t2 ≤ o1.
Proof.
  induction ms as [|n t ms IH]; cbn; [done|]. intros [Ht Hms] Hne o o1 t1 o2 t2 Ho.
  destruct (proj1 sizeof_spec t Ht) as [Ha Hs]. pose proof (pad_spec o _ Ha) as [Hp _].
  repeat case_bool_decide; subst; try done.
  - intros [= <- <-] (? & _)%(member_at_spec _ _ Hms); lia.
  - intros (? & _)%(member_at_spec _ _ Hms) [= <- <-]; lia.
  - apply (IH Hms Hne). lia.
Qed.

(** [container_of] finds the structure from the address of any member. *)
Lemma container_of_member p t name off :
  u32 p → offset_of t name = Some off → container_of (wrap (p + off)) t name = Some p.
Proof.
  intros Hp Ho. unfold container_of. rewrite Ho. cbn. f_equal. unfold wrap. rewrite Zminus_mod_idemp_l.
  replace (p + off - off) with p by lia. by apply wrap_small.
Qed.

(** The library's own places, as differences. *)
Create HintDb layout.
#[local] Hint Unfold Malloc.heap_start_of Malloc.heap_end_of Malloc.heap_frames_of
  Malloc.head_size Malloc.head_free Malloc.head_heap Malloc.head_magic Malloc.foot_magic Malloc.foot_size
  Threads.thread_timer Threads.thread_wait_queue_link Process.process_uthread_list Process.process_umutex_list
  Synch.mutex_wait_queue Synch.rmutex_wait_queue Synch.read_wait_queue Synch.write_wait_queue Synch.umutex_mtx : layout.
Ltac same_offset :=
  match goal with |- offset_of ?t ?name = Some ?x =>
    let v := eval vm_compute in (offset_of t name) in
    transitivity v; [by vm_compute|];
    match v with Some ?off => let H := fresh in assert (H : x = off); [|by rewrite H] end
  end; autounfold with layout; lia.

(** ** Properties *)

Lemma context_ok : members_ok (struct context_members).
Proof. cbn. set_solver. Qed.

Lemma context_member_word name off t : member_at 0 name (struct context_members) = Some (off, t) → t = unative_t.
Proof. unfold context_members. generalize 0. cbn. intros o Hm. repeat case_bool_decide; congruence. Qed.

(** The places and sizes that the library uses are those of the declared structures. *)
Lemma structure_layouts :
  (offset_of struct_link "prev", offset_of struct_link "next", sizeof struct_list) = (Some 0, Some 4, Sched.sizeof_list) ∧
  (∀ p, offset_of struct_heap "heap_start" = Some (Malloc.heap_start_of p - p) ∧ offset_of struct_heap "heap_end" = Some (Malloc.heap_end_of p - p) ∧
        offset_of struct_heap "frames" = Some (Malloc.heap_frames_of p - p)) ∧
  sizeof struct_heap = Malloc.sizeof_heap ∧
  (∀ p, offset_of struct_block_head "size" = Some (Malloc.head_size p - p) ∧ offset_of struct_block_head "free" = Some (Malloc.head_free p - p) ∧
        offset_of struct_block_head "heap" = Some (Malloc.head_heap p - p) ∧ offset_of struct_block_head "magic" = Some (Malloc.head_magic p - p)) ∧
  sizeof struct_block_head = Malloc.sizeof_head ∧
  (∀ p, offset_of struct_block_foot "magic" = Some (Malloc.foot_magic p - p) ∧ offset_of struct_block_foot "size" = Some (Malloc.foot_size p - p)) ∧
  sizeof struct_block_foot = Malloc.sizeof_foot ∧
  sizeof struct_vmm = Vmm.sizeof_vmm ∧
  (∀ p, offset_of struct_thread "timer" = Some (Threads.thread_timer p - p) ∧
        offset_of struct_thread "wait_queue_link" = Some (Threads.thread_wait_queue_link p - p)) ∧
  sizeof struct_thread = Threads.sizeof_thread ∧
  (∀ p, offset_of struct_process "uthread_list" = Some (Process.process_uthread_list p - p) ∧
        offset_of struct_process "umutex_list" = Some (Process.process_umutex_list p - p)) ∧
  sizeof struct_process = Process.sizeof_process ∧ sizeof struct_uthread = Process.sizeof_uthread ∧
  (∀ p, offset_of struct_mutex "wait_queue" = Some (Synch.mutex_wait_queue p - p) ∧ offset_of struct_rmutex "wait_queue" = Some (Synch.rmutex_wait_queue p - p) ∧
        offset_of struct_rwlock "read_wait_queue" = Some (Synch.read_wait_queue p - p) ∧
        offset_of struct_rwlock "write_wait_queue" = Some (Synch.write_wait_queue p - p) ∧ offset_of struct_umutex "mtx" = Some (Synch.umutex_mtx p - p)).
Proof.
  split_and!; try done; intros p; split_and!; same_offset.
Qed.

(** The symbols that [gen_offset.c] generates for the assembler code are the offsets that
    [head.S] is modelled with, and the size of [context_t]; every register has a word of its
    own inside the structure. *)
Theorem context_offsets_correct :
  gen_offset_main = Some [
    ("REGS_OFFSET_ZERO", REGS_OFFSET_ZERO); ("REGS_OFFSET_AT", REGS_OFFSET_AT); ("REGS_OFFSET_V0", REGS_OFFSET_V0);
    ("REGS_OFFSET_V1", REGS_OFFSET_V1); ("REGS_OFFSET_A0", REGS_OFFSET_A0); ("REGS_OFFSET_A1", REGS_OFFSET_A1);
    ("REGS_OFFSET_A2", REGS_OFFSET_A2); ("REGS_OFFSET_A3", REGS_OFFSET_A3); ("REGS_OFFSET_T0", REGS_OFFSET_T0);
    ("REGS_OFFSET_T1", REGS_OFFSET_T1); ("REGS_OFFSET_T2", REGS_OFFSET_T2); ("REGS_OFFSET_T3", REGS_OFFSET_T3);
    ("REGS_OFFSET_T4", REGS_OFFSET_T4); ("REGS_OFFSET_T5", REGS_OFFSET_T5); ("REGS_OFFSET_T6", REGS_OFFSET_T6);
    ("REGS_OFFSET_T7", REGS_OFFSET_T7); ("REGS_OFFSET_T8", REGS_OFFSET_T8); ("REGS_OFFSET_T9", REGS_OFFSET_T9);
    ("REGS_OFFSET_S0", REGS_OFFSET_S0); ("REGS_OFFSET_S1", REGS_OFFSET_S1); ("REGS_OFFSET_S2", REGS_OFFSET_S2);
    ("REGS_OFFSET_S3", REGS_OFFSET_S3); ("REGS_OFFSET_S4", REGS_OFFSET_S4); ("REGS_OFFSET_S5", REGS_OFFSET_S5);
    ("REGS_OFFSET_S6", REGS_OFFSET_S6); ("REGS_OFFSET_S7", REGS_OFFSET_S7); ("REGS_OFFSET_K0", REGS_OFFSET_K0);
    ("REGS_OFFSET_K1", REGS_OFFSET_K1); ("REGS_OFFSET_GP", REGS_OFFSET_GP); ("REGS_OFFSET_FP", REGS_OFFSET_FP);
    ("REGS_OFFSET_SP", REGS_OFFSET_SP); ("REGS_OFFSET_RA", REGS_OFFSET_RA); ("REGS_OFFSET_HI", REGS_OFFSET_HI);
    ("REGS_OFFSET_LO", REGS_OFFSET_LO); ("REGS_OFFSET_EPC", REGS_OFFSET_EPC); ("REGS_OFFSET_CAUSE", REGS_OFFSET_CAUSE);
    ("REGS_OFFSET_BADVA", REGS_OFFSET_BADVA); ("REGS_OFFSET_STATUS", REGS_OFFSET_STATUS);
    ("REGS_OFFSET_ENTRYHI", REGS_OFFSET_ENTRYHI); ("CONTEXT_SIZE", CONTEXT_SIZE)] ∧
  (∀ name off, offset_of context_t name = Some off → 0 ≤ off ∧ (4 | off) ∧ off + 4 ≤ CONTEXT_SIZE) ∧
  (∀ name1 name2 off1 off2, name1 ≠ name2 →
     offset_of context_t name1 = Some off1 → offset_of context_t name2 = Some off2 → off1 + 4 ≤ off2 ∨ off2 + 4 ≤ off1).
Proof.
  split; [by vm_compute|]. split.
  - intros name off ((o & t) & Hm & ->)%fmap_Some. pose proof (context_member_word _ _ _ Hm) as ->.
    by apply (member_at_spec _ _ context_ok 0) in Hm.
  - intros n1 n2 o1 o2 Hne ((p1 & t1) & H1 & ->)%fmap_Some ((p2 & t2) & H2 & ->)%fmap_Some.
    pose proof (context_member_word _ _ _ H1) as ->. pose proof (context_member_word _ _ _ H2) as ->.
    by apply (members_disjoint n1 n2 _ context_ok Hne 0 _ _ _ _ (Z.le_refl 0) H1 H2).
Qed.

Lemma context_offsets_correct_witness :
  0 ≤ 124 ∧ (4 | 124) ∧ 124 + 4 ≤ CONTEXT_SIZE ∧ (128 + 4 ≤ 132 ∨ 132 + 4 ≤ 128).
Proof.
  destruct context_offsets_correct as (_ & H1 & H2). destruct (H1 "ra" 124 eq_refl) as (? & ? & ?).
  split_and!; [done..|]. by apply (H2 "lo" "hi").
Defined.
