(* ===== verification/ProcessTheorems.v ===== *)
(** * Creation of processes

    [process_create] allocates the two structures, enters the main thread's into the list
    of the process and creates the thread; when anything fails it leaves no trace. *)
From S2P Require Import Prelude CList Cpu Malloc MallocTheorems KHeap Tlb Kernel Sched Vmm Threads Exc Process SchedExec.
From S2P Require Import SchedSpec SchedRefine SchedOps VmmTheorems KernelSample ThreadCreate TimerSpec.

Section create.
  Context {H : Type} `{KernelHeapLaws H}.
  Context (runnable_list process_stub : Z).
  Context (junk_thread : thread) (junk_timer : timer) (junk_link : link_t).
  Context (junk_process : process) (junk_uthread : uthread).
  Implicit Types (s : kernel H) (a : sched) (live : gmap Z Z).

(** The state with a process at [p], a user thread at [u] and links [l]. *)
Definition opening (p u : Z) (pr : process) (ut : uthread) (l : links) s : kernel H :=
  set_k_processes <[p := pr]> (set_k_uthreads <[u := ut]> (set_k_links (λ _, l) s)).

(** The links in the two structures. *)
Definition own_links (p u : Z) : list Z := [p; process_uthread_list p; process_umutex_list p; u].

Lemma upd_process_ok f p pr s :
  k_processes s !! p = Some pr → upd_process f p s = Ok (tt, set_k_processes <[p := f pr]> s).
Proof. intros Hp. unfold upd_process. by erewrite bind_ok by (by apply load_some). Qed.

Lemma upd_uthread_ok f u ut s :
  k_uthreads s !! u = Some ut → upd_uthread f u s = Ok (tt, set_k_uthreads <[u := f ut]> s).
Proof. intros Hu. unfold upd_uthread. by erewrite bind_ok by (by apply load_some). Qed.

(** What [process_create] asks of the allocator: the two structures, and what the main
    thread needs. *)
Definition process_requests : list request := [Block sizeof_process; Block sizeof_uthread] ++ thread_requests true.

Lemma malloc_process_exec s live owned :
  kh_rep (k_heap s) live owned →
  ∃ p h, cp0_status h = cp0_status s ∧
    ((p = NULL ∧ kh_rep h live owned ∧ refused [Block sizeof_process] (k_heap s) ∧
      malloc_process junk_link junk_process s = Ok (NULL, set_k_heap h s)) ∨
     (p ≠ NULL ∧ granted [Block sizeof_process] (k_heap s) h ∧ ∃ n, sizeof_process ≤ n ∧ fresh_payload live p n ∧ kh_rep h (<[p := n]> live) owned ∧
      malloc_process junk_link junk_process s =
        Ok (p, set_k_processes <[p := junk_process]> (set_k_links (λ m, <[p := junk_link]>
          (<[process_uthread_list p := junk_link]> (<[process_umutex_list p := junk_link]> m))) (set_k_heap h s))))).
Proof.
  intros Hrep. destruct (km_malloc_law (k_heap s) live owned sizeof_process Hrep) as (p & h & He & Hst & Hres); [done|].
  exists p, h. split; [done|]. unfold malloc_process. erewrite bind_ok by (apply in_heap_ok; exact He).
  destruct Hres as [[-> Hr]|(Hp & n & Hn & Hf & Hr)]; [left|right].
  { split_and!; [done|done|by eapply refused_block|done]. }
  split; [done|]. split; [by eapply granted_block|]. exists n. rewrite bool_decide_eq_true_2 by done. by split_and!.
Qed.

Lemma malloc_uthread_exec s live owned :
  kh_rep (k_heap s) live owned →
  ∃ u h, cp0_status h = cp0_status s ∧
    ((u = NULL ∧ kh_rep h live owned ∧ refused [Block sizeof_uthread] (k_heap s) ∧
      malloc_uthread junk_link junk_uthread s = Ok (NULL, set_k_heap h s)) ∨
     (u ≠ NULL ∧ granted [Block sizeof_uthread] (k_heap s) h ∧ ∃ n, sizeof_uthread ≤ n ∧ fresh_payload live u n ∧ kh_rep h (<[u := n]> live) owned ∧
      malloc_uthread junk_link junk_uthread s =
        Ok (u, set_k_uthreads <[u := junk_uthread]> (set_k_links <[u := junk_link]> (set_k_heap h s))))).
Proof.
  intros Hrep. destruct (km_malloc_law (k_heap s) live owned sizeof_uthread Hrep) as (u & h & He & Hst & Hres); [done|].
  exists u, h. split; [done|]. unfold malloc_uthread. erewrite bind_ok by (apply in_heap_ok; exact He).
  destruct Hres as [[-> Hr]|(Hp & n & Hn & Hf & Hr)]; [left|right].
  { split_and!; [done|done|by eapply refused_block|done]. }
  split; [done|]. split; [by eapply granted_block|]. exists n. rewrite bool_decide_eq_true_2 by done. by split_and!.
Qed.

(** Deleting the links of the two structures. *)
Definition without (p u : Z) (l : links) : links :=
  delete p (delete (process_uthread_list p) (delete (process_umutex_list p) (delete u l))).

Lemma without_eq p u (l l0 : links) :
  (∀ q, q ∉ own_links p u → l !! q = l0 !! q) → (∀ q, q ∈ own_links p u → l0 !! q = None) → without p u l = l0.
Proof.
  intros Hl Hn. apply map_eq. intros q. unfold without. destruct (decide (q ∈ own_links p u)) as [Hq|Hq].
  - rewrite (Hn q Hq). unfold own_links in Hq. rewrite !elem_of_cons, elem_of_nil in Hq.
    rewrite !lookup_delete_None. naive_solver.
  - unfold own_links in Hq. rewrite !elem_of_cons in Hq.
    rewrite !lookup_delete_ne by naive_solver. apply Hl. unfold own_links. rewrite !elem_of_cons. tauto.
Qed.

(** Both structures are given back. *)
Lemma free_both_exec p u pr ut l s live owned np nu :
  kh_rep (k_heap s) (<[u := nu]> (<[p := np]> live)) owned → live !! p = None → <[p := np]> live !! u = None →
  k_processes s !! p = None → k_uthreads s !! u = None →
  (∀ q, q ∉ own_links p u → l !! q = k_links s !! q) → (∀ q, q ∈ own_links p u → k_links s !! q = None) →
  ∃ h, (free_uthread u ;; free_process p ;; mret (ENOMEM, NULL)) (opening p u pr ut l s) = Ok ((ENOMEM, NULL), set_k_heap h s) ∧
    cp0_status h = cp0_status s ∧ kh_rep h live owned.
Proof.
  intros Hrep Hp Hu Hpp Huu Hl Hn.
  destruct (km_free_law _ _ owned u nu Hrep) as (h1 & He1 & Hst1 & Hr1); [apply lookup_insert_eq|].
  rewrite delete_insert_id in Hr1 by done.
  destruct (km_free_law h1 _ owned p np Hr1) as (h2 & He2 & Hst2 & Hr2); [apply lookup_insert_eq|].
  rewrite delete_insert_id in Hr2 by done. exists h2. split; [|split; [by rewrite Hst2|done]].
  assert (Hfu : free_uthread u (opening p u pr ut l s) =
    Ok (tt, set_k_heap h1 (set_k_links (delete u) (set_k_uthreads (delete u) (opening p u pr ut l s))))).
  { unfold free_uthread. erewrite bind_ok by (apply load_some, lookup_insert_eq).
    do 2 (erewrite bind_ok by reflexivity). apply in_heap_ok. exact He1. }
  erewrite bind_ok by exact Hfu.
  erewrite bind_ok.
  2:{ unfold free_process. erewrite bind_ok by (apply load_some, lookup_insert_eq).
      do 2 (erewrite bind_ok by reflexivity). apply in_heap_ok. exact He2. }
  unfold mret, KM_ret. do 2 f_equal. apply kernel_ext; try reflexivity; cbn.
  - by apply without_eq.
  - by apply delete_insert_id.
  - by apply delete_insert_id.
Qed.

(** ** The structures are filled in *)
Definition new_links (p u : Z) (l : links) : Prop :=
  is_list (M := links) l (process_uthread_list p) [u] ∧ is_list (M := links) l (process_umutex_list p) [].

Lemma links_mapped s q : is_Some (k_links s !! q) → mapped s q.
Proof. intros [v Hv]. unfold mapped. cbn. rewrite Hv. split; by eexists. Qed.

(** [list_init] touches one link. *)
Lemma list_init_kernel s h :
  h ≠ NULL → is_Some (k_links s !! h) →
  ∃ l, list_init h s = Ok (tt, set_k_links (λ _, l) s) ∧ is_list (M := links) l h [] ∧
    (∀ q, q ≠ h → l !! q = k_links s !! q) ∧ ∀ q, is_Some (l !! q) ↔ is_Some (k_links s !! q).
Proof.
  intros Hh Hm. destruct (list_init_spec s h Hh (links_mapped s h Hm)) as (s' & He & Hl & Hw).
  apply writes_kernel in Hw as (l & -> & Hw). apply is_list_kernel in Hl. exists l. split_and!; [done|done| |].
  - intros q Hq. by apply (writes_links _ _ _ q Hw).
  - intros q. by apply (writes_links_dom _ _ _ q Hw).
Qed.

Lemma setup_lists_exec p u image size pr ut l s :
  0 < p → 0 < u → u ∉ [p; process_uthread_list p; process_umutex_list p] →
  (∀ q, q ∈ own_links p u → is_Some (l !! q)) →
  ∃ l', process_setup p u image size (opening p u pr ut l s) =
      Ok (tt, opening p u (Process (pr_ustack_top pr) u image size (pr_retval pr))
        (UThread (ut_thread ut) p USER_CODE_START NULL NULL) l' s) ∧
    new_links p u l' ∧ (∀ q, q ∉ own_links p u → l' !! q = l !! q) ∧ ∀ q, is_Some (l' !! q) ↔ is_Some (l !! q).
Proof.
  intros Hp Hu Hup Hl. rewrite !not_elem_of_cons in Hup. destruct Hup as (Hup & HuA & HuB & _).
  set (A := process_uthread_list p) in *. set (B := process_umutex_list p) in *.
  assert (HAB : A ≠ B ∧ A ≠ NULL ∧ B ≠ NULL ∧ u ≠ NULL).
  { unfold A, B, process_uthread_list, process_umutex_list, NULL. lia. }
  destruct HAB as (HAB & HA0 & HB0 & Hu0).
  set (pr' := Process (pr_ustack_top pr) u image size (pr_retval pr)).
  set (ut' := UThread (ut_thread ut) p USER_CODE_START NULL NULL).
  assert (Hup' : ∀ l, upd_uthread (λ ut, UThread (ut_thread ut) p USER_CODE_START NULL NULL) u (opening p u pr' ut l s) =
    Ok (tt, opening p u pr' ut' l s)).
  { intros l0. erewrite upd_uthread_ok by apply lookup_insert_eq. do 2 f_equal.
    apply kernel_ext; try reflexivity. apply insert_insert_eq. }
  assert (Hpp' : upd_process (λ pr, Process (pr_ustack_top pr) u image size (pr_retval pr)) p (opening p u pr ut l s) =
    Ok (tt, opening p u pr' ut l s)).
  { erewrite upd_process_ok by apply lookup_insert_eq. do 2 f_equal.
    apply kernel_ext; try reflexivity. apply insert_insert_eq. }
  assert (HA : is_Some (l !! A)) by (apply Hl; right; left).
  assert (HB : is_Some (l !! B)) by (apply Hl; right; right; left).
  assert (HU : is_Some (l !! u)) by (apply Hl; right; right; right; left).
  destruct (list_init_kernel (opening p u pr' ut l s) A HA0 HA) as (l1 & He1 & HlA & Hl1 & Hd1).
  destruct (list_init_kernel (opening p u pr' ut l1 s) B HB0) as (l2 & He2 & HlB & Hl2 & Hd2); [by apply Hd1|].
  assert (HlA2 : is_list (M := links) l2 A []).
  { apply (is_list_agree l1); [|done]. intros q ->%list_elem_of_singleton. by apply Hl2. }
  destruct (list_append_spec (opening p u pr' ut' l2 s) A [] u) as (s' & He & HlA' & Hw);
    [by apply is_list_kernel|done|by apply links_mapped, Hd2, Hd1|by constructor|].
  apply writes_kernel in Hw as (l3 & -> & Hw). exists l3. split_and!.
  - unfold process_setup. erewrite bind_ok by exact Hpp'.
    erewrite bind_ok by exact He1. erewrite bind_ok by exact He2. erewrite bind_ok by exact (Hup' l2). exact He.
  - split; [by apply is_list_kernel in HlA'|]. apply (is_list_agree l2); [|done]. intros q ->%list_elem_of_singleton.
    apply (writes_links _ _ _ B Hw). rewrite !elem_of_cons, elem_of_nil. naive_solver.
  - intros q Hq. unfold own_links in Hq. rewrite !not_elem_of_cons in Hq. destruct Hq as (Hqp & HqA & HqB & Hqu & _).
    rewrite (writes_links _ _ _ q Hw) by (rewrite !elem_of_cons, elem_of_nil; naive_solver).
    etrans; [by apply Hl2|by apply Hl1].
  - intros q. rewrite (writes_links_dom _ _ _ q Hw). etrans; [apply Hd2|apply Hd1].
Qed.

(** ** The two structures are allocated *)
Section opened.
  Context (s : kernel H) (a : sched) (live : gmap Z Z) (owned : Z → Prop) (p np u nu : Z).
  Context (Hr : sched_rep runnable_list s a) (Hok : objects_ok s live).
  Context (Hp : fresh_payload live p np) (Hnp : sizeof_process ≤ np).
  Context (Hu : fresh_payload (<[p := np]> live) u nu) (Hnu : sizeof_uthread ≤ nu).

Definition opened_live : gmap Z Z := <[u := nu]> (<[p := np]> live).

Lemma opened_sub : live ⊆ opened_live.
Proof. unfold opened_live. etrans; by apply fresh_sub. Qed.

Lemma own_in_use q : q ∈ own_links p u → ¬ in_use live q ∧ in_use opened_live q.
Proof.
  intros Hq. assert (Hcase : (p ≤ q < p + np) ∨ q = u).
  { unfold own_links in Hq. rewrite !elem_of_cons, elem_of_nil in Hq.
    unfold sizeof_process, process_uthread_list, process_umutex_list in *. destruct Hq as [->|[->|[->|[->|[]]]]]; lia. }
  destruct Hcase as [Hcase| ->].
  - split; [by eapply fresh_not_in_use|]. eapply in_use_sub; [apply fresh_sub, Hu|]. by apply in_use_new.
  - unfold sizeof_uthread in Hnu. split.
    + intros Hin. eapply (fresh_not_in_use _ u nu u Hu); [lia|]. eapply in_use_sub; [by apply fresh_sub|done].
    + apply in_use_new. lia.
Qed.

Lemma own_fresh q : q ∈ own_links p u → k_links s !! q = None ∧ k_threads s !! q = None.
Proof.
  intros Hq. destruct (own_in_use q Hq) as [Hn _].
  split; apply eq_None_not_Some; intros Hs; apply Hn; by destruct Hok; auto.
Qed.

Lemma own_stores : k_processes s !! p = None ∧ k_uthreads s !! u = None.
Proof.
  destruct (own_in_use p) as [Hn _]; [left|]. destruct (own_in_use u) as [Hn' _]; [do 3 right; left|].
  split; apply eq_None_not_Some; intros Hs; [apply Hn; by apply (oo_processes _ _ Hok)|apply Hn'; by apply (oo_uthreads _ _ Hok)].
Qed.

Lemma own_apart : u ∉ [p; process_uthread_list p; process_umutex_list p].
Proof.
  intros Hin. assert (Hin' : p ≤ u < p + np).
  { rewrite !elem_of_cons, elem_of_nil in Hin.
    unfold sizeof_process, process_uthread_list, process_umutex_list in *. destruct Hin as [->|[->|[->|[]]]]; lia. }
  apply (fresh_not_in_use _ u nu u Hu); [unfold sizeof_uthread in Hnu; lia|]. by apply in_use_new.
Qed.

(** The links around the new ones. *)
Context (l : links) (Hl : ∀ q, q ∉ own_links p u → l !! q = k_links s !! q).

Lemma opening_rep pr ut h : sched_rep runnable_list (opening p u pr ut l (set_k_heap h s)) a.
Proof.
  apply (rep_ext _ (set_k_links (λ _, l) s)); try done. apply sched_rep_links; [exact Hr|].
  intros q Hq. apply Hl. intros Hin. destruct (own_fresh q Hin) as [E1 E2]. destruct Hq as [->|[? Hq]]; [|congruence].
  destruct Hr as (_ & His & _). destruct (is_list_mapped _ _ _ (run_queue runnable_list s) His) as [Hm _]; [left|].
  cbn in Hm. rewrite E1 in Hm. by destruct Hm.
Qed.

Lemma opening_objects pr ut h : objects_ok (opening p u pr ut l (set_k_heap h s)) opened_live.
Proof.
  assert (Hup : ∀ q, in_use live q → in_use opened_live q) by (intros q; apply in_use_sub, opened_sub).
  split; cbn.
  - intros t Ht. by apply Hup, Hok.
  - intros q Hq. destruct (decide (q ∈ own_links p u)) as [Hin|Hn]; [by apply own_in_use|].
    rewrite Hl in Hq by done. by apply Hup, (oo_links _ _ Hok).
  - intros q Hq. by apply Hup, (oo_timers _ _ Hok).
  - intros q Hq. by apply Hup, (oo_vmms _ _ Hok).
  - intros q [<-|[_ Hq]]%lookup_insert_is_Some; [apply own_in_use; left|by apply Hup, (oo_processes _ _ Hok)].
  - intros q [<-|[_ Hq]]%lookup_insert_is_Some; [apply own_in_use; do 3 right; left|by apply Hup, (oo_uthreads _ _ Hok)].
Qed.
End opened.

(** What a call that succeeds leaves behind. *)
Record process_created s a live owned (image size p : Z) s' : Prop := ProcessCreated {
  pc_process : ∃ u t pr, k_processes s' = <[p := pr]> (k_processes s) ∧
    pr_main_uthread pr = u ∧ pr_image pr = image ∧ pr_size pr = size ∧
    k_uthreads s' = <[u := UThread t p USER_CODE_START NULL NULL]> (k_uthreads s) ∧
    is_list (M := links) (k_links s') (process_uthread_list p) [u] ∧
    is_list (M := links) (k_links s') (process_umutex_list p) [] ∧
    sched_rep runnable_list s' (a_create t a) ∧ k_threads s !! t = None ∧
    ∃ th, k_threads s' !! t = Some th ∧ th_entry_func th = CUser process_stub ∧ th_entry_data th = p ∧
      th_stack_top th = Context [FStub t] (Z.lor CP0_STATUS_IE_MASK CP0_STATUS_IM_MASK) ∧
      k_vmms s !! th_vmm th = None ∧ k_vmms s' = <[th_vmm th := empty_vmm (k_last_asid s)]> (k_vmms s);
  pc_memory : ∃ live', live ⊆ live' ∧ kh_rep (k_heap s') live' owned ∧ objects_ok s' live';
  pc_status : cp0_status s' = cp0_status s;
  pc_tlb : k_tlb s' = k_tlb s;
  pc_granted : granted process_requests (k_heap s) (k_heap s');
}.

(** The list of the process is not disturbed by the creation of its thread, nor anything else. *)
Lemma start_created s a cur live owned p np u nu pr ut l h t s2 :
  sched_rep runnable_list s a → objects_ok s live →
  fresh_payload live p np → sizeof_process ≤ np → fresh_payload (<[p := np]> live) u nu → sizeof_uthread ≤ nu →
  new_links p u l → cp0_status h = cp0_status s → pr_main_uthread pr = u →
  granted [Block sizeof_process; Block sizeof_uthread] (k_heap s) h →
  let s1 := opening p u pr ut l (set_k_heap h s) in
  created runnable_list s1 a (opened_live live p np u nu) owned (CUser process_stub) p TF_NEW_VMM cur t s2 →
  k_uthreads s2 !! u = Some ut ∧
  process_created s a live owned (pr_image pr) (pr_size pr) p
    (set_k_uthreads <[u := UThread t p USER_CODE_START NULL NULL]> s2).
Proof.
  intros Hr Hok Hp Hnp Hu Hnu [HlA HlB] Hst Hmain Hg s1 Hc.
  destruct (own_stores s live p np u nu Hok Hp Hnp Hu Hnu) as [Hpn Hun].
  destruct (cr_frame _ _ _ _ _ _ _ _ _ _ _ Hc) as (Fst & _ & Fp & Fu).
  destruct (cr_memory _ _ _ _ _ _ _ _ _ _ _ Hc) as (live' & stk & v & n & Hsub & Hrep' & Hok' & Hth & _ & _ & _ & Hv & _).
  rewrite bool_decide_eq_true_2 in Hv by done. destruct Hv as [Hv1 Hv2].
  destruct (cr_new _ _ _ _ _ _ _ _ _ _ _ Hc) as [_ Htn].
  set (ut' := UThread t p USER_CODE_START NULL NULL).
  set (s' := set_k_uthreads <[u := ut']> s2).
  assert (Hkeep : ∀ q, q ∈ own_links p u → is_Some (l !! q) → k_links s2 !! q = l !! q).
  { intros q Hq Hs. apply (cr_links _ _ _ _ _ _ _ _ _ _ _ Hc); [exact Hs|by destruct (own_fresh s live p np u nu Hok Hp Hnp Hu Hnu q Hq)|].
    intros E. destruct (own_fresh s live p np u nu Hok Hp Hnp Hu Hnu q Hq) as [E1 _].
    change (run_queue runnable_list s1) with (run_queue runnable_list s) in E. subst q.
    destruct Hr as (_ & His & _). destruct (is_list_mapped _ _ _ (run_queue runnable_list s) His) as [Hm _]; [left|].
    cbn in Hm. rewrite E1 in Hm. by destruct Hm. }
  assert (Hmem : ∀ q, q ∈ [process_uthread_list p; u] → is_Some (l !! q)).
  { intros q Hq. assert (Hm : mapped (M := links) l q) by (by apply (is_list_mapped l (process_uthread_list p) [u])).
    destruct Hm as [Hm _]. cbn in Hm. by apply fmap_is_Some in Hm. }
  assert (HmB : is_Some (l !! process_umutex_list p)).
  { destruct (is_list_mapped _ _ _ (process_umutex_list p) HlB) as [Hm _]; [left|]. cbn in Hm. by apply fmap_is_Some in Hm. }
  split; [rewrite Fu; apply lookup_insert_eq|]. split.
  - exists u, t, pr. split_and!; try done.
    + cbn. rewrite Fu. apply insert_insert_eq.
    + apply (is_list_agree l); [|exact HlA]. intros q Hq. apply Hkeep; [|by apply Hmem].
      unfold own_links. set_solver.
    + apply (is_list_agree l); [|exact HlB]. intros q ->%list_elem_of_singleton. apply Hkeep; [|exact HmB].
      unfold own_links. set_solver.
    + apply (rep_ext _ s2); try done. apply (cr_queue _ _ _ _ _ _ _ _ _ _ _ Hc).
    + eexists. split; [cbn; rewrite Hth; apply lookup_insert_eq|]. by split_and!.
  - exists live'. split; [etrans; [by eapply opened_sub|exact Hsub]|]. split; [exact Hrep'|].
    destruct Hok' as [O1 O2 O3 O4 O5 O6]. split; try done. intros q Hq. cbn in Hq.
    apply lookup_insert_is_Some in Hq as [<-|[_ Hq]]; [|by apply O6].
    apply O6. rewrite Fu. cbn. rewrite lookup_insert_eq. by eexists.
  - rewrite <- Hst. exact Fst.
  - exact (cr_tlb _ _ _ _ _ _ _ _ _ _ _ Hc).
  - eapply granted_app; [exact Hg|exact (cr_granted _ _ _ _ _ _ _ _ _ _ _ Hc)].
Qed.

(** The main thread. *)
Lemma start_exec s a cur live owned p np u nu pr ut l h :
  sched_rep runnable_list s a → k_threads s !! sc_current a = Some cur → objects_ok s live →
  fresh_payload live p np → sizeof_process ≤ np → fresh_payload (<[p := np]> live) u nu → sizeof_uthread ≤ nu →
  (∀ q, q ∉ own_links p u → l !! q = k_links s !! q) → new_links p u l →
  cp0_status h = cp0_status s → kh_rep h (opened_live live p np u nu) owned →
  pr_main_uthread pr = u → ut_process ut = p → ut_entry ut = USER_CODE_START → ut_data ut = NULL → ut_user_data ut = NULL →
  granted [Block sizeof_process; Block sizeof_uthread] (k_heap s) h →
  ∃ rc p' s', process_start runnable_list process_stub junk_thread junk_timer junk_link p u
      (opening p u pr ut l (set_k_heap h s)) = Ok ((rc, p'), s') ∧
    ((rc = ENOMEM ∧ p' = NULL ∧ refused process_requests (k_heap s) ∧ ∃ h', s' = set_k_heap h' s ∧ kh_rep h' live owned ∧
        (cp0_status h' = cp0_status s ∨ cp0_status h' = Z.land (cp0_status s) (Z.lnot CP0_STATUS_IE_MASK))) ∨
     (rc = EOK ∧ p' = p ∧ process_created s a live owned (pr_image pr) (pr_size pr) p s')).
Proof.
  intros Hr Hcur Hok Hp Hnp Hu Hnu Hl [HlA HlB] Hst Hrep Hmain Hup Hue Hud Huu Hg.
  set (s1 := opening p u pr ut l (set_k_heap h s)).
  assert (Hr1 : sched_rep runnable_list s1 a) by (by apply (opening_rep s a live p np u nu)).
  assert (Hok1 : objects_ok s1 (opened_live live p np u nu)) by (by apply (opening_objects s live p np u nu)).
  destruct (create_exec runnable_list junk_thread junk_timer junk_link s1 a cur (opened_live live p np u nu) owned
    (CUser process_stub) p TF_NEW_VMM Hr1 Hcur Hrep Hok1) as (rc & t & s2 & He & Hres).
  destruct (own_stores s live p np u nu Hok Hp Hnp Hu Hnu) as [Hpn Hun].
  unfold process_start.
  destruct Hres as [(-> & -> & Hrf & h2 & -> & Hr2 & Hst2)|(-> & Hc)].
  - destruct (list_remove_spec (set_k_heap h2 s1) (process_uthread_list p) [] u []) as (s3 & He3 & _ & _ & Hw3);
      [by apply is_list_kernel|].
    apply writes_kernel in Hw3 as (l3 & -> & Hw3).
    destruct (free_both_exec p u pr ut l3 (set_k_heap h2 s) live owned np nu Hr2) as (h4 & He4 & Hst4 & Hr4);
      [by eapply fresh_live|by eapply fresh_live|done|done| | |].
    + intros q Hq. rewrite <- Hl by done. apply (writes_links _ _ _ q Hw3).
      intros [->|[->|[]%elem_of_nil]%elem_of_cons]%elem_of_cons; apply Hq; unfold own_links; set_solver.
    + intros q Hq. by destruct (own_fresh s live p np u nu Hok Hp Hnp Hu Hnu q Hq).
    + exists ENOMEM, NULL, (set_k_heap h4 s). split.
      * erewrite bind_ok by exact He. cbn beta iota. rewrite bool_decide_eq_true_2 by done.
        erewrite bind_ok by exact He3. exact He4.
      * left. split_and!; try done; [exact (refused_app_r [_; _] _ _ _ Hg Hrf)|]. exists h4. split_and!; try done. rewrite Hst4.
        destruct Hst2 as [E|[_ E]]; [left|right]; rewrite <- Hst; exact E.
  - destruct (start_created s a cur live owned p np u nu pr ut l h t s2) as [Hut Hpc]; try done.
    exists EOK, p, (set_k_uthreads <[u := UThread t p USER_CODE_START NULL NULL]> s2).
    split; [|right; split; [done|split; [done|exact Hpc]]].
    erewrite bind_ok by exact He. cbn beta iota. rewrite bool_decide_eq_false_2 by (by intros E).
    erewrite bind_ok by (apply upd_uthread_ok; exact Hut).
    unfold mret, KM_ret. do 2 f_equal. by rewrite Hup, Hue, Hud, Huu.
Qed.

(** The process structure alone is given back. *)
Lemma free_first_exec p np h s live owned :
  kh_rep h (<[p := np]> live) owned → objects_ok s live → fresh_payload live p np → sizeof_process ≤ np →
  let s1 := set_k_processes <[p := junk_process]> (set_k_links (λ m, <[p := junk_link]>
    (<[process_uthread_list p := junk_link]> (<[process_umutex_list p := junk_link]> m))) (set_k_heap h s)) in
  ∃ h', (free_process p ;; mret (ENOMEM, NULL)) s1 = Ok ((ENOMEM, NULL), set_k_heap h' s) ∧
    cp0_status h' = cp0_status h ∧ kh_rep h' live owned.
Proof.
  intros Hrep Hok Hp Hnp s1.
  destruct (km_free_law h _ owned p np Hrep) as (h' & He & Hst & Hr); [apply lookup_insert_eq|].
  rewrite delete_insert_id in Hr by (by eapply fresh_live). exists h'. split; [|done].
  assert (Hn : ∀ x, p ≤ x < p + np → k_links s !! x = None ∧ k_processes s !! x = None).
  { intros x Hx. pose proof (fresh_not_in_use live p np x Hp Hx) as Hn.
    split; apply eq_None_not_Some; intros Hs; apply Hn; by destruct Hok; auto. }
  unfold sizeof_process in Hnp. erewrite bind_ok.
  2:{ unfold free_process. erewrite bind_ok by (apply load_some, lookup_insert_eq).
      do 2 (erewrite bind_ok by reflexivity). apply in_heap_ok. exact He. }
  unfold mret, KM_ret. do 2 f_equal. apply kernel_ext; try reflexivity; cbn.
  - apply map_eq. intros x. destruct (decide (x = p)) as [->|]; [rewrite lookup_delete_eq; symmetry; apply Hn; lia|].
    rewrite lookup_delete_ne by done.
    destruct (decide (x = process_uthread_list p)) as [->|].
    { rewrite lookup_delete_eq. symmetry. apply Hn. unfold process_uthread_list. lia. }
    rewrite lookup_delete_ne by done. destruct (decide (x = process_umutex_list p)) as [->|].
    { rewrite lookup_delete_eq. symmetry. apply Hn. unfold process_umutex_list. lia. }
    by rewrite lookup_delete_ne, !lookup_insert_ne by done.
  - apply delete_insert_id, Hn. lia.
Qed.

(** All cases of [process_create]. *)
Lemma process_create_exec s a cur live owned image size :
  sched_rep runnable_list s a → k_threads s !! sc_current a = Some cur →
  kh_rep (k_heap s) live owned → objects_ok s live →
  ∃ rc p s', process_create runnable_list process_stub junk_thread junk_timer junk_link junk_process junk_uthread
      image size s = Ok ((rc, p), s') ∧
    ((rc = ENOMEM ∧ p = NULL ∧ refused process_requests (k_heap s) ∧ ∃ h, s' = set_k_heap h s ∧ kh_rep h live owned ∧
        (cp0_status h = cp0_status s ∨ cp0_status h = Z.land (cp0_status s) (Z.lnot CP0_STATUS_IE_MASK))) ∨
     (rc = EOK ∧ process_created s a live owned image size p s')).
Proof.
  intros Hr Hcur Hrep Hok. unfold process_create.
  destruct (malloc_process_exec s live owned Hrep) as (p & h1 & Hst1 & [(-> & Hr1 & Hrf1 & He1)|(Hp0 & Hg1 & np & Hnp & Hp & Hr1 & He1)]).
  { exists ENOMEM, NULL, (set_k_heap h1 s). split; [erewrite bind_ok by exact He1; by rewrite bool_decide_eq_true_2|].
    left. split_and!; try done; [exact (refused_app_l [_] _ _ Hrf1)|]. exists h1. auto. }
  erewrite bind_ok by exact He1. rewrite bool_decide_eq_false_2 by done. set (s1 := set_k_processes _ _).
  destruct (malloc_uthread_exec s1 _ owned Hr1) as (u & h2 & Hst2 & [(-> & Hr2 & Hrf2 & He2)|(Hu0 & Hg2 & nu & Hnu & Hu & Hr2 & He2)]).
  { destruct (free_first_exec p np h2 s live owned Hr2 Hok Hp Hnp) as (h3 & He3 & Hst3 & Hr3).
    exists ENOMEM, NULL, (set_k_heap h3 s). split.
    - erewrite bind_ok by exact He2. rewrite bool_decide_eq_true_2 by done. exact He3.
    - left. split_and!; try done; [exact (refused_app_r [_] _ _ _ Hg1 (refused_app_l [_] _ _ Hrf2))|].
      exists h3. split_and!; try done. left. rewrite Hst3, Hst2. exact Hst1. }
  erewrite bind_ok by exact He2. rewrite bool_decide_eq_false_2 by done.
  set (l0 := <[u := junk_link]> (<[p := junk_link]> (<[process_uthread_list p := junk_link]>
    (<[process_umutex_list p := junk_link]> (k_links s)))) : links).
  change (set_k_uthreads <[u := junk_uthread]> (set_k_links <[u := junk_link]> (set_k_heap h2 s1)))
    with (opening p u junk_process junk_uthread l0 (set_k_heap h2 s)).
  destruct (setup_lists_exec p u image size junk_process junk_uthread l0 (set_k_heap h2 s)) as (l & Hfill & Hnew & Hout & _);
    [apply Hp|apply Hu|by eapply own_apart| |].
  { intros q Hq. unfold l0. rewrite !lookup_insert_is_Some'. unfold own_links in Hq.
    rewrite !elem_of_cons, elem_of_nil in Hq. naive_solver. }
  erewrite bind_ok by exact Hfill.
  destruct (start_exec s a cur live owned p np u nu (Process (pr_ustack_top junk_process) u image size (pr_retval junk_process))
    (UThread (ut_thread junk_uthread) p USER_CODE_START NULL NULL) l h2) as (rc & p' & s' & He & Hres); try done.
  { intros q Hq. rewrite Hout by done. unfold l0. unfold own_links in Hq. rewrite !not_elem_of_cons in Hq.
    by rewrite !lookup_insert_ne by naive_solver. }
  { rewrite Hst2. exact Hst1. }
  { exact (granted_app [_] [_] _ _ _ Hg1 Hg2). }
  exists rc, p', s'. split; [exact He|]. destruct Hres as [Hres|(? & -> & Hc)]; [by left|by right].
Qed.

(** C13. [process_create] in all cases.  When the allocator turns down one of the structures,
    the stack of the main thread or its memory map, the call returns [ENOMEM], everything is
    given back and nothing but the heap has changed (but for the interrupts, see
    [thread_create]).  Otherwise the process has exactly one thread, on its list, which is
    ready to run [process_stub] on the process in a new and empty address space. *)
Theorem process_create_correct s a cur live owned image size :
  sched_rep runnable_list s a → k_threads s !! sc_current a = Some cur →
  kh_rep (k_heap s) live owned → objects_ok s live →
  ∃ rc p s', process_create runnable_list process_stub junk_thread junk_timer junk_link junk_process junk_uthread
      image size s = Ok ((rc, p), s') ∧
    ((rc = ENOMEM ∧ p = NULL ∧ refused process_requests (k_heap s) ∧ ∃ h, s' = set_k_heap h s ∧ kh_rep h live owned ∧
        (cp0_status h = cp0_status s ∨ cp0_status h = Z.land (cp0_status s) (Z.lnot CP0_STATUS_IE_MASK))) ∨
     (rc = EOK ∧ process_created s a live owned image size p s')).
Proof. exact (process_create_exec s a cur live owned image size). Qed.
End create.

(** ** Witness *)
(** The sample has memory for a process. *)
Lemma process_served f : f = sample_frames → is_Some (serve_all process_requests ([], f)).
Proof. intros ->. vm_compute. by eexists. Qed.

Lemma process_create_correct_witness :
  ∃ h p s',
    process_create 64 77 (sample_thread THREAD_ZOMBIE 0 (Context [] 0)) (Timer 0 0 false CNull 0) (Link 1 2)
      (Process 0 0 0 0 0) (UThread 0 0 0 0 0) 0x80100000 5000 (set_k_heap h sample_kernel) = Ok ((EOK, p), s') ∧
    ∃ u, is_list (M := links) (k_links s') (process_uthread_list p) [u].
Proof.
  destruct sample_heap as (h & Hrep & Hf & Hinv). exists h.
  destruct (process_create_correct (H := mm_state (gset Z)) 64 77
    (sample_thread THREAD_ZOMBIE 0 (Context [] 0)) (Timer 0 0 false CNull 0) (Link 1 2)
    (Process 0 0 0 0 0) (UThread 0 0 0 0 0)
    (set_k_heap h sample_kernel) sample_sched (sample_thread THREAD_RUNNING 12288 (Context [] 0))
    ∅ (λ _, False) 0x80100000 5000) as (rc & p & s' & He & Hres).
  - exact (rep_ext 64 sample_kernel (set_k_heap h sample_kernel) sample_sched eq_refl eq_refl eq_refl eq_refl eq_refl
      sample_sched_rep).
  - reflexivity.
  - exact Hrep.
  - exact (sample_objects h).
  - destruct Hres as [(_ & _ & Hr & _)|(-> & [(u & t & pr & _ & _ & _ & _ & _ & Hl & _) _ _ _ _])].
    + destruct (serve_not_refused sample_hl sample_static process_requests h [] _ Hinv Hf);
        [by repeat constructor|by apply process_served|exact Hr].
    + exists p, s'. split; [exact He|]. by exists u.
Defined.
