(* ===== verification/ProcStubTheorems.v ===== *)
(** * A process starts with its image in its memory *)
From S2P Require Import Prelude Bytes CList Cpu Malloc MallocInv MallocTheorems KHeap Tlb TlbTheorems Cp0 Kernel.
From S2P Require Import Sched Vmm PageTable Threads Timers SchedExec VmmTheorems VmmMap Exc ExcTheorems.
From S2P Require Import KernelSample VmSample Process ProcessTheorems Paging.

(** ** The map of a new process *)
Definition no_areas : list vma := replicate VMAS (Vma 0 0 0 false).

Lemma no_areas_fresh addr size : addr + size ≤ word_max → fresh_area no_areas addr size.
Proof. intros Hs. split; [done|]. intros w vpn [-> _]%elem_of_replicate. by intros []. Qed.

Lemma no_areas_table vpn : page_table no_areas vpn = None.
Proof. unfold page_table, no_areas. cbn. done. Qed.

Section theorems.
  Context {H : Type} `{KernelHeapLaws H}.
  Context (runnable_list : Z).
  Context (handlers : list (Z → Z → Z → Z → KM (kernel H) (option Z))) (kbd_handle sched_timer : KM (kernel H) unit).
  Context (saved : registers).
  Implicit Types (k : kernel H) (s : processor H).

Local Abbreviation load8 := (po_load8 runnable_list handlers kbd_handle sched_timer saved).
Local Abbreviation stub := (process_stub runnable_list handlers kbd_handle sched_timer saved).

(** ** An area at a given address *)
Definition user_flags : Z := Z.lor VF_AT_KUSEG VF_VA_USER.

Lemma current_space_same k k' p v v' :
  same_but_memory k k' → current_space k p v → k_vmms k' !! p = Some v' → vmm_asid v' = vmm_asid v →
  current_space k' p v'.
Proof.
  intros (Es & _ & Ehi) (Hc & Hv & Hu & Has & Hn) Hv' Ea. unfold current_space. rewrite Ehi, Ea.
  split; [|done]. rewrite Es. exact Hc.
Qed.

(** What [vma_map] does for the process. *)
Definition grown k' (p : Z) (v v' : vmm) (base phys count : Z) (live : gmap Z Z) (owned : Z → Prop) : Prop :=
  (current_space k' p v' ∧ v' = set_vmm_vma (map_enter (new_vma base phys count) (vmm_vma v)) v) ∧ area_mapped v' base phys count ∧
    (∀ vpn, ¬ base / 4096 ≤ vpn < base / 4096 + count → page_table (vmm_vma v') vpn = page_table (vmm_vma v) vpn) ∧
    (∀ a, in_frames phys count a → ¬ owned a) ∧
    kh_rep (k_heap k') live (λ a, owned a ∨ in_frames phys count a).

(** Why it may fail: the map is full, or there are no frames. *)
Definition no_room k (v : vmm) (count : Z) : Prop :=
  map_full (vmm_vma v) = true ∨ refused [Frames count] (k_heap k).

Lemma user_area_exec k p v base count live owned :
  memory_ok k → current_space k p v → kh_rep (k_heap k) live owned →
  0 < base → base mod 4096 = 0 → 0 < count → fresh_area (vmm_vma v) base (count * 4096) →
  ∃ rc addr k', vma_map base (count * 4096) user_flags k = Ok ((rc, addr), k') ∧
    same_but_memory k k' ∧ memory_ok k' ∧
    ((rc ≠ EOK ∧ kh_rep (k_heap k') live owned ∧ no_room k v count) ∨
     (rc = EOK ∧ addr = base ∧ granted [Frames count] (k_heap k) (k_heap k') ∧
      ∃ v' phys, grown k' p v v' base phys count live owned)).
Proof.
  intros Hmem Hcur Hrep Hb Hal Hc Hfresh. pose proof Hfresh as [Hend _].
  destruct (vma_map_exec k p v base (count * 4096) user_flags live owned) as (rc & addr & k' & He & Hres);
    [done..|split; lia|lia|done|].
  exists rc, addr, k'. split; [exact He|]. rewrite Z.mod_mul in Hres by done. change (map_target _ base user_flags) with (Some base) in Hres.
  cbn [Z.eqb negb] in Hres. destruct Hres as [-> Hres]. rewrite Hal in Hres. cbn [Z.eqb negb] in Hres. destruct (map_full (vmm_vma v)) eqn:Hfull.
  { destruct Hres as [-> ->]. split; [by destruct k|]. split; [done|left]. split; [done|]. split; [done|by left]. }
  rewrite Z.div_mul in Hres by done. destruct Hres as (phys & h & Ha & Hk & Hs & Hres). split; [exact Hs|].
  case_bool_decide as Hrc.
  - subst rc. destruct Hres as [Hv [Hdiv Hno] Hr Hf _]. rewrite Z.div_mul in * by done. destruct (Hf Hfresh) as [Hm Hpt].
    split; [done|right]. split; [done|split; [done|]].
    split; [rewrite Hk; apply granted_status; eapply granted_from, granted_frames; exact Ha|].
    exists (set_vmm_vma (map_enter (new_vma base phys count) (vmm_vma v)) v), phys.
    split; [split; [apply (current_space_same k k' p v); try done; rewrite Hv; apply lookup_insert_eq|done]|].
    split; [split; [done|split; [done|]]; intros vpn Hvpn; cbn [vmm_vma set_vmm_vma]; by rewrite Hpt, decide_True by done|].
    split; [intros vpn Hvpn; cbn [vmm_vma set_vmm_vma]; by rewrite Hpt, decide_False by done|]. by split.
  - destruct Hres as (_ & Hm & Hr). split; [done|left]. split; [done|]. split; [done|right].
    eapply refused_status, refused_frames; [exact Ha|done].
Qed.

(** An area whose pages are not mapped is fresh. *)
Lemma unmapped_fresh vmas base count :
  vmas_ok vmas → base + count * 4096 ≤ word_max →
  (∀ vpn, base / 4096 ≤ vpn < base / 4096 + count → page_table vmas vpn = None) → fresh_area vmas base (count * 4096).
Proof.
  intros Hok Hend Hn. split; [done|]. rewrite Z.div_mul by done. intros w vpn Hw Hin Hvpn.
  destruct (page_table_case vmas vpn Hok) as [(i & x & _ & _ & E)|[_ Hno]]; [by rewrite Hn in E|].
  apply list_elem_of_lookup in Hw as [i Hi]. by apply (Hno i w).
Qed.

(** ** The functions *)
(** The process structure once the user stack is known. *)
Definition with_stack (pr : process) : process :=
  Process 0x7FFFE000 (pr_main_uthread pr) (pr_image pr) (pr_size pr) (pr_retval pr).

Lemma stub_stack_exec process pr k :
  k_processes k !! process = Some pr →
  stub_stack process k = vma_map 0x7FFFE000 (1 * 4096) user_flags
    (set_k_processes <[process := with_stack pr]> k).
Proof.
  intros Hp. unfold stub_stack. kexec_step. erewrite bind_ok by (apply upd_process_ok; exact Hp).
  change (ALIGN_DOWN USER_STACK_START PAGE_SIZE) with 0x7FFFE000. set (pr' := with_stack pr).
  rewrite (bind_ok _ _ _ 0x7FFFE000 (set_k_processes <[process := pr']> (ints_masked k))).
  2:{ unfold get_process. apply load_some. cbn. by rewrite lookup_insert_eq. }
  change (set_k_processes <[process := pr']> (ints_masked k)) with (ints_masked (set_k_processes <[process := pr']> k)).
  change (cp0_status k) with (cp0_status (set_k_processes <[process := pr']> k)).
  by erewrite bind_ok by apply restored.
Qed.

Lemma set_process_exec k t th process uthread :
  k_current k !! k_cpu k = Some t → k_threads k !! t = Some th →
  thread_set_process process uthread k =
    Ok (tt, set_k_threads <[t := set_th_uthread uthread (set_th_process process th)]> k).
Proof.
  intros Ht Hth. unfold thread_set_process. do 3 kexec_step.
  erewrite bind_ok by (apply upd_thread_ok, lookup_insert_eq).
  set (T := set_k_threads _ _). assert (ET : T = ints_masked (set_k_threads
    <[t := set_th_uthread uthread (set_th_process process th)]> k)).
  { apply kernel_ext; try reflexivity. apply insert_insert_eq. }
  rewrite ET. change (cp0_status k) with (cp0_status (set_k_threads <[t := set_th_uthread uthread (set_th_process process th)]> k)).
  apply restored.
Qed.
Lemma stub_leave_exec s t th process pr :
  k_current (po_kernel s) !! k_cpu (po_kernel s) = Some t → k_threads (po_kernel s) !! t = Some th →
  k_processes (po_kernel s) !! process = Some pr →
  stub_leave process 0x7FFFE000 s =
    Ok (tt, Processor
      (set_cp0_status (Z.land (stub_status (cp0_status (po_kernel s))) (wrap (Z.lnot CP0_STATUS_EXL_MASK)))
        (set_k_epc USER_CODE_START
          (set_k_threads <[t := set_th_uthread (pr_main_uthread pr) (set_th_process process th)]> (po_kernel s))))
      (po_mem s) (Some (UserRegisters USER_CODE_START 0x7FFFF000 NULL NULL))).
Proof.
  intros Ht Hth Hp. unfold stub_leave. erewrite bind_ok.
  2:{ apply on_kernel_ok. erewrite bind_ok by (apply load_some; cbn; by rewrite Hp).
      erewrite bind_ok by (by apply set_process_exec). do 2 erewrite bind_ok by reflexivity. reflexivity. }
  unfold uspace_jump. cbn [po_kernel set_po_kernel po_mem]. do 3 f_equal.
  cbn. by rewrite !set_cp0_status_set, cp0_status_set.
Qed.

Lemma user_mode status : in_user_mode (Z.land (stub_status status) (wrap (Z.lnot CP0_STATUS_EXL_MASK))).
Proof.
  unfold in_user_mode, stub_status, CP0_STATUS_EXL_MASK, CP0_STATUS_KSU_MASK, CP0_STATUS_KSU_UM, CP0_STATUS_IE_MASK.
  assert (Hn : ∀ n, 0 ≤ n → n = 0 ∨ n = 1 ∨ n = 2 ∨ n = 3 ∨ n = 4 ∨ 5 ≤ n) by lia.
  split_and!; apply Z.bits_inj'; intros n Hpos; repeat first [rewrite Z.land_spec | rewrite Z.lor_spec];
    generalize (Z.testbit status n); intros b;
    (destruct (Hn n Hpos) as [->|[->|[->|[->|[->|Hbig]]]]]; [by destruct b..|]).
  - rewrite (Z.bits_above_log2 24), (Z.bits_above_log2 16) by (cbn; lia). by rewrite andb_false_r.
  - rewrite (Z.bits_above_log2 2) by (cbn; lia). by rewrite andb_false_r, Z.bits_0.
  - rewrite (Z.bits_above_log2 1) by (cbn; lia). by rewrite andb_false_r.
Qed.
(** ** All of it *)
Definition image_pages (n : Z) : Z := (n + 4095) / 4096.

Lemma image_size n : 0 < n ≤ 2 ^ 29 → ALIGN_UP n PAGE_SIZE = image_pages n * 4096.
Proof.
  intros Hn. unfold ALIGN_UP, image_pages. change (PAGE_SIZE - 1) with (2 ^ 12 - 1). rewrite wrap_small by word_lia.
  rewrite land_lnot_ones by done. change (2 ^ 12) with 4096. Z.div_mod_to_equations. lia.
Qed.

Lemma image_pages_bounds n : 0 < n ≤ 2 ^ 29 → n ≤ image_pages n * 4096 ∧ 0 < image_pages n ≤ 2 ^ 17.
Proof. intros Hn. unfold image_pages. Z.div_mod_to_equations. lia. Qed.

(** What a load from user memory yields. *)
Definition user_sees s (base n : Z) (f : Z → Z) : Prop := ∀ i, 0 ≤ i < n → ∃ s1, load8 (base + i) s = Ok (f i, s1).

Lemma area_sees s p v base phys count n f :
  memory_ok (po_kernel s) → current_space (po_kernel s) p v → area_mapped v base phys count → n ≤ count * 4096 →
  0 ≤ base → base + n ≤ KUSEG_END → (∀ i, 0 ≤ i < n → po_mem s (phys + i) = f i) → user_sees s base n f.
Proof.
  intros Hm Hc Ha Hn Hb Hbn Hf i Hi. destruct (area_address v base phys count i Ha) as (pfn & Hpt & Hpa); [lia|].
  destruct (load8_kuseg runnable_list handlers kbd_handle sched_timer saved s p v (base + i) pfn Hm Hc) as (t & E & _);
    [lia|exact Hpt|].
  rewrite Hpa, Hf in E by lia. by eexists.
Qed.

(** The image of a process in KSEG0, in memory the kernel owns. *)
Definition image_ok (pr : process) (owned : Z → Prop) : Prop :=
  0 < pr_size pr ∧ KUSEG_END ≤ pr_image pr ∧ pr_image pr + pr_size pr ≤ KSEG0_END ∧
  ∀ i, 0 ≤ i < pr_size pr → owned (pr_image pr - KUSEG_END + i).

Definition image_byte s (pr : process) (i : Z) : Z := po_mem s (pr_image pr - KUSEG_END + i).

(** What the first part leaves behind: the image is in its place. *)
Definition placed s0 s (p : Z) (v v' : vmm) (pr : process) (phys : Z) (live : gmap Z Z) (owned : Z → Prop) : Prop :=
  memory_ok (po_kernel s) ∧ grown (po_kernel s) p v v' 4096 phys (image_pages (pr_size pr)) live owned ∧
  granted [Frames (image_pages (pr_size pr))] (k_heap (po_kernel s0)) (k_heap (po_kernel s)) ∧
  po_user s = po_user s0 ∧ (∀ a, po_mem s a = copied (po_mem s0) phys (pr_image pr - KUSEG_END) (pr_size pr) a) ∧
  ∃ t h m, po_kernel s = set_k_tlb t (set_k_heap h (set_k_vmms (λ _, m) (po_kernel s0))) ∧
    cp0_status (po_kernel s) = cp0_status (po_kernel s0).

#[local] Instance bytes : ByteMemory (processor H) := stub_bytes runnable_list handlers kbd_handle sched_timer saved.

(** The frames of the image's area are apart from the image. *)
Lemma frames_apart owned phys count src n :
  0 < n ≤ count * 4096 → (∀ a, in_frames phys count a → ¬ owned a) → (∀ i, 0 ≤ i < n → owned (src + i)) →
  src + n ≤ phys ∨ phys + n ≤ src.
Proof.
  intros Hn Hno Ho. destruct (decide (src + n ≤ phys)); [by left|]. destruct (decide (phys + n ≤ src)); [by right|].
  exfalso. destruct (decide (phys ≤ src)).
  - apply (Hno src); [unfold in_frames; change FRAME_SIZE with 4096; lia|]. rewrite <- (Z.add_0_r src). apply Ho. lia.
  - apply (Hno phys); [unfold in_frames; change FRAME_SIZE with 4096; lia|]. replace phys with (src + (phys - src)) by lia.
    apply Ho. lia.
Qed.

Lemma place_exec s p asid pr live owned :
  let v := Vmm asid no_areas in
  memory_ok (po_kernel s) → current_space (po_kernel s) p v → kh_rep (k_heap (po_kernel s)) live owned →
  image_ok pr owned → (∀ a, 0 ≤ po_mem s a < 256) →
  ∃ rc addr k1,
    vma_map (ALIGN_DOWN USER_CODE_START PAGE_SIZE) (ALIGN_UP (pr_size pr) PAGE_SIZE) user_flags (po_kernel s) =
      Ok ((rc, addr), k1) ∧ same_but_memory (po_kernel s) k1 ∧
    ((rc ≠ EOK ∧ memory_ok k1 ∧ kh_rep (k_heap k1) live owned ∧
      refused [Frames (image_pages (pr_size pr))] (k_heap (po_kernel s))) ∨
     (rc = EOK ∧ addr = 4096 ∧ ∃ s2 v' phys,
        memcpy (S (Z.to_nat (pr_size pr))) addr (pr_image pr) (pr_size pr) (set_po_kernel k1 s) = Ok (addr, s2) ∧
        placed s s2 p v v' pr phys live owned)).
Proof.
  intros v Hmem Hcur Hrep (Hn0 & Hi0 & Hi1 & Hown) Hbytes.
  assert (Hn : 0 < pr_size pr ≤ 2 ^ 29) by (unfold KUSEG_END, KSEG0_END in *; lia).
  destruct (image_pages_bounds _ Hn) as [Hpn Hp]. rewrite image_size by done.
  change (ALIGN_DOWN USER_CODE_START PAGE_SIZE) with 4096.
  destruct (user_area_exec (po_kernel s) p v 4096 (image_pages (pr_size pr)) live owned)
    as (rc & addr & k1 & E1 & S1 & M1 & Hres); [done..|lia|apply no_areas_fresh; word_lia|].
  exists rc, addr, k1. split; [exact E1|split; [exact S1|]].
  destruct Hres as [(Hrc & Hr & [Hfull|Hrf])|(Hrc & -> & Hg1 & v' & phys & [Hc1 Has1] & Ha1 & Ho1 & Hno1 & Hr1)];
    [by vm_compute in Hfull|by left|right].
  split; [done|split; [done|]].
  destruct (copy_exec runnable_list handlers kbd_handle sched_timer saved (set_po_kernel k1 s) p v' 4096 phys
    (image_pages (pr_size pr)) (pr_image pr) (pr_size pr) (S (Z.to_nat (pr_size pr)))) as (t & m & E2 & M2 & C2 & Hm);
    try done; [unfold KUSEG_END; lia|lia| |lia|].
  { by apply (frames_apart owned phys (image_pages (pr_size pr))); [lia|..]. }
  eexists _, v', phys. split; [exact E2|]. split; [exact M2|]. split; [by split_and!|]. split; [exact Hg1|].
  split; [done|split; [exact Hm|]].
  destruct S1 as (Es & Est & _). exists t, (k_heap k1), (k_vmms k1). cbn [po_kernel]. split; [|exact Est].
  rewrite Es at 1. done.
Qed.
(** The second area: the user stack. *)
Lemma stack_exec s s2 p asid v1 phys1 process pr live owned :
  let v := Vmm asid no_areas in let k3 := set_k_processes <[process := with_stack pr]> (po_kernel s2) in
  placed s s2 p v v1 pr phys1 live owned → image_ok pr owned → k_processes (po_kernel s) !! process = Some pr →
  ∃ rc addr k4, stub_stack process (po_kernel s2) = Ok ((rc, addr), k4) ∧ same_but_memory k3 k4 ∧ memory_ok k4 ∧
    let owned' a := owned a ∨ in_frames phys1 (image_pages (pr_size pr)) a in
    ((rc ≠ EOK ∧ kh_rep (k_heap k4) live owned' ∧ refused [Frames 1] (k_heap (po_kernel s2))) ∨
     (rc = EOK ∧ addr = 0x7FFFE000 ∧ granted [Frames 1] (k_heap (po_kernel s2)) (k_heap k4) ∧ ∃ v2 phys2, grown k4 p v1 v2 0x7FFFE000 phys2 1 live owned')).
Proof.
  intros v k3 (M2 & ([C2 Ev1] & A2 & O2 & _ & R2) & _ & _ & _ & t & h & m & Ek & _) (Hn0 & Hi0 & Hi1 & _) Hp.
  assert (Hn : 0 < pr_size pr ≤ 2 ^ 29) by (unfold KUSEG_END, KSEG0_END in *; lia).
  destruct (image_pages_bounds _ Hn) as [_ Hpages]. rewrite (stub_stack_exec process pr) by (by rewrite Ek).
  pose proof C2 as (_ & Hv1 & _).
  destruct (user_area_exec k3 p v1 0x7FFFE000 1 live
    (λ a, owned a ∨ in_frames phys1 (image_pages (pr_size pr)) a)) as (rc & addr & k4 & E4 & S4 & M4 & Hres); try done.
  - by destruct M2; split.
  - apply unmapped_fresh; [by apply (mo_vmas _ M2 p)|done|]. intros vpn Hvpn. rewrite O2; [apply no_areas_table|].
    change (0x7FFFE000 / 4096) with 0x7FFFE in Hvpn. change (4096 / 4096) with 1. lia.
  - exists rc, addr, k4. split; [exact E4|]. split; [exact S4|]. split; [exact M4|].
    destruct Hres as [(Hrc & Hr & [Hfull|Hrf])|Hres]; [|by left|by right].
    rewrite Ev1 in Hfull. by vm_compute in Hfull.
Qed.

(** In user space: the registers, the mode, the owner of the thread, the memory. *)
Definition started s s' (p : Z) (q : Z) (pr : process) (asid : Z) : Prop :=
  let k := po_kernel s in let k' := po_kernel s' in
  po_user s' = Some (UserRegisters USER_CODE_START 0x7FFFF000 NULL NULL) ∧ in_user_mode (cp0_status k') ∧
  k_processes k' = <[q := with_stack pr]> (k_processes k) ∧
  (∃ t th, k_current k !! k_cpu k = Some t ∧ k_threads k !! t = Some th ∧
     k_threads k' = <[t := set_th_uthread (pr_main_uthread pr) (set_th_process q th)]> (k_threads k)) ∧
  user_sees s' USER_CODE_START (pr_size pr) (image_byte s pr) ∧
  ∃ v', current_space k' p v' ∧ vmm_asid v' = asid ∧
    ∀ vpn, is_Some (page_table (vmm_vma v') vpn) ↔ 1 ≤ vpn < 1 + image_pages (pr_size pr) ∨ vpn = 0x7FFFE.

Lemma page_of_area v base phys count vpn :
  area_mapped v base phys count → base / 4096 ≤ vpn < base / 4096 + count → is_Some (page_table (vmm_vma v) vpn).
Proof. intros (_ & _ & Hpt) Hvpn. rewrite Hpt by done. by eexists. Qed.

Lemma user_pages v v1 v2 n phys1 phys2 :
  (∀ vpn, page_table (vmm_vma v) vpn = None) → 0 ≤ n ≤ 2 ^ 17 →
  area_mapped v1 4096 phys1 n → area_mapped v2 0x7FFFE000 phys2 1 →
  (∀ vpn, ¬ 4096 / 4096 ≤ vpn < 4096 / 4096 + n → page_table (vmm_vma v1) vpn = page_table (vmm_vma v) vpn) →
  (∀ vpn, ¬ 0x7FFFE000 / 4096 ≤ vpn < 0x7FFFE000 / 4096 + 1 → page_table (vmm_vma v2) vpn = page_table (vmm_vma v1) vpn) →
  area_mapped v2 4096 phys1 n ∧ ∀ vpn, is_Some (page_table (vmm_vma v2) vpn) ↔ 1 ≤ vpn < 1 + n ∨ vpn = 0x7FFFE.
Proof.
  intros Hv Hn A1 A2 O1 O2. change (4096 / 4096) with 1 in *. change (0x7FFFE000 / 4096) with 0x7FFFE in *.
  assert (A3 : area_mapped v2 4096 phys1 n).
  { destruct A1 as (Hd & Hb & Hpt). split; [done|split; [done|]]. intros vpn Hvpn. rewrite O2; [by apply Hpt|].
    change (4096 / 4096) with 1 in Hvpn. lia. }
  split; [done|]. intros vpn. destruct (decide (vpn = 0x7FFFE)) as [->|Hne].
  { split; [by right|]. intros _. eapply page_of_area; [exact A2|done]. }
  destruct (decide (1 ≤ vpn < 1 + n)) as [Hin|Hout].
  { split; [by left|]. intros _. eapply page_of_area; [exact A3|done]. }
  rewrite O2, O1, Hv by lia. split; [by intros []|lia].
Qed.
(** The copy leaves the memory of others alone. *)
Lemma copied_owned (m : Z → Z) owned phys count src n a :
  n ≤ count * 4096 → (∀ b, in_frames phys count b → ¬ owned b) → owned a → copied m phys src n a = m a.
Proof.
  intros Hn Hno Ha. unfold copied. apply decide_False. intros Hin. apply (Hno a); [|done].
  unfold in_frames. change FRAME_SIZE with 4096. lia.
Qed.

(** The end of a successful start. *)
Lemma leave_exec s s2 k4 p asid v1 v2 phys1 phys2 process pr live owned owned' :
  let v := Vmm asid no_areas in let s4 := Processor k4 (po_mem s2) (po_user s2) in
  current_space (po_kernel s) p v → placed s s2 p v v1 pr phys1 live owned → image_ok pr owned →
  same_but_memory (set_k_processes <[process := with_stack pr]> (po_kernel s2)) k4 → memory_ok k4 →
  grown k4 p v1 v2 0x7FFFE000 phys2 1 live owned' →
  ∃ s5, stub_leave process 0x7FFFE000 s4 = Ok (tt, s5) ∧ memory_ok (po_kernel s5) ∧ po_mem s5 = po_mem s2 ∧
    k_heap (po_kernel s5) = set_cp0_status (cp0_status (po_kernel s5)) (k_heap k4) ∧ started s s5 p process pr asid.
Proof.
  intros v s4 Hcur (M2 & ([C2 E2] & A2 & O2 & _ & _) & _ & _ & Hm & t & h & m & Ek & _) (Hn0 & Hi0 & Hi1 & _) (Es & _) M4 ([C4 E4] & A4 & O4 & _).
  assert (Hn : 0 < pr_size pr ≤ 2 ^ 29) by (unfold KUSEG_END, KSEG0_END in *; lia).
  destruct (image_pages_bounds _ Hn) as [Hpn Hpages].
  destruct (user_pages v v1 v2 (image_pages (pr_size pr)) phys1 phys2 no_areas_table ltac:(lia) A2 A4 O2 O4) as [A5 Hpt].
  destruct Hcur as ((c & th & Hc & Hth & Hvm) & _).
  assert (F : k_current k4 !! k_cpu k4 = Some c ∧ k_threads k4 = k_threads (po_kernel s) ∧
    k_processes k4 = <[process := with_stack pr]> (k_processes (po_kernel s))) by (rewrite Es, Ek; done).
  destruct F as (F1 & F2 & F3).
  eexists. split; [apply (stub_leave_exec s4 c th process (with_stack pr)); cbn;
    [exact F1|by rewrite F2|rewrite F3; apply lookup_insert_eq]|].
  set (k5 := set_cp0_status _ _). assert (M5 : memory_ok k5) by (by destruct M4; split).
  assert (C5 : current_space k5 p v2).
  { destruct C4 as (_ & C4). split; [|exact C4]. exists c. eexists. split; [exact F1|]. split; [apply lookup_insert_eq|exact Hvm]. }
  split; [exact M5|]. split; [done|]. split; [cbn; by rewrite cp0_status_set|].
  split; [done|]. split; [cbn; rewrite cp0_status_set; apply user_mode|]. split; [exact F3|].
  split; [exists c, th; split; [exact Hc|split; [exact Hth|cbn; by rewrite F2]]|].
  split; [|exists v2; split; [exact C5|split; [by rewrite E4, E2|exact Hpt]]].
  eapply (area_sees _ p v2 4096 phys1 (image_pages (pr_size pr))); try done; [unfold KUSEG_END; lia|].
    intros i Hi. etrans; [apply Hm|]. unfold copied, image_byte. rewrite decide_True by lia. f_equal. lia.
Qed.
(** The image is memory the kernel owns, and so is what the copy and the areas took. *)
Definition kept s s' (live : gmap Z Z) (owned : Z → Prop) : Prop :=
  memory_ok (po_kernel s') ∧ (∀ a, owned a → po_mem s' a = po_mem s a) ∧
  ∃ owned' : Z → Prop, (∀ a, owned a → owned' a) ∧ kh_rep (k_heap (po_kernel s')) live owned'.

(** The thread returns as it was called. *)
Definition given_up s s' : Prop :=
  po_user s' = po_user s ∧ k_threads (po_kernel s') = k_threads (po_kernel s) ∧
  cp0_status (po_kernel s') = cp0_status (po_kernel s).

(** The frames for the image and for the stack. *)
Definition stub_requests (pr : process) : list request := [Frames (image_pages (pr_size pr)); Frames 1].

(** All cases of [process_stub]. *)
Lemma process_stub_exec s p asid q pr live owned :
  memory_ok (po_kernel s) → current_space (po_kernel s) p (Vmm asid no_areas) →
  kh_rep (k_heap (po_kernel s)) live owned → k_processes (po_kernel s) !! q = Some pr →
  image_ok pr owned → (∀ a, 0 ≤ po_mem s a < 256) →
  ∃ r s', stub q s = Ok (r, s') ∧ kept s s' live owned ∧
    ((r = Some NULL ∧ given_up s s' ∧ refused (stub_requests pr) (k_heap (po_kernel s))) ∨
     (r = None ∧ started s s' p q pr asid ∧ granted (stub_requests pr) (k_heap (po_kernel s)) (k_heap (po_kernel s')))).
Proof.
  intros Hmem Hcur Hrep Hp Himg Hbytes.
  destruct (place_exec s p asid pr live owned Hmem Hcur Hrep Himg Hbytes) as (rc & addr & k1 & E1 & S1 & Hres).
  pose proof S1 as (Es1 & Est1 & _). unfold process_stub.
  assert (G : ∀ (A : Type) (f : process → A) k, k_processes k = k_processes (po_kernel s) → get_process f q k = Ok (f pr, k)).
  { intros A f k Ek. unfold get_process. apply load_some. by rewrite Ek, Hp. }
  erewrite bind_ok by (apply on_kernel_ok, G; done). erewrite bind_ok by (apply on_kernel_ok; exact E1). cbn beta iota.
  destruct Hres as [(Hrc & M1 & R1 & Hrf1)|(-> & -> & s2 & v1 & phys & E2 & Hpl)].
  { rewrite bool_decide_eq_true_2 by done. eexists _, _. split; [reflexivity|].
    split; [split; [done|split; [done|by exists owned]]|]. left. split; [done|].
    split; [split; [done|]; split; [cbn; by rewrite Es1|exact Est1]|exact (refused_app_l [_] [_] _ Hrf1)]. }
  rewrite bool_decide_eq_false_2 by tauto. do 2 erewrite bind_ok by (apply on_kernel_ok, G; cbn; by rewrite Es1).
  erewrite bind_ok by exact E2.
  destruct (stack_exec s s2 p asid v1 phys q pr live owned Hpl Himg Hp) as (rc & addr & k4 & E4 & S4 & M4 & Hres).
  erewrite bind_ok by (apply on_kernel_ok; exact E4). cbn beta iota zeta in Hres |- *.
  pose proof Hpl as (_ & (_ & _ & _ & Hno & _) & Hg1 & Hu & Hm & t & h & m & Ek & Est2).
  assert (Hkeep : ∀ a, owned a → po_mem s2 a = po_mem s a).
  { intros a Ha. rewrite Hm. eapply copied_owned; [|exact Hno|exact Ha]. apply image_pages_bounds.
    destruct Himg as (? & ? & ? & _). unfold KUSEG_END, KSEG0_END in *. lia. }
  pose proof S4 as (Es4 & Est4 & _). destruct Hres as [(Hrc & R4 & Hrf4)|(-> & -> & Hg4 & v2 & phys2 & Hg)].
  { rewrite bool_decide_eq_true_2 by done. eexists _, _. split; [reflexivity|]. split; [split; [done|split; [done|]]|].
    - eexists. split; [|exact R4]. by left.
    - left. split; [done|]. split; [|exact (refused_app_r [_] [_] _ _ Hg1 Hrf4)].
      split; [done|]. split; [cbn; by rewrite Es4, Ek|]. etrans; [exact Est4|exact Est2]. }
  rewrite bool_decide_eq_false_2 by tauto.
  destruct (leave_exec s s2 k4 p asid v1 v2 phys phys2 q pr live owned _ Hcur Hpl Himg S4 M4 Hg)
    as (s5 & E5 & M5 & Hm5 & Hh5 & Hst).
  erewrite bind_ok by exact E5. eexists _, s5. split; [reflexivity|]. split.
  2:{ right. split; [done|]. split; [exact Hst|]. rewrite Hh5. apply granted_status. exact (granted_app [_] [_] _ _ _ Hg1 Hg4). }
  split; [done|split; [intros a Ha; rewrite Hm5; by apply Hkeep|]]. destruct Hg as (_ & _ & _ & _ & R4).
  eexists. split; [|rewrite Hh5; apply kh_rep_status; exact R4]. intros a Ha. by left; left.
Qed.

(** C17. The main thread of a new process asks for exactly the frames of its image, its size
    rounded up to pages, and one for its stack.  When one of the two requests is turned down it
    returns [NULL] with interrupts as they were; nothing else makes it fail.  Otherwise it ends up in user mode with interrupts on, at
    the entry point and with the stack pointer at the end of the stack.  Then exactly the
    pages of the image and of the stack are mapped; every load from the image's pages
    yields the byte of the image, whether its page is in the TLB or has to be loaded by
    an exception first; and the process owns the thread.  In no case is a byte written
    that was in use before. *)
Theorem process_stub_loads s p asid q pr live owned :
  memory_ok (po_kernel s) → current_space (po_kernel s) p (Vmm asid no_areas) →
  kh_rep (k_heap (po_kernel s)) live owned → k_processes (po_kernel s) !! q = Some pr →
  image_ok pr owned → (∀ a, 0 ≤ po_mem s a < 256) →
  ∃ r s', stub q s = Ok (r, s') ∧ kept s s' live owned ∧
    ((r = Some NULL ∧ given_up s s' ∧ refused (stub_requests pr) (k_heap (po_kernel s))) ∨
     (r = None ∧ started s s' p q pr asid ∧ granted (stub_requests pr) (k_heap (po_kernel s)) (k_heap (po_kernel s')))).
Proof. exact (process_stub_exec s p asid q pr live owned). Qed.
End theorems.

(** ** On the concrete kernel: a process with its image of 5000 bytes in frames 23 and 24 *)
Definition stub_tlb : tlb := Tlb (replicate 48 te_unused) 0 47 0 0 0 0 3.
Definition stub_image : process := Process 0 28672 (KUSEG_END + 23 * 4096) 5000 0.

Definition stub_processor (h : mm_state (gset Z)) : processor (mm_state (gset Z)) :=
  Processor (set_k_heap h (set_k_processes (λ _, {[24576 := stub_image]})
    (set_k_vmms (λ _, {[20480 := Vmm 3 no_areas]}) (set_k_tlb stub_tlb sample_kernel)))) (λ a, a mod 256) None.

Lemma stub_memory_ok h : memory_ok (po_kernel (stub_processor h)).
Proof.
  split.
  - split; [done|split; [by apply Forall_replicate|]].
    intros i j e e' [-> _]%(lookup_replicate 48) _ Hn. by destruct Hn.
  - done.
  - apply Forall_replicate. by intros [].
  - change (asids_ok {[20480 := Vmm 3 no_areas]}).
    intros p q v w [<- <-]%lookup_singleton_Some [<- <-]%lookup_singleton_Some. done.
  - intros p v Hp. change (({[20480 := Vmm 3 no_areas]} : gmap Z vmm) !! p = Some v) in Hp.
    apply lookup_singleton_Some in Hp as [<- <-]. split; [by apply Forall_replicate|].
    intros i j v w vpn [-> _]%(lookup_replicate 100) _ []. done.
Qed.

(** Frames for the image and the stack are left. *)
Lemma stub_served f : f = vm_frames → is_Some (serve_all (stub_requests stub_image) ([], f)).
Proof. intros ->. vm_compute. by eexists. Qed.

Lemma process_stub_loads_witness :
  ∃ h s', process_stub 64 [] (mret ()) (mret ()) vm_registers 24576 (stub_processor h) = Ok (None, s') ∧
    memory_ok (po_kernel s') ∧ in_user_mode (cp0_status (po_kernel s')) ∧
    user_sees 64 [] (mret ()) (mret ()) vm_registers s' 0x1000 5000 (λ i, (23 * 4096 + i) mod 256).
Proof.
  destruct vm_heap as (h & Hrep & Hinv & Hf). exists h.
  destruct (process_stub_loads 64 [] (mret ()) (mret ()) vm_registers (stub_processor h) 20480 3 24576 stub_image ∅
    (in_frames (23 * 4096) 2)) as (r & s' & He & (Hm & _) & Hres).
  - exact (stub_memory_ok h).
  - split; [|split; [by apply lookup_singleton_eq|done]].
    exists 8192, (sample_thread THREAD_RUNNING 12288 (Context [] 0)). done.
  - exact Hrep.
  - by apply lookup_singleton_eq.
  - split; [done|split; [done|split; [done|]]]. intros i Hi. change (0 ≤ i < 5000) in Hi. unfold in_frames. change FRAME_SIZE with 4096.
    unfold stub_image, KUSEG_END. cbn [pr_image]. lia.
  - intros a. by apply Z.mod_pos_bound.
  - destruct Hres as [(_ & _ & Hr)|(-> & (_ & Hmode & _ & _ & Hsee & _) & _)].
    { destruct (serve_not_refused sample_hl sample_static (stub_requests stub_image) h [] _ Hinv Hf); [|by apply stub_served|exact Hr].
      repeat constructor. }
    exists s'. split; [exact He|]. split; [exact Hm|]. split; [exact Hmode|]. intros i Hi.
    destruct (Hsee i Hi) as [s1 E1]. exists s1. etrans; [exact E1|]. reflexivity.
Defined.
