(* ===== verification/ProcessRun.v ===== *)
(** * From the creation of a process to its first instruction

    [process_create], the scheduler and [process_stub] together: the main thread of a new
    process waits in the run queue behind the others, whatever these do while they have the
    processor, gets it in its turn and enters user mode in the address space made for it. *)
From S2P Require Import Prelude CList Cpu Malloc MallocInv MallocTheorems KHeap Tlb TlbTheorems Kernel Sched Vmm PageTable Threads Timers.
From S2P Require Import SchedExec SchedSpec SchedRefine SchedOps VmmTheorems ThreadCreate Exc ExcTheorems.
From S2P Require Import KernelSample VmSample Process ProcessTheorems Paging ProcStubTheorems.

(** ** Address spaces under scheduling *)
Lemma asid_selected asid t :
  u32 (tlb_hi t) → 0 ≤ asid < 256 → u32 (tlb_hi (with_asid asid t)) ∧ tlb_hi (with_asid asid t) mod 256 = asid.
Proof.
  intros Hu Ha. unfold with_asid, put_hi, CP0_ENTRYHI_ASID_MASK. cbn [tlb_hi].
  assert (E : Z.lor (Z.land (tlb_hi t) (Z.lnot 255)) asid = tlb_hi t / 2 ^ 8 * 2 ^ 8 + asid).
  { rewrite <- Z.ldiff_land. change 255 with (Z.ones 8). rewrite Z.ldiff_ones_r by done.
    rewrite Z.shiftr_div_pow2, Z.shiftl_mul_pow2 by done. by apply lor_shift_add. }
  change (2 ^ 8) with 256 in E. rewrite E. unfold u32 in *. rewrite word_max_eq in *. Z.div_mod_to_equations. lia.
Qed.

Section run.
  Context {H : Type} `{KernelHeapLaws H}.
  Context (runnable_list timers_list : Z).
  Implicit Types (s : kernel H) (a : sched).

(** The memory of all address spaces, and the register that selects one. *)
Definition spaces_ok s : Prop :=
  memory_ok s ∧ u32 (tlb_hi (k_tlb s)) ∧ ∀ p v, k_vmms s !! p = Some v → 0 ≤ vmm_asid v < 256.

Lemma spaces_ok_switch s s' asid :
  spaces_ok s → k_vmms s' = k_vmms s → k_tlb s' = with_asid asid (k_tlb s) → 0 ≤ asid < 256 → spaces_ok s'.
Proof.
  intros ([M1 M2 M3 M4 M5] & Hu & Hr) Ev Et Ha. destruct (asid_selected asid (k_tlb s) Hu Ha) as [Hu' _].
  unfold spaces_ok. rewrite Ev, Et. split; [|done]. split; rewrite ?Ev, ?Et; done.
Qed.

(** A new map does not change what the TLB holds. *)
Lemma spaces_ok_new s s' p asid :
  spaces_ok s → k_vmms s !! p = None → k_vmms s' = <[p := empty_vmm asid]> (k_vmms s) → k_tlb s' = k_tlb s →
  0 ≤ asid < 256 → (∀ q v, k_vmms s !! q = Some v → vmm_asid v ≠ asid) → spaces_ok s'.
Proof.
  intros ([M1 M2 M3 M4 M5] & Hu & Hr) Hp Ev Et Ha Hfree.
  assert (Hok : asids_ok (<[p := empty_vmm asid]> (k_vmms s))).
  { intros q r v w [(<- & <-)|[? Hq]]%lookup_insert_Some [(<- & <-)|[? Hr']]%lookup_insert_Some E; [done| | |by eauto].
    - by destruct (Hfree _ _ Hr').
    - by destruct (Hfree _ _ Hq). }
  unfold spaces_ok. rewrite Et. split_and!; [|done|].
  - split; rewrite ?Et; [done|done| |by rewrite Ev|].
    + rewrite Ev. apply (coherent_extends (spaces (k_vmms s))); [done|]. intros i vpn pfn Hpf.
      destruct (space_case (k_vmms s) i) as [(q & v & Hq & <-)|Hn]; [|by rewrite spaces_none in Hpf].
      rewrite (spaces_eq _ q v) in Hpf by done. rewrite (spaces_eq _ q v); [done|done|].
      rewrite lookup_insert_ne; [done|]. intros ->. congruence.
    + rewrite Ev. intros q v [(<- & <-)|[_ Hq]]%lookup_insert_Some; [|by eapply M5].
      split; [by apply Forall_replicate|]. intros i j w u vpn [-> _]%(lookup_replicate 100) _ []. done.
  - rewrite Ev. intros q v [(<- & <-)|[_ Hq]]%lookup_insert_Some; [done|by eapply Hr].
Qed.

(** [schedule] selects the address space of the thread it switches to. *)
Lemma schedule_space s a x xs s' :
  sched_rep runnable_list s a → sc_queue a = x :: xs → schedule runnable_list s = Ok (tt, s') →
  ∃ thx v, k_threads s !! x = Some thx ∧ k_vmms s !! th_vmm thx = Some v ∧ k_tlb s' = with_asid (vmm_asid v) (k_tlb s).
Proof.
  intros Hr Eq He. pose proof Hr as (_ & Hl & Hc & _ & _ & Hv & _).
  destruct (rep_current _ s a Hr) as (tho & Ho & Hnull).
  destruct (rep_queue _ s a x Hr) as [thx Hx]; [rewrite Eq; left|]. destruct (Hv x thx Hx) as [v Hvx].
  destruct (schedule_exec runnable_list s x xs (sc_current a) tho thx v) as (l & He' & _); try done.
  { apply is_list_kernel. by rewrite <- Eq. }
  exists thx, v. split_and!; [done|done|]. rewrite He in He'. injection He' as ->. reflexivity.
Qed.

(** ** Waiting in the run queue *)

(** A turn: the thread that has the processor runs, its stack and its Status register come
    to be some or other, and it yields or is preempted. *)
Definition own (r : list frame * Z) s : kernel H := set_k_stack r.1 (set_cp0_status r.2 s).

Fixpoint take_turns (rs : list (list frame * Z)) : KM (kernel H) unit :=
  match rs with
  | [] => mret tt
  | r :: rs => kmodify (own r) ;; schedule runnable_list ;; take_turns rs
  end.

Section waiting.
  Context (t m asid : Z) (entry : code) (data : Z) (ctx : context).
  Context (live : gmap Z Z) (owned : Z → Prop) (procs : gmap Z process) (h0 : H).

(** Thread [t] is to run [entry] in its own address space. *)
Record waiting s a : Prop := Waiting {
  w_rep : sched_rep runnable_list s a;
  w_context : context_of s t = Some ctx;
  w_thread : ∃ th, k_threads s !! t = Some th ∧ th_entry_func th = entry ∧ th_entry_data th = data ∧ th_vmm th = m;
  w_space : k_vmms s !! m = Some (empty_vmm asid);
  w_spaces : spaces_ok s;
  w_heap : kh_rep (k_heap s) live owned;
  w_processes : k_processes s = procs;
  w_same : granted [] h0 (k_heap s);
}.

Lemma waiting_own r s a : waiting s a → waiting (own r s) a.
Proof.
  intros [W1 W2 W3 W4 W5 W6 W7 W8]. split; try done.
  - destruct W5 as ([M1 M2 M3 M4 M5] & ? & ?). split; [by split|done].
  - by apply kh_rep_status.
  - by apply granted_status.
Qed.

(** The switch to any thread leaves all this alone; the one to [t] loads its context. *)
Lemma waiting_turn s a x xs :
  waiting s a → sc_queue a = x :: xs → sc_current a ≠ t →
  ∃ s', schedule runnable_list s = Ok (tt, s') ∧ waiting s' (a_schedule a) ∧
    (x = t → ctx = Context (k_stack s') (cp0_status s') ∧ tlb_hi (k_tlb s') mod 256 = asid).
Proof.
  intros [W1 W2 (th & Ht & Hf & Hd & Hm) W4 W5 W6 W7 W8] Eq Hne.
  destruct (schedule_rep (runnable_list := runnable_list) s a W1) as (s' & He & Hr' & Fr & Hh).
  destruct (schedule_space s a x xs s' W1 Eq He) as (thx & v & Hx & Hv & Etlb).
  pose proof W5 as (_ & Hu & Hasid). destruct (asid_selected (vmm_asid v) (k_tlb s) Hu) as [_ Hhi]; [by eapply Hasid|].
  unfold handed_over in Hh. rewrite Eq in Hh. destruct Hh as (_ & Hctx & Hrun).
  destruct Fr as (_ & Fe & Fh & _ & _ & Fv & Fp & _). assert (Hc : context_of s' t = Some ctx) by (by rewrite Hctx).
  exists s'. split; [done|]. split.
  - split; try done; [|by rewrite Fv| |by rewrite Fh; apply kh_rep_status|by rewrite Fp|by rewrite Fh; apply granted_status].
    + unfold context_of in Hc. destruct (k_threads s' !! t) as [th'|] eqn:Ht'; [|done].
      exists th'. split; [done|]. destruct (erase_vmm s s' t th' Fe Ht') as (th0 & Ht0 & E).
      assert (th0 = th) as -> by congruence. pose proof (f_equal th_entry_func E). pose proof (f_equal th_entry_data E).
      pose proof (f_equal th_vmm E). cbn in *. split_and!; congruence.
    + apply (spaces_ok_switch s s' (vmm_asid v)); try done. by eapply Hasid.
  - intros ->. split; [congruence|]. rewrite Etlb, Hhi. assert (thx = th) as -> by congruence.
    rewrite Hm, W4 in Hv. by injection Hv as <-.
Qed.

(** [t] has the processor, with its context and its address space. *)
Definition dispatched s a : Prop :=
  waiting s a ∧ sc_current a = t ∧ running a ∧ ctx = Context (k_stack s) (cp0_status s) ∧
  tlb_hi (k_tlb s) mod 256 = asid.

(** It gets it after as many turns as there are threads before it, and one. *)
Lemma waiting_dispatched xs : ∀ rs ys s a,
  waiting s a → sc_queue a = xs ++ t :: ys → sc_current a ≠ t → t ∉ xs → length rs = S (length xs) →
  ∃ s' a', take_turns rs s = Ok (tt, s') ∧ dispatched s' a'.
Proof.
  induction xs as [|x xs IH]; intros [|r rs] ys s a Hw Eq Hne Hnin Hlen; try done; cbn [take_turns].
  - destruct rs as [|]; [|done].
    destruct (waiting_turn (own r s) a t ys (waiting_own r s a Hw) Eq Hne) as (s' & He & Hw' & Hx).
    exists s', (a_schedule a). split; [by do 2 erewrite bind_ok by first [reflexivity|exact He]|].
    destruct (Hx eq_refl). split_and!; try done.
    + unfold a_schedule. by rewrite Eq.
    + apply sched_ok_schedule; [apply (w_rep _ _ Hw)|]. by rewrite Eq.
  - rewrite not_elem_of_cons in Hnin. destruct Hnin as [Hx Hnin].
    destruct (waiting_turn (own r s) a x (xs ++ t :: ys) (waiting_own r s a Hw) Eq Hne) as (s1 & He & Hw1 & _).
    destruct (IH rs (ys ++ [x]) s1 (a_schedule a) Hw1) as (s' & a' & He' & Hd).
    + unfold a_schedule. rewrite Eq. cbn. by rewrite <- app_assoc.
    + unfold a_schedule. rewrite Eq. cbn. congruence.
    + done.
    + cbn in Hlen. lia.
    + exists s', a'. split; [|done]. by do 2 erewrite bind_ok by first [reflexivity|exact He].
Qed.

Lemma dispatched_space s a : dispatched s a → asid ≠ ASID_UNUSED → current_space s m (empty_vmm asid).
Proof.
  intros ([W1 W2 (th & Ht & _ & _ & Hm) W4 (_ & Hu & _) W6 W7 W8] & Hc & _ & _ & Hhi) Ha.
  split; [|done]. exists t, th. split; [|done]. destruct W1 as (_ & _ & -> & _). congruence.
Qed.
End waiting.

(** ** The main thread of a process *)
Context (stub_address : Z).
Context (junk_thread : thread) (junk_timer : timer) (junk_link : link_t).
Context (junk_process : process) (junk_uthread : uthread).
Context (handlers : list (Z → Z → Z → Z → KM (kernel H) (option Z))) (kbd_handle sched_timer : KM (kernel H) unit).
Context (saved : registers).

Local Abbreviation create := (process_create runnable_list stub_address junk_thread junk_timer junk_link junk_process junk_uthread).
Local Abbreviation stub := (process_stub runnable_list handlers kbd_handle sched_timer saved).
Local Abbreviation started := (started runnable_list handlers kbd_handle sched_timer saved).

(** The next address space is free. *)
Definition asid_free s : Prop :=
  0 ≤ k_last_asid s < 256 ∧ k_last_asid s ≠ ASID_UNUSED ∧
  ∀ q v, k_vmms s !! q = Some v → vmm_asid v ≠ k_last_asid s.

Definition main_context (t : Z) : context := Context [FStub t] (Z.lor CP0_STATUS_IE_MASK CP0_STATUS_IM_MASK).

Lemma created_waiting s a live owned image size p s1 :
  process_created runnable_list stub_address s a live owned image size p s1 →
  sched_rep runnable_list s a → spaces_ok s → asid_free s →
  ∃ t m pr live1 procs, t ∉ sc_queue a ∧ sc_current a ≠ t ∧ sc_queue (a_create t a) = sc_queue a ++ [t] ∧
    procs !! p = Some pr ∧ pr_image pr = image ∧ pr_size pr = size ∧
    waiting t m (k_last_asid s) (CUser stub_address) p (main_context t) live1 owned procs (k_heap s1) s1 (a_create t a) ∧
    granted process_requests (k_heap s) (k_heap s1).
Proof.
  intros [(u & t & pr & Ep & _ & Ei & Es & _ & _ & _ & Hr1 & Hn & th & Ht & Ef & Ed & Ec & Hv & Ev) (live1 & _ & Hrep & _) _ Etlb Hg]
    Hr Hsp (Hb & Hu & Hfree).
  exists t, (th_vmm th), pr, live1, (k_processes s1). split_and!; try done.
  - intros [x Hx]%(rep_queue _ s a t Hr). congruence.
  - intros <-. destruct (rep_current _ s a Hr) as (tho & Ho & _). congruence.
  - rewrite Ep. apply lookup_insert_eq.
  - split; try done.
    + unfold context_of. rewrite Ht. cbn. by rewrite Ec.
    + by exists th.
    + rewrite Ev. apply lookup_insert_eq.
    + by eapply (spaces_ok_new s s1).
    + apply granted_nil.
Qed.

(** The first thing a new thread does. *)
Lemma stub_resumed t m asid data st live owned procs h0 s a :
  dispatched t m asid (CUser stub_address) data (Context [FStub t] st) live owned procs h0 s a →
  resume runnable_list timers_list s = Ok (tt, set_k_stack [FUser stub_address data; FStubEnd] s).
Proof.
  intros ([_ _ (th & Ht & Hf & Hd & _) _ _ _ _ _] & _ & _ & [= Hst _] & _).
  unfold resume, pop_frame. erewrite bind_ok by (rewrite <- Hst; reflexivity). cbn [run_frame]. unfold thread_stub.
  do 2 (erewrite bind_ok by (by apply get_thread_ok)). erewrite bind_ok by reflexivity. by rewrite Hf, Hd.
Qed.

(** C18. From [process_create] to user mode.  A process needs five blocks from the heap.  If one
    of these requests is refused, [process_create] returns [ENOMEM]; otherwise it returns [EOK].
    Then the main thread gets the processor after as many turns as there were threads in the
    run queue and one more, whatever these do with their own stacks, and runs [process_stub]
    on its process, in the address space that was made for it.  This asks for the frames of the
    image (its size rounded up to pages) and one for the stack: if one of the two requests is
    refused it returns [NULL]; otherwise the thread enters user mode, with exactly the pages of
    the image and of the stack mapped, and the bytes of the image in them. *)
Theorem created_process_starts s a cur live owned image size rs mem :
  sched_rep runnable_list s a → k_threads s !! sc_current a = Some cur →
  kh_rep (k_heap s) live owned → objects_ok s live → spaces_ok s → asid_free s →
  image_ok (Process 0 0 image size 0) owned → (∀ x, 0 ≤ mem x < 256) → length rs = S (length (sc_queue a)) →
  ∃ rc p s1, create image size s = Ok ((rc, p), s1) ∧
    ((rc = ENOMEM ∧ p = NULL ∧ refused process_requests (k_heap s)) ∨
     (rc = EOK ∧ ∃ m pr s2 s3 r (s4 : processor H), pr_image pr = image ∧ pr_size pr = size ∧
        take_turns rs s1 = Ok (tt, s2) ∧ resume runnable_list timers_list s2 = Ok (tt, s3) ∧
        k_stack s3 = [FUser stub_address p; FStubEnd] ∧ granted process_requests (k_heap s) (k_heap s3) ∧
        stub p (Processor s3 mem None) = Ok (r, s4) ∧
        ((r = Some NULL ∧ given_up (Processor s3 mem None) s4 ∧ refused (stub_requests pr) (k_heap s3)) ∨
         (r = None ∧ started (Processor s3 mem None) s4 m p pr (k_last_asid s) ∧
          granted (stub_requests pr) (k_heap s3) (k_heap (po_kernel s4)))))).
Proof.
  intros Hr Hcur Hrep Hok Hsp Hfree Himg Hmem Hlen.
  destruct (process_create_exec runnable_list stub_address junk_thread junk_timer junk_link junk_process junk_uthread
    s a cur live owned image size Hr Hcur Hrep Hok) as (rc & p & s1 & He & [(-> & -> & Hrf & _)|(-> & Hc)]).
  { exists ENOMEM, NULL, s1. split; [done|left]. by split_and!. }
  exists EOK, p, s1. split; [done|]. right. split; [done|].
  destruct (created_waiting s a live owned image size p s1 Hc Hr Hsp Hfree)
    as (t & m & pr & live1 & procs & Hnin & Hne & Eq & Hp & Ei & Es & Hw & Hg).
  destruct (waiting_dispatched _ _ _ _ _ _ _ _ _ _ (sc_queue a) rs [] s1 (a_create t a) Hw Eq Hne Hnin Hlen)
    as (s2 & a2 & E2 & Hd).
  pose proof (stub_resumed _ _ _ _ _ _ _ _ _ s2 a2 Hd) as E3. set (s3 := set_k_stack _ s2) in E3.
  pose proof Hd as ([_ _ _ _ (Hmo & _) Hheap Hprocs Hsame] & _).
  assert (Hg3 : granted process_requests (k_heap s) (k_heap s3))
    by (rewrite <- (app_nil_r process_requests); exact (granted_app _ _ _ _ _ Hg Hsame)).
  assert (Hcs : current_space s3 m (Vmm (k_last_asid s) no_areas)) 
    by (change (current_space s2 m (empty_vmm (k_last_asid s))); eapply dispatched_space; [exact Hd|apply Hfree]).
  destruct (process_stub_exec runnable_list handlers kbd_handle sched_timer saved (Processor s3 mem None) m (k_last_asid s) p pr
    live1 owned) as (r & s4 & E4 & _ & Hres); try done.
  - destruct Hmo. by split.
  - cbn. by rewrite Hprocs.
  - unfold image_ok in *. rewrite Ei, Es. exact Himg.
  - exists m, pr, s2, s3, r, s4. by split_and!.
Qed.
End run.


(** ** On the concrete kernel, with more memory *)
Definition run_kernel (h : mm_state (gset Z)) : kernel (mm_state (gset Z)) := set_k_tlb stub_tlb (set_k_heap h sample_kernel).

Lemma run_spaces h : spaces_ok (run_kernel h).
Proof.
  assert (Hv : ∀ p v, k_vmms (run_kernel h) !! p = Some v → p = 20480 ∧ v = Vmm 3 [Vma 5 9 2 true; Vma 0 0 0 false]).
  { intros p v Hp. change (({[20480 := Vmm 3 [Vma 5 9 2 true; Vma 0 0 0 false]]} : gmap Z vmm) !! p = Some v) in Hp.
    by apply lookup_singleton_Some in Hp as [<- <-]. }
  split; [|split; [done|]]; [split|].
  - apply (mo_tlb _ (stub_memory_ok h)).
  - done.
  - apply Forall_replicate. by intros [].
  - intros p q v w [-> ->]%Hv [-> ->]%Hv. done.
  - intros p v [-> ->]%Hv. split; [repeat constructor; done|].
    intros [|[|i]] [|[|j]] v w vpn; cbn; try done; intros [= <-] [= <-]; by intros [] [].
  - by intros p v [-> ->]%Hv.
Qed.

(** All that is asked of the memory management until a process runs. *)
Definition run_requests (size : Z) : list request :=
  process_requests ++ [Frames (image_pages size); Frames 1].

(** Of 48 frames, frames 47 and 48 hold the image.  There is memory for the process. *)
Definition wide_frames : gset Z := frame_run 16 48 ∖ frame_run 47 2.

Lemma wide_heap : ∃ h, kh_rep h ∅ (in_frames (47 * 4096) 2) ∧ mm_inv sample_hl h [] ∧ mm_frames h = wide_frames.
Proof. apply (taken_heap 48). vm_compute. reflexivity. Qed.

Lemma run_served f : f = wide_frames → is_Some (serve_all (run_requests 5000) ([], f)).
Proof. intros ->. vm_compute. by eexists. Qed.

Lemma run_requests_ok n : 0 < n ≤ 2 ^ 29 → Forall request_ok (run_requests n).
Proof. intros Hn. destruct (image_pages_bounds n Hn) as [_ Hp]. apply Forall_app.
  split; [by repeat constructor|]. apply Forall_cons; split; [apply Hp|by repeat constructor].
Qed.

(** After two other threads have had their turns the process is in
    user mode and sees it. *)
Lemma created_process_starts_witness :
  ∃ h p s1 s2 s3 s4,
    process_create 64 77 (sample_thread THREAD_ZOMBIE 0 (Context [] 0)) (Timer 0 0 false CNull 0) (Link 1 2)
      (Process 0 0 0 0 0) (UThread 0 0 0 0 0) (KUSEG_END + 47 * 4096) 5000 (run_kernel h) = Ok ((EOK, p), s1) ∧
    take_turns 64 [([FUser 9 9], 0xff01); ([FIdle], 0xff01); ([], 0xff00)] s1 = Ok (tt, s2) ∧
    resume 64 96 s2 = Ok (tt, s3) ∧
    process_stub 64 [] (mret ()) (mret ()) vm_registers p (Processor s3 (λ a, a mod 256) None) = Ok (None, s4) ∧
    in_user_mode (cp0_status (po_kernel s4)) ∧
    user_sees 64 [] (mret ()) (mret ()) vm_registers s4 USER_CODE_START 5000 (λ i, (47 * 4096 + i) mod 256).
Proof.
  destruct wide_heap as (h & Hrep & Hinv & Hf). exists h.
  destruct (created_process_starts (H := mm_state (gset Z)) 64 96 77 (sample_thread THREAD_ZOMBIE 0 (Context [] 0))
    (Timer 0 0 false CNull 0) (Link 1 2) (Process 0 0 0 0 0) (UThread 0 0 0 0 0) [] (mret ()) (mret ()) vm_registers
    (run_kernel h) sample_sched (sample_thread THREAD_RUNNING 12288 (Context [] 0)) ∅ (in_frames (47 * 4096) 2)
    (KUSEG_END + 47 * 4096) 5000 [([FUser 9 9], 0xff01); ([FIdle], 0xff01); ([], 0xff00)] (λ a, a mod 256))
    as (rc & p & s1 & He & Hres).
  - exact (rep_ext 64 sample_kernel (run_kernel h) sample_sched eq_refl eq_refl eq_refl eq_refl eq_refl sample_sched_rep).
  - reflexivity.
  - exact Hrep.
  - destruct (sample_objects h). by split.
  - exact (run_spaces h).
  - split; [done|]. split; [done|]. intros q v Hq.
    change (({[20480 := Vmm 3 [Vma 5 9 2 true; Vma 0 0 0 false]]} : gmap Z vmm) !! q = Some v) in Hq.
    apply lookup_singleton_Some in Hq as [<- <-]. done.
  - split; [done|split; [done|split; [done|]]]. intros i Hi. change (0 ≤ i < 5000) in Hi. unfold in_frames.
    change FRAME_SIZE with 4096. unfold KUSEG_END. cbn [pr_image]. lia.
  - intros x. by apply Z.mod_pos_bound.
  - reflexivity.
  - assert (Hno : ¬ refused (run_requests 5000) (k_heap (run_kernel h))).
    { by apply (serve_not_refused sample_hl sample_static _ h [] _ Hinv Hf); [apply run_requests_ok|apply run_served]. }
    destruct Hres as [(_ & _ & Hr)|(-> & m & pr & s2 & s3 & r & s4 & Ei & Es & E2 & E3 & _ & Hg & E4 & Hr)].
    { destruct Hno. by apply refused_app_l. }
    destruct Hr as [(_ & _ & Hr)|(-> & (_ & Hmode & _ & _ & Hsee & _) & _)].
    { destruct Hno. apply (refused_app_r _ _ _ _ Hg). unfold stub_requests in Hr. by rewrite Es in Hr. }
    exists p, s1, s2, s3, s4. split_and!; [exact He|exact E2|exact E3|exact E4|exact Hmode|].
    intros i Hi. rewrite Es in Hsee. destruct (Hsee i Hi) as [s5 E5]. exists s5. etrans; [exact E5|].
    unfold image_byte. rewrite Ei. reflexivity.
Defined.
