(* ===== verification/SysThread.v ===== *)
(** * User threads ([kernel/proc/sys_thread.c])

    Parts of this file are exercise skeletons, and it was written for other headers: it
    includes [adt/plist.h], which does not exist, and uses the members [stack_top] and
    [thread_list] of [struct process], which are not declared.  These are parameters here;
    everything else is as it is written. *)
From S2P Require Import Prelude Bytes CList Cpu Malloc MallocInv MallocTheorems KHeap Tlb TlbTheorems Cp0 Kernel.
From S2P Require Import Sched Vmm PageTable Threads Timers SchedExec VmmTheorems VmmMap Exc ExcTheorems.
From S2P Require Import KernelSample VmSample Process ProcessTheorems Paging ProcStubTheorems.

Section code.
  Context {H : Type} `{KernelHeap H}.
  Context (runnable_list uthread_stub_code : Z).
  Context (junk_thread : thread) (junk_timer : timer) (junk_link : link_t) (junk_uthread : uthread).
  (** [plist.h], [process->thread_list] and [process->stack_top]. *)
  Context (plist_append : Z → Z → KM (kernel H) unit) (process_thread_list : Z → Z).
  Context (pr_stack_top : process → Z) (set_pr_stack_top : Z → process → process).

Definition get_uthread {A} (f : uthread → A) (u : Z) : KM (kernel H) A := kload (λ s, f <$> k_uthreads s !! u).

(** The stack of the thread: the return code and where it begins. *)
Definition uthread_stack (uthread : Z) : KM (kernel H) (Z * Z) :=
  state ← query_and_disable_interrupts;
  process ← get_uthread ut_process uthread;
  top ← get_process pr_stack_top process;
  upd_process (set_pr_stack_top (wrap (top - ALIGN_UP USER_STACK_SIZE (Z.shiftl PAGE_SIZE 1)))) process ;;
  process ← get_uthread ut_process uthread;
  base ← get_process pr_stack_top process;
  conditionally_enable_interrupts state ;;
  let size := ALIGN_UP USER_STACK_SIZE PAGE_SIZE in
  vma_map base size (Z.lor VF_AT_KUSEG VF_VA_USER).

(** The owner, Status and EPC. *)
Definition uthread_registers (uthread : Z) : KM (kernel H) unit :=
  process ← get_uthread ut_process uthread;
  thread_set_process process uthread ;;
  status ← kgets cp0_status;
  kmodify (set_cp0_status (stub_status status)) ;;
  entry ← get_uthread ut_entry uthread;
  kmodify (set_k_epc entry).

(** As for [process_stub]: a return value, or nothing in user space. *)
Definition uthread_stub (uthread : Z) : KM (processor H) (option Z) :=
  '(rc, base) ← on_kernel (uthread_stack uthread);
  if bool_decide (rc ≠ EOK) then mret (Some NULL)
  else
    on_kernel (uthread_registers uthread) ;;
    data ← on_kernel (get_uthread ut_data uthread);
    user_data ← on_kernel (get_uthread ut_user_data uthread);
    uspace_jump (wrap (base + USER_STACK_SIZE)) data user_data ;;
    mret None.

(** The return code and what is stored at [tid], if anything. *)
Definition sys_thread_create (entry data user_data : Z) : KM (kernel H) (Z * option Z) :=
  uthread ← malloc_uthread junk_link junk_uthread;
  if bool_decide (uthread = NULL) then mret (ENOMEM, None)
  else
    process ← thread_get_process;
    upd_uthread (λ ut, UThread (ut_thread ut) process entry data user_data) uthread ;;
    state ← query_and_disable_interrupts;
    process ← get_uthread ut_process uthread;
    plist_append (process_thread_list process) uthread ;;
    conditionally_enable_interrupts state ;;
    '(rc, thread) ← thread_create runnable_list junk_thread junk_timer junk_link (CUser uthread_stub_code) uthread 0;
    if bool_decide (rc ≠ EOK) then
      state ← query_and_disable_interrupts;
      process ← get_uthread ut_process uthread;
      plist_append (process_thread_list process) uthread ;;
      conditionally_enable_interrupts state ;;
      free_uthread uthread ;;
      mret (rc, None)
    else
      upd_uthread (λ ut, UThread thread (ut_process ut) (ut_entry ut) (ut_data ut) (ut_user_data ut)) uthread ;;
      mret (EOK, Some uthread).

Definition sys_thread_usleep (usec : Z) : KM (kernel H) Z := mret EOK.

(** The search for the thread is missing: [uthread] is always [NULL]. *)
Definition sys_thread_join (tid thread_retval : Z) : KM (kernel H) Z :=
  process ← thread_get_process;
  let uthread := NULL in
  state ← query_and_disable_interrupts;
  conditionally_enable_interrupts state ;;
  if bool_decide (uthread = NULL) then mret EINVAL else mret EOK.

Definition sys_thread_finish (thread_retval : Z) : KM (kernel H) Z := mret EOK.

End code.

(** ** A user thread starts on a stack of its own *)
Section theorems.
  Context {H : Type} `{KernelHeapLaws H}.
  (** [process->stack_top] is a member. *)
  Context (pr_stack_top : process → Z) (set_pr_stack_top : Z → process → process).
  Hypothesis stack_top_set : ∀ v pr, pr_stack_top (set_pr_stack_top v pr) = v.
  Implicit Types (k : kernel H) (s : processor H).

Local Abbreviation stub := (uthread_stub (H := H) pr_stack_top set_pr_stack_top).

(** Two pages below the last stack; one of them is mapped. *)
Definition next_stack (pr : process) : Z := wrap (pr_stack_top pr - 2 * 4096).
Definition with_next_stack (pr : process) : process := set_pr_stack_top (next_stack pr) pr.

Lemma uthread_stack_exec u ut pr k :
  k_uthreads k !! u = Some ut → k_processes k !! ut_process ut = Some pr →
  uthread_stack pr_stack_top set_pr_stack_top u k =
    vma_map (next_stack pr) (1 * 4096) user_flags (set_k_processes <[ut_process ut := with_next_stack pr]> k).
Proof.
  intros Hu Hp. unfold uthread_stack. kexec_step.
  erewrite bind_ok by (apply load_some; cbn; by rewrite Hu). erewrite bind_ok by (apply load_some; cbn; by rewrite Hp).
  erewrite bind_ok by (apply upd_process_ok; exact Hp).
  change (set_pr_stack_top _ pr) with (with_next_stack pr).
  change (set_k_processes ?f (ints_masked k)) with (ints_masked (set_k_processes f k)).
  change (cp0_status k) with (cp0_status (set_k_processes <[ut_process ut := with_next_stack pr]> k)).
  erewrite bind_ok by (apply load_some; cbn; by rewrite Hu).
  erewrite bind_ok by (apply load_some; cbn; by rewrite lookup_insert_eq).
  erewrite bind_ok by apply restored. unfold with_next_stack. by rewrite stack_top_set.
Qed.

Lemma uthread_registers_exec u ut c th k :
  k_uthreads k !! u = Some ut → k_current k !! k_cpu k = Some c → k_threads k !! c = Some th →
  uthread_registers u k = Ok (tt, set_k_epc (ut_entry ut) (set_cp0_status (stub_status (cp0_status k))
    (set_k_threads <[c := set_th_uthread u (set_th_process (ut_process ut) th)]> k))).
Proof.
  intros Hu Hc Hth. unfold uthread_registers. erewrite bind_ok by (apply load_some; cbn; by rewrite Hu).
  erewrite bind_ok by (by apply set_process_exec). do 2 erewrite bind_ok by reflexivity.
  by erewrite bind_ok by (apply load_some; cbn; by rewrite Hu).
Qed.

(** In user space: the thread runs its entry function on the new stack, which is the only
    page that has been mapped. *)
Definition uthread_started s s' (p u : Z) (ut : uthread) (pr : process) (v : vmm) : Prop :=
  let k := po_kernel s in let k' := po_kernel s' in
  po_user s' = Some (UserRegisters (ut_entry ut) (next_stack pr + 4096) (ut_data ut) (ut_user_data ut)) ∧
  in_user_mode (cp0_status k') ∧
  (∃ c th, k_current k !! k_cpu k = Some c ∧ k_threads k !! c = Some th ∧
     k_threads k' = <[c := set_th_uthread u (set_th_process (ut_process ut) th)]> (k_threads k)) ∧
  ∃ v', current_space k' p v' ∧ vmm_asid v' = vmm_asid v ∧ is_Some (page_table (vmm_vma v') (next_stack pr / 4096)) ∧
    ∀ vpn, vpn ≠ next_stack pr / 4096 → page_table (vmm_vma v') vpn = page_table (vmm_vma v) vpn.

(** C27. The start of a user thread: either its address space is full or there is no frame for
    its stack, and it returns [NULL] with interrupts as they were; or it ends up in user mode with interrupts on, at
    its entry function with both arguments, owned by the process and by its control
    structure, and with the stack pointer at the end of a page that was not mapped before.
    The stack of the next thread begins two pages lower.  No byte of memory is written. *)
Theorem uthread_stub_starts s p v u ut pr live owned :
  memory_ok (po_kernel s) → current_space (po_kernel s) p v → kh_rep (k_heap (po_kernel s)) live owned →
  k_uthreads (po_kernel s) !! u = Some ut → k_processes (po_kernel s) !! ut_process ut = Some pr →
  pr_stack_top pr mod 4096 = 0 → 2 * 4096 < pr_stack_top pr ≤ KUSEG_END →
  page_table (vmm_vma v) (next_stack pr / 4096) = None →
  ∃ r s', stub u s = Ok (r, s') ∧ memory_ok (po_kernel s') ∧ po_mem s' = po_mem s ∧
    k_processes (po_kernel s') = <[ut_process ut := with_next_stack pr]> (k_processes (po_kernel s)) ∧
    (∃ owned' : Z → Prop, (∀ a, owned a → owned' a) ∧ kh_rep (k_heap (po_kernel s')) live owned') ∧
    ((r = Some NULL ∧ given_up s s' ∧ no_room (po_kernel s) v 1) ∨ (r = None ∧ uthread_started s s' p u ut pr v)).
Proof.
  intros Hmem Hcur Hrep Hu Hp Hal Htop Hpt.
  assert (Hns : next_stack pr = pr_stack_top pr - 2 * 4096) by (apply wrap_small; unfold KUSEG_END in *; word_lia).
  assert (Hal' : next_stack pr mod 4096 = 0) by (rewrite Hns; by rewrite Zminus_mod, Hal).
  set (k1 := set_k_processes <[ut_process ut := with_next_stack pr]> (po_kernel s)).
  destruct (user_area_exec k1 p v (next_stack pr) 1 live owned) as (rc & addr & k2 & E & S2 & M2 & Hres);
    [by destruct Hmem; split|exact Hcur|exact Hrep|lia|done|lia| |].
  { apply unmapped_fresh; [by apply (mo_vmas _ Hmem p), Hcur|unfold KUSEG_END in *; word_lia|].
    intros vpn Hvpn. replace vpn with (next_stack pr / 4096) by lia. done. }
  pose proof S2 as (Es & Est & _). unfold uthread_stub.
  erewrite bind_ok by (apply on_kernel_ok; by rewrite (uthread_stack_exec u ut pr)).
  cbn beta iota. assert (Hpr : k_processes k2 = k_processes k1) by (by rewrite Es).
  destruct Hres as [(Hrc & Hr & Hno)|(-> & -> & _ & v' & phys & ([C2 A2] & Hm & Ho & _ & Hr))].
  { rewrite bool_decide_eq_true_2 by done. eexists _, _. split; [reflexivity|]. split; [exact M2|]. split; [done|].
    split; [exact Hpr|]. split; [by exists owned|]. left. split; [done|].
    split; [split; [done|]; split; [cbn; by rewrite Es|exact Est]|exact Hno]. }
  rewrite bool_decide_eq_false_2 by tauto. destruct Hcur as ((c & th & Hc & Hth & Hvm) & _).
  assert (F : k_current k2 !! k_cpu k2 = Some c ∧ k_threads k2 = k_threads (po_kernel s) ∧ k_uthreads k2 !! u = Some ut)
    by (rewrite Es; done).
  destruct F as (F1 & F2 & F3).
  erewrite bind_ok by (apply on_kernel_ok, (uthread_registers_exec u ut c th); [exact F3|exact F1|cbn; rewrite F2; exact Hth]).
  do 2 erewrite bind_ok by (apply on_kernel_ok, load_some; cbn; by rewrite F3).
  rewrite (wrap_small (next_stack pr + USER_STACK_SIZE)) by (unfold KUSEG_END in *; change USER_STACK_SIZE with 4096; word_lia).
  change USER_STACK_SIZE with 4096. eexists _, _. split; [reflexivity|]. cbn [po_kernel set_po_kernel po_mem].
  set (k5 := set_cp0_status _ _). assert (M5 : memory_ok k5) by (by destruct M2; split).
  split; [exact M5|]. split; [done|]. split; [exact Hpr|].
  split; [eexists; split; [|do 2 apply kh_rep_status; exact Hr]; by left|]. right. split; [done|].
  split; [done|]. split; [unfold k5; cbn; rewrite !cp0_status_set; apply user_mode|].
  split; [exists c, th; split; [exact Hc|split; [exact Hth|cbn; by rewrite F2]]|].
  exists v'. split; [|split; [by rewrite A2|split; [|intros vpn Hvpn; apply Ho; lia]]].
  - destruct C2 as (_ & C2). split; [|exact C2]. exists c. eexists. split; [exact F1|]. split; [apply lookup_insert_eq|exact Hvm].
  - eapply page_of_area; [exact Hm|lia].
Qed.
End theorems.

(** ** The stubs *)
Section stubs.
  Context {H : Type} `{KernelHeapLaws H}.
  Implicit Types (k : kernel H).

(** No thread can be joined, and a thread neither sleeps nor finishes by these calls. *)
Lemma sys_thread_stubs k c th tid r usec :
  k_current k !! k_cpu k = Some c → k_threads k !! c = Some th →
  sys_thread_join tid r k = Ok (EINVAL, k) ∧ sys_thread_usleep usec k = Ok (EOK, k) ∧ sys_thread_finish r k = Ok (EOK, k).
Proof.
  intros Hc Hth. split; [|done]. unfold sys_thread_join. erewrite bind_ok.
  2:{ unfold thread_get_process. do 3 kexec_step. by erewrite bind_ok by apply restored. }
  kexec_step. by erewrite bind_ok by apply restored.
Qed.

(** Without memory for the control structure nothing happens. *)
Lemma sys_thread_create_no_memory rq stub jt jti jl ju append lists k h entry data user_data :
  km_malloc sizeof_uthread (k_heap k) = Ok (NULL, h) →
  sys_thread_create rq stub jt jti jl ju append lists entry data user_data k = Ok ((ENOMEM, None), set_k_heap h k).
Proof.
  intros Hm. unfold sys_thread_create, malloc_uthread.
  rewrite bind_assoc. erewrite bind_ok by (apply in_heap_ok; exact Hm). by rewrite bool_decide_eq_false_2 by tauto.
Qed.
End stubs.

(** ** On the concrete kernel: [ustack_top] in the place of [stack_top] *)
Definition set_pr_ustack_top (v : Z) (pr : process) : process :=
  Process v (pr_main_uthread pr) (pr_image pr) (pr_size pr) (pr_retval pr).

Definition uthread_processor (h : mm_state (gset Z)) : processor (mm_state (gset Z)) :=
  let s := stub_processor h in
  set_po_kernel (set_k_uthreads (λ _, {[32768 := UThread 8192 24576 0x1234 7 8]})
    (set_k_processes (λ _, {[24576 := with_stack stub_image]}) (po_kernel s))) s.

Lemma uthread_stub_starts_witness :
  ∃ h s', uthread_stub pr_ustack_top set_pr_ustack_top 32768 (uthread_processor h) = Ok (None, s') ∧
    po_user s' = Some (UserRegisters 0x1234 0x7FFFD000 7 8) ∧ in_user_mode (cp0_status (po_kernel s')).
Proof.
  destruct vm_heap as (h & Hrep & Hinv & Hf). exists h.
  destruct (uthread_stub_starts pr_ustack_top set_pr_ustack_top (λ _ _, eq_refl) (uthread_processor h) 20480 (Vmm 3 no_areas)
    32768 (UThread 8192 24576 0x1234 7 8) (with_stack stub_image) ∅ (in_frames (23 * 4096) 2)) as (r & s' & He & _ & _ & _ & _ & Hres).
  - destruct (stub_memory_ok h). by split.
  - split; [|split; [by apply lookup_singleton_eq|done]].
    exists 8192, (sample_thread THREAD_RUNNING 12288 (Context [] 0)). done.
  - exact Hrep.
  - by apply lookup_singleton_eq.
  - by apply lookup_singleton_eq.
  - reflexivity.
  - done.
  - apply no_areas_table.
  - destruct Hres as [(_ & _ & [Hfull|Hr])|(-> & Hu & Hm & _)].
    + by vm_compute in Hfull.
    + destruct (serve_not_refused sample_hl sample_static [Frames 1] h [] _ Hinv Hf); [by repeat constructor| |exact Hr].
      vm_compute. by eexists.
    + exists s'. split; [exact He|]. split; [exact Hu|exact Hm].
Defined.

(** ** The table of system calls

    The functions of [syscall.c] that are still to be written have no [return] statement:
    the caller finds whatever is in the register ([junk]).  The functions on mutexes have a
    larger state ([Synch]) and are parameters here, as is the store to user memory. *)
Section table.
  Context {H : Type} `{KernelHeap H}.
  Context (junk : Z) (store_user : Z → Z → KM (kernel H) unit).
  Context (thread_create : Z → Z → Z → KM (kernel H) (Z * option Z)).
  Context (mutex_handlers : list (Z → Z → Z → Z → KM (kernel H) (option Z))).

Definition sys_putc (c : Z) : KM (kernel H) Z := mret junk.
Definition sys_putstr (str size : Z) : KM (kernel H) Z := mret junk.
Definition sys_getc : KM (kernel H) Z := mret junk.
Definition sys_vma_map (from size : Z) : KM (kernel H) Z := mret junk.
Definition sys_vma_unmap (from : Z) : KM (kernel H) Z := mret junk.

Definition returning (m : KM (kernel H) Z) : KM (kernel H) (option Z) := v ← m; mret (Some v).

(** The entries behind [sys_exit]. *)
Definition syscall_handlers : list (Z → Z → Z → Z → KM (kernel H) (option Z)) := [
  (λ a0 _ _ _, returning (sys_putc a0));
  (λ a0 a1 _ _, returning (sys_putstr a0 a1));
  (λ _ _ _ _, returning sys_getc);
  (λ a0 a1 _ _, returning (sys_vma_map a0 a1));
  (λ a0 _ _ _, returning (sys_vma_unmap a0));
  (λ a0 a1 a2 a3,
    '(rc, tid) ← thread_create a1 a2 a3;
    (match tid with Some u => store_user a0 u | None => mret () end) ;;
    mret (Some rc));
  (λ _ _ _ _, sys_thread_self);
  (λ a0 _ _ _, returning (sys_thread_usleep a0));
  (λ a0 a1 _ _, returning (sys_thread_join a0 a1));
  (λ a0 _ _ _, returning (sys_thread_finish a0))
] ++ mutex_handlers.

(** The table has an entry for every number that [syscall] accepts, and no others. *)
Lemma syscall_table_complete rq n : length mutex_handlers = 4%nat →
  0 ≤ n → n < SYSCALL_COUNT ↔ is_Some (syscall_table rq syscall_handlers !! Z.to_nat n).
Proof.
  intros Hm Hn. rewrite lookup_lt_is_Some. unfold syscall_table, syscall_handlers. cbn [length].
  rewrite length_app, Hm. unfold SYSCALL_COUNT. cbn [length]. lia.
Qed.

(** The number of the calling thread is [sys_thread_self]'s, the 8th entry. *)
Lemma syscall_table_self rq : syscall_table rq syscall_handlers !! 7%nat = Some (λ _ _ _ _, sys_thread_self).
Proof. done. Qed.
End table.
