(* ===== verification/SchedTheorems.v ===== *)
(** * Scheduling: the operations refine the abstract scheduler

    [schedule], [thread_suspend], [thread_wakeup] and [thread_finish] implement
    the abstract operations on the queue and hand the processor over as told by
    [handed_over]. *)
From S2P Require Import Prelude CList Cpu Malloc KHeap Tlb Kernel Sched Vmm Threads Timers SchedExec SchedSpec SchedRefine SchedOps KernelSample.

Section ops.
  Context {H : Type} `{KernelHeapLaws H}.
  Context (runnable_list : Z).
  Implicit Types (s : kernel H) (a : sched).
  Abbreviation sched_rep := (sched_rep runnable_list).
  Abbreviation sched_frame := (sched_frame runnable_list).

(** C33. [schedule] (and [thread_yield]) is round robin: it returns, the thread at
    the head of the run queue becomes the running thread and moves to the end, the
    thread that ran becomes ready; its context is saved, the context loaded is the
    saved context of the new thread, and nothing else changes. *)
Theorem schedule_refines s a :
  sched_rep s a →
  ∃ s', thread_yield runnable_list s = Ok (tt, s') ∧ sched_rep s' (a_schedule a) ∧
    (sc_queue a ≠ [] → running (a_schedule a)) ∧ sched_frame s s' ∧
    handed_over (k_stack s) (cp0_status s) s s' a.
Proof.
  intros Hr. destruct (schedule_rep s a Hr) as (s' & He & Hr' & Hf & Hh).
  exists s'. split_and!; try done. apply sched_ok_schedule, Hr.
Qed.

(** A thread suspended by [schedule] returns from it, once its context has been
    loaded, with the stack and the Status register of its call. *)
Theorem schedule_returns (timers_list : Z) s frames status :
  k_stack s = cx_frames (suspended frames status) → cp0_status s = cx_status (suspended frames status) →
  (resume runnable_list timers_list ;; resume runnable_list timers_list) s =
    Ok (tt, set_k_stack frames (set_cp0_status status s)).
Proof.
  intros Hs Hst. unfold resume, pop_frame. rewrite bind_assoc.
  erewrite bind_ok by (by rewrite Hs). cbn [run_frame].
  erewrite bind_ok by reflexivity. erewrite bind_ok by reflexivity. cbn [run_frame].
  pose proof (ints_restore (set_cp0_status status s)) as Hr. rewrite cp0_status_set in Hr.
  specialize (Hr (set_k_stack frames s)). cbn -[set_k_stack].
  change (set_k_stack frames (set_k_stack _ s)) with (set_k_stack frames s).
  rewrite Hr by (unfold ints_masked; rewrite !cp0_status_set; exact Hst).
  done.
Qed.

(** [thread_wakeup] makes a sleeping thread ready and appends it to the run
    queue; for a thread in another state it does nothing, so that two wake-ups of a
    thread in a row are one.  It restores the interrupt state, does not touch the
    contexts, and changes nothing else. *)
Theorem thread_wakeup_refines s a t :
  sched_rep s a → is_Some (k_threads s !! t) →
  ∃ s', thread_wakeup runnable_list t s = Ok (EOK, s') ∧ sched_rep s' (a_wakeup t a) ∧
    sched_frame s s' ∧ k_stack s' = k_stack s ∧ cp0_status s' = cp0_status s ∧
    (∀ u, context_of s' u = context_of s u) ∧
    ∃ s'', thread_wakeup runnable_list t s' = Ok (EOK, s'') ∧ sched_rep s'' (a_wakeup t a).
Proof.
  intros Hr Ht. destruct (wakeup_rep s a t Hr Ht) as (s' & He & Hr' & Hf & Hk & Hc & _ & Hx).
  assert (Ht' : is_Some (k_threads s' !! t)).
  { apply (rep_thread _ s' _ t Hr'). unfold a_wakeup. case_bool_decide; cbn.
    - rewrite lookup_insert_eq. eauto.
    - by apply (rep_thread _ s _ t Hr). }
  destruct (wakeup_rep s' _ t Hr' Ht') as (s'' & He'' & Hr'' & _).
  exists s'. split_and!; try done. exists s''. split; [done|].
  assert (Hid : a_wakeup t (a_wakeup t a) = a_wakeup t a); [|by rewrite Hid in Hr''].
  unfold a_wakeup. destruct (bool_decide_reflect (sc_state a !! t = Some THREAD_SLEEPING)) as [E|E].
  - rewrite bool_decide_eq_false_2; [done|]. cbn. by rewrite lookup_insert_eq.
  - by rewrite bool_decide_eq_false_2.
Qed.

(** C21. [thread_suspend] puts the current thread to sleep: it leaves the run queue,
    and the processor goes to the head of what remains; when it is resumed,
    [thread_suspend] still has to restore the interrupt state of its caller. *)
Theorem thread_suspend_refines s a :
  sched_rep s a → running a →
  ∃ s', thread_suspend runnable_list s = Ok (tt, s') ∧
    sched_rep s' (a_schedule (a_block THREAD_SLEEPING a)) ∧ sched_frame s s' ∧
    handed_over (FSuspend (Z.land (cp0_status s) CP0_STATUS_IE_MASK) :: k_stack s)
      (Z.land (cp0_status s) (Z.lnot CP0_STATUS_IE_MASK)) s s' (a_block THREAD_SLEEPING a).
Proof. apply suspend_rep. Qed.

(** The end of a thread. *)
Lemma finish_exec s a tho retval :
  sched_rep s a → running a → k_threads s !! sc_current a = Some tho →
  (th_joiner tho = NULL ∨ is_Some (k_threads s !! th_joiner tho)) →
  let s0 := set_k_threads (alter (set_th_retval retval) (sc_current a)) s in
  ∃ s' tho', thread_finish runnable_list retval s = Ok (tt, s') ∧
    sched_rep s' (a_schedule (a_finish (th_joiner tho) a)) ∧ sched_frame s0 s' ∧
    k_threads s' !! sc_current a = Some tho' ∧ th_state tho' = THREAD_ZOMBIE ∧ th_retval tho' = retval ∧
    handed_over (FFinish :: k_stack s) (Z.land (cp0_status s) (Z.lnot CP0_STATUS_IE_MASK)) s s'
      (a_finish (th_joiner tho) a).
Proof.
  intros Hr Hrun Ho Hj s0.
  destruct (finish_rep s a tho retval Hr Hrun Ho Hj) as (s4 & He4 & Hr4 & Hf4 & Hk4 & Hc4 & Hx4).
  set (s5 := set_k_stack (FFinish :: k_stack s) s4).
  assert (Hr5 : sched_rep s5 (a_finish (th_joiner tho) a)) by (by apply (rep_ext _ s4)).
  destruct (schedule_rep s5 _ Hr5) as (s' & He' & Hr' & Hf' & Hh).
  assert (Hz : sc_state (a_schedule (a_finish (th_joiner tho) a)) !! sc_current a = Some THREAD_ZOMBIE).
  { apply a_schedule_zombie; [apply Hr4|]. by apply a_finish_zombie, Hr. }
  assert (Hf05 : sched_frame s0 s').
  { eapply sched_frame_trans; [exact Hf4|]. eapply sched_frame_trans; [apply frame_stack|exact Hf']. }
  pose proof Hr' as (_ & _ & _ & Est & _). rewrite Est, lookup_fmap in Hz.
  destruct (k_threads s' !! sc_current a) as [tho'|] eqn:Ho'; [|done]. injection Hz as Hz.
  exists s', tho'. split_and!; try done.
  - rewrite He4. erewrite bind_ok by reflexivity. rewrite Hk4. exact He'.
  - destruct Hf05 as (_ & He0 & _). destruct (erase_vmm s0 s' _ tho' He0 Ho') as (th0 & Hth0 & Eth).
    cbn in Hth0. rewrite lookup_alter_eq, Ho in Hth0. injection Hth0 as <-.
    by apply (f_equal th_retval) in Eth.
  - change (cp0_status s5) with (cp0_status s4) in Hh. rewrite Hc4 in Hh.
    by apply (handed_over_from _ _ s s5).
Qed.
(** C12. [thread_finish] returns the processor for good: the current thread becomes
    a zombie with its return value and leaves the run queue, the thread that waits
    for it (if there is one, and it sleeps) becomes ready, and the head of the run
    queue runs. *)
Theorem thread_finish_refines s a tho retval :
  sched_rep s a → running a → k_threads s !! sc_current a = Some tho →
  (th_joiner tho = NULL ∨ is_Some (k_threads s !! th_joiner tho)) →
  let s0 := set_k_threads (alter (set_th_retval retval) (sc_current a)) s in
  ∃ s' tho', thread_finish runnable_list retval s = Ok (tt, s') ∧
    sched_rep s' (a_schedule (a_finish (th_joiner tho) a)) ∧ sched_frame s0 s' ∧
    k_threads s' !! sc_current a = Some tho' ∧ th_state tho' = THREAD_ZOMBIE ∧ th_retval tho' = retval ∧
    handed_over (FFinish :: k_stack s) (Z.land (cp0_status s) (Z.lnot CP0_STATUS_IE_MASK)) s s'
      (a_finish (th_joiner tho) a).
Proof. exact (finish_exec s a tho retval). Qed.
End ops.

(** ** Witnesses *)
Lemma schedule_refines_witness :
  ∃ s', thread_yield 64 sample_kernel = Ok (tt, s') ∧
    sched_rep 64 s' (Scheduler [8192; 4096] 4096 (<[4096 := THREAD_RUNNING]>
      (<[8192 := THREAD_READY]> (sc_state sample_sched)))) ∧
    (sc_queue sample_sched ≠ [] → running (a_schedule sample_sched)) ∧
    sched_frame 64 sample_kernel s' ∧ handed_over [FUser 3 4] 0xff01 sample_kernel s' sample_sched.
Proof. exact (schedule_refines 64 sample_kernel sample_sched sample_sched_rep). Defined.

Definition sample_resuming : kernel (mm_state (gset Z)) :=
  set_k_stack (cx_frames sample_context) (set_cp0_status 0xff00 sample_kernel).

Lemma schedule_returns_witness :
  (resume 64 72 ;; resume 64 72) sample_resuming =
    Ok (tt, set_k_stack [FUser 1 2] (set_cp0_status 0xff01 sample_resuming)).
Proof. exact (schedule_returns (H := mm_state (gset Z)) 64 72 sample_resuming [FUser 1 2] 0xff01 eq_refl eq_refl). Defined.

Lemma thread_wakeup_refines_witness :
  ∃ s', thread_wakeup 64 12288 sample_kernel = Ok (EOK, s') ∧
    sched_rep 64 s' (a_wakeup 12288 sample_sched) ∧
    sched_frame 64 sample_kernel s' ∧ k_stack s' = [FUser 3 4] ∧ cp0_status s' = 0xff01 ∧
    (∀ u, context_of s' u = context_of sample_kernel u) ∧
    ∃ s'', thread_wakeup 64 12288 s' = Ok (EOK, s'') ∧ sched_rep 64 s'' (a_wakeup 12288 sample_sched).
Proof.
  refine (thread_wakeup_refines (H := mm_state (gset Z)) 64 sample_kernel sample_sched 12288 sample_sched_rep _).
  by eexists.
Defined.

Lemma thread_suspend_refines_witness :
  ∃ s', thread_suspend 64 sample_kernel = Ok (tt, s') ∧
    sched_rep 64 s' (a_schedule (a_block THREAD_SLEEPING sample_sched)) ∧ sched_frame 64 sample_kernel s' ∧
    handed_over [FSuspend 1; FUser 3 4] 0xff00 sample_kernel s' (a_block THREAD_SLEEPING sample_sched).
Proof. exact (thread_suspend_refines 64 sample_kernel sample_sched sample_sched_rep sample_running). Defined.

Lemma thread_finish_refines_witness :
  ∃ s' tho', thread_finish 64 99 sample_kernel = Ok (tt, s') ∧
    sched_rep 64 s' (a_schedule (a_finish 12288 sample_sched)) ∧
    sched_frame 64 (set_k_threads (alter (set_th_retval 99) 8192) sample_kernel) s' ∧
    k_threads s' !! 8192 = Some tho' ∧ th_state tho' = THREAD_ZOMBIE ∧ th_retval tho' = 99 ∧
    handed_over [FFinish; FUser 3 4] 0xff00 sample_kernel s' (a_finish 12288 sample_sched).
Proof.
  refine (thread_finish_refines (H := mm_state (gset Z)) 64 sample_kernel sample_sched
    (sample_thread THREAD_RUNNING 12288 (Context [] 0)) 99 sample_sched_rep sample_running _ _).
  - reflexivity.
  - right. by eexists.
Defined.
