(* ===== verification/LibRt.v ===== *)
(** * The user space run-time library ([user/librt])

    The functions of the library as they are, with the prefix [rt_] where the kernel has a
    function of the name: most system calls are still to be written,
    so that only [exit] executes the [syscall] instruction.  A computation of a user
    thread may yield nothing: then the thread has been finished. *)
From S2P Require Import Prelude CList Cpu Malloc KHeap Tlb Cp0 Kernel Sched Vmm Threads Timers Exc.

(** [syscall_t], of the library and of the kernel. *)
Inductive syscall_t :=
  | SYS_EXIT | SYS_PUTC | SYS_PUTSTR | SYS_GETC | SYS_VMA_MAP | SYS_VMA_UNMAP | SYS_THREAD_CREATE | SYS_THREAD_SELF
  | SYS_THREAD_USLEEP | SYS_THREAD_JOIN | SYS_THREAD_FINISH | SYS_MUTEX_INIT | SYS_MUTEX_LOCK | SYS_MUTEX_UNLOCK
  | SYS_MUTEX_DESTROY.

Definition syscall_number (id : syscall_t) : Z :=
  match id with
  | SYS_EXIT => 0 | SYS_PUTC => 1 | SYS_PUTSTR => 2 | SYS_GETC => 3 | SYS_VMA_MAP => 4 | SYS_VMA_UNMAP => 5
  | SYS_THREAD_CREATE => 6 | SYS_THREAD_SELF => 7 | SYS_THREAD_USLEEP => 8 | SYS_THREAD_JOIN => 9
  | SYS_THREAD_FINISH => 10 | SYS_MUTEX_INIT => 11 | SYS_MUTEX_LOCK => 12 | SYS_MUTEX_UNLOCK => 13
  | SYS_MUTEX_DESTROY => 14
  end.

(** Computations of a user thread. *)
Definition UM (S A : Type) : Type := KM S (option A).
Definition uret {S A} (a : A) : UM S A := mret (Some a).
Definition ubind {S A B} (f : A → UM S B) (m : UM S A) : UM S B :=
  mbind (M := KM S) (A := option A) (λ r, match r with Some a => f a | None => mret None end) m.

Declare Scope user_scope.
Delimit Scope user_scope with user.
Notation "x ⇐ m ; k" := (ubind (λ x, k) m) (at level 20, m at level 100, k at level 200, right associativity) : user_scope.
Notation "m ;;; k" := (ubind (λ _, k) m) (at level 100, k at level 200, right associativity) : user_scope.
Local Open Scope user_scope.

Section code.
  Context {S : Type}.
  (** The [syscall] instruction with [$v0] and [$a0] to [$a3]; the new [$v0]. *)
  Context (trap : Z → Z → Z → Z → Z → UM S Z).

(** ** [syscall.h] *)
Definition rt_syscall (id : syscall_t) (p1 p2 p3 p4 : Z) : UM S Z := trap (syscall_number id) p1 p2 p3 p4.
Definition SYSCALL0 (id : syscall_t) : UM S Z := rt_syscall id 0 0 0 0.
Definition SYSCALL1 (id : syscall_t) (p1 : Z) : UM S Z := rt_syscall id p1 0 0 0.
Definition SYSCALL2 (id : syscall_t) (p1 p2 : Z) : UM S Z := rt_syscall id p1 p2 0 0.
Definition SYSCALL3 (id : syscall_t) (p1 p2 p3 : Z) : UM S Z := rt_syscall id p1 p2 p3 0.
Definition SYSCALL4 (id : syscall_t) (p1 p2 p3 p4 : Z) : UM S Z := rt_syscall id p1 p2 p3 p4.

(** ** [malloc.c], [stdio.c] *)
Definition rt_heap_init : UM S unit := uret ().
Definition rt_malloc (size : Z) : UM S Z := uret NULL.
Definition rt_free (addr : Z) : UM S unit := uret ().
Definition printf (format : Z) (args : list Z) : UM S Z := uret 0.

(** ** [mutex.c] *)
Definition rt_mutex_init (mtx : Z) : UM S Z := uret EOK.
Definition rt_mutex_destroy (mtx : Z) : UM S Z := uret EOK.
Definition rt_mutex_lock (mtx : Z) : UM S Z := uret EOK.
Definition rt_mutex_unlock (mtx : Z) : UM S Z := uret EOK.

(** ** [thread.c]: an entry function is a computation *)
Definition rt_thread_usleep (usec : Z) : UM S unit := uret ().
Definition rt_thread_join (thr thread_retval : Z) : UM S Z := uret EOK.
Definition rt_thread_finish (thread_retval : Z) : UM S unit := uret ().
Definition rt_thread_self : UM S Z := uret 0.

Definition rt_thread_stub (thread_start : Z → UM S Z) (data : Z) : UM S unit :=
  retval ⇐ thread_start data; rt_thread_finish retval.

Definition rt_thread_create (thread_ptr : Z) (thread_start : Z → UM S Z) (data : Z) : UM S Z := uret EOK.

(** [for (unsigned int cnt = 0; cnt < sec; cnt++)] *)
Fixpoint rt_thread_sleep_loop (fuel : nat) (sec cnt : Z) : UM S unit :=
  match fuel with
  | O => knofuel
  | Datatypes.S fuel =>
    if cnt <? sec then rt_thread_usleep 1000000 ;;; rt_thread_sleep_loop fuel sec (wrap (cnt + 1)) else uret ()
  end.
Definition rt_thread_sleep (sec : Z) : UM S unit := rt_thread_sleep_loop (Datatypes.S (Z.to_nat sec)) sec 0.

Definition exit (retval : Z) : UM S unit := SYSCALL1 SYS_EXIT (wrap retval) ;;; uret ().

(** ** [debug.h] *)
Definition rt_assert (expr : bool) (message : Z) : UM S unit :=
  if expr then uret () else printf message [] ;;; exit (-1).

(** ** [librt.c] *)
Definition __main (main : UM S Z) (message : Z) : UM S unit :=
  rt_heap_init ;;;
  rc ⇐ main;
  exit rc ;;;
  rt_assert false message.

End code.

(** ** On the kernel *)
Section kernel.
  Context {H : Type} `{KernelHeap H}.
  Context (runnable_list : Z).
  Context (handlers : list (Z → Z → Z → Z → KM (kernel H) (option Z))) (kbd_handle sched_timer : KM (kernel H) unit).

(** The instruction raises an exception with the code of a system call; the remaining
    registers are [saved].  A thread that is a zombie afterwards is never resumed. *)
Definition trap (saved : registers) (v0 a0 a1 a2 a3 : Z) : UM (kernel H) Z :=
  let r := Registers v0 a0 a1 a2 a3 (rg_epc saved) (Z.shiftl CP0_CAUSE_EXCCODE_SYS 2) (rg_badva saved) (rg_entryhi saved) in
  current ← kgets (λ k, k_current k !! k_cpu k);
  r ← wrapped_general runnable_list handlers kbd_handle sched_timer r;
  state ← kgets (λ k, t ← current; th_state <$> k_threads k !! t);
  mret (if bool_decide (state = Some THREAD_ZOMBIE) then None else Some (rg_v0 r)).
End kernel.
