(* ===== verification/LibRtTheorems.v ===== *)
(** * The life of a process ends with the value of its [main] *)
From S2P Require Import Prelude CList Cpu Malloc KHeap Tlb Cp0 Kernel Sched Vmm Threads Timers SchedExec.
From S2P Require Import SchedSpec SchedRefine SchedOps VmmTheorems KernelSample SchedTheorems Exc LibRt.

(** [thread_sleep] of the library comes to an end. *)
Lemma thread_sleep_ends {S} sec (s : S) : u32 sec → rt_thread_sleep sec s = Ok (Some tt, s).
Proof.
  intros Hs. unfold rt_thread_sleep.
  cut (∀ fuel cnt, 0 ≤ cnt ≤ sec → sec - cnt < Z.of_nat fuel → rt_thread_sleep_loop fuel sec cnt s = Ok (Some tt, s)).
  { intros Hc. apply Hc; unfold u32 in Hs; lia. }
  induction fuel as [|fuel IH]; intros cnt Hc Hf; [lia|]. cbn [rt_thread_sleep_loop].
  destruct (Z.ltb_spec cnt sec); [|done]. unfold ubind. erewrite bind_ok by reflexivity.
  rewrite wrap_small by (unfold u32 in *; lia). apply IH; lia.
Qed.

Section exit.
  Context {H : Type} `{KernelHeapLaws H}.
  Context (runnable_list : Z).
  Context (handlers : list (Z → Z → Z → Z → KM (kernel H) (option Z))) (kbd_handle sched_timer : KM (kernel H) unit).
  Context (saved : registers).
  Implicit Types (k : kernel H) (a : sched).
  Local Abbreviation trap := (trap runnable_list handlers kbd_handle sched_timer saved).
  Local Abbreviation sched_rep := (sched_rep runnable_list).

(** The kernel after the process has got its return value. *)
Definition with_retval (q : Z) (pr : process) (retval : Z) k : kernel H :=
  set_k_processes <[q := set_pr_retval retval pr]> k.

Lemma sys_exit_exec k t th q pr retval :
  k_current k !! k_cpu k = Some t → k_threads k !! t = Some th → th_process th = q → q ≠ NULL →
  k_processes k !! q = Some pr →
  sys_exit runnable_list retval k = (thread_finish runnable_list NULL ;; mret None) (with_retval q pr retval k).
Proof.
  intros Ht Hth Hq Hn Hp. unfold sys_exit.
  rewrite (bind_ok _ _ _ q k).
  2:{ unfold thread_get_process. do 3 kexec_step. rewrite Hq. by erewrite bind_ok by apply restored. }
  rewrite bool_decide_eq_false_2 by done. erewrite bind_ok; [done|].
  unfold process_set_retval. kexec_step. erewrite bind_ok by (apply load_some; exact Hp). erewrite bind_ok by reflexivity.
  change (cp0_status k) with (cp0_status (with_retval q pr retval k)).
  exact (restored (with_retval q pr retval k)).
Qed.

Lemma retval_rep q pr retval k a : sched_rep k a → sched_rep (with_retval q pr retval k) a.
Proof. intros Hr. by apply (rep_ext _ k). Qed.

(** A thread that is ready stays runnable until it is taken from the queue. *)
Lemma schedule_keeps_ready a t :
  sc_state a !! t = Some THREAD_READY → ∃ st, sc_state (a_schedule a) !! t = Some st ∧ runnable st.
Proof.
  intros Ht. unfold a_schedule. destruct (sc_queue a) as [|x q]; [by exists THREAD_READY; split; [|left]|]. cbn [sc_state].
  destruct (decide (x = t)) as [->|Hne]; [rewrite lookup_insert_eq; eexists; split; [done|by right]|].
  rewrite lookup_insert_ne by done. unfold demote. case_bool_decide as E; [|eexists; split; [exact Ht|by left]].
  rewrite lookup_insert_ne by congruence. eexists; split; [exact Ht|by left].
Qed.

Lemma finish_wakes a j :
  running a → j ≠ NULL → sc_state a !! j = Some THREAD_SLEEPING → sc_state (a_finish j a) !! j = Some THREAD_READY.
Proof.
  intros Hrun Hj Hs. unfold a_finish. rewrite bool_decide_eq_true_2 by done. unfold a_wakeup.
  assert (Hne : sc_current a ≠ j) by (intros E; unfold running in Hrun; rewrite E in Hrun; congruence).
  rewrite bool_decide_eq_true_2 by (cbn; by rewrite lookup_insert_ne). apply lookup_insert_eq.
Qed.

(** What has become of the process and its thread. *)
Definition process_ended k k' a (q : Z) (pr : process) (th : thread) (retval : Z) : Prop :=
  k_processes k' !! q = Some (set_pr_retval retval pr) ∧
  sched_rep k' (a_schedule (a_finish (th_joiner th) a)) ∧
  (∃ th', k_threads k' !! sc_current a = Some th' ∧ th_state th' = THREAD_ZOMBIE ∧ th_retval th' = NULL) ∧
  (∀ j, th_joiner th = j → j ≠ NULL → sc_state a !! j = Some THREAD_SLEEPING →
     ∃ st, sc_state (a_schedule (a_finish j a)) !! j = Some st ∧ runnable st).

(** The state in which the C code handles the call. *)
Definition in_syscall k : kernel H := set_cp0_status (Z.lor (cp0_status k) CP0_STATUS_IE_MASK) k.

Lemma trap_exit k retval t k' :
  k_current k !! k_cpu k = Some t → sys_exit runnable_list retval (in_syscall k) = Ok (None, k') →
  th_state <$> k_threads k' !! t = Some THREAD_ZOMBIE →
  trap (syscall_number SYS_EXIT) retval 0 0 0 k = Ok (None, k').
Proof.
  intros Ht He Hz. unfold LibRt.trap. erewrite bind_ok by reflexivity.
  erewrite bind_ok.
  2:{ match goal with |- wrapped_general _ _ _ _ ?r _ = _ =>
        change (wrapped_general runnable_list handlers kbd_handle sched_timer r) with (syscall runnable_list handlers r) end.
      unfold syscall. change (rg_v0 (set_rg_epc _ _) <? SYSCALL_COUNT) with true. cbv iota.
      erewrite bind_ok by reflexivity. erewrite bind_ok by reflexivity.
      erewrite bind_ok by exact He. reflexivity. }
  erewrite bind_ok by reflexivity. rewrite Ht. cbn. by rewrite bool_decide_eq_true_2.
Qed.

(** C19. When the [main] function of a program returns [rc], the run-time library ends the
    process by a system call from which there is no return: [rc], as a 32-bit word, is
    the return value of the process; its thread is a zombie with the return value [NULL],
    and has left the run queue; and a thread that was waiting for it is runnable again. *)
Theorem main_ends_process k0 k a th q pr main rc message :
  main k0 = Ok (Some rc, k) →
  sched_rep k a → running a → k_threads k !! sc_current a = Some th →
  (th_joiner th = NULL ∨ is_Some (k_threads k !! th_joiner th)) →
  th_process th = q → q ≠ NULL → k_processes k !! q = Some pr →
  ∃ k', __main trap main message k0 = Ok (None, k') ∧ process_ended k k' a q pr th (wrap rc).
Proof.
  intros Hmain Hr Hrun Hth Hj Hq Hn Hp. set (k1 := with_retval q pr (wrap rc) (in_syscall k)).
  assert (Hr1 : sched_rep k1 a) by (apply retval_rep; by apply (rep_ext _ k)).
  destruct (finish_exec runnable_list k1 a th NULL Hr1 Hrun Hth Hj) as (k' & th' & He & Hr' & Hf & Hth' & Hz & Hv & _).
  exists k'. split.
  - assert (Hcur : k_current k !! k_cpu k = Some (sc_current a)) by apply Hr.
    assert (Hex : sys_exit runnable_list (wrap rc) (in_syscall k) = Ok (None, k')).
    { rewrite (sys_exit_exec (in_syscall k) (sc_current a) th q pr) by done. by erewrite bind_ok by exact He. }
    unfold __main, rt_heap_init, exit, SYSCALL1, rt_syscall, ubind. erewrite bind_ok by reflexivity. cbn beta iota.
    erewrite bind_ok by exact Hmain. cbn beta iota. rewrite bind_assoc.
    erewrite bind_ok by (eapply (trap_exit k _ _ k' Hcur Hex); by rewrite Hth'; cbn; rewrite Hz). reflexivity.
  - destruct Hf as (_ & _ & _ & _ & _ & _ & Hpr & _). split; [rewrite Hpr; apply lookup_insert_eq|].
    split; [exact Hr'|split; [by exists th'|]].
    intros j <- Hj0 Hs. apply schedule_keeps_ready. by apply finish_wakes.
Qed.
End exit.

(** ** The running thread of the sample as the main thread of a process that returns 7 *)
Definition exit_thread : thread := set_th_process 24576 (sample_thread THREAD_RUNNING 12288 (Context [] 0)).
Definition exit_process : process := Process 0x7FFFE000 28672 0x80010000 5000 0.
Definition exit_kernel : kernel (mm_state (gset Z)) :=
  set_k_processes (λ _, {[24576 := exit_process]}) (set_k_threads <[8192 := exit_thread]> sample_kernel).

Lemma exit_sched_rep : sched_rep 64 exit_kernel sample_sched.
Proof.
  apply (rep_ext _ (set_k_threads <[8192 := exit_thread]> sample_kernel)); try done.
  by eapply rep_upd; [exact sample_sched_rep|..].
Qed.

Lemma main_ends_process_witness :
  ∃ k', __main (trap 64 [] (mret ()) (mret ()) (Registers 0 0 0 0 0 0x1000 0 0 3)) (uret 7) 0 exit_kernel = Ok (None, k') ∧
    k_processes k' !! 24576 = Some (Process 0x7FFFE000 28672 0x80010000 5000 7) ∧
    ∃ st, sc_state (a_schedule (a_finish 12288 sample_sched)) !! 12288 = Some st ∧ runnable st.
Proof.
  destruct (main_ends_process 64 [] (mret ()) (mret ()) (Registers 0 0 0 0 0 0x1000 0 0 3) exit_kernel exit_kernel
    sample_sched exit_thread 24576 exit_process (uret 7) 7 0) as (k' & E & Hp & _ & _ & Hj).
  - reflexivity.
  - exact exit_sched_rep.
  - exact sample_running.
  - reflexivity.
  - right. by eexists.
  - reflexivity.
  - done.
  - by apply lookup_singleton_eq.
  - exists k'. split; [exact E|]. split; [exact Hp|]. by apply (Hj 12288).
Defined.
